(** * AeroNexa floor-plan editor: the room drawing geometry

    A shallow embedding of the geometry code of [floor-plan-editor-v2.js]
    (grid snapping, measurement labels, ray casting, polygon centroid, and the
    mouse handlers of the rectangle and line tools), followed by the
    properties of that code.  The embedding goes on with what surrounds the
    drawing: the mode and tool switches, the name dialog of a new room, the
    size shown for a room, the status of a room and the sensors and devices
    behind it (with the functions of [app.js] and [devices.js] that code
    calls), and the test for local addresses.

    JavaScript numbers are IEEE 754 binary64 values; they are modelled by
    Rocq's primitive floats, whose operations are the same binary64
    operations.  A decimal literal such as [0.001] denotes, here as in
    JavaScript, the binary64 value nearest to it. *)

From Stdlib Require Import ZArith QArith Qround Qabs Qpower List Bool String Ascii.
From Stdlib Require Import Floats DecimalString Lia Lqa.
Import ListNotations.

Set Warnings "-inexact-float".

Local Open Scope float_scope.

(** ** The ECMAScript primitives the source relies on *)

Module JS.

(** [a > b] and [a !== b] on numbers ([a < b] and [a <= b] are the
    primitive [<?] and [<=?]). *)
Definition gt (a b : float) : bool := b <? a.
Definition strict_neq (a b : float) : bool := negb (a =? b).

(** The binary64 value of an integer of magnitude below [2^63]. *)
Definition of_Z (n : Z) : float :=
  match n with
  | Z0 => 0
  | Zpos _ => of_uint63 (Uint63.of_Z n)
  | Zneg p => - of_uint63 (Uint63.of_Z (Zpos p))
  end.

(** [array.length] as a number: exact for every length an array can have
    (below [2^32]); beyond [2^63 - 1], which no array reaches, the 63-bit
    conversion saturates. *)
Definition of_nat (n : nat) : float :=
  of_uint63 (Uint63.of_Z (Z.min (Z.of_nat n) 9223372036854775807)).

(** [Math.abs], [Math.sqrt]. *)
Definition Math_abs (v : float) : float := abs v.
Definition Math_sqrt (v : float) : float := sqrt v.

(** [Math.round]: the integer nearest to [v], a tie going toward +infinity;
    NaN, the zeros and the infinities are returned as they are, and a result
    that rounds to zero keeps the sign of [v]. *)
Definition round_half_up (s : bool) (m : positive) (e : Z) : Z :=
  let sm := if s then Zneg m else Zpos m in
  ((2 * sm + 2 ^ (- e)) / 2 ^ (1 - e))%Z.

Definition Math_round (v : float) : float :=
  match Prim2SF v with
  | S754_finite s m e =>
      if (0 <=? e)%Z then v
      else match round_half_up s m e with
           | Z0 => if s then neg_zero else zero
           | n => of_Z n
           end
  | _ => v
  end.

(** [Math.min] and [Math.max] of two numbers: NaN if either is NaN, and
    [-0] counts as smaller than [+0]. *)
Definition Math_min2 (a b : float) : float :=
  if is_nan a || is_nan b then nan
  else if a <? b then a
  else if b <? a then b
  else if get_sign a then a else b.

Definition Math_max2 (a b : float) : float :=
  if is_nan a || is_nan b then nan
  else if b <? a then a
  else if a <? b then b
  else if get_sign a then b else a.

(** [Math.min(...xs)] and [Math.max(...xs)]. *)
Definition Math_min (xs : list float) : float := fold_left Math_min2 xs infinity.
Definition Math_max (xs : list float) : float := fold_left Math_max2 xs neg_infinity.

(** *** Number::toString (radix 10)

    For a positive finite [v = m * 2^e] the digits are those of the decimal
    [s * 10^(n-k)] with the fewest digits [k] that still reads back as [v],
    the nearest to [v] when several have [k] digits. *)

Definition pow10 (n : Z) : Q :=
  if (0 <=? n)%Z then inject_Z (10 ^ n) else Qinv (inject_Z (10 ^ (- n))).

Definition pow2 (n : Z) : Q :=
  if (0 <=? n)%Z then inject_Z (2 ^ n) else Qinv (inject_Z (2 ^ (- n))).

Definition Qltb (a b : Q) : bool :=
  match Qcompare a b with Lt => true | _ => false end.
Definition Qleb (a b : Q) : bool :=
  match Qcompare a b with Gt => false | _ => true end.

(** The reals that round to [m * 2^e]: an interval around it, closed when
    [m] is even. *)
Definition round_interval (m : positive) (e : Z) : Q * Q * bool :=
  let below := if (Pos.eqb m 4503599627370496 && (-1074 <? e)%Z)%bool
               then 1%Z else 2%Z in
  (Qmult (inject_Z (4 * Zpos m - below)) (pow2 (e - 2)),
   Qmult (inject_Z (4 * Zpos m + 2)) (pow2 (e - 2)),
   Z.even (Zpos m)).

Definition reads_back (m : positive) (e : Z) (c : Q) : bool :=
  let '(lo, hi, closed) := round_interval m e in
  if closed then (Qleb lo c && Qleb c hi)%bool else (Qltb lo c && Qltb c hi)%bool.

(** The least [n] with [q < 10^n], searched upward from [c]. *)
Fixpoint decimal_exponent_from (fuel : nat) (q : Q) (c : Z) : Z :=
  match fuel with
  | O => c
  | S fuel' => if Qltb q (pow10 c) then c
               else decimal_exponent_from fuel' q (c + 1)
  end.

Definition decimal_exponent (m : positive) (e : Z) : Z :=
  let q := Qmult (inject_Z (Zpos m)) (pow2 e) in
  let l := (Z.log2 (Zpos m) + e)%Z in
  decimal_exponent_from 8 q (l * 30103 / 100000 - 1).

(** The [k]-digit candidate, if one reads back. *)
Definition candidate (m : positive) (e : Z) (n k : Z) : option Z :=
  let q := Qmult (inject_Z (Zpos m)) (pow2 e) in
  let scale := pow10 (n - k) in
  let s_lo := Qfloor (Qdiv q scale) in
  let s_hi := (s_lo + 1)%Z in
  let c_lo := Qmult (inject_Z s_lo) scale in
  let c_hi := Qmult (inject_Z s_hi) scale in
  match reads_back m e c_lo, reads_back m e c_hi with
  | true, true =>
      match Qcompare (Qminus q c_lo) (Qminus c_hi q) with
      | Lt => Some s_lo
      | Gt => Some s_hi
      | Eq => Some (if Z.even s_lo then s_lo else s_hi)
      end
  | true, false => Some s_lo
  | false, true => Some s_hi
  | false, false => None
  end.

Fixpoint shortest_from (fuel : nat) (m : positive) (e : Z) (n k : Z) : Z * Z :=
  match fuel with
  | O => (Qfloor (Qdiv (Qmult (inject_Z (Zpos m)) (pow2 e)) (pow10 (n - k))), k)
  | S fuel' =>
      match candidate m e n k with
      | Some s => (s, k)
      | None => shortest_from fuel' m e n (k + 1)
      end
  end.

(** The digits [s], their number [k], and the exponent [n]. *)
Definition shortest_decimal (m : positive) (e : Z) : Z * Z * Z :=
  let n := decimal_exponent m e in
  let '(s, k) := shortest_from 17 m e n 1 in
  if (s =? 10 ^ k)%Z then (1%Z, 1%Z, (n + 1)%Z) else (s, k, n).

Definition digits (n : Z) : string := NilEmpty.string_of_uint (N.to_uint (Z.to_N n)).

Fixpoint zeros (n : nat) : string :=
  match n with O => EmptyString | S n' => String "0" (zeros n') end.

Definition take (n : nat) (s : string) : string := substring 0 n s.
Definition drop (n : nat) (s : string) : string := substring n (String.length s - n) s.

Definition exponent_part (n : Z) : string :=
  ((if (0 <=? n - 1)%Z then "e+" else "e-") ++ digits (Z.abs (n - 1)))%string.

Definition format_decimal (s k n : Z) : string :=
  let d := digits s in
  (if ((k <=? n) && (n <=? 21))%Z%bool then d ++ zeros (Z.to_nat (n - k))
   else if ((0 <? n) && (n <=? 21))%Z%bool
        then take (Z.to_nat n) d ++ "." ++ drop (Z.to_nat n) d
   else if ((-6 <? n) && (n <=? 0))%Z%bool
        then "0." ++ zeros (Z.to_nat (- n)) ++ d
   else if (k =? 1)%Z then d ++ exponent_part n
   else take 1 d ++ "." ++ drop 1 d ++ exponent_part n)%string.

Definition Number_toString (v : float) : string :=
  match Prim2SF v with
  | S754_nan => "NaN"
  | S754_zero _ => "0"
  | S754_infinity s => if s then "-Infinity" else "Infinity"
  | S754_finite s m e =>
      let '(d, k, n) := shortest_decimal m e in
      ((if s then "-" else "") ++ format_decimal d k n)%string
  end.

End JS.

(** ** Data model *)

(** A point [{x, y}] of the canvas, in pixels. *)
Module Point.
Record t := mk { x : float; y : float }.
End Point.
Abbreviation Point := Point.t.

(** [pixelsPerMeter] and [metersPerPixel] (module constants). *)
Definition pixelsPerMeter : float := 50.
Definition metersPerPixel : float := 1 / pixelsPerMeter.

(** The first [Some] a loop body returns, in iteration order (a [for] loop or
    [forEach] whose body may [return]). *)
Fixpoint first_some {A B : Type} (body : A -> option B) (l : list A) : option B :=
  match l with
  | [] => None
  | a :: l' => match body a with
               | Some b => Some b
               | None => first_some body l'
               end
  end.

(** ** Grid snapping and measurement labels *)

(** [snapToGridCoordinate(value)]; [snapToGrid] and [gridSize] are the module
    variables it reads. *)
Definition snapToGridCoordinate (snapToGrid : bool) (gridSize : float)
    (value : float) : float :=
  if negb snapToGrid then value
  else JS.Math_round (value / gridSize) * gridSize.

Definition pixelsToMeters (pixels : float) : float := pixels * metersPerPixel.

Definition formatMeasurement (meters : float) : string :=
  if meters <? 1 then
    let cm := JS.Math_round (meters * 100 * 10) / 10 in
    (JS.Number_toString cm ++ " cm")%string
  else
    let m := JS.Math_round (meters * 100) / 100 in
    (JS.Number_toString m ++ " m")%string.

(** The text [updateRoomMeasurement] and the room panels build:
    [`${formatMeasurement(widthMeters)} × ${formatMeasurement(heightMeters)}`]. *)
Definition measurementText (width height : float) : string :=
  let widthMeters := pixelsToMeters width in
  let heightMeters := pixelsToMeters height in
  (formatMeasurement widthMeters ++ " × " ++ formatMeasurement heightMeters)%string.

(** ** Distances *)

Definition calculateDistance (x1 y1 x2 y2 : float) : float :=
  let dx := x2 - x1 in
  let dy := y2 - y1 in
  JS.Math_sqrt (dx * dx + dy * dy).

(** [isPointClose(x1, y1, x2, y2, threshold = 15)]: every call in the source
    leaves [threshold] out, so [None] stands for the omitted argument. *)
Definition isPointClose (x1 y1 x2 y2 : float) (threshold : option float) : bool :=
  let threshold := match threshold with Some t => t | None => 15 end in
  calculateDistance x1 y1 x2 y2 <? threshold.

(** ** Ray casting *)

(** The test of one edge, from [points[j]] to [points[i]]. *)
Definition intersect (x y : float) (pi pj : Point) : bool :=
  let xi := Point.x pi in let yi := Point.y pi in
  let xj := Point.x pj in let yj := Point.y pj in
  negb (Bool.eqb (JS.gt yi y) (JS.gt yj y))
  && (x <? (xj - xi) * (y - yi) / (yj - yi) + xi).

(** The loop [for (i = 0, j = length - 1; i < length; j = i++)]: [pj] is
    [points[j]] and [ps] the points from index [i] on. *)
Fixpoint ray_loop (x y : float) (pj : Point) (ps : list Point) (inside : bool) : bool :=
  match ps with
  | [] => inside
  | pi :: rest =>
      ray_loop x y pi rest (if intersect x y pi pj then negb inside else inside)
  end.

Definition isPointInPolygon (x y : float) (points : list Point) : bool :=
  match points with
  | [] => false
  | p0 :: _ => ray_loop x y (last points p0) points false
  end.

(** ** Polygon centroid *)

(** The degenerate answer: [{ x: sumX / points.length, y: sumY / points.length }]. *)
Definition average (points : list Point) : Point :=
  let sumX := fold_left (fun s p => s + Point.x p) points 0 in
  let sumY := fold_left (fun s p => s + Point.y p) points 0 in
  Point.mk (sumX / JS.of_nat (List.length points)) (sumY / JS.of_nat (List.length points)).

(** [closedPoints]: a copy of [points], with [points[0]] pushed at the end
    when the last point differs from it. *)
Definition closeRing (points : list Point) : list Point :=
  match points with
  | [] => []
  | p0 :: _ =>
      let pn := last points p0 in
      if JS.strict_neq (Point.x p0) (Point.x pn) || JS.strict_neq (Point.y p0) (Point.y pn)
      then points ++ [p0] else points
  end.

(** The shoelace loop over the consecutive pairs of [closedPoints]; the
    accumulator is [(area, centroidX, centroidY)]. *)
Fixpoint shoelace (closedPoints : list Point) (acc : float * float * float)
    : float * float * float :=
  match closedPoints with
  | p1 :: ((p2 :: _) as rest) =>
      let '(area, centroidX, centroidY) := acc in
      let cross := Point.x p1 * Point.y p2 - Point.x p2 * Point.y p1 in
      shoelace rest (area + cross,
                     centroidX + (Point.x p1 + Point.x p2) * cross,
                     centroidY + (Point.y p1 + Point.y p2) * cross)
  | _ => acc
  end.

(** The signed area, [area / 2] after the loop. *)
Definition signedArea (points : list Point) : float :=
  let '(area, _, _) := shoelace (closeRing points) (0, 0, 0) in area / 2.

(** The area-weighted centroid, the moment sums over [6 * area]. *)
Definition areaCentroid (points : list Point) : Point :=
  let '(_, centroidX, centroidY) := shoelace (closeRing points) (0, 0, 0) in
  let area := signedArea points in
  Point.mk (centroidX / (6 * area)) (centroidY / (6 * area)).

(** The values of [t] in [for (let t = 0; t <= 1; t += 0.1)], the loop
    unrolled at most [fuel] times. *)
Fixpoint sampleSteps (fuel : nat) (t : float) : list float :=
  match fuel with
  | O => []
  | S fuel' => if t <=? 1 then t :: sampleSteps fuel' (t + 0.1) else []
  end.

(** The loop leaves by its own test after eleven rounds (see
    [sampleSteps_enough]); twelve unrollings cover it. *)
Definition sampleFuel : nat := 12.

Definition bboxCenter (points : list Point) : Point :=
  let xs := map Point.x points in
  let ys := map Point.y points in
  let minX := JS.Math_min xs in
  let maxX := JS.Math_max xs in
  let minY := JS.Math_min ys in
  let maxY := JS.Math_max ys in
  Point.mk ((minX + maxX) / 2) ((minY + maxY) / 2).

(** Sampling from the bounding-box centre towards the centroid. *)
Definition sampleInterior (points : list Point) (centroid bbox : Point) : option Point :=
  first_some
    (fun t =>
       let testX := Point.x bbox + (Point.x centroid - Point.x bbox) * t in
       let testY := Point.y bbox + (Point.y centroid - Point.y bbox) * t in
       if isPointInPolygon testX testY points then Some (Point.mk testX testY) else None)
    (sampleSteps sampleFuel 0).

(** The pairs [points[i]], [points[(i + 1) % points.length]]. *)
Definition edgesOf (points : list Point) : list (Point * Point) :=
  match points with
  | [] => []
  | p0 :: rest => combine points (rest ++ [p0])
  end.

Definition midpointInterior (points : list Point) : option Point :=
  first_some
    (fun '(p1, p2) =>
       let midX := (Point.x p1 + Point.x p2) / 2 in
       let midY := (Point.y p1 + Point.y p2) / 2 in
       if isPointInPolygon midX midY points then Some (Point.mk midX midY) else None)
    (edgesOf points).

(** The search run when the centroid fails the ray-casting test; [None] when
    every candidate fails too. *)
Definition interiorSearch (points : list Point) (centroid : Point) : option Point :=
  let bbox := bboxCenter points in
  match sampleInterior points centroid bbox with
  | Some p => Some p
  | None =>
      if isPointInPolygon (Point.x bbox) (Point.y bbox) points then Some bbox
      else midpointInterior points
  end.

(** [calculatePolygonCentroid(points)]; [None] is a [null] or [undefined]
    argument. *)
Definition calculatePolygonCentroid (points : option (list Point)) : Point :=
  match points with
  | None => Point.mk 0 0
  | Some points =>
      if (List.length points <? 3)%nat then
        if (0 <? List.length points)%nat then average points else Point.mk 0 0
      else if JS.Math_abs (signedArea points) <? 0.001 then average points
      else
        let centroid := areaCentroid points in
        if negb (isPointInPolygon (Point.x centroid) (Point.y centroid) points) then
          match interiorSearch points centroid with
          | Some p => p
          | None => centroid
          end
        else centroid
  end.

(** ** Rooms and the editor state *)

(** The bounding box stored with a polygon room. *)
Record BBox := {
  minX : float; maxX : float; minY : float; maxY : float;
  centerX : float; centerY : float;
  bboxWidth : float; bboxHeight : float
}.

(** The two shapes of a room object: [{id, x, y, width, height, ...}] from
    the rectangle tool and [{id, points, bbox, ...}] from the line tool.
    [sensorData] and [deviceId] are [null] ([None]) in a new room. *)
Inductive Room :=
| RectangleRoom (id : string) (x y width height : float)
    (name status : string) (sensorData deviceId : option string)
| PolygonRoom (id : string) (points : list Point) (bbox : BBox)
    (name status : string) (sensorData deviceId : option string).

(** What the handlers do to the page besides changing the variables below,
    in the order they do it. *)
Inductive Effect :=
| ShowToast (message type : string)
| RenderRoom (room : Room)
| ShowRoomNameInputModal (roomId : string).

(** The attributes of the preview rectangle [tempRect]. *)
Record RectAttrs := {
  rect_x : float; rect_y : float; rect_width : float; rect_height : float
}.

(** The text of [#roomMeasurementText] and where it is anchored. *)
Record MeasurementLabel := {
  label_text : string; label_x : float; label_y : float
}.

(** The module variables of the editor, the two variables [setupRoomDrawing]
    closes over ([roomStartPoint], [tempRect]) and the part of the page the
    drawing handlers read and write.  A preview element is kept as the list of
    points its [points] attribute spells; [roomsLayer] and [dimensionLayer]
    say whether those SVG groups exist. *)
Record Editor := {
  isDrawingMode : bool;
  drawingTool : string;
  rooms : list Room;
  gridSize : float;
  snapToGrid : bool;
  linePoints : list Point;
  tempPolyline : option (list Point);
  tempPolygon : option (list Point);
  lineStartPoint : option Point;
  roomStartPoint : option Point;
  tempRect : option RectAttrs;
  roomsLayer : bool;
  dimensionLayer : bool;
  roomDimensionGroup : option MeasurementLabel;
  lineSegmentDimensionGroup : option (list (string * string));
  effects : list Effect
}.

Definition set_rooms (v : list Room) (ed : Editor) : Editor :=
  {| isDrawingMode := isDrawingMode ed; drawingTool := drawingTool ed; rooms := v;
     gridSize := gridSize ed; snapToGrid := snapToGrid ed; linePoints := linePoints ed;
     tempPolyline := tempPolyline ed; tempPolygon := tempPolygon ed;
     lineStartPoint := lineStartPoint ed; roomStartPoint := roomStartPoint ed;
     tempRect := tempRect ed; roomsLayer := roomsLayer ed;
     dimensionLayer := dimensionLayer ed; roomDimensionGroup := roomDimensionGroup ed;
     lineSegmentDimensionGroup := lineSegmentDimensionGroup ed; effects := effects ed |}.

Definition set_linePoints (v : list Point) (ed : Editor) : Editor :=
  {| isDrawingMode := isDrawingMode ed; drawingTool := drawingTool ed; rooms := rooms ed;
     gridSize := gridSize ed; snapToGrid := snapToGrid ed; linePoints := v;
     tempPolyline := tempPolyline ed; tempPolygon := tempPolygon ed;
     lineStartPoint := lineStartPoint ed; roomStartPoint := roomStartPoint ed;
     tempRect := tempRect ed; roomsLayer := roomsLayer ed;
     dimensionLayer := dimensionLayer ed; roomDimensionGroup := roomDimensionGroup ed;
     lineSegmentDimensionGroup := lineSegmentDimensionGroup ed; effects := effects ed |}.

Definition set_tempPolyline (v : option (list Point)) (ed : Editor) : Editor :=
  {| isDrawingMode := isDrawingMode ed; drawingTool := drawingTool ed; rooms := rooms ed;
     gridSize := gridSize ed; snapToGrid := snapToGrid ed; linePoints := linePoints ed;
     tempPolyline := v; tempPolygon := tempPolygon ed;
     lineStartPoint := lineStartPoint ed; roomStartPoint := roomStartPoint ed;
     tempRect := tempRect ed; roomsLayer := roomsLayer ed;
     dimensionLayer := dimensionLayer ed; roomDimensionGroup := roomDimensionGroup ed;
     lineSegmentDimensionGroup := lineSegmentDimensionGroup ed; effects := effects ed |}.

Definition set_tempPolygon (v : option (list Point)) (ed : Editor) : Editor :=
  {| isDrawingMode := isDrawingMode ed; drawingTool := drawingTool ed; rooms := rooms ed;
     gridSize := gridSize ed; snapToGrid := snapToGrid ed; linePoints := linePoints ed;
     tempPolyline := tempPolyline ed; tempPolygon := v;
     lineStartPoint := lineStartPoint ed; roomStartPoint := roomStartPoint ed;
     tempRect := tempRect ed; roomsLayer := roomsLayer ed;
     dimensionLayer := dimensionLayer ed; roomDimensionGroup := roomDimensionGroup ed;
     lineSegmentDimensionGroup := lineSegmentDimensionGroup ed; effects := effects ed |}.

Definition set_lineStartPoint (v : option Point) (ed : Editor) : Editor :=
  {| isDrawingMode := isDrawingMode ed; drawingTool := drawingTool ed; rooms := rooms ed;
     gridSize := gridSize ed; snapToGrid := snapToGrid ed; linePoints := linePoints ed;
     tempPolyline := tempPolyline ed; tempPolygon := tempPolygon ed;
     lineStartPoint := v; roomStartPoint := roomStartPoint ed;
     tempRect := tempRect ed; roomsLayer := roomsLayer ed;
     dimensionLayer := dimensionLayer ed; roomDimensionGroup := roomDimensionGroup ed;
     lineSegmentDimensionGroup := lineSegmentDimensionGroup ed; effects := effects ed |}.

Definition set_roomStartPoint (v : option Point) (ed : Editor) : Editor :=
  {| isDrawingMode := isDrawingMode ed; drawingTool := drawingTool ed; rooms := rooms ed;
     gridSize := gridSize ed; snapToGrid := snapToGrid ed; linePoints := linePoints ed;
     tempPolyline := tempPolyline ed; tempPolygon := tempPolygon ed;
     lineStartPoint := lineStartPoint ed; roomStartPoint := v;
     tempRect := tempRect ed; roomsLayer := roomsLayer ed;
     dimensionLayer := dimensionLayer ed; roomDimensionGroup := roomDimensionGroup ed;
     lineSegmentDimensionGroup := lineSegmentDimensionGroup ed; effects := effects ed |}.

Definition set_tempRect (v : option RectAttrs) (ed : Editor) : Editor :=
  {| isDrawingMode := isDrawingMode ed; drawingTool := drawingTool ed; rooms := rooms ed;
     gridSize := gridSize ed; snapToGrid := snapToGrid ed; linePoints := linePoints ed;
     tempPolyline := tempPolyline ed; tempPolygon := tempPolygon ed;
     lineStartPoint := lineStartPoint ed; roomStartPoint := roomStartPoint ed;
     tempRect := v; roomsLayer := roomsLayer ed;
     dimensionLayer := dimensionLayer ed; roomDimensionGroup := roomDimensionGroup ed;
     lineSegmentDimensionGroup := lineSegmentDimensionGroup ed; effects := effects ed |}.

Definition set_roomDimensionGroup (v : option MeasurementLabel) (ed : Editor) : Editor :=
  {| isDrawingMode := isDrawingMode ed; drawingTool := drawingTool ed; rooms := rooms ed;
     gridSize := gridSize ed; snapToGrid := snapToGrid ed; linePoints := linePoints ed;
     tempPolyline := tempPolyline ed; tempPolygon := tempPolygon ed;
     lineStartPoint := lineStartPoint ed; roomStartPoint := roomStartPoint ed;
     tempRect := tempRect ed; roomsLayer := roomsLayer ed;
     dimensionLayer := dimensionLayer ed; roomDimensionGroup := v;
     lineSegmentDimensionGroup := lineSegmentDimensionGroup ed; effects := effects ed |}.

Definition set_lineSegmentDimensionGroup (v : option (list (string * string)))
    (ed : Editor) : Editor :=
  {| isDrawingMode := isDrawingMode ed; drawingTool := drawingTool ed; rooms := rooms ed;
     gridSize := gridSize ed; snapToGrid := snapToGrid ed; linePoints := linePoints ed;
     tempPolyline := tempPolyline ed; tempPolygon := tempPolygon ed;
     lineStartPoint := lineStartPoint ed; roomStartPoint := roomStartPoint ed;
     tempRect := tempRect ed; roomsLayer := roomsLayer ed;
     dimensionLayer := dimensionLayer ed; roomDimensionGroup := roomDimensionGroup ed;
     lineSegmentDimensionGroup := v; effects := effects ed |}.

Definition set_effects (v : list Effect) (ed : Editor) : Editor :=
  {| isDrawingMode := isDrawingMode ed; drawingTool := drawingTool ed; rooms := rooms ed;
     gridSize := gridSize ed; snapToGrid := snapToGrid ed; linePoints := linePoints ed;
     tempPolyline := tempPolyline ed; tempPolygon := tempPolygon ed;
     lineStartPoint := lineStartPoint ed; roomStartPoint := roomStartPoint ed;
     tempRect := tempRect ed; roomsLayer := roomsLayer ed;
     dimensionLayer := dimensionLayer ed; roomDimensionGroup := roomDimensionGroup ed;
     lineSegmentDimensionGroup := lineSegmentDimensionGroup ed; effects := v |}.

(** An effect is appended to the log. *)
Definition perform (e : Effect) (ed : Editor) : Editor :=
  set_effects (effects ed ++ [e]) ed.

Definition showToast (message type : string) (ed : Editor) : Editor :=
  perform (ShowToast message type) ed.

(** ['room_' + Date.now()]; [now] is the clock reading in milliseconds. *)
Definition roomIdAt (now : Z) : string := ("room_" ++ JS.digits now)%string.

(** ** The measurement display *)

(** [updateRoomMeasurement(svg, x, y, width, height)]: the group is created
    in the dimension layer when it is missing; without the layer nothing is
    shown. *)
Definition updateRoomMeasurement (x y width height : float) (ed : Editor) : Editor :=
  match roomDimensionGroup ed, dimensionLayer ed with
  | None, false => ed
  | _, _ =>
      set_roomDimensionGroup
        (Some {| label_text := measurementText width height;
                 label_x := x + width / 2;
                 label_y := y + height / 2 |}) ed
  end.

Definition removeRoomMeasurement (ed : Editor) : Editor :=
  set_roomDimensionGroup None ed.

Definition removeLineSegmentMeasurement (ed : Editor) : Editor :=
  set_lineSegmentDimensionGroup None ed.

(** [drawSegmentMeasurement]: the text and colour of the label of one
    segment, none for a segment shorter than 10px.  (Where the label is put
    and how it is rotated is not modelled.) *)
Definition drawSegmentMeasurement (x1 y1 x2 y2 : float) (color : string)
    : option (string * string) :=
  let distancePixels := calculateDistance x1 y1 x2 y2 in
  if distancePixels <? 10 then None
  else Some (formatMeasurement (pixelsToMeters distancePixels), color).

Definition optional_to_list {A : Type} (o : option A) : list A :=
  match o with Some a => [a] | None => [] end.

(** [updateAllLineSegmentMeasurements(svg, currentX, currentY)]. *)
Definition updateAllLineSegmentMeasurements (currentX currentY : float)
    (ed : Editor) : Editor :=
  match lineSegmentDimensionGroup ed, dimensionLayer ed with
  | None, false => ed
  | _, _ =>
      match linePoints ed with
      | [] => set_lineSegmentDimensionGroup (Some []) ed
      | p0 :: _ =>
          let completed :=
            flat_map
              (fun '(p1, p2) =>
                 optional_to_list
                   (drawSegmentMeasurement (Point.x p1) (Point.y p1)
                      (Point.x p2) (Point.y p2) "#3EDEDE"))
              (combine (linePoints ed) (tl (linePoints ed))) in
          let lastPoint := last (linePoints ed) p0 in
          let current :=
            optional_to_list
              (drawSegmentMeasurement (Point.x lastPoint) (Point.y lastPoint)
                 currentX currentY "#00B8D4") in
          set_lineSegmentDimensionGroup (Some (completed ++ current)) ed
      end
  end.

(** ** The line tool *)

(** [updateTempPolyline(svg, currentX = null, currentY = null)].  The result
    is [None] when the call throws: reading [lineStartPoint.x] while
    [lineStartPoint] is [null]. *)
Definition updateTempPolyline (current : option (float * float)) (ed : Editor)
    : option Editor :=
  match linePoints ed with
  | [] => Some ed
  | _ :: _ =>
      let polylinePoints : option (list Point) :=
        match current with
        | None => Some (linePoints ed)
        | Some (currentX, currentY) =>
            match lineStartPoint ed with
            | None => None
            | Some start =>
                Some (linePoints ed ++ [Point.mk currentX currentY]
                      ++ (if isPointClose currentX currentY
                               (Point.x start) (Point.y start) None
                          then [start] else []))
            end
        end in
      match polylinePoints with
      | None => None
      | Some pts =>
          let ed1 := match tempPolyline ed with
                     | Some _ => set_tempPolyline (Some pts) ed
                     | None => ed
                     end in
          match tempPolygon ed1 with
          | Some _ =>
              if (2 <=? List.length (linePoints ed1))%nat then
                let polygonPoints :=
                  match current with
                  | Some (currentX, currentY) =>
                      linePoints ed1 ++ [Point.mk currentX currentY]
                  | None => linePoints ed1
                  end in
                Some (set_tempPolygon (Some polygonPoints) ed1)
              else Some ed1
          | None => Some ed1
          end
      end
  end.

(** [resetLineDrawing()]. *)
Definition resetLineDrawing (ed : Editor) : Editor :=
  set_tempPolygon None
    (set_tempPolyline None
       (set_lineStartPoint None
          (set_linePoints [] (removeLineSegmentMeasurement ed)))).

(** [completeLineRoom(svg)]; [now] is what [Date.now()] returns. *)
Definition completeLineRoom (now : Z) (ed : Editor) : Editor :=
  if (List.length (linePoints ed) <? 3)%nat then
    showToast "Need at least 3 points to create a room" "warning" ed
  else
    let xs := map Point.x (linePoints ed) in
    let ys := map Point.y (linePoints ed) in
    let minX := JS.Math_min xs in
    let maxX := JS.Math_max xs in
    let minY := JS.Math_min ys in
    let maxY := JS.Math_max ys in
    let centerX := (minX + maxX) / 2 in
    let centerY := (minY + maxY) / 2 in
    let roomId := roomIdAt now in
    let newRoom :=
      PolygonRoom roomId
        (map (fun p => Point.mk (Point.x p) (Point.y p)) (linePoints ed))
        {| minX := minX; maxX := maxX; minY := minY; maxY := maxY;
           centerX := centerX; centerY := centerY;
           bboxWidth := maxX - minX; bboxHeight := maxY - minY |}
        "New Room" "good" None None in
    let ed := set_rooms (rooms ed ++ [newRoom]) ed in
    let ed := removeLineSegmentMeasurement ed in
    let ed := set_linePoints [] ed in
    let ed := set_lineStartPoint None ed in
    let ed := set_tempPolyline None ed in
    let ed := set_tempPolygon None ed in
    let ed := perform (RenderRoom newRoom) ed in
    perform (ShowRoomNameInputModal roomId) ed.

(** ** The handlers installed by [setupRoomDrawing]

    An event carries the pointer position in SVG coordinates (what
    [getSVGCoordinates] returns) and, where a room may be created, the clock
    reading.  A handler returns [None] when it throws. *)

Definition keydown (key : string) (ed : Editor) : Editor :=
  if (String.eqb key "Escape" && isDrawingMode ed)%bool then
    if (String.eqb (drawingTool ed) "line"
        && (0 <? List.length (linePoints ed))%nat)%bool
    then showToast "Line drawing cancelled" "info" (resetLineDrawing ed)
    else ed
  else ed.

Definition mousedown (now : Z) (ex ey : float) (ed : Editor) : option Editor :=
  if negb (isDrawingMode ed) then Some ed
  else
    let x := snapToGridCoordinate (snapToGrid ed) (gridSize ed) ex in
    let y := snapToGridCoordinate (snapToGrid ed) (gridSize ed) ey in
    if String.eqb (drawingTool ed) "rectangle" then
      match roomStartPoint ed with
      | None =>
          Some (set_tempRect
                  (Some {| rect_x := x; rect_y := y; rect_width := 0; rect_height := 0 |})
                  (set_roomStartPoint (Some (Point.mk x y)) ed))
      | Some _ => Some ed
      end
    else if String.eqb (drawingTool ed) "line" then
      match linePoints ed with
      | [] =>
          let ed := set_linePoints [Point.mk x y] ed in
          let ed := set_lineStartPoint (Some (Point.mk x y)) ed in
          if roomsLayer ed then
            Some (set_tempPolygon (Some [Point.mk x y])
                    (set_tempPolyline (Some [Point.mk x y]) ed))
          else Some ed
      | p0 :: _ =>
          match lineStartPoint ed with
          | None => None
          | Some start =>
              if isPointClose x y (Point.x start) (Point.y start) None then
                Some (completeLineRoom now ed)
              else
                let newPoint := Point.mk x y in
                let lastPoint := last (linePoints ed) p0 in
                if calculateDistance (Point.x lastPoint) (Point.y lastPoint) x y <? 15
                then Some ed
                else updateTempPolyline None
                       (set_linePoints (linePoints ed ++ [newPoint]) ed)
          end
      end
    else Some ed.

Definition mousemove (ex ey : float) (ed : Editor) : option Editor :=
  if negb (isDrawingMode ed) then Some ed
  else
    let x := snapToGridCoordinate (snapToGrid ed) (gridSize ed) ex in
    let y := snapToGridCoordinate (snapToGrid ed) (gridSize ed) ey in
    match String.eqb (drawingTool ed) "rectangle", roomStartPoint ed, tempRect ed with
    | true, Some start, Some _ =>
        let width := JS.Math_abs (x - Point.x start) in
        let height := JS.Math_abs (y - Point.y start) in
        let rectX := JS.Math_min [Point.x start; x] in
        let rectY := JS.Math_min [Point.y start; y] in
        let ed := set_tempRect
                    (Some {| rect_x := rectX; rect_y := rectY;
                             rect_width := width; rect_height := height |}) ed in
        Some (updateRoomMeasurement rectX rectY width height ed)
    | _, _, _ =>
        if (String.eqb (drawingTool ed) "line"
            && (0 <? List.length (linePoints ed))%nat)%bool
        then
          match updateTempPolyline (Some (x, y)) ed with
          | Some ed => Some (updateAllLineSegmentMeasurements x y ed)
          | None => None
          end
        else Some ed
    end.

(** The room [mouseup] builds from the start point and the release point. *)
Definition newRectangleRoom (now : Z) (start : Point) (x y : float) : Room :=
  RectangleRoom (roomIdAt now)
    (JS.Math_min [Point.x start; x]) (JS.Math_min [Point.y start; y])
    (JS.Math_abs (x - Point.x start)) (JS.Math_abs (y - Point.y start))
    "New Room" "good" None None.

Definition mouseup (now : Z) (ex ey : float) (ed : Editor) : Editor :=
  if negb (isDrawingMode ed) then ed
  else
    match String.eqb (drawingTool ed) "rectangle", roomStartPoint ed, tempRect ed with
    | true, Some start, Some _ =>
        let x := snapToGridCoordinate (snapToGrid ed) (gridSize ed) ex in
        let y := snapToGridCoordinate (snapToGrid ed) (gridSize ed) ey in
        let width := JS.Math_abs (x - Point.x start) in
        let height := JS.Math_abs (y - Point.y start) in
        let ed :=
          if ((20 <? width) && (20 <? height))%bool then
            let newRoom := newRectangleRoom now start x y in
            let ed := set_rooms (rooms ed ++ [newRoom]) ed in
            let ed := removeRoomMeasurement ed in
            let ed := perform (RenderRoom newRoom) ed in
            perform (ShowRoomNameInputModal (roomIdAt now)) ed
          else removeRoomMeasurement ed in
        set_roomStartPoint None (set_tempRect None ed)
    | _, _, _ => ed
    end.

(** ** The centroid with every division checked

    The same computation, where a division whose divisor is zero stops the
    run with [None]; [&&] evaluates its right operand only when the left one
    holds. *)

Module Checked.

Definition bind {A B : Type} (c : option A) (k : A -> option B) : option B :=
  match c with
  | Some a => k a
  | None => None
  end.

Notation "x <- c ;; k" := (bind c (fun x => k))
  (at level 61, c at next level, right associativity).

Definition div (a b : float) : option float :=
  if is_zero b then None else Some (a / b).

Definition intersect (x y : float) (pi pj : Point) : option bool :=
  let xi := Point.x pi in let yi := Point.y pi in
  let xj := Point.x pj in let yj := Point.y pj in
  if negb (Bool.eqb (JS.gt yi y) (JS.gt yj y)) then
    q <- div ((xj - xi) * (y - yi)) (yj - yi) ;;
    Some (x <? q + xi)
  else Some false.

Fixpoint ray_loop (x y : float) (pj : Point) (ps : list Point) (inside : bool)
    : option bool :=
  match ps with
  | [] => Some inside
  | pi :: rest =>
      c <- intersect x y pi pj ;;
      ray_loop x y pi rest (if c then negb inside else inside)
  end.

Definition isPointInPolygon (x y : float) (points : list Point) : option bool :=
  match points with
  | [] => Some false
  | p0 :: _ => ray_loop x y (last points p0) points false
  end.

Definition average (points : list Point) : option Point :=
  let sumX := fold_left (fun s p => s + Point.x p) points 0 in
  let sumY := fold_left (fun s p => s + Point.y p) points 0 in
  ax <- div sumX (JS.of_nat (List.length points)) ;;
  ay <- div sumY (JS.of_nat (List.length points)) ;;
  Some (Point.mk ax ay).

Definition signedArea (points : list Point) : option float :=
  let '(area, _, _) := shoelace (closeRing points) (0, 0, 0) in div area 2.

Definition areaCentroid (points : list Point) : option Point :=
  let '(_, centroidX, centroidY) := shoelace (closeRing points) (0, 0, 0) in
  area <- signedArea points ;;
  cx <- div centroidX (6 * area) ;;
  cy <- div centroidY (6 * area) ;;
  Some (Point.mk cx cy).

Definition bboxCenter (points : list Point) : option Point :=
  let xs := map Point.x points in
  let ys := map Point.y points in
  bx <- div (JS.Math_min xs + JS.Math_max xs) 2 ;;
  by_ <- div (JS.Math_min ys + JS.Math_max ys) 2 ;;
  Some (Point.mk bx by_).

(** A loop whose body may fail or return. *)
Fixpoint first_some {A B : Type} (body : A -> option (option B)) (l : list A)
    : option (option B) :=
  match l with
  | [] => Some None
  | a :: l' =>
      r <- body a ;;
      match r with
      | Some b => Some (Some b)
      | None => first_some body l'
      end
  end.

Definition sampleInterior (points : list Point) (centroid bbox : Point)
    : option (option Point) :=
  first_some
    (fun t =>
       let testX := Point.x bbox + (Point.x centroid - Point.x bbox) * t in
       let testY := Point.y bbox + (Point.y centroid - Point.y bbox) * t in
       c <- isPointInPolygon testX testY points ;;
       Some (if c then Some (Point.mk testX testY) else None))
    (sampleSteps sampleFuel 0).

Definition midpointInterior (points : list Point) : option (option Point) :=
  first_some
    (fun '(p1, p2) =>
       midX <- div (Point.x p1 + Point.x p2) 2 ;;
       midY <- div (Point.y p1 + Point.y p2) 2 ;;
       c <- isPointInPolygon midX midY points ;;
       Some (if c then Some (Point.mk midX midY) else None))
    (edgesOf points).

Definition interiorSearch (points : list Point) (centroid : Point)
    : option (option Point) :=
  bbox <- bboxCenter points ;;
  found <- sampleInterior points centroid bbox ;;
  match found with
  | Some p => Some (Some p)
  | None =>
      c <- isPointInPolygon (Point.x bbox) (Point.y bbox) points ;;
      if c then Some (Some bbox) else midpointInterior points
  end.

Definition calculatePolygonCentroid (points : option (list Point)) : option Point :=
  match points with
  | None => Some (Point.mk 0 0)
  | Some points =>
      if (List.length points <? 3)%nat then
        if (0 <? List.length points)%nat then average points else Some (Point.mk 0 0)
      else
        area <- signedArea points ;;
        if JS.Math_abs area <? 0.001 then average points
        else
          centroid <- areaCentroid points ;;
          c <- isPointInPolygon (Point.x centroid) (Point.y centroid) points ;;
          if negb c then
            found <- interiorSearch points centroid ;;
            Some match found with
                 | Some p => p
                 | None => centroid
                 end
          else Some centroid
  end.

End Checked.

(** ** The number a binary64 value stands for

    The properties of the arithmetic are stated among the rationals: a
    finite binary64 value [(s, m, e)] stands for the number [(-1)^s m 2^e]. *)

(** The number a binary64 value stands for; NaN and the infinities stand
    for none, and get 0. *)
Definition SF2Q (f : spec_float) : Q :=
  match f with
  | S754_finite s m e => (inject_Z (cond_Zopp s (Zpos m)) * 2 ^ e)%Q
  | _ => 0%Q
  end.

Definition valueQ (v : float) : Q := SF2Q (Prim2SF v).

(** The value is a number: a zero or a finite value. *)
Definition sf_is_finite (a : spec_float) : bool :=
  match a with S754_zero _ | S754_finite _ _ _ => true | _ => false end.

(** The record that [shr] keeps of the quotient [N / D]: its integer part,
    whether the rest is at least a half, and whether it is neither nothing nor
    a half. *)
Definition truncated (N D : Z) : shr_record :=
  {| shr_m := (N / D)%Z;
     shr_r := (D <=? 2 * (N mod D))%Z;
     shr_s := negb ((N mod D =? 0)%Z || (2 * (N mod D) =? D)%Z) |}.

(** ** The drawing mode and the tool

    [toggleDrawingMode] and [setDrawingTool] are the two functions outside
    [setupRoomDrawing] that write the variables the handlers read.  The
    variables [tempRect] and [roomStartPoint] belong to the closure of
    [setupRoomDrawing]; neither function can reach them. *)

Definition set_isDrawingMode (v : bool) (ed : Editor) : Editor :=
  {| isDrawingMode := v; drawingTool := drawingTool ed; rooms := rooms ed;
     gridSize := gridSize ed; snapToGrid := snapToGrid ed; linePoints := linePoints ed;
     tempPolyline := tempPolyline ed; tempPolygon := tempPolygon ed;
     lineStartPoint := lineStartPoint ed; roomStartPoint := roomStartPoint ed;
     tempRect := tempRect ed; roomsLayer := roomsLayer ed;
     dimensionLayer := dimensionLayer ed; roomDimensionGroup := roomDimensionGroup ed;
     lineSegmentDimensionGroup := lineSegmentDimensionGroup ed; effects := effects ed |}.

Definition set_drawingTool (v : string) (ed : Editor) : Editor :=
  {| isDrawingMode := isDrawingMode ed; drawingTool := v; rooms := rooms ed;
     gridSize := gridSize ed; snapToGrid := snapToGrid ed; linePoints := linePoints ed;
     tempPolyline := tempPolyline ed; tempPolygon := tempPolygon ed;
     lineStartPoint := lineStartPoint ed; roomStartPoint := roomStartPoint ed;
     tempRect := tempRect ed; roomsLayer := roomsLayer ed;
     dimensionLayer := dimensionLayer ed; roomDimensionGroup := roomDimensionGroup ed;
     lineSegmentDimensionGroup := lineSegmentDimensionGroup ed; effects := effects ed |}.

(** [toggleDrawingMode()]; [canvas] tells whether
    [document.getElementById('floorPlanCanvas')] finds the element.  The
    button label and the cursor are not part of the state.  When drawing
    stops the preview rectangle is taken out of the rooms layer (on the
    editor page rooms are drawn at opacity 0.6, so [rect[opacity="0.7"]] can
    only be the preview), but the variable [tempRect] still holds the
    element and [roomStartPoint] the start.  The last statement,
    [removeRoomMeasurement(svg)], is not guarded as the ones before it are:
    it reads [svg.querySelector], a TypeError when the canvas was not found
    ([None]). *)
Definition toggleDrawingMode (canvas : bool) (ed : Editor) : option Editor :=
  let ed := set_isDrawingMode (negb (isDrawingMode ed)) ed in
  if negb (isDrawingMode ed) then
    let ed := resetLineDrawing ed in
    if canvas then Some (removeRoomMeasurement ed) else None
  else Some ed.

(** [setDrawingTool(tool)]. *)
Definition setDrawingTool (tool : string) (ed : Editor) : Editor :=
  let ed := set_drawingTool tool ed in
  if negb (String.eqb tool "line") then resetLineDrawing ed else ed.

(** ** The fields of a room object *)

Definition room_id (room : Room) : string :=
  match room with
  | RectangleRoom id _ _ _ _ _ _ _ _ => id
  | PolygonRoom id _ _ _ _ _ _ => id
  end.

Definition room_name (room : Room) : string :=
  match room with
  | RectangleRoom _ _ _ _ _ name _ _ _ => name
  | PolygonRoom _ _ _ name _ _ _ => name
  end.

Definition room_deviceId (room : Room) : option string :=
  match room with
  | RectangleRoom _ _ _ _ _ _ _ _ deviceId => deviceId
  | PolygonRoom _ _ _ _ _ _ deviceId => deviceId
  end.

(** [room.status = status]. *)
Definition set_room_status (status : string) (room : Room) : Room :=
  match room with
  | RectangleRoom id x y width height name _ sensorData deviceId =>
      RectangleRoom id x y width height name status sensorData deviceId
  | PolygonRoom id points bbox name _ sensorData deviceId =>
      PolygonRoom id points bbox name status sensorData deviceId
  end.

(** What [if (v)] makes of a number: zero and NaN count as false. *)
Definition truthy (v : float) : bool := negb (is_zero v || is_nan v).

(** [array.findIndex(f)]; [None] is the answer [-1]. *)
Fixpoint findIndex {A : Type} (f : A -> bool) (l : list A) : option nat :=
  match l with
  | [] => None
  | a :: l' => if f a then Some 0%nat else option_map S (findIndex f l')
  end.

(** [array.splice(i, 1)]: what is left of the array. *)
Definition splice1 {A : Type} (i : nat) (l : list A) : list A :=
  firstn i l ++ skipn (S i) l.

(** ** The name dialog of a new room *)

(** [renderFloorPlan()] on the editor page (no [#editFloorBtn], so no status
    is recomputed): the rooms layer is emptied and every room rendered.
    Emptying the layer changes no variable of the editor; the log records the
    calls of [renderRoom]. *)
Definition renderFloorPlan (ed : Editor) : Editor :=
  if roomsLayer ed
  then fold_left (fun ed room => perform (RenderRoom room) ed) (rooms ed) ed
  else ed.

(** [closeRoomNameInputModal(shouldDeleteRoom = true)].  [pending] is the
    [roomId] of [window.__pendingRoomData], which [showRoomNameInputModal]
    stored; the result carries its new value.  (Hiding the dialog itself is
    not part of the state.) *)
Definition closeRoomNameInputModal (shouldDeleteRoom : bool)
    (pending : option string) (ed : Editor) : Editor * option string :=
  if shouldDeleteRoom then
    match pending with
    | Some roomId =>
        let roomIndex := findIndex (fun r => String.eqb (room_id r) roomId) (rooms ed) in
        (match roomIndex with
         | Some i => renderFloorPlan (set_rooms (splice1 i (rooms ed)) ed)
         | None => ed
         end, None)
    | None => (ed, None)
    end
  else (ed, pending).

(** ** The size shown in the room panel *)

(** The text [roomSize] that [showRoomSensorInfo] computes: a rectangle room
    has [width] and [height], a polygon room has [bbox] and [points]. *)
Definition roomSize (room : Room) : string :=
  match room with
  | RectangleRoom _ _ _ width height _ _ _ _ =>
      if truthy width && truthy height then measurementText width height
      else "N/A"
  | PolygonRoom _ points bbox _ _ _ _ =>
      if truthy (bboxWidth bbox) && truthy (bboxHeight bbox)
      then measurementText (bboxWidth bbox) (bboxHeight bbox)
      else if (3 <=? List.length points)%nat then
        let xs := map Point.x points in
        let ys := map Point.y points in
        let width := JS.Math_max xs - JS.Math_min xs in
        let height := JS.Math_max ys - JS.Math_min ys in
        measurementText width height
      else "N/A"
  end.

(** ** Sensors and the status of a room *)

(** A sensor reading [{value, unit, status}]. *)
Module Sensor.
Record t := mk { value : float; unit : string; status : string }.
End Sensor.

(** A [sensors] object: its keys, each once, with their readings, in the
    order of [Object.keys]. *)
Definition Sensors : Type := list (string * Sensor.t).

(** [Object.values(sensors)]. *)
Definition Object_values (sensors : Sensors) : list Sensor.t := map snd sensors.

(** [determineRoomStatus(sensors)] of [app.js]. *)
Definition determineRoomStatus (sensors : Sensors) : string :=
  let '(criticalCount, warningCount, normalCount) :=
    fold_left
      (fun '(criticalCount, warningCount, normalCount) sensor =>
         if String.eqb (Sensor.status sensor) "critical"
         then (S criticalCount, warningCount, normalCount)
         else if String.eqb (Sensor.status sensor) "warning"
         then (criticalCount, S warningCount, normalCount)
         else (criticalCount, warningCount, S normalCount))
      (Object_values sensors) (0, 0, 0)%nat in
  if (2 <=? criticalCount)%nat then "danger"
  else if (5 <=? warningCount)%nat then "danger"
  else if ((1 <=? criticalCount) || (2 <=? warningCount))%nat then "warning"
  else "good".

(** [determineDeviceStatus(sensors)] of [devices.js]. *)
Definition determineDeviceStatus (sensors : Sensors) : string :=
  let '(criticalCount, warningCount) :=
    fold_left
      (fun '(criticalCount, warningCount) sensor =>
         if String.eqb (Sensor.status sensor) "critical"
         then (S criticalCount, warningCount)
         else if String.eqb (Sensor.status sensor) "warning"
         then (criticalCount, S warningCount)
         else (criticalCount, warningCount))
      (Object_values sensors) (0, 0)%nat in
  if ((2 <=? criticalCount) || (5 <=? warningCount))%nat then "danger"
  else if ((1 <=? criticalCount) || (2 <=? warningCount))%nat then "warning"
  else "good".

(** [determineRoomStatusFromApp(sensors)] of the floor-plan editor;
    [window_determineRoomStatus] is [window.determineRoomStatus], [None]
    when nothing defined it. *)
Definition determineRoomStatusFromApp
    (window_determineRoomStatus : option (Sensors -> string))
    (sensors : Sensors) : string :=
  match window_determineRoomStatus with
  | Some determine => determine sensors
  | None =>
      let '(criticalCount, warningCount) :=
        fold_left
          (fun '(criticalCount, warningCount) sensor =>
             if String.eqb (Sensor.status sensor) "critical"
             then (S criticalCount, warningCount)
             else if String.eqb (Sensor.status sensor) "warning"
             then (criticalCount, S warningCount)
             else (criticalCount, warningCount))
          (Object_values sensors) (0, 0)%nat in
      if (0 <? criticalCount)%nat then "danger"
      else if (4 <=? warningCount)%nat then "danger"
      else if (1 <=? warningCount)%nat then "warning"
      else "good"
  end.

(** ** Readings of a device *)

(** The [thresholds] of one entry of [sensorConfig]. *)
Module Thresholds.
Record t := mk { normal : float; warning : float }.
End Thresholds.

(** [sensorConfig]: the sensor keys with their thresholds (the other fields
    of an entry are not read by the code below). *)
Definition SensorConfig : Type := list (string * Thresholds.t).

(** The [sensorConfig] of [app.js], which it exports as
    [window.sensorConfig]. *)
Definition sensorConfig : SensorConfig :=
  [ ("dust", Thresholds.mk 35 55);
    ("co2", Thresholds.mk 1000 1400);
    ("temperature", Thresholds.mk 26 29);
    ("humidity", Thresholds.mk 60 70);
    ("pressure", Thresholds.mk 1009 1006);
    ("gas", Thresholds.mk 200 300);
    ("smoke", Thresholds.mk 50 80) ]%string.

(** [object[key]] on an object kept as a list of entries. *)
Fixpoint lookup {A : Type} (key : string) (entries : list (string * A)) : option A :=
  match entries with
  | [] => None
  | (k, a) :: rest => if String.eqb k key then Some a else lookup key rest
  end.

(** The [data_sensor] node of a device in the realtime database; a field is
    [None] when the node does not have it.  (Readings are numbers.) *)
Record DataSensor := {
  pm25 : option float;
  co2 : option float;
  temperature : option float;
  humidity : option float;
  mq2 : option float;
  mq2_raw : option float
}.

(** [reading || default]. *)
Definition or_default (reading : option float) (default : float) : float :=
  match reading with
  | Some v => if truthy v then v else default
  | None => default
  end.

(** The status a reading gets from its thresholds: pressure is alarming when
    low, every other sensor when high. *)
Definition thresholdStatus (sensorKey : string) (value : float)
    (thresholds : Thresholds.t) : string :=
  if String.eqb sensorKey "pressure" then
    if value <? Thresholds.warning thresholds then "critical"
    else if value <? Thresholds.normal thresholds then "warning"
    else "normal"
  else
    if Thresholds.warning thresholds <=? value then "critical"
    else if Thresholds.normal thresholds <=? value then "warning"
    else "normal".

(** [mapDeviceSensorDataFromFirebaseForRoom(dataSensor)];
    [window_sensorConfig] is [window.sensorConfig]. *)
Definition mapDeviceSensorDataFromFirebaseForRoom
    (window_sensorConfig : option SensorConfig)
    (dataSensor : option DataSensor) : option Sensors :=
  match dataSensor with
  | None => None
  | Some dataSensor =>
      let sensors : Sensors :=
        [ ("dust", Sensor.mk (or_default (pm25 dataSensor) 25) "μg/m³" "normal");
          ("co2", Sensor.mk (or_default (co2 dataSensor) 600) "ppm" "normal");
          ("temperature",
           Sensor.mk (or_default (temperature dataSensor) 23.5) "°C" "normal");
          ("humidity", Sensor.mk (or_default (humidity dataSensor) 55) "%" "normal");
          ("pressure", Sensor.mk 1013.2 "hPa" "normal");
          ("gas", Sensor.mk (or_default (mq2 dataSensor) 150) "ppm" "normal");
          ("smoke", Sensor.mk (or_default (mq2_raw dataSensor) 30) "ppm" "normal")
        ]%string in
      match window_sensorConfig with
      | Some config =>
          Some (map
                  (fun '(sensorKey, sensor) =>
                     match lookup sensorKey config with
                     | Some thresholds =>
                         (sensorKey,
                          Sensor.mk (Sensor.value sensor) (Sensor.unit sensor)
                            (thresholdStatus sensorKey (Sensor.value sensor) thresholds))
                     | None => (sensorKey, sensor)
                     end)
                  sensors)
      | None => Some sensors
      end
  end.

(** ** Rooms of the dashboard and their devices *)

(** An entry of [window.roomsData]. [sensors] is [None] when the entry has
    no [sensors] field. *)
Module RoomData.
Record t := mk { id : Z; name : string; sensors : option Sensors }.
End RoomData.

(** A device of [devices.js], with the fields read and written below;
    [assignedToRoom] and [assignedToRoomName] are [null] ([None]) for a
    device that is free. *)
Module Device.
Record t := mk {
  id : string;
  sensors : option Sensors;
  assignedToRoom : option string;
  assignedToRoomName : option string
}.
End Device.

(** What the status code reads from [window], and the requests it sends:
    [roomsData] is [window.roomsData]; [devicesData] is the device list
    behind [window.getDeviceById], [None] when [devices.js] did not define
    that function; [firebase] says whether [window.rtdb], [window.rtdbRef]
    and [window.rtdbGet] are all there; [requested] lists the devices whose
    node was asked from the realtime database (the answer arrives after the
    call has returned). *)
Record Dashboard := {
  roomsData : option (list RoomData.t);
  devicesData : option (list Device.t);
  window_determineRoomStatus : option (Sensors -> string);
  firebase : bool;
  requested : list string
}.

Definition set_roomsData (v : option (list RoomData.t)) (w : Dashboard) : Dashboard :=
  {| roomsData := v; devicesData := devicesData w;
     window_determineRoomStatus := window_determineRoomStatus w;
     firebase := firebase w; requested := requested w |}.

Definition set_requested (v : list string) (w : Dashboard) : Dashboard :=
  {| roomsData := roomsData w; devicesData := devicesData w;
     window_determineRoomStatus := window_determineRoomStatus w;
     firebase := firebase w; requested := v |}.

(** [findRoomInRoomsData(roomName, roomId)].  The object it returns is an
    element of [window.roomsData], which callers then write to: the model
    returns the index of that element.  [rooms] is the module variable, and
    [toLowerCase] the method of strings. *)
Definition findRoomIndex (toLowerCase : string -> string)
    (roomsData : option (list RoomData.t)) (rooms : list Room)
    (roomName roomId : string) : option nat :=
  match roomsData with
  | None | Some [] => None
  | Some data =>
      (* Method 1: by name, exact *)
      let roomData :=
        if negb (String.eqb roomName "")
        then findIndex (fun r => String.eqb (RoomData.name r) roomName) data
        else None in
      (* Method 2: by name, case-insensitive *)
      let roomData :=
        match roomData with
        | None =>
            if negb (String.eqb roomName "")
            then findIndex
                   (fun r => negb (String.eqb (RoomData.name r) "")
                             && String.eqb (toLowerCase (RoomData.name r))
                                  (toLowerCase roomName))
                   data
            else None
        | Some _ => roomData
        end in
      (* Method 3: by the index of the room in the floor plan *)
      let roomData :=
        match roomData with
        | None =>
            if negb (String.eqb roomId "") then
              match findIndex (fun r => String.eqb (room_id r) roomId) rooms with
              | Some floorPlanIndex =>
                  if (floorPlanIndex <? List.length data)%nat
                  then Some floorPlanIndex else None
              | None => None
              end
            else None
        | Some _ => roomData
        end in
      (* Method 4: by order, then the first entry *)
      match roomData with
      | None =>
          let roomData :=
            if negb (String.eqb roomId "") then
              match findIndex (fun r => String.eqb (room_id r) roomId) rooms with
              | Some roomIndex => Some (roomIndex mod List.length data)%nat
              | None => None
              end
            else None in
          match roomData with
          | None => Some 0%nat
          | Some _ => roomData
          end
      | Some _ => roomData
      end
  end.

Definition findRoomInRoomsData (toLowerCase : string -> string)
    (roomsData : option (list RoomData.t)) (rooms : list Room)
    (roomName roomId : string) : option RoomData.t :=
  match findRoomIndex toLowerCase roomsData rooms roomName roomId with
  | Some i => nth_error (match roomsData with Some data => data | None => [] end) i
  | None => None
  end.

(** [!room.deviceId] fails: the room has a device id that is not empty. *)
Definition hasDevice (room : Room) : option string :=
  match room_deviceId room with
  | Some deviceId => if String.eqb deviceId "" then None else Some deviceId
  | None => None
  end.

(** [getDeviceById(deviceId)] of [devices.js]; [devicesData] is its module
    variable. *)
Definition getDeviceById (devicesData : list Device.t) (deviceId : string)
    : option Device.t :=
  find (fun d => String.eqb (Device.id d) deviceId) devicesData.

(** [window.getDeviceById ? window.getDeviceById(deviceId) : null]. *)
Definition window_getDeviceById (w : Dashboard) (deviceId : string)
    : option Device.t :=
  match devicesData w with
  | Some devices => getDeviceById devices deviceId
  | None => None
  end.

(** [roomsData[i].sensors = sensors]. *)
Fixpoint set_sensors_at (i : nat) (sensors : Sensors) (data : list RoomData.t)
    {struct data} : list RoomData.t :=
  match data, i with
  | [], _ => []
  | r :: rest, O => RoomData.mk (RoomData.id r) (RoomData.name r) (Some sensors) :: rest
  | r :: rest, S i' => r :: set_sensors_at i' sensors rest
  end.

(** [syncDeviceSensorDataToRoom(room)]: the part that runs before the call
    returns.  When the device is unknown and the database is at hand, its
    node is requested; what the answer does later is not part of this
    function's run. *)
Definition syncDeviceSensorDataToRoom (toLowerCase : string -> string)
    (rooms : list Room) (room : Room) (w : Dashboard) : Dashboard :=
  match hasDevice room with
  | None => w
  | Some deviceId =>
      let deviceSensors :=
        match window_getDeviceById w deviceId with
        | Some device => Device.sensors device
        | None => None
        end in
      match deviceSensors with
      | None =>
          if firebase w then set_requested (requested w ++ [deviceId]) w else w
      | Some deviceSensors =>
          let data := match roomsData w with Some data => data | None => [] end in
          let '(data, index) :=
            match findRoomIndex toLowerCase (roomsData w) rooms
                    (room_name room) (room_id room) with
            | Some index => (data, index)
            | None =>
                (data ++ [RoomData.mk (Z.of_nat (List.length data) + 1)
                            (room_name room) (Some [])],
                 List.length data)
            end in
          let copy :=
            map (fun '(sensorKey, deviceSensor) =>
                   (sensorKey,
                    Sensor.mk (Sensor.value deviceSensor) (Sensor.unit deviceSensor)
                      (Sensor.status deviceSensor)))
              deviceSensors in
          set_roomsData (Some (set_sensors_at index copy data)) w
      end
  end.

(** [updateRoomStatus(room)]: the room with its new [status], and the
    dashboard data after the synchronisation. *)
Definition updateRoomStatus (toLowerCase : string -> string)
    (rooms : list Room) (room : Room) (w : Dashboard) : Room * Dashboard :=
  match hasDevice room with
  | None => (set_room_status "unassigned" room, w)
  | Some _ =>
      let w := syncDeviceSensorDataToRoom toLowerCase rooms room w in
      match roomsData w with
      | None | Some [] => (set_room_status "unassigned" room, w)
      | Some _ =>
          match findRoomInRoomsData toLowerCase (roomsData w) rooms
                  (room_name room) (room_id room) with
          | Some roomData =>
              match RoomData.sensors roomData with
              | Some sensors =>
                  (set_room_status
                     (determineRoomStatusFromApp (window_determineRoomStatus w) sensors)
                     room, w)
              | None => (set_room_status "unassigned" room, w)
              end
          | None => (set_room_status "unassigned" room, w)
          end
      end
  end.

(** ** Devices and the rooms they are assigned to *)

Definition set_devicesData (v : option (list Device.t)) (w : Dashboard) : Dashboard :=
  {| roomsData := roomsData w; devicesData := v;
     window_determineRoomStatus := window_determineRoomStatus w;
     firebase := firebase w; requested := requested w |}.

(** Writing to the object [getDeviceById] returned: the first device with
    that id is the one that changes. *)
Fixpoint updateDevice (deviceId : string) (change : Device.t -> Device.t)
    (devicesData : list Device.t) : list Device.t :=
  match devicesData with
  | [] => []
  | d :: rest =>
      if String.eqb (Device.id d) deviceId then change d :: rest
      else d :: updateDevice deviceId change rest
  end.

(** [device.assignedToRoom = room; device.assignedToRoomName = name]. *)
Definition set_assignment (room name : option string) (d : Device.t) : Device.t :=
  Device.mk (Device.id d) (Device.sensors d) room name.

(** The answer [{success, message}] of the two functions below. *)
Record AssignResult := { success : bool; message : string }.

(** [isDeviceAssigned(deviceId)] of [devices.js], as a condition. *)
Definition isDeviceAssigned (devicesData : list Device.t) (deviceId : string) : bool :=
  match getDeviceById devicesData deviceId with
  | Some device => match Device.assignedToRoom device with Some _ => true | None => false end
  | None => false
  end.

(** [assignDeviceToRoom(deviceId, roomId, roomName)] of [devices.js]: the
    answer and the devices afterwards.  (The card of the device on the
    devices page is not modelled.) *)
Definition assignDeviceToRoom (deviceId roomId roomName : string)
    (devicesData : list Device.t) : AssignResult * list Device.t :=
  match getDeviceById devicesData deviceId with
  | None => ({| success := false; message := "Device not found" |}, devicesData)
  | Some device =>
      let elsewhere :=
        match Device.assignedToRoom device with
        | Some assigned =>
            negb (String.eqb assigned "") && negb (String.eqb assigned roomId)
        | None => false
        end in
      if elsewhere then
        ({| success := false;
            message := ("Device is already assigned to "
                        ++ match Device.assignedToRoomName device with
                           | Some name => name
                           | None => "null"
                           end)%string |},
         devicesData)
      else
        ({| success := true; message := "Device assigned successfully" |},
         updateDevice deviceId (set_assignment (Some roomId) (Some roomName)) devicesData)
  end.

(** [unassignDeviceFromRoom(deviceId)] of [devices.js]. *)
Definition unassignDeviceFromRoom (deviceId : string) (devicesData : list Device.t)
    : AssignResult * list Device.t :=
  match getDeviceById devicesData deviceId with
  | None => ({| success := false; message := "Device not found" |}, devicesData)
  | Some _ =>
      ({| success := true; message := "Device unassigned successfully" |},
       updateDevice deviceId (set_assignment None None) devicesData)
  end.

(** [getAvailableDevices()] and [getDeviceByRoomId(roomId)] of [devices.js]. *)
Definition getAvailableDevices (devicesData : list Device.t) : list Device.t :=
  filter (fun d => match Device.assignedToRoom d with None => true | Some _ => false end)
    devicesData.

Definition getDeviceByRoomId (devicesData : list Device.t) (roomId : string)
    : option Device.t :=
  find (fun d => match Device.assignedToRoom d with
                 | Some assigned => String.eqb assigned roomId
                 | None => false
                 end) devicesData.

(** [restoreDeviceAssignments()] of the floor-plan editor; [rooms] is its
    module variable. *)
Definition restoreDeviceAssignments (rooms : list Room) (w : Dashboard) : Dashboard :=
  match devicesData w with
  | None => w
  | Some _ =>
      fold_left
        (fun w room =>
           match hasDevice room with
           | Some deviceId =>
               match window_getDeviceById w deviceId, devicesData w with
               | Some _, Some devices =>
                   set_devicesData
                     (Some (snd (assignDeviceToRoom deviceId (room_id room)
                                   (room_name room) devices))) w
               | _, _ => w
               end
           | None => w
           end)
        rooms w
  end.

(** ** Local addresses *)

(** Strings are kept as their UTF-8 bytes; the characters the code looks
    for are all ASCII. *)

(** Whether [s] starts with [p]. *)
Fixpoint startsWith (p s : string) : bool :=
  match p, s with
  | EmptyString, _ => true
  | String a p', String b s' => Ascii.eqb a b && startsWith p' s'
  | String _ _, EmptyString => false
  end.

(** [s] without its first [n] characters. *)
Fixpoint dropChars (n : nat) (s : string) : string :=
  match n, s with
  | O, _ => s
  | S n', String _ s' => dropChars n' s'
  | S _, EmptyString => EmptyString
  end.

(** [s.split(c)[0]]: [s] up to the first [c]. *)
Fixpoint beforeChar (c : ascii) (s : string) : string :=
  match s with
  | EmptyString => EmptyString
  | String a s' => if Ascii.eqb a c then EmptyString else String a (beforeChar c s')
  end.

(** [s.replace(/^https?:\/\//, '')]. *)
Definition stripProtocol (s : string) : string :=
  if startsWith "http://" s then dropChars 7 s
  else if startsWith "https://" s then dropChars 8 s
  else s.

(** A character of the class [[lo-hi]]. *)
Definition inClass (lo hi c : ascii) : bool :=
  ((nat_of_ascii lo <=? nat_of_ascii c) && (nat_of_ascii c <=? nat_of_ascii hi))%nat.

(** [/^172\.(1[6-9]|2[0-9]|3[0-1])\./.test(s)]. *)
Definition test172 (s : string) : bool :=
  startsWith "172." s
  && match dropChars 4 s with
     | String a (String b (String c _)) =>
         ((Ascii.eqb a "1" && inClass "6" "9" b)
          || (Ascii.eqb a "2" && inClass "0" "9" b)
          || (Ascii.eqb a "3" && inClass "0" "1" b))
         && Ascii.eqb c "."
     | _ => false
     end.

(** [isLocalIP(ip)]; [None] is an argument that is not a string. *)
Definition isLocalIP (ip : option string) : bool :=
  match ip with
  | None => false
  | Some ip =>
      if String.eqb ip "" then false
      else
        let ip := beforeChar "/" (beforeChar ":" (stripProtocol ip)) in
        existsb (fun test => test ip)
          [ startsWith "10.";
            test172;
            startsWith "192.168.";
            startsWith "127.";
            startsWith "169.254.";
            String.eqb "localhost" ]
  end.

(** ** Notions used in the statements *)

(** The decimal text of [n / 10] and of [n / 100] for a natural number [n],
    with one and with two decimal places and no trailing zero. *)
Definition oneDecimal (n : Z) : string :=
  (JS.digits (n / 10)%Z
   ++ (if (n mod 10 =? 0)%Z then "" else "." ++ JS.digits (n mod 10)%Z))%string.

Definition twoDecimals (n : Z) : string :=
  (JS.digits (n / 100)%Z
   ++ (if (n mod 100 =? 0)%Z then ""
       else "." ++ JS.digits (n mod 100 / 10)%Z
            ++ (if (n mod 10 =? 0)%Z then "" else JS.digits (n mod 10)%Z)))%string.

(** The arithmetic mean of a list of points: the sum of the coordinates over
    their number. *)
Definition arithmeticMean (points : list Point) : Point :=
  Point.mk
    (fold_left PrimFloat.add (map Point.x points) 0 / JS.of_nat (List.length points))
    (fold_left PrimFloat.add (map Point.y points) 0 / JS.of_nat (List.length points)).

(** An editor in drawing mode with nothing drawn yet: the page as
    [createSVGCanvas] leaves it, with the desktop grid. *)
Definition drawingEditor (tool : string) : Editor :=
  {| isDrawingMode := true; drawingTool := tool; rooms := [];
     gridSize := 20; snapToGrid := true;
     linePoints := []; tempPolyline := None; tempPolygon := None;
     lineStartPoint := None; roomStartPoint := None; tempRect := None;
     roomsLayer := true; dimensionLayer := true;
     roomDimensionGroup := None; lineSegmentDimensionGroup := None;
     effects := [] |}.

(** Pressing at [(x1, y1)], moving to [(x2, y2)] and releasing there: the
    editor while the button is still down and the editor after the release. *)
Definition dragRectangle (now : Z) (x1 y1 x2 y2 : float) (ed : Editor)
    : option (Editor * Editor) :=
  match mousedown now x1 y1 ed with
  | Some pressed =>
      match mousemove x2 y2 pressed with
      | Some dragging => Some (dragging, mouseup now x2 y2 dragging)
      | None => None
      end
  | None => None
  end.

(** Clicking the points of [clicks] one after the other. *)
Fixpoint clickAll (now : Z) (clicks : list (float * float)) (ed : Editor)
    : option Editor :=
  match clicks with
  | [] => Some ed
  | (x, y) :: rest =>
      match mousedown now x y ed with
      | Some ed' => clickAll now rest ed'
      | None => None
      end
  end.

(** The triangle of the end-to-end scenario. *)
Definition triangle : list Point :=
  [Point.mk 0 0; Point.mk 100 0; Point.mk 100 100].

(** A small arrowhead: the tips [(0,0)] and [(1/32,0)], the apex
    [(1/64, 3/128)] and the notch [(1/64, 1/64)] between the tips.  It is a
    simple polygon of area [1/8192]. *)
Definition arrowhead : list Point :=
  [Point.mk 0 0; Point.mk 0.015625 0.015625;
   Point.mk 0.03125 0; Point.mk 0.015625 0.0234375].

(** A chevron, a V with its tip [(47.9, 7.6)] at the bottom, the ends
    [(0,100)] and [(100,100)] of its arms at the top and the notch
    [(52.7, 27.4)] above the tip.  It is a simple polygon of area 990. *)
Definition chevron : list Point :=
  [Point.mk 0 100; Point.mk 47.9 7.6; Point.mk 100 100; Point.mk 52.7 27.4].

(** A ring that is already closed, far from the origin: [2^600] squared is
    beyond the binary64 range. *)
Definition farRing : list Point :=
  [Point.mk 0x1p600 0x1p600; Point.mk 0 0; Point.mk 0x1p-200 0;
   Point.mk 0x1p600 0x1p600].

(** The list is an open ring: its last point is not its first, by the test
    [calculatePolygonCentroid] applies. *)
Definition isOpenRing (points : list Point) : bool :=
  match points with
  | [] => false
  | p0 :: _ =>
      let pn := last points p0 in
      JS.strict_neq (Point.x p0) (Point.x pn) || JS.strict_neq (Point.y p0) (Point.y pn)
  end.

(** The integers from [lo], [n] of them. *)
Fixpoint Zrange (lo : Z) (n : nat) : list Z :=
  match n with
  | O => []
  | S n' => lo :: Zrange (lo + 1) n'
  end.

(** The rectangle tool with the button pressed at (100,100). *)
Definition rectangleInProgress : Editor :=
  {| isDrawingMode := true; drawingTool := "rectangle"; rooms := [];
     gridSize := 20; snapToGrid := true;
     linePoints := []; tempPolyline := None; tempPolygon := None;
     lineStartPoint := None;
     roomStartPoint := Some (Point.mk 100 100);
     tempRect := Some {| rect_x := 100; rect_y := 100;
                         rect_width := 0; rect_height := 0 |};
     roomsLayer := true; dimensionLayer := true;
     roomDimensionGroup := None; lineSegmentDimensionGroup := None;
     effects := [] |}.

(** The line tool after the clicks [points], the first of them the start
    point; [snap] is the snap-to-grid flag. *)
Definition lineInProgress (snap : bool) (points : list Point) : Editor :=
  {| isDrawingMode := true; drawingTool := "line"; rooms := [];
     gridSize := 20; snapToGrid := snap;
     linePoints := points; tempPolyline := Some points;
     tempPolygon := Some points;
     lineStartPoint := hd_error points;
     roomStartPoint := None; tempRect := None;
     roomsLayer := true; dimensionLayer := true;
     roomDimensionGroup := None; lineSegmentDimensionGroup := None;
     effects := [] |}.

(** An L-shaped room with arms 20px wide. *)
Definition ellShape : list Point :=
  [Point.mk 0 0; Point.mk 200 0; Point.mk 200 20;
   Point.mk 20 20; Point.mk 20 200; Point.mk 0 200].

(** A zero of either sign, and NaN, among the values of the binary64
    specification. *)
Definition sf_is_zero (a : spec_float) : bool :=
  match a with S754_zero _ => true | _ => false end.

Definition sf_is_nan (a : spec_float) : bool :=
  match a with S754_nan => true | _ => false end.

(** What can happen to the editor while a floor is being drawn.  The mouse
    and the keyboard handlers are installed by [setupRoomDrawing(svg)], on a
    page that has the canvas; [toggleDrawingMode] is a global function that
    looks the canvas up by itself, and its event tells whether it is
    found. *)
Inductive Event :=
| MouseDown (now : Z) (x y : float)
| MouseMove (x y : float)
| MouseUp (now : Z) (x y : float)
| KeyDown (key : string)
| SetDrawingTool (tool : string)
| ToggleDrawingMode (canvas : bool).

(** The handler of one event; [None] when it throws. *)
Definition dispatch (e : Event) (ed : Editor) : option Editor :=
  match e with
  | MouseDown now x y => mousedown now x y ed
  | MouseMove x y => mousemove x y ed
  | MouseUp now x y => Some (mouseup now x y ed)
  | KeyDown key => Some (keydown key ed)
  | SetDrawingTool tool => Some (setDrawingTool tool ed)
  | ToggleDrawingMode canvas => toggleDrawingMode canvas ed
  end.

(** The events of a list, one after the other, up to the first that throws. *)
Fixpoint run (events : list Event) (ed : Editor) : option Editor :=
  match events with
  | [] => Some ed
  | e :: rest =>
      match dispatch e ed with
      | Some ed' => run rest ed'
      | None => None
      end
  end.

(** The module variables as the script initialises them, on a page with
    both layers. *)
Definition initialEditor : Editor :=
  {| isDrawingMode := false; drawingTool := "rectangle"; rooms := [];
     gridSize := 20; snapToGrid := true;
     linePoints := []; tempPolyline := None; tempPolygon := None;
     lineStartPoint := None; roomStartPoint := None; tempRect := None;
     roomsLayer := true; dimensionLayer := true;
     roomDimensionGroup := None; lineSegmentDimensionGroup := None;
     effects := [] |}.

(** No two consecutive points are less than 15px apart. *)
Fixpoint spaced (points : list Point) : bool :=
  match points with
  | p :: ((q :: _) as rest) =>
      negb (calculateDistance (Point.x p) (Point.y p) (Point.x q) (Point.y q) <? 15)
      && spaced rest
  | _ => true
  end.

(** No point after the first is within the closing distance of the first. *)
Definition clearOfStart (points : list Point) : bool :=
  match points with
  | [] => true
  | start :: rest =>
      forallb (fun p => negb (isPointClose (Point.x p) (Point.y p)
                                (Point.x start) (Point.y start) None)) rest
  end.

(** The start point is the first of the vertices drawn so far. *)
Definition startIsFirst (ed : Editor) : Prop :=
  lineStartPoint ed = hd_error (linePoints ed).

(** The vertices keep their distances. *)
Definition wellSpaced (points : list Point) : bool :=
  spaced points && clearOfStart points.

(** Two editors that differ at most in the previews and the measurement
    labels. *)
Definition onlyPreviewsDiffer (ed ed' : Editor) : Prop :=
  isDrawingMode ed' = isDrawingMode ed /\ drawingTool ed' = drawingTool ed
  /\ rooms ed' = rooms ed /\ gridSize ed' = gridSize ed
  /\ snapToGrid ed' = snapToGrid ed /\ linePoints ed' = linePoints ed
  /\ lineStartPoint ed' = lineStartPoint ed
  /\ roomStartPoint ed' = roomStartPoint ed
  /\ roomsLayer ed' = roomsLayer ed /\ dimensionLayer ed' = dimensionLayer ed
  /\ effects ed' = effects ed.

(** Two editors that agree on everything but the state of the line tool
    (vertices, start point, previews, side labels), the rooms and the
    messages shown. *)
Definition sameButLine (ed ed' : Editor) : Prop :=
  isDrawingMode ed' = isDrawingMode ed /\ drawingTool ed' = drawingTool ed
  /\ gridSize ed' = gridSize ed /\ snapToGrid ed' = snapToGrid ed
  /\ roomStartPoint ed' = roomStartPoint ed /\ tempRect ed' = tempRect ed
  /\ roomsLayer ed' = roomsLayer ed /\ dimensionLayer ed' = dimensionLayer ed
  /\ roomDimensionGroup ed' = roomDimensionGroup ed.

(** No polygon is in progress. *)
Definition lineIdle (ed : Editor) : Prop :=
  linePoints ed = [] /\ lineStartPoint ed = None
  /\ tempPolyline ed = None /\ tempPolygon ed = None
  /\ lineSegmentDimensionGroup ed = None.

(** An event of the mouse. *)
Definition isMouseEvent (e : Event) : bool :=
  match e with
  | MouseDown _ _ _ | MouseMove _ _ | MouseUp _ _ _ => true
  | _ => false
  end.

(** The event is not a call of [toggleDrawingMode] on a page without the
    canvas. *)
Definition findsCanvas (e : Event) : bool :=
  match e with
  | ToggleDrawingMode canvas => canvas
  | _ => true
  end.

(** The vertices the line tool makes of a list of clicks: each click
    snapped to the grid. *)
Definition snappedClicks (ed : Editor) (clicks : list (float * float)) : list Point :=
  map (fun '(x, y) =>
         Point.mk (snapToGridCoordinate (snapToGrid ed) (gridSize ed) x)
           (snapToGridCoordinate (snapToGrid ed) (gridSize ed) y))
    clicks.

(** The bounding box [completeLineRoom] computes for a list of vertices. *)
Definition boundingBox (points : list Point) : BBox :=
  let xs := map Point.x points in
  let ys := map Point.y points in
  {| minX := JS.Math_min xs; maxX := JS.Math_max xs;
     minY := JS.Math_min ys; maxY := JS.Math_max ys;
     centerX := (JS.Math_min xs + JS.Math_max xs) / 2;
     centerY := (JS.Math_min ys + JS.Math_max ys) / 2;
     bboxWidth := JS.Math_max xs - JS.Math_min xs;
     bboxHeight := JS.Math_max ys - JS.Math_min ys |}.

(** A room as the drawing tools make it: a rectangle more than 20px wide
    and high, or a polygon of at least three well separated vertices with
    its bounding box; unnamed, in good state, without a device. *)
Definition drawnRoom (room : Room) : Prop :=
  match room with
  | RectangleRoom _ _ _ width height name status sensorData deviceId =>
      (20 <? width) = true /\ (20 <? height) = true
      /\ name = "New Room"%string /\ status = "good"%string
      /\ sensorData = None /\ deviceId = None
  | PolygonRoom _ points bbox name status sensorData deviceId =>
      (3 <= List.length points)%nat
      /\ spaced points = true /\ clearOfStart points = true
      /\ bbox = boundingBox points
      /\ name = "New Room"%string /\ status = "good"%string
      /\ sensorData = None /\ deviceId = None
  end.

(** How bad a status is: good, warning, danger. *)
Definition severity (status : string) : nat :=
  if String.eqb status "danger" then 2
  else if String.eqb status "warning" then 1
  else 0.

(** The numbers of critical and of warning sensors. *)
Definition criticalCount (sensors : Sensors) : nat :=
  List.length (filter (fun s => String.eqb (Sensor.status s) "critical")
                 (Object_values sensors)).

Definition warningCount (sensors : Sensors) : nat :=
  List.length (filter (fun s => String.eqb (Sensor.status s) "warning")
                 (Object_values sensors)).

(** What a device keeps when others are assigned: its id, its sensors, and
    the room it is assigned to, if any. *)
Definition keepsAssignment (d d' : Device.t) : Prop :=
  Device.id d' = Device.id d /\ Device.sensors d' = Device.sensors d
  /\ forall room, Device.assignedToRoom d = Some room -> room <> ""%string ->
                  Device.assignedToRoom d' = Some room.

(** A room with a device, and dashboard data in which that device reports
    a critical level of carbon dioxide. *)
Definition labRoom : Room :=
  RectangleRoom "room_1700000000000" 100 100 200 160 "Lab" "good" None
    (Some "aeronexa-001"%string).

Definition labDevices : list Device.t :=
  [ Device.mk "aeronexa-002" None None None;
    Device.mk "aeronexa-001"
      (Some [("co2", Sensor.mk 1500 "ppm" "critical")]%string) None None ]%string.

Definition labDashboard : Dashboard :=
  {| roomsData := Some [RoomData.mk 1 "Meeting Room A" (Some [])];
     devicesData := Some labDevices;
     window_determineRoomStatus := None;
     firebase := true;
     requested := [] |}.

(** A reading that [||] replaces by the default: missing, zero or NaN. *)
Definition falsy (reading : option float) : bool :=
  match reading with Some v => negb (truthy v) | None => true end.

(** Lower case for the letters A to Z, other characters as they are. *)
Definition asciiLower (c : ascii) : ascii :=
  if inClass "A" "Z" c then ascii_of_nat (nat_of_ascii c + 32) else c.

Fixpoint lowerCase (s : string) : string :=
  match s with
  | EmptyString => EmptyString
  | String c s' => String (asciiLower c) (lowerCase s')
  end.

(** Neither [:] nor [/] occurs in the string. *)
Fixpoint plainHost (s : string) : bool :=
  match s with
  | EmptyString => true
  | String a s' => negb (Ascii.eqb a ":") && negb (Ascii.eqb a "/") && plainHost s'
  end.

(** A session: drawing is switched on, a rectangle is dragged, then a
    triangle is drawn with the line tool and closed by a click next to its
    first vertex. *)
Definition sampleSession : list Event :=
  [ ToggleDrawingMode true;
    MouseDown 1000 100 100; MouseMove 180 160; MouseUp 1001 200 180;
    SetDrawingTool "line";
    MouseDown 1002 300 100; MouseMove 350 100; MouseDown 1003 400 100;
    MouseDown 1004 400 200; MouseMove 310 110; MouseDown 1005 305 105 ].

(** The editor a list of events leaves, the starting editor if one throws. *)
Definition editorAfter (events : list Event) (ed : Editor) : Editor :=
  match run events ed with Some ed' => ed' | None => ed end.

(** The numbers below [n]. *)
Definition below (n : nat) : list nat := seq 0 n.

(** An address whose second part is the number [n] in decimal. *)
Definition address172 (n : nat) : string :=
  ("172." ++ JS.digits (Z.of_nat n) ++ ".0.1")%string.

(** * Properties *)

(** ** Facts about binary64 arithmetic *)

Lemma is_zero_spec (f : float) : is_zero f = sf_is_zero (Prim2SF f).
Proof.
  unfold is_zero. rewrite FloatAxioms.eqb_spec.
  change (Prim2SF zero) with (S754_zero false).
  destruct (Prim2SF f) as [s|s| |s m e]; try destruct s; reflexivity.
Qed.

(** *** Shifting a mantissa right never empties it while bits remain *)

Lemma shr_1_div2 (mrs : shr_record) :
  (0 <= shr_m mrs)%Z -> shr_m (shr_1 mrs) = Z.div2 (shr_m mrs).
Proof.
  destruct mrs as [m r s]; simpl. intros Hm.
  destruct m as [|p|p]; try reflexivity; try lia.
  destruct p; reflexivity.
Qed.

Lemma iter_pos_nat {A : Type} (f : A -> A) (p : positive) (a : A) :
  iter_pos f p a = Nat.iter (Pos.to_nat p) f a.
Proof.
  revert a. induction p as [p IH|p IH|]; intros a; cbn [iter_pos].
  - rewrite !IH, Pos2Nat.inj_xI.
    replace (S (2 * Pos.to_nat p)) with (Pos.to_nat p + S (Pos.to_nat p))%nat by lia.
    rewrite Nat.iter_add, Nat.iter_succ_r. reflexivity.
  - rewrite !IH, Pos2Nat.inj_xO.
    replace (2 * Pos.to_nat p)%nat with (Pos.to_nat p + Pos.to_nat p)%nat by lia.
    rewrite Nat.iter_add. reflexivity.
  - reflexivity.
Qed.

Lemma shr_iter_positive (n : nat) (mrs : shr_record) :
  (2 ^ Z.of_nat n <= shr_m mrs)%Z ->
  (0 < shr_m (Nat.iter n shr_1 mrs))%Z.
Proof.
  revert mrs. induction n as [|n IH]; intros mrs H.
  - simpl in *. lia.
  - rewrite Nat.iter_succ_r. apply IH.
    assert (0 < 2 ^ Z.of_nat (S n))%Z by (apply Z.pow_pos_nonneg; lia).
    rewrite shr_1_div2 by lia.
    rewrite Z.div2_div. apply Z.div_le_lower_bound; try lia.
    rewrite <- Z.pow_succ_r by lia. rewrite <- Nat2Z.inj_succ. exact H.
Qed.

Lemma digits2_pos_lower (m : positive) :
  (2 ^ (Zpos (digits2_pos m) - 1) <= Zpos m)%Z.
Proof.
  induction m as [m IH|m IH|]; simpl digits2_pos.
  - rewrite Pos2Z.inj_succ.
    replace (Z.succ (Zpos (digits2_pos m)) - 1)%Z
      with (Z.succ (Zpos (digits2_pos m) - 1))%Z by lia.
    rewrite Z.pow_succ_r by lia. lia.
  - rewrite Pos2Z.inj_succ.
    replace (Z.succ (Zpos (digits2_pos m)) - 1)%Z
      with (Z.succ (Zpos (digits2_pos m) - 1))%Z by lia.
    rewrite Z.pow_succ_r by lia. lia.
  - simpl. lia.
Qed.

(** One rounding stage keeps a positive mantissa positive when the value is
    above the smallest subnormal, and leaves the exponent at least [emin]
    unless it changes nothing. *)
Lemma shr_fexp_positive (m : positive) (e : Z) (l : location) :
  (emin < Zpos (digits2_pos m) + e)%Z ->
  (0 < shr_m (fst (shr_fexp prec emax (Zpos m) e l)))%Z
  /\ ((emin <= snd (shr_fexp prec emax (Zpos m) e l))%Z
      \/ shr_fexp prec emax (Zpos m) e l = (shr_record_of_loc (Zpos m) l, e)).
Proof.
  intros H. unfold shr_fexp, shr. simpl Zdigits2.
  set (d := Zpos (digits2_pos m)) in *.
  assert (Hd : (2 ^ (d - 1) <= Zpos m)%Z) by apply digits2_pos_lower.
  unfold fexp.
  destruct (Z.max (d + e - prec) emin - e)%Z as [|p|p] eqn:En; simpl fst; simpl snd.
  - split; [destruct l as [|[]]; simpl; lia | right; reflexivity].
  - split.
    + rewrite iter_pos_nat. apply shr_iter_positive.
      rewrite positive_nat_Z.
      assert (Hp : (Zpos p <= d - 1)%Z) by (unfold SpecFloat.emin, prec, emax in *; lia).
      replace (shr_m (shr_record_of_loc (Zpos m) l)) with (Zpos m)
        by (destruct l as [|[]]; reflexivity).
      eapply Z.le_trans; [|exact Hd].
      apply Z.pow_le_mono_r; lia.
    + left. unfold SpecFloat.emin, prec, emax in *; lia.
  - split; [destruct l as [|[]]; simpl; lia | right; reflexivity].
Qed.

Lemma round_nearest_even_positive (m : Z) (l : location) :
  (0 < m)%Z -> (0 < round_nearest_even m l)%Z.
Proof.
  intros H. destruct l as [|[]]; simpl; try lia.
  destruct (Z.even m); lia.
Qed.

(** Rounding an exact product or sum above the smallest subnormal never
    gives a zero. *)
Lemma binary_round_aux_nonzero (s : bool) (m : positive) (e : Z) :
  (emin < Zpos (digits2_pos m) + e)%Z ->
  sf_is_zero (binary_round_aux prec emax s (Zpos m) e loc_Exact) = false.
Proof.
  intros H. unfold binary_round_aux.
  destruct (shr_fexp_positive m e loc_Exact H) as [Hpos Hcase].
  destruct (shr_fexp prec emax (Zpos m) e loc_Exact) as [mrs' e'] eqn:E1.
  simpl fst in *; simpl snd in *.
  set (m'' := round_nearest_even (shr_m mrs') (loc_of_shr_record mrs')).
  assert (Hm'' : (0 < m'')%Z) by (apply round_nearest_even_positive; exact Hpos).
  destruct m'' as [|q|q] eqn:Eq; try lia.
  assert (H2 : (emin < Zpos (digits2_pos q) + e')%Z).
  { destruct Hcase as [He'|Hsame].
    - lia.
    - injection Hsame as Hm He. subst mrs' e'. simpl in m''.
      unfold m'' in Eq. simpl in Eq. injection Eq as <-. exact H. }
  destruct (shr_fexp_positive q e' loc_Exact H2) as [Hpos2 _].
  destruct (shr_fexp prec emax (Zpos q) e' loc_Exact) as [mrs'' e''].
  simpl fst in Hpos2.
  destruct (shr_m mrs'') as [|r|r]; try lia.
  destruct (e'' <=? emax - prec)%Z; reflexivity.
Qed.

(** *** Products of numbers that are not tiny *)

Lemma SFmul_nonzero (sx sy : bool) (mx my : positive) (ex ey : Z) :
  (emin < 1 + (ex + ey))%Z ->
  sf_is_zero (SFmul prec emax (S754_finite sx mx ex) (S754_finite sy my ey)) = false.
Proof.
  intros H. simpl. apply binary_round_aux_nonzero.
  pose proof (Pos2Z.is_pos (digits2_pos (mx * my))). lia.
Qed.

(** *** Differences of distinct numbers *)

Lemma iter_xO_digits (m d : positive) :
  digits2_pos (Pos.iter xO m d) = (digits2_pos m + d)%positive.
Proof.
  induction d as [|d IH] using Pos.peano_ind.
  - simpl. lia.
  - rewrite Pos.iter_succ. simpl. rewrite IH. lia.
Qed.

Lemma binary_round_nonzero (s : bool) (m : positive) (e : Z) :
  (emin <= e)%Z -> sf_is_zero (binary_round prec emax s m e) = false.
Proof.
  intros H. unfold binary_round, shl_align.
  pose proof (Pos2Z.is_pos (digits2_pos m)) as Hd.
  destruct (fexp prec emax (Zpos (digits2_pos m) + e) - e)%Z as [|d|d] eqn:E;
    apply binary_round_aux_nonzero.
  - lia.
  - lia.
  - pose proof (Pos2Z.is_pos (digits2_pos (Pos.iter xO m d))).
    unfold fexp in *. lia.
Qed.

Lemma valid_finite (s : bool) (m : positive) (e : Z) :
  SpecFloat.valid_binary prec emax (S754_finite s m e) = true ->
  Z.max (Zpos (digits2_pos m) + e - prec) emin = e.
Proof.
  simpl. unfold bounded, canonical_mantissa, fexp.
  intros H. apply andb_prop in H. destruct H as [H _].
  apply Z.eqb_eq in H. exact H.
Qed.

Lemma aligned_eq (mx my : positive) (ex ey : Z) :
  Z.max (Zpos (digits2_pos mx) + ex - prec) emin = ex ->
  Z.max (Zpos (digits2_pos my) + ey - prec) emin = ey ->
  fst (shl_align mx ex (Z.min ex ey)) = fst (shl_align my ey (Z.min ex ey)) ->
  mx = my /\ ex = ey.
Proof.
  intros Hx Hy. unfold shl_align.
  destruct (Z.min ex ey - ex)%Z as [|dx|dx] eqn:Ex;
    destruct (Z.min ex ey - ey)%Z as [|dy|dy] eqn:Ey; simpl; try lia.
  - intros ->. rewrite iter_xO_digits in Hx. lia.
  - intros <-. rewrite iter_xO_digits in Hy. lia.
Qed.

Lemma SFsub_zero (x y : spec_float) :
  SpecFloat.valid_binary prec emax x = true -> SpecFloat.valid_binary prec emax y = true ->
  sf_is_zero (SFsub prec emax x y) = true ->
  x = y \/ (sf_is_zero x = true /\ sf_is_zero y = true).
Proof.
  intros Vx Vy.
  destruct x as [sx|sx| |sx mx ex], y as [sy|sy| |sy my ey]; simpl;
    try discriminate; try (intros _; right; split; reflexivity);
    try (destruct sx, sy; discriminate).
  apply valid_finite in Vx, Vy.
  set (ax := fst (shl_align mx ex (Z.min ex ey))).
  set (ay := fst (shl_align my ey (Z.min ex ey))).
  intros H.
  assert (Hz : (cond_Zopp sx (Zpos ax) - cond_Zopp sy (Zpos ay) = 0)%Z).
  { destruct (cond_Zopp sx (Zpos ax) - cond_Zopp sy (Zpos ay))%Z as [|p|p];
      [reflexivity | | ]; simpl in H;
      rewrite binary_round_nonzero in H; try discriminate;
      unfold SpecFloat.emin, prec, emax in *; lia. }
  assert (sx = sy /\ ax = ay) as [-> Ha].
  { destruct sx, sy; cbn [cond_Zopp] in Hz; try lia; split; try reflexivity; lia. }
  destruct (aligned_eq mx my ex ey Vx Vy Ha) as [-> ->]. left; reflexivity.
Qed.

Lemma SFltb_zero_sign (a : spec_float) (s1 s2 : bool) :
  SFltb a (S754_zero s1) = SFltb a (S754_zero s2).
Proof. destruct a as [s|s| |s m e]; reflexivity. Qed.

(** The difference of two numbers is zero only if no number separates
    them. *)
Lemma sub_zero_same_side (a b y : float) :
  is_zero (a - b) = true -> (y <? a) = (y <? b).
Proof.
  rewrite is_zero_spec, sub_spec, !ltb_spec. intros H.
  destruct (SFsub_zero _ _ (Prim2SF_valid a) (Prim2SF_valid b) H) as [E|[Za Zb]].
  - rewrite E. reflexivity.
  - destruct (Prim2SF a) as [sa| | |]; try discriminate.
    destruct (Prim2SF b) as [sb| | |]; try discriminate.
    apply SFltb_zero_sign.
Qed.

(** *** Six times a number that is not small *)

Lemma six_times_nonzero (a : float) :
  (abs a <? 0.001) = false -> is_zero (6 * a) = false.
Proof.
  rewrite ltb_spec, abs_spec, is_zero_spec, mul_spec.
  replace (Prim2SF 6) with (S754_finite false 6755399441055744 (-50))
    by (vm_compute; reflexivity).
  replace (Prim2SF 0.001) with (S754_finite false 4611686018427388 (-62))
    by (vm_compute; reflexivity).
  destruct (Prim2SF a) as [s|s| |s m e].
  - discriminate.
  - reflexivity.
  - reflexivity.
  - intros H. apply SFmul_nonzero.
    unfold SFltb, SFabs, SFcompare in H.
    destruct (e ?= -62)%Z eqn:E; try discriminate.
    + apply Z.compare_eq in E. unfold SpecFloat.emin, prec, emax. lia.
    + apply Z.compare_gt_iff in E. unfold SpecFloat.emin, prec, emax. lia.
Qed.

(** *** The length of a list that is not empty *)

Lemma of_nat_nonzero (n : nat) : (0 < n)%nat -> is_zero (JS.of_nat n) = false.
Proof.
  intros H. unfold JS.of_nat. rewrite is_zero_spec, of_uint63_spec, Uint63.of_Z_spec.
  rewrite Z.mod_small by (unfold Uint63.wB; simpl; lia).
  destruct (Z.min (Z.of_nat n) 9223372036854775807) as [|p|p] eqn:E; try lia.
  apply binary_round_nonzero. unfold SpecFloat.emin, prec, emax. lia.
Qed.

(** *** NaN *)

Lemma is_nan_spec (f : float) : is_nan f = sf_is_nan (Prim2SF f).
Proof.
  unfold is_nan. rewrite FloatAxioms.eqb_spec. unfold SFeqb.
  destruct (Prim2SF f) as [s|s| |s m e]; simpl; try reflexivity.
  - destruct s; reflexivity.
  - rewrite Z.compare_refl, Pos.compare_cont_refl. destruct s; reflexivity.
Qed.

Lemma eqb_refl_not_nan (f : float) : is_nan f = false -> (f =? f) = true.
Proof. unfold is_nan. destruct (f =? f); [reflexivity | discriminate]. Qed.

Lemma ltb_not_nan (a b : float) :
  (a <? b) = true -> is_nan a = false /\ is_nan b = false.
Proof.
  rewrite ltb_spec, !is_nan_spec. unfold SFltb.
  destruct (Prim2SF a), (Prim2SF b); simpl; try discriminate; intros _; split; reflexivity.
Qed.

Lemma add_not_nan (a b : float) :
  is_nan (a + b) = false -> is_nan a = false /\ is_nan b = false.
Proof.
  rewrite !is_nan_spec, add_spec.
  destruct (Prim2SF a), (Prim2SF b); intros H; split; try reflexivity; exact H.
Qed.

Lemma sub_not_nan (a b : float) :
  is_nan (a - b) = false -> is_nan a = false /\ is_nan b = false.
Proof.
  rewrite !is_nan_spec, sub_spec.
  destruct (Prim2SF a), (Prim2SF b); intros H; split; try reflexivity; exact H.
Qed.

Lemma mul_not_nan (a b : float) :
  is_nan (a * b) = false -> is_nan a = false /\ is_nan b = false.
Proof.
  rewrite !is_nan_spec, mul_spec.
  destruct (Prim2SF a), (Prim2SF b); intros H; split; try reflexivity; exact H.
Qed.

Lemma div_not_nan (a b : float) :
  is_nan (a / b) = false -> is_nan a = false /\ is_nan b = false.
Proof.
  rewrite !is_nan_spec, div_spec.
  destruct (Prim2SF a), (Prim2SF b); intros H; split; try reflexivity; exact H.
Qed.

(** ** Facts about binary64 comparison *)

Lemma SFcompare_antisym (a b : spec_float) (c : comparison) :
  SFcompare a b = Some c -> SFcompare b a = Some (CompOpp c).
Proof.
  destruct a as [sa|sa| |sa ma ea], b as [sb|sb| |sb mb eb]; simpl;
    try discriminate;
    try (intros [= <-]; try destruct sa; try destruct sb; reflexivity).
  intros [= <-]. f_equal.
  rewrite (Z.compare_antisym ea eb).
  change (Pos.compare_cont Eq mb ma) with (Pos.compare_cont (CompOpp Eq) mb ma).
  rewrite <- (Pos.compare_cont_antisym ma mb Eq).
  destruct sa, sb, (ea ?= eb)%Z; simpl; try reflexivity;
    destruct (Pos.compare_cont Eq ma mb); reflexivity.
Qed.

(** [a <= b] excludes [b < a]. *)
Lemma leb_ltb_false (a b : float) : (a <=? b) = true -> (b <? a) = false.
Proof.
  rewrite leb_spec, ltb_spec. unfold SFleb, SFltb.
  destruct (SFcompare (Prim2SF a) (Prim2SF b)) as [c|] eqn:E; try discriminate.
  rewrite (SFcompare_antisym _ _ _ E).
  destruct c; simpl; congruence.
Qed.

Lemma ltb_irrefl (a : float) : (a <? a) = false.
Proof.
  rewrite ltb_spec. unfold SFltb.
  destruct (SFcompare (Prim2SF a) (Prim2SF a)) as [c|] eqn:E; [|reflexivity].
  pose proof (SFcompare_antisym _ _ _ E) as E'. rewrite E in E'.
  destruct c; try reflexivity; discriminate.
Qed.

Lemma ltb_asym (a b : float) : (a <? b) = true -> (b <? a) = false.
Proof.
  rewrite !ltb_spec. unfold SFltb.
  destruct (SFcompare (Prim2SF a) (Prim2SF b)) as [c|] eqn:E; try discriminate.
  rewrite (SFcompare_antisym _ _ _ E). destruct c; try discriminate. reflexivity.
Qed.

Lemma ltb_infinity (a : float) : (infinity <? a) = false.
Proof.
  rewrite ltb_spec. replace (Prim2SF infinity) with (S754_infinity false)
    by (vm_compute; reflexivity).
  destruct (Prim2SF a) as [s|s| |s m e]; try destruct s; reflexivity.
Qed.

(** [Math.min] of two numbers is one of them, and neither is below it. *)
Lemma Math_min_pair (a b : float) :
  is_nan a = false -> is_nan b = false ->
  (JS.Math_min [a; b] = a \/ JS.Math_min [a; b] = b)
  /\ (a <? JS.Math_min [a; b]) = false
  /\ (b <? JS.Math_min [a; b]) = false.
Proof.
  intros Ha Hb. unfold JS.Math_min. cbn [fold_left].
  assert (E : JS.Math_min2 infinity a = a).
  { unfold JS.Math_min2. rewrite Ha, ltb_infinity.
    replace (is_nan infinity) with false by reflexivity. simpl.
    destruct (a <? infinity); reflexivity. }
  rewrite E. unfold JS.Math_min2. rewrite Ha, Hb. simpl.
  destruct (a <? b) eqn:Hab.
  - repeat split; [left; reflexivity | apply ltb_irrefl | apply ltb_asym; exact Hab].
  - destruct (b <? a) eqn:Hba.
    + repeat split; [right; reflexivity | exact Hab | apply ltb_irrefl].
    + destruct (get_sign a).
      * repeat split; [left; reflexivity | apply ltb_irrefl | exact Hba].
      * repeat split; [right; reflexivity | exact Hab | apply ltb_irrefl].
Qed.

(** ** The opposite of a number and its absolute value *)

(** Rounding treats a number and its opposite alike. *)
Lemma binary_round_aux_opp (s : bool) (m e : Z) (l : location) :
  binary_round_aux prec emax (negb s) m e l
  = SFopp (binary_round_aux prec emax s m e l).
Proof.
  unfold binary_round_aux.
  destruct (shr_fexp prec emax m e l) as [mrs' e'].
  destruct (shr_fexp prec emax _ e' loc_Exact) as [mrs'' e''].
  destruct (shr_m mrs''); [reflexivity | | reflexivity].
  destruct (e'' <=? emax - prec)%Z; reflexivity.
Qed.

Lemma binary_round_opp (s : bool) (m : positive) (e : Z) :
  binary_round prec emax (negb s) m e = SFopp (binary_round prec emax s m e).
Proof.
  unfold binary_round.
  destruct (shl_align m e _) as [mz ez]. apply binary_round_aux_opp.
Qed.

Lemma binary_normalize_opp (m e : Z) :
  m <> 0%Z ->
  binary_normalize prec emax (- m) e false
  = SFopp (binary_normalize prec emax m e false).
Proof.
  destruct m as [|p|p]; [congruence| |]; intros _; unfold binary_normalize.
  - change (- Z.pos p)%Z with (Z.neg p). apply (binary_round_opp false).
  - change (- Z.neg p)%Z with (Z.pos p).
    rewrite (binary_round_opp false). 
    destruct (binary_round prec emax false p e) as [s|s| |s m' e'];
      try destruct s; reflexivity.
Qed.

(** The two differences of two numbers are opposite, or both [+0]. *)
Lemma SFsub_swap (x y : spec_float) :
  SFsub prec emax y x = SFopp (SFsub prec emax x y)
  \/ (SFsub prec emax y x = S754_zero false /\ SFsub prec emax x y = S754_zero false).
Proof.
  destruct x as [sx|sx| |sx mx ex], y as [sy|sy| |sy my ey];
    try (left; reflexivity);
    try (destruct sx, sy; (left; reflexivity) || (right; split; reflexivity)).
  unfold SFsub. rewrite (Z.min_comm ey ex).
  set (ez := Z.min ex ey).
  set (a := cond_Zopp sx (Z.pos (fst (shl_align mx ex ez)))).
  set (b := cond_Zopp sy (Z.pos (fst (shl_align my ey ez)))).
  cbv zeta.
  destruct (Z.eq_dec (a - b) 0) as [E|E].
  - right. replace (b - a)%Z with 0%Z by lia. rewrite E. split; reflexivity.
  - left. replace (b - a)%Z with (- (a - b))%Z by lia.
    apply binary_normalize_opp. exact E.
Qed.

(** [Math.abs]: the number itself when it is above zero, its opposite when
    it is below, [+0] for a zero of either sign, and never below zero. *)
Lemma Math_abs_cases (v : float) :
  ((0 <? v) = true -> JS.Math_abs v = v)
  /\ ((v <? 0) = true -> JS.Math_abs v = - v)
  /\ ((v =? 0) = true -> JS.Math_abs v = 0)
  /\ (JS.Math_abs v <? 0) = false.
Proof.
  unfold JS.Math_abs.
  rewrite !ltb_spec, eqb_spec, abs_spec.
  replace (Prim2SF 0) with (S754_zero false) by (vm_compute; reflexivity).
  repeat split; try intros H; try apply Prim2SF_inj;
    rewrite ?abs_spec, ?opp_spec;
    destruct (Prim2SF v) as [s|s| |s m e]; try destruct s;
    try reflexivity; try discriminate H.
Qed.

(** The absolute value of a difference does not depend on its direction. *)
Lemma Math_abs_difference (a b : float) :
  JS.Math_abs (a - b) = JS.Math_abs (b - a).
Proof.
  unfold JS.Math_abs. apply Prim2SF_inj. rewrite !abs_spec, !sub_spec.
  unfold SF64sub.
  destruct (SFsub_swap (Prim2SF b) (Prim2SF a)) as [E|[E1 E2]].
  - rewrite E. destruct (SFsub prec emax (Prim2SF b) (Prim2SF a)) as [s|s| |s m e];
      reflexivity.
  - rewrite E1, E2. reflexivity.
Qed.

(** ** Rounding in binary64

    The operations of the binary64 specification round a result to the
    nearest representable number.  The lemmas of this part read that off
    the definitions of [SpecFloat]: a product and a quotient are within half
    a unit of the last place of the exact result, an integer of magnitude up
    to [2^52] is represented exactly, and [Math.round] gives
    [floor(v + 1/2)]. *)

Local Open Scope Z_scope.

(** *** Shifts as truncated quotients *)

Lemma shr_1_nonneg (m : Z) (r s : bool) :
  0 <= m ->
  shr_1 {| shr_m := m; shr_r := r; shr_s := s |}
  = {| shr_m := m / 2; shr_r := Z.odd m; shr_s := r || s |}.
Proof.
  intros Hm. rewrite <- Z.div2_div.
  destruct m as [|p|p]; [reflexivity | | lia].
  destruct p; reflexivity.
Qed.

Lemma shr_1_truncated (N D : Z) :
  0 <= N -> 0 < D -> shr_1 (truncated N D) = truncated N (2 * D).
Proof.
  intros HN HD. unfold truncated.
  rewrite shr_1_nonneg by (apply Z.div_pos; lia).
  pose proof (Z.div_mod N D ltac:(lia)) as E.
  pose proof (Z.mod_pos_bound N D HD) as Hr.
  assert (E2 : N mod (2 * D) = N mod D + D * ((N / D) mod 2)).
  { rewrite (Z.mul_comm 2 D). apply Z.rem_mul_r; lia. }
  assert (Hq : N / (2 * D) = N / D / 2).
  { rewrite (Z.mul_comm 2 D). symmetry. apply Z.div_div; lia. }
  rewrite Hq, E2.
  set (q := N / D) in *. set (r := N mod D) in *.
  pose proof (Z.mod_pos_bound q 2 ltac:(lia)) as Hq2.
  rewrite (Zodd_mod q).
  assert (Hc : q mod 2 = 0 \/ q mod 2 = 1) by lia.
  destruct Hc as [-> | ->]; rewrite ?Z.mul_0_r, ?Z.mul_1_r, ?Z.add_0_r; f_equal.
  - destruct (Z.leb_spec (2 * D) (2 * r)); [lia | reflexivity].
  - destruct (Z.leb_spec D (2 * r)), (Z.eqb_spec r 0), (Z.eqb_spec (2 * r) D),
      (Z.eqb_spec (2 * r) (2 * D)); simpl; try reflexivity; lia.
  - destruct (Z.leb_spec (2 * D) (2 * (r + D))); [reflexivity | lia].
  - destruct (Z.leb_spec D (2 * r)), (Z.eqb_spec r 0), (Z.eqb_spec (2 * r) D),
      (Z.eqb_spec (r + D) 0), (Z.eqb_spec (2 * (r + D)) (2 * D));
      simpl; try reflexivity; lia.
Qed.

Lemma iter_shr_1_truncated (n : nat) (N D : Z) :
  0 <= N -> 0 < D ->
  Nat.iter n shr_1 (truncated N D) = truncated N (2 ^ Z.of_nat n * D).
Proof.
  intros HN HD. induction n as [|n IH].
  - simpl. f_equal. destruct D; reflexivity.
  - rewrite Nat.iter_succ, IH.
    rewrite shr_1_truncated; [|exact HN|
      apply Z.mul_pos_pos; [apply Z.pow_pos_nonneg; lia | exact HD]].
    f_equal. rewrite Nat2Z.inj_succ, Z.pow_succ_r by lia. ring.
Qed.

(** [shr] by [n] binary places. *)
Lemma shr_truncated (N D e n : Z) :
  0 <= N -> 0 < D ->
  shr (truncated N D) e n
  = (truncated N (2 ^ Z.max n 0 * D), e + Z.max n 0).
Proof.
  intros HN HD. unfold shr. destruct n as [|p|p].
  - simpl. f_equal; [f_equal; destruct D; reflexivity | lia].
  - rewrite iter_pos_nat, iter_shr_1_truncated by assumption.
    rewrite positive_nat_Z. rewrite Z.max_l by lia. reflexivity.
  - rewrite Z.max_r by lia. simpl. f_equal; [f_equal; destruct D; reflexivity | lia].
Qed.

(** Rounding the record to the nearest integer, a tie to the even one. *)
Lemma round_nearest_even_truncated (N D : Z) :
  0 <= N -> 0 < D ->
  let R := round_nearest_even (shr_m (truncated N D))
             (loc_of_shr_record (truncated N D)) in
  2 * Z.abs (R * D - N) <= D /\ N / D <= R <= N / D + 1.
Proof.
  intros HN HD. unfold truncated. cbn [shr_m loc_of_shr_record].
  pose proof (Z.div_mod N D ltac:(lia)) as E.
  pose proof (Z.mod_pos_bound N D HD) as Hr.
  set (q := N / D) in *. set (r := N mod D) in *.
  destruct (Z.leb_spec D (2 * r)), (Z.eqb_spec r 0), (Z.eqb_spec (2 * r) D);
    cbn [negb orb round_nearest_even]; try destruct (Z.even q); nia.
Qed.

(** *** The rounding step *)

Lemma digits2_pos_upper (m : positive) : Zpos m < 2 ^ Zpos (digits2_pos m).
Proof.
  induction m as [m IH|m IH|]; simpl digits2_pos.
  - rewrite Pos2Z.inj_succ, Z.pow_succ_r by lia. lia.
  - rewrite Pos2Z.inj_succ, Z.pow_succ_r by lia. lia.
  - reflexivity.
Qed.

Lemma Zdigits2_nonneg (m : Z) : 0 <= Zdigits2 m.
Proof. destruct m; simpl; lia. Qed.

Lemma Zdigits2_bounds (m : Z) :
  0 < m -> 2 ^ (Zdigits2 m - 1) <= m < 2 ^ Zdigits2 m.
Proof.
  destruct m as [|p|p]; try lia. intros _. simpl.
  split; [apply digits2_pos_lower | apply digits2_pos_upper].
Qed.

Lemma Zdigits2_le (m k : Z) : 0 <= m < 2 ^ k -> 0 <= k -> Zdigits2 m <= k.
Proof.
  intros [H0 H1] Hk. destruct (Z.eq_dec m 0) as [->|Hm]; [simpl; lia|].
  destruct (Zdigits2_bounds m ltac:(lia)) as [Hl _].
  destruct (Z_le_gt_dec (Zdigits2 m) k) as [|Hgt]; [assumption|].
  assert (2 ^ k <= 2 ^ (Zdigits2 m - 1)) by (apply Z.pow_le_mono_r; lia).
  lia.
Qed.

Lemma Zdigits2_gt (m k : Z) : 0 <= k -> 2 ^ k <= m -> k < Zdigits2 m.
Proof.
  intros Hk H.
  assert (0 < 2 ^ k) by (apply Z.pow_pos_nonneg; lia).
  destruct (Zdigits2_bounds m ltac:(lia)) as [_ Hu].
  destruct (Z_lt_le_dec k (Zdigits2 m)) as [|Hle]; [assumption|].
  assert (2 ^ Zdigits2 m <= 2 ^ k)
    by (apply Z.pow_le_mono_r; [lia | exact Hle]).
  lia.
Qed.

Lemma truncated_one (R : Z) :
  truncated R 1 = {| shr_m := R; shr_r := false; shr_s := false |}.
Proof.
  unfold truncated. rewrite Z.div_1_r, Z.mod_1_r. reflexivity.
Qed.

(** What [binary_round_aux] returns for the quotient [N / D] in units of
    [2^e]: a mantissa [R] at the exponent [e + k], no more than half a unit
    of that exponent away from the quotient; and no more than a quarter of
    it when the quotient was rounded up to the power of two [2^52 * 2^(e+k)],
    since what lies below a power of two is rounded at the finer exponent. *)
Lemma binary_round_aux_correct (s : bool) (N D m e : Z) (l : location) :
  0 <= N -> 0 < D -> shr_record_of_loc m l = truncated N D ->
  exists R k : Z,
    0 <= R < 2 ^ prec /\ 0 <= k
    /\ 2 * Z.abs (R * 2 ^ k * D - N) <= 2 ^ k * D
    /\ (k = Z.max (fexp prec emax (Zdigits2 m + e) - e) 0
        \/ (k = Z.max (fexp prec emax (Zdigits2 m + e) - e) 0 + 1
            /\ R = 2 ^ (prec - 1)))
    /\ emin <= e + k
    /\ ((emin < e + Z.max (fexp prec emax (Zdigits2 m + e) - e) 0 ->
         prec <= Zdigits2 m) ->
        emin < e + k -> R = 2 ^ (prec - 1) -> N < R * 2 ^ k * D ->
        4 * (R * 2 ^ k * D - N) <= 2 ^ k * D)
    /\ binary_round_aux prec emax s m e l
       = match R with
         | 0 => S754_zero s
         | Zpos p => if e + k <=? emax - prec then S754_finite s p (e + k)
                     else S754_infinity s
         | Zneg _ => S754_nan
         end.
Proof.
  intros HN HD Hrec.
  assert (Hm : m = N / D).
  { apply (f_equal shr_m) in Hrec. destruct l as [|[]]; exact Hrec. }
  unfold binary_round_aux, shr_fexp. rewrite Hrec.
  rewrite shr_truncated by assumption.
  set (n1 := Z.max (fexp prec emax (Zdigits2 m + e) - e) 0).
  assert (Hn1 : 0 <= n1) by (unfold n1; lia).
  assert (Hp1 : 0 < 2 ^ n1) by (apply Z.pow_pos_nonneg; lia).
  set (D1 := 2 ^ n1 * D).
  assert (HD1 : 0 < D1) by (unfold D1; nia).
  destruct (round_nearest_even_truncated N D1 HN HD1) as [Herr HR].
  set (R1 := round_nearest_even (shr_m (truncated N D1))
               (loc_of_shr_record (truncated N D1))) in *.
  assert (Hq1 : N / D1 < 2 ^ prec).
  { unfold D1. rewrite (Z.mul_comm (2 ^ n1) D), <- Z.div_div by lia.
    rewrite <- Hm.
    assert (Hm0 : 0 <= m) by (rewrite Hm; apply Z.div_pos; lia).
    apply Z.div_lt_upper_bound; [exact Hp1|].
    rewrite <- Z.pow_add_r by (unfold prec; lia).
    destruct (Z.eq_dec m 0) as [->|Hne];
      [apply Z.pow_pos_nonneg; unfold prec; lia|].
    destruct (Zdigits2_bounds m ltac:(lia)) as [_ Hu].
    eapply Z.lt_le_trans; [exact Hu|].
    apply Z.pow_le_mono_r; [lia|].
    unfold n1, fexp, prec. lia. }
  assert (Hq0 : 0 <= N / D1) by (apply Z.div_pos; lia).
  assert (HR1 : 0 <= R1 <= 2 ^ prec) by lia.
  assert (He1 : emin <= e + n1).
  { unfold n1, fexp, SpecFloat.emin. lia. }
  cbn [fst snd].
  change (shr_record_of_loc R1 loc_Exact)
    with {| shr_m := R1; shr_r := false; shr_s := false |}.
  rewrite <- truncated_one.
  rewrite shr_truncated by lia.
  set (n2 := Z.max (fexp prec emax (Zdigits2 R1 + (e + n1)) - (e + n1)) 0).
  rewrite Z.mul_1_r.
  assert (Hcases : (n2 = 0 /\ R1 < 2 ^ prec) \/ (n2 = 1 /\ R1 = 2 ^ prec)).
  { destruct (Z_lt_le_dec R1 (2 ^ prec)) as [Hlt|Hge].
    - left. split; [|exact Hlt].
      assert (Zdigits2 R1 <= prec) by (apply Zdigits2_le; unfold prec in *; lia).
      unfold n2, fexp, SpecFloat.emin, prec, emax in *. lia.
    - right. assert (E : R1 = 2 ^ prec) by lia. split; [|exact E].
      unfold n2. rewrite E. change (Zdigits2 (2 ^ prec)) with 54.
      unfold fexp, SpecFloat.emin, prec, emax in *. lia. }
  cbn [shr_m truncated].
  destruct Hcases as [[-> Hlt]|[-> E]].
  - exists R1, n1. rewrite Z.pow_0_r, Z.div_1_r, Z.add_0_r.
    split; [lia|]. split; [exact Hn1|].
    split; [rewrite <- Z.mul_assoc; exact Herr|].
    split; [left; reflexivity|]. split; [exact He1|].
    split; [|reflexivity].
    intros Hdig Hnorm ER Hup. exfalso.
    specialize (Hdig Hnorm).
    assert (Hm0 : 0 < m).
    { assert (H0 : 0 <= m) by (rewrite Hm; apply Z.div_pos; lia).
      destruct (Z.eq_dec m 0) as [E0|E0]; [|lia].
      rewrite E0 in Hdig. simpl in Hdig. unfold prec in Hdig. lia. }
    destruct (Zdigits2_bounds m Hm0) as [Hl _].
    assert (En1 : n1 = Zdigits2 m - prec).
    { unfold n1, fexp, SpecFloat.emin, prec, emax in *. lia. }
    assert (E2 : 2 ^ (Zdigits2 m - 1) = 2 ^ (prec - 1) * 2 ^ n1).
    { rewrite <- Z.pow_add_r by (unfold prec in *; lia). f_equal. lia. }
    assert (HmD : m * D <= N).
    { rewrite Hm, Z.mul_comm. apply Z.mul_div_le. lia. }
    rewrite ER, <- Z.mul_assoc in Hup. fold D1 in Hup.
    unfold D1 in Hup. rewrite E2 in Hl.
    assert (H1 : 2 ^ (prec - 1) * 2 ^ n1 * D <= m * D)
      by (apply Z.mul_le_mono_nonneg_r; lia).
    lia.
  - exists (2 ^ (prec - 1)), (n1 + 1).
    assert (EE : 2 ^ (prec - 1) * 2 ^ (n1 + 1) * D = R1 * D1).
    { rewrite Z.pow_add_r, Z.pow_1_r by lia.
      rewrite E; unfold D1, prec; change (2 ^ 53) with (2 ^ (53 - 1) * 2); ring. }
    assert (E3 : 2 ^ (n1 + 1) * D = 2 * D1).
    { rewrite Z.pow_add_r, Z.pow_1_r by lia. unfold D1. ring. }
    split; [unfold prec; simpl; lia|]. split; [lia|].
    split; [rewrite EE, E3; lia|].
    split; [right; split; reflexivity|]. split; [lia|].
    split; [intros _ _ _ _; rewrite EE, E3; lia|].
    rewrite E. change (2 ^ prec / 2 ^ 1) with (2 ^ (prec - 1)).
    rewrite Z.add_assoc. reflexivity.
Qed.

(** *** Powers of two *)

Lemma Qpow2_pos (e : Z) : (0 < 2 ^ e)%Q.
Proof. apply Qpower_0_lt. reflexivity. Qed.

Lemma Qpow2_add (a b : Z) : (2 ^ (a + b) == 2 ^ a * 2 ^ b)%Q.
Proof. apply Qpower_plus. discriminate. Qed.

Lemma Qpow2_inject (n : Z) : 0 <= n -> (2 ^ n == inject_Z (2 ^ n))%Q.
Proof. intros H. symmetry. apply (Zpower_Qpower 2 n H). Qed.

Lemma Qpow2_le (a b : Z) : a <= b -> (2 ^ a <= 2 ^ b)%Q.
Proof. intros H. apply Qpower_le_compat_l; [exact H | discriminate]. Qed.

Lemma Qpow2_lt (a b : Z) : a < b -> (2 ^ a < 2 ^ b)%Q.
Proof. intros H. apply Qpower_lt_compat_l; [exact H | reflexivity]. Qed.

Lemma Qpow2_succ (a : Z) : (2 ^ (a + 1) == 2 * 2 ^ a)%Q.
Proof. rewrite Qpow2_add. change (2 ^ 1)%Q with 2%Q. ring. Qed.

(** The error bound of [binary_round_aux_correct] among the rationals. *)
Lemma half_unit_Q (R k D N e : Z) :
  0 < D -> 0 <= k ->
  2 * Z.abs (R * 2 ^ k * D - N) <= 2 ^ k * D ->
  (Qabs (inject_Z R * 2 ^ (e + k) - inject_Z N / inject_Z D * 2 ^ e) * 2
   <= 2 ^ (e + k))%Q.
Proof.
  intros HD Hk H.
  assert (Hd : (0 < inject_Z D)%Q) by (rewrite Zlt_Qlt in HD; exact HD).
  assert (Hd0 : ~ (inject_Z D == 0)%Q) by lra.
  pose proof (Qpow2_pos e) as HE.
  rewrite Qpow2_add, (Qpow2_inject k Hk).
  set (E := (2 ^ e)%Q) in *. set (K := inject_Z (2 ^ k)).
  set (y := (inject_Z N / inject_Z D)%Q).
  assert (Hy : (inject_Z N == y * inject_Z D)%Q) by (unfold y; field; exact Hd0).
  assert (H1 : 2 * (R * 2 ^ k * D - N) <= 2 ^ k * D) by lia.
  assert (H2 : - (2 ^ k * D) <= 2 * (R * 2 ^ k * D - N)) by lia.
  rewrite Zle_Qle in H1, H2.
  repeat (rewrite ?inject_Z_opp, ?inject_Z_mult, ?inject_Z_plus,
            ?inject_Z_minus in H1, H2; unfold Zminus in H1, H2).
  fold K in H1, H2. change (inject_Z 2) with 2%Q in H1, H2.
  assert (G1 : (2 * (inject_Z R * K - y) <= K)%Q).
  { apply (Qmult_le_r _ _ (inject_Z D) Hd).
    setoid_replace (2 * (inject_Z R * K - y) * inject_Z D)%Q
      with (2 * (inject_Z R * K * inject_Z D + - (y * inject_Z D)))%Q by ring.
    rewrite <- Hy. exact H1. }
  assert (G2 : (- K <= 2 * (inject_Z R * K - y))%Q).
  { apply (Qmult_le_r _ _ (inject_Z D) Hd).
    setoid_replace (2 * (inject_Z R * K - y) * inject_Z D)%Q
      with (2 * (inject_Z R * K * inject_Z D + - (y * inject_Z D)))%Q by ring.
    rewrite <- Hy.
    setoid_replace (- K * inject_Z D)%Q with (- (K * inject_Z D))%Q by ring.
    exact H2. }
  setoid_replace (inject_Z R * (E * K) - y * E)%Q
    with ((inject_Z R * K - y) * E)%Q by ring.
  rewrite Qabs_Qmult, (Qabs_pos E) by lra.
  assert (G : (Qabs (inject_Z R * K - y) * 2 <= K)%Q).
  { apply Qabs_case; intros _; lra. }
  setoid_replace (Qabs (inject_Z R * K - y) * E * 2)%Q
    with ((Qabs (inject_Z R * K - y) * 2) * E)%Q by ring.
  rewrite (Qmult_comm E K). apply Qmult_le_compat_r; [exact G | lra].
Qed.

(** *** Products and quotients *)

(** [binary_round_aux] among the rationals: the result is within half a
    unit of its exponent of the quotient [N / D] in units of [2^e]. *)
Lemma binary_round_aux_Q (s : bool) (N D m e : Z) (l : location) :
  0 < N -> 0 < D -> shr_record_of_loc m l = truncated N D ->
  (forall k, k = Z.max (fexp prec emax (Zdigits2 m + e) - e) 0 ->
             2 * N <= 2 ^ k * D -> e + k = emin) ->
  let x := (inject_Z N / inject_Z D * 2 ^ e)%Q in
  match binary_round_aux prec emax s m e l with
  | S754_zero _ => (x * 2 <= 2 ^ emin)%Q
  | S754_finite s' p er =>
      s' = s /\ (Qabs (inject_Z (Zpos p) * 2 ^ er - x) * 2 <= 2 ^ er)%Q
  | S754_infinity _ => (2 ^ (emax - prec) <= x)%Q
  | S754_nan => False
  end.
Proof.
  intros HN HD Hrec Hzero x.
  destruct (binary_round_aux_correct s N D m e l ltac:(lia) HD Hrec)
    as (R & k & HR & Hk & Herr & Hcase & Hemin & _ & ->).
  pose proof (half_unit_Q R k D N e HD Hk Herr) as HQ. fold x in HQ.
  assert (Hx : (0 < x)%Q).
  { unfold x. apply Qmult_lt_0_compat; [|apply Qpow2_pos].
    apply Qlt_shift_div_l; [rewrite Zlt_Qlt in HD; exact HD|].
    rewrite Qmult_0_l. rewrite Zlt_Qlt in HN. exact HN. }
  clearbody x.
  destruct R as [|p|p]; [| |lia].
  - assert (Hk0 : k = Z.max (fexp prec emax (Zdigits2 m + e) - e) 0).
    { destruct Hcase as [E|[_ E]]; [exact E|]. discriminate E. }
    assert (E : e + k = emin).
    { apply Hzero; [exact Hk0|]. rewrite Z.mul_0_l, Z.sub_0_l, Z.abs_opp in Herr.
      lia. }
    rewrite E in HQ. change (inject_Z 0) with 0%Q in HQ.
    rewrite Qmult_0_l in HQ.
    setoid_replace (0 - x)%Q with (- x)%Q in HQ by ring.
    rewrite Qabs_opp, Qabs_pos in HQ by lra. exact HQ.
  - destruct (Z.leb_spec (e + k) (emax - prec)) as [Hle|Hgt].
    + split; [reflexivity | exact HQ].
    + assert (H1 : (1 <= inject_Z (Z.pos p))%Q).
      { change 1%Q with (inject_Z 1). rewrite <- Zle_Qle. lia. }
      pose proof (Qpow2_pos (e + k)) as Hp.
      assert (H2 : (2 ^ (emax - prec + 1) <= 2 ^ (e + k))%Q)
        by (apply Qpow2_le; lia).
      rewrite Qpow2_succ in H2.
      set (E := (2 ^ (e + k))%Q) in *. set (F := (2 ^ (emax - prec))%Q) in *.
      clearbody E F.
      assert (H4 : (E <= inject_Z (Z.pos p) * E)%Q).
      { rewrite <- (Qmult_1_l E) at 1. apply Qmult_le_compat_r; lra. }
      set (PE := (inject_Z (Z.pos p) * E)%Q) in *. clearbody PE.
      revert HQ. apply Qabs_case; intros Hs HQ; lra.
Qed.

Lemma SF2Q_finite (s : bool) (m : positive) (e : Z) :
  (SF2Q (S754_finite s m e)
   == (if s then -1 else 1) * (inject_Z (Zpos m) * 2 ^ e))%Q.
Proof.
  unfold SF2Q. destruct s; cbn [cond_Zopp].
  - change (Z.neg m) with (- Zpos m). rewrite inject_Z_opp. ring.
  - ring.
Qed.

Lemma Qabs_sign (s : bool) (a : Q) :
  (Qabs ((if s then -1 else 1) * a) == Qabs a)%Q.
Proof.
  destruct s.
  - setoid_replace (-1 * a)%Q with (- a)%Q by ring. apply Qabs_opp.
  - rewrite Qmult_1_l. reflexivity.
Qed.

Lemma sign_xorb (sx sy : bool) :
  ((if xorb sx sy then -1 else 1)
   == (if sx then -1 else 1) * (if sy then -1 else 1))%Q.
Proof. destruct sx, sy; reflexivity. Qed.

(** A product is rounded correctly: the result is no more than half a unit
    of its last place away from the product of the numbers. *)
Lemma SFmul_error (sx sy : bool) (mx my : positive) (ex ey : Z) :
  let x := (SF2Q (S754_finite sx mx ex) * SF2Q (S754_finite sy my ey))%Q in
  match SFmul prec emax (S754_finite sx mx ex) (S754_finite sy my ey) with
  | S754_zero _ => (Qabs x * 2 <= 2 ^ emin)%Q
  | S754_finite s m e =>
      s = xorb sx sy /\ (Qabs (SF2Q (S754_finite s m e) - x) * 2 <= 2 ^ e)%Q
  | S754_infinity _ => (2 ^ (emax - prec) <= Qabs x)%Q
  | S754_nan => False
  end.
Proof.
  intros x. cbn [SFmul].
  set (N := Zpos (mx * my)). set (e := ex + ey).
  assert (Hx : (x == (if xorb sx sy then -1 else 1)
                     * (inject_Z N / inject_Z 1 * 2 ^ e))%Q).
  { unfold x. rewrite !SF2Q_finite, sign_xorb. unfold N, e.
    rewrite Pos2Z.inj_mul, inject_Z_mult, Qpow2_add.
    change (inject_Z 1) with 1%Q. field. }
  assert (Hzero : forall k, k = Z.max (fexp prec emax (Zdigits2 N + e) - e) 0 ->
                            2 * N <= 2 ^ k * 1 -> e + k = emin).
  { intros k Hk H. rewrite Z.mul_1_r in H.
    destruct (Zdigits2_bounds N ltac:(unfold N; lia)) as [Hl _].
    pose proof (Zdigits2_nonneg N) as Hd.
    destruct (Z.eq_dec (e + k) emin) as [|Hne]; [assumption|exfalso].
    assert (Hk1 : 0 < k).
    { destruct (Z.eq_dec k 0) as [->|]; [simpl in H; unfold N in H; lia | lia]. }
    assert (Hk2 : k = Zdigits2 N - prec)
      by (unfold fexp, SpecFloat.emin, prec, emax in *; lia).
    assert (Hd1 : 0 < Zdigits2 N) by (unfold N; simpl; lia).
    assert (H1 : 2 ^ k < 2 ^ Zdigits2 N).
    { apply Z.pow_lt_mono_r; unfold prec in *; lia. }
    assert (H2 : 2 ^ Zdigits2 N = 2 * 2 ^ (Zdigits2 N - 1)).
    { rewrite <- Z.pow_succ_r by lia. f_equal. lia. }
    lia. }
  pose proof (binary_round_aux_Q (xorb sx sy) N 1 N e loc_Exact
                ltac:(unfold N; lia) ltac:(lia)
                ltac:(rewrite truncated_one; reflexivity) Hzero) as H.
  cbv zeta in H.
  set (y := (inject_Z N / inject_Z 1 * 2 ^ e)%Q) in *.
  assert (Hy : (0 < y)%Q).
  { unfold y. change (inject_Z 1) with 1%Q.
    apply Qmult_lt_0_compat; [|apply Qpow2_pos].
    setoid_replace (inject_Z N / 1)%Q with (inject_Z N) by field.
    change 0%Q with (inject_Z 0). rewrite <- Zlt_Qlt. unfold N. lia. }
  destruct (binary_round_aux prec emax (xorb sx sy) N e loc_Exact)
    as [s'|s'| |s' p er].
  - rewrite Hx, Qabs_sign, Qabs_pos by lra. exact H.
  - rewrite Hx, Qabs_sign, Qabs_pos by lra. exact H.
  - exact H.
  - destruct H as [-> H]. split; [reflexivity|].
    rewrite Hx, SF2Q_finite.
    setoid_replace ((if xorb sx sy then -1 else 1) * (inject_Z (Z.pos p) * 2 ^ er)
                    - (if xorb sx sy then -1 else 1) * y)%Q
      with ((if xorb sx sy then -1 else 1) * (inject_Z (Z.pos p) * 2 ^ er - y))%Q
      by ring.
    rewrite Qabs_sign. exact H.
Qed.

(** The location [SFdiv] computes from the remainder is the one of the
    record of the quotient. *)
Lemma new_location_truncated (N D : Z) :
  0 <= N -> 0 < D ->
  shr_record_of_loc (N / D) (new_location D (N mod D)) = truncated N D.
Proof.
  intros HN HD. unfold truncated, new_location, new_location_even, new_location_odd.
  pose proof (Z.mod_pos_bound N D HD) as Hr.
  set (r := N mod D) in *.
  destruct (Z.even D) eqn:Ev.
  - destruct (Z.eqb_spec r 0) as [E0|E0].
    + cbn [shr_record_of_loc orb negb]. f_equal.
      destruct (Z.leb_spec D (2 * r)); [lia | reflexivity].
    + destruct (Z.compare_spec (2 * r) D); cbn [shr_record_of_loc]; f_equal;
        try (destruct (Z.leb_spec D (2 * r)); [reflexivity || lia | reflexivity || lia]);
        try (destruct (Z.eqb_spec (2 * r) D); [reflexivity || lia | reflexivity || lia]).
  - assert (Hodd : 2 * r <> D).
    { intros E. rewrite <- E, Z.even_mul in Ev. discriminate Ev. }
    destruct (Z.eqb_spec r 0) as [E0|E0].
    + cbn [shr_record_of_loc orb negb]. f_equal.
      destruct (Z.leb_spec D (2 * r)); [lia | reflexivity].
    + destruct (Z.compare_spec (2 * r + 1) D); cbn [shr_record_of_loc]; f_equal;
        try (destruct (Z.leb_spec D (2 * r)); [reflexivity || lia | reflexivity || lia]);
        try (destruct (Z.eqb_spec (2 * r) D); [reflexivity || lia | reflexivity || lia]).
Qed.

(** A quotient is rounded correctly. *)
Lemma SFdiv_error (sx sy : bool) (mx my : positive) (ex ey : Z) :
  let x := (SF2Q (S754_finite sx mx ex) / SF2Q (S754_finite sy my ey))%Q in
  match SFdiv prec emax (S754_finite sx mx ex) (S754_finite sy my ey) with
  | S754_zero _ => (Qabs x * 2 <= 2 ^ emin)%Q
  | S754_finite s m e =>
      s = xorb sx sy /\ (Qabs (SF2Q (S754_finite s m e) - x) * 2 <= 2 ^ e)%Q
  | S754_infinity _ => (2 ^ (emax - prec) <= Qabs x)%Q
  | S754_nan => False
  end.
Proof.
  intros x. cbn [SFdiv]. unfold SFdiv_core_binary.
  set (d1 := Zdigits2 (Zpos mx)). set (d2 := Zdigits2 (Zpos my)).
  set (e := Z.min (fexp prec emax (d1 + ex - (d2 + ey))) (ex - ey)).
  set (s := ex - ey - e).
  assert (Hs : 0 <= s) by (unfold s, e; lia).
  set (N := match s with
            | 0 => Zpos mx
            | Zpos _ => Z.shiftl (Zpos mx) s
            | Zneg _ => 0
            end).
  assert (HN : N = Zpos mx * 2 ^ s).
  { unfold N. destruct s as [|p|p]; [simpl; lia | apply Z.shiftl_mul_pow2; lia | lia]. }
  assert (Hp : 0 < 2 ^ s) by (apply Z.pow_pos_nonneg; lia).
  assert (HN0 : 0 < N) by (rewrite HN; nia).
  destruct (Z.div_eucl N (Zpos my)) as [q r] eqn:Ed.
  assert (Hq : q = N / Zpos my) by (unfold Z.div; rewrite Ed; reflexivity).
  assert (Hr : r = N mod Zpos my) by (unfold Z.modulo; rewrite Ed; reflexivity).
  assert (Hmx : (0 < inject_Z (Zpos mx))%Q) by (rewrite <- (Zlt_Qlt 0); lia).
  assert (Hmy : (0 < inject_Z (Zpos my))%Q) by (rewrite <- (Zlt_Qlt 0); lia).
  assert (Hx : (x == (if xorb sx sy then -1 else 1)
                     * (inject_Z N / inject_Z (Zpos my) * 2 ^ e))%Q).
  { unfold x. rewrite !SF2Q_finite, sign_xorb, HN, inject_Z_mult.
    rewrite <- (Qpow2_inject s Hs).
    replace ex with (s + e + ey) at 1 by (unfold s; lia).
    rewrite !Qpow2_add.
    pose proof (Qpow2_pos ey). pose proof (Qpow2_pos e). pose proof (Qpow2_pos s).
    destruct sx, sy; field; repeat split; lra. }
  assert (Hzero : forall k, k = Z.max (fexp prec emax (Zdigits2 q + e) - e) 0 ->
                            2 * N <= 2 ^ k * Zpos my -> e + k = emin).
  { intros k Hk H.
    destruct (Zdigits2_bounds (Zpos mx) ltac:(lia)) as [Hl1 Hu1].
    destruct (Zdigits2_bounds (Zpos my) ltac:(lia)) as [Hl2 Hu2].
    fold d1 in Hl1, Hu1. fold d2 in Hl2, Hu2.
    assert (Hd1 : 0 < d1) by (unfold d1; simpl; lia).
    assert (Hd2 : 0 < d2) by (unfold d2; simpl; lia).
    destruct (Z.eq_dec (e + k) emin) as [|Hne]; [assumption|exfalso].
    destruct (Z.eq_dec k 0) as [Hk0|Hk0].
    - rewrite Hk0, Z.pow_0_r in H.
      assert (He : Z.max (d1 + ex - (d2 + ey) - prec) emin >= e)
        by (unfold e, fexp; lia).
      assert (Hs2 : d2 <= d1 - 1 + s)
        by (unfold s, fexp, SpecFloat.emin, prec, emax in *; lia).
      assert (H1 : 2 ^ d2 <= 2 ^ (d1 - 1 + s)) by (apply Z.pow_le_mono_r; lia).
      rewrite Z.pow_add_r in H1 by lia. rewrite HN in H. nia.
    - assert (Hk1 : k = Zdigits2 q - prec)
        by (unfold fexp, SpecFloat.emin, prec, emax in *; lia).
      assert (Hq0 : 0 < q).
      { destruct q as [|p|p]; [simpl in Hk1; unfold prec in Hk1; lia | lia |].
        pose proof (Z.div_pos N (Zpos my) ltac:(lia) ltac:(lia)). lia. }
      destruct (Zdigits2_bounds q Hq0) as [Hlq _].
      assert (H1 : 2 ^ k < 2 ^ Zdigits2 q).
      { apply Z.pow_lt_mono_r; unfold prec in *; lia. }
      assert (H2 : 2 ^ Zdigits2 q = 2 * 2 ^ (Zdigits2 q - 1)).
      { rewrite <- Z.pow_succ_r by (unfold prec in *; lia). f_equal. lia. }
      assert (H3 : q * Zpos my <= N).
      { rewrite Hq, Z.mul_comm. apply Z.mul_div_le. lia. }
      nia. }
  pose proof (binary_round_aux_Q (xorb sx sy) N (Zpos my) q e
                (new_location (Zpos my) r) HN0 ltac:(lia)
                ltac:(rewrite Hq, Hr; apply new_location_truncated; lia) Hzero) as H.
  cbv zeta in H.
  set (y := (inject_Z N / inject_Z (Zpos my) * 2 ^ e)%Q) in *.
  assert (Hy : (0 < y)%Q).
  { unfold y. apply Qmult_lt_0_compat; [|apply Qpow2_pos].
    apply Qlt_shift_div_l; [exact Hmy|]. rewrite Qmult_0_l.
    rewrite <- (Zlt_Qlt 0). exact HN0. }
  destruct (binary_round_aux prec emax (xorb sx sy) q e (new_location (Zpos my) r))
    as [s'|s'| |s' p er].
  - rewrite Hx, Qabs_sign, Qabs_pos by lra. exact H.
  - rewrite Hx, Qabs_sign, Qabs_pos by lra. exact H.
  - exact H.
  - destruct H as [-> H]. split; [reflexivity|].
    rewrite Hx, SF2Q_finite.
    setoid_replace ((if xorb sx sy then -1 else 1) * (inject_Z (Z.pos p) * 2 ^ er)
                    - (if xorb sx sy then -1 else 1) * y)%Q
      with ((if xorb sx sy then -1 else 1) * (inject_Z (Z.pos p) * 2 ^ er - y))%Q
      by ring.
    rewrite Qabs_sign. exact H.
Qed.

(** The bound of the carry among the rationals. *)
Lemma quarter_unit_Q (R k D N e : Z) :
  0 < D -> 0 <= k ->
  ((inject_Z N / inject_Z D * 2 ^ e < inject_Z R * 2 ^ (e + k))%Q ->
   N < R * 2 ^ k * D)
  /\ (4 * (R * 2 ^ k * D - N) <= 2 ^ k * D ->
      ((inject_Z R * 2 ^ (e + k) - inject_Z N / inject_Z D * 2 ^ e) * 4
       <= 2 ^ (e + k))%Q).
Proof.
  intros HD Hk.
  assert (Hd : (0 < inject_Z D)%Q) by (rewrite Zlt_Qlt in HD; exact HD).
  assert (Hd0 : ~ (inject_Z D == 0)%Q) by lra.
  pose proof (Qpow2_pos e) as HE.
  rewrite Qpow2_add, (Qpow2_inject k Hk).
  set (E := (2 ^ e)%Q) in *. set (K := inject_Z (2 ^ k)).
  set (y := (inject_Z N / inject_Z D)%Q).
  assert (Hy : (inject_Z N == y * inject_Z D)%Q) by (unfold y; field; exact Hd0).
  split.
  - intros H.
    assert (H1 : (y < inject_Z R * K)%Q).
    { apply (Qmult_lt_r _ _ E HE).
      setoid_replace (inject_Z R * K * E)%Q with (inject_Z R * (E * K))%Q by ring.
      exact H. }
    assert (H2 : (inject_Z N < inject_Z (R * 2 ^ k * D))%Q).
    { rewrite Hy, !inject_Z_mult. fold K.
      apply Qmult_lt_compat_r; assumption. }
    rewrite <- Zlt_Qlt in H2. exact H2.
  - intros H. rewrite Zle_Qle in H.
    repeat (rewrite ?inject_Z_opp, ?inject_Z_mult, ?inject_Z_plus,
              ?inject_Z_minus in H; unfold Zminus in H).
    fold K in H. change (inject_Z 4) with 4%Q in H.
    assert (G1 : (4 * (inject_Z R * K - y) <= K)%Q).
    { apply (Qmult_le_r _ _ (inject_Z D) Hd).
      setoid_replace (4 * (inject_Z R * K - y) * inject_Z D)%Q
        with (4 * (inject_Z R * K * inject_Z D + - (y * inject_Z D)))%Q by ring.
      rewrite <- Hy. exact H. }
    setoid_replace ((inject_Z R * (E * K) - y * E) * 4)%Q
      with ((4 * (inject_Z R * K - y)) * E)%Q by ring.
    rewrite (Qmult_comm E K). apply Qmult_le_compat_r; [exact G1 | lra].
Qed.

(** When [binary_round_aux] rounds a quotient up to a power of two, the
    quotient is within a quarter of a unit of the result's exponent: what
    lies below a power of two is rounded at the finer exponent. *)
Lemma binary_round_aux_carry_Q (s : bool) (N D m e : Z) (l : location) :
  0 < N -> 0 < D -> shr_record_of_loc m l = truncated N D ->
  (emin < e + Z.max (fexp prec emax (Zdigits2 m + e) - e) 0 -> prec <= Zdigits2 m) ->
  let x := (inject_Z N / inject_Z D * 2 ^ e)%Q in
  match binary_round_aux prec emax s m e l with
  | S754_finite s' p er =>
      emin < er -> Zpos p = 2 ^ (prec - 1) ->
      (x < inject_Z (Zpos p) * 2 ^ er)%Q ->
      ((inject_Z (Zpos p) * 2 ^ er - x) * 4 <= 2 ^ er)%Q
  | _ => True
  end.
Proof.
  intros HN HD Hrec Hdig x.
  destruct (binary_round_aux_correct s N D m e l ltac:(lia) HD Hrec)
    as (R & k & HR & Hk & Herr & Hcase & Hemin & Htight & ->).
  destruct R as [|p|p]; [exact I| |exact I].
  destruct (Z.leb_spec (e + k) (emax - prec)) as [Hle|Hgt]; [|exact I].
  intros Hnorm Hp Hx.
  destruct (quarter_unit_Q (Zpos p) k D N e HD Hk) as [H1 H2].
  apply H2. apply (Htight Hdig Hnorm Hp). apply H1. exact Hx.
Qed.

(** A quotient that [SFdiv] rounds up in magnitude to a power of two is
    within a quarter of a unit of the result's last place. *)
Lemma SFdiv_carry (sx sy : bool) (mx my : positive) (ex ey : Z) :
  let x := (SF2Q (S754_finite sx mx ex) / SF2Q (S754_finite sy my ey))%Q in
  match SFdiv prec emax (S754_finite sx mx ex) (S754_finite sy my ey) with
  | S754_finite s m e =>
      emin < e -> Zpos m = 2 ^ (prec - 1) ->
      (Qabs x < Qabs (SF2Q (S754_finite s m e)))%Q ->
      (Qabs (SF2Q (S754_finite s m e) - x) * 4 <= 2 ^ e)%Q
  | _ => True
  end.
Proof.
  intros x. cbn [SFdiv]. unfold SFdiv_core_binary.
  set (d1 := Zdigits2 (Zpos mx)). set (d2 := Zdigits2 (Zpos my)).
  set (e := Z.min (fexp prec emax (d1 + ex - (d2 + ey))) (ex - ey)).
  set (s := ex - ey - e).
  assert (Hs : 0 <= s) by (unfold s, e; lia).
  set (N := match s with
            | 0 => Zpos mx
            | Zpos _ => Z.shiftl (Zpos mx) s
            | Zneg _ => 0
            end).
  assert (HN : N = Zpos mx * 2 ^ s).
  { unfold N. destruct s as [|p|p]; [simpl; lia | apply Z.shiftl_mul_pow2; lia | lia]. }
  assert (Hp : 0 < 2 ^ s) by (apply Z.pow_pos_nonneg; lia).
  assert (HN0 : 0 < N) by (rewrite HN; nia).
  destruct (Z.div_eucl N (Zpos my)) as [q r] eqn:Ed.
  assert (Hq : q = N / Zpos my) by (unfold Z.div; rewrite Ed; reflexivity).
  assert (Hr : r = N mod Zpos my) by (unfold Z.modulo; rewrite Ed; reflexivity).
  assert (Hmx : (0 < inject_Z (Zpos mx))%Q) by (rewrite <- (Zlt_Qlt 0); lia).
  assert (Hmy : (0 < inject_Z (Zpos my))%Q) by (rewrite <- (Zlt_Qlt 0); lia).
  assert (Hx : (x == (if xorb sx sy then -1 else 1)
                     * (inject_Z N / inject_Z (Zpos my) * 2 ^ e))%Q).
  { unfold x. rewrite !SF2Q_finite, sign_xorb, HN, inject_Z_mult.
    rewrite <- (Qpow2_inject s Hs).
    replace ex with (s + e + ey) at 1 by (unfold s; lia).
    rewrite !Qpow2_add.
    pose proof (Qpow2_pos ey). pose proof (Qpow2_pos e). pose proof (Qpow2_pos s).
    destruct sx, sy; field; repeat split; lra. }
  (* the quotient has 53 digits or more, unless the result is subnormal *)
  assert (Hdig : emin < e + Z.max (fexp prec emax (Zdigits2 q + e) - e) 0 ->
                 prec <= Zdigits2 q).
  { intros Hnorm.
    destruct (Zdigits2_bounds (Zpos mx) ltac:(lia)) as [Hl1 Hu1].
    destruct (Zdigits2_bounds (Zpos my) ltac:(lia)) as [Hl2 Hu2].
    fold d1 in Hl1, Hu1. fold d2 in Hl2, Hu2.
    assert (Hd1 : 0 < d1) by (unfold d1; simpl; lia).
    assert (Hd2 : 0 < d2) by (unfold d2; simpl; lia).
    assert (Hdq : 0 <= d1 - 1 + s - d2 -> d1 - 1 + s - d2 < Zdigits2 q).
    { intros Ht. apply Zdigits2_gt; [exact Ht|].
      rewrite Hq. apply Z.div_le_lower_bound; [lia|].
      assert (H1 : 2 ^ (d1 - 1 + s) = 2 ^ (d1 - 1 + s - d2) * 2 ^ d2).
      { rewrite <- Z.pow_add_r by lia. f_equal. lia. }
      assert (H2 : 2 ^ (d1 - 1 + s) = 2 ^ (d1 - 1) * 2 ^ s).
      { rewrite <- Z.pow_add_r by lia. reflexivity. }
      assert (H3 : 0 < 2 ^ (d1 - 1 + s - d2)) by (apply Z.pow_pos_nonneg; lia).
      rewrite HN. nia. }
    pose proof (Zdigits2_nonneg q) as Hq0.
    unfold s, e, fexp, SpecFloat.emin, prec, emax in *. lia. }
  pose proof (binary_round_aux_carry_Q (xorb sx sy) N (Zpos my) q e
                (new_location (Zpos my) r) HN0 ltac:(lia)
                ltac:(rewrite Hq, Hr; apply new_location_truncated; lia) Hdig) as H.
  pose proof (SFdiv_error sx sy mx my ex ey) as Hsign. cbv zeta in Hsign.
  cbn [SFdiv] in Hsign. unfold SFdiv_core_binary in Hsign.
  fold d1 d2 e s N in Hsign. rewrite Ed in Hsign.
  cbv zeta in H.
  set (y := (inject_Z N / inject_Z (Zpos my) * 2 ^ e)%Q) in *.
  assert (Hy : (0 < y)%Q).
  { unfold y. apply Qmult_lt_0_compat; [|apply Qpow2_pos].
    apply Qlt_shift_div_l; [exact Hmy|]. rewrite Qmult_0_l.
    rewrite <- (Zlt_Qlt 0). exact HN0. }
  destruct (binary_round_aux prec emax (xorb sx sy) q e (new_location (Zpos my) r))
    as [s'|s'| |s' p er]; try exact I.
  destruct Hsign as [-> _].
  intros Hnorm Hp2 Hlt.
  assert (Hpos : (0 < inject_Z (Zpos p) * 2 ^ er)%Q).
  { apply Qmult_lt_0_compat; [rewrite <- (Zlt_Qlt 0); lia | apply Qpow2_pos]. }
  rewrite Hx, SF2Q_finite in Hlt |- *.
  rewrite !Qabs_sign in Hlt. rewrite (Qabs_pos y), (Qabs_pos (_ * _)) in Hlt by lra.
  setoid_replace ((if xorb sx sy then -1 else 1) * (inject_Z (Z.pos p) * 2 ^ er)
                  - (if xorb sx sy then -1 else 1) * y)%Q
    with ((if xorb sx sy then -1 else 1) * (inject_Z (Z.pos p) * 2 ^ er - y))%Q
    by ring.
  rewrite Qabs_sign, Qabs_pos by lra.
  apply H; assumption.
Qed.

(** *** The form of a binary64 number *)

(** The mantissa of a binary64 number has at most 53 bits, and exactly 53
    above the subnormal range. *)
Lemma valid_finite_bounds (s : bool) (m : positive) (e : Z) :
  SpecFloat.valid_binary prec emax (S754_finite s m e) = true ->
  emin <= e /\ Zpos m < 2 ^ prec /\ (emin < e -> 2 ^ (prec - 1) <= Zpos m).
Proof.
  intros V. pose proof (valid_finite s m e V) as H.
  pose proof (digits2_pos_lower m) as Hl. pose proof (digits2_pos_upper m) as Hu.
  set (d := Zpos (digits2_pos m)) in *.
  assert (Hd : 0 < d) by (unfold d; lia).
  split; [lia|]. split.
  - eapply Z.lt_le_trans; [exact Hu|]. apply Z.pow_le_mono_r; lia.
  - intros He. replace (prec - 1) with (d - 1) by lia. exact Hl.
Qed.

Lemma Qabs_SF2Q (s : bool) (m : positive) (e : Z) :
  (Qabs (SF2Q (S754_finite s m e)) == inject_Z (Zpos m) * 2 ^ e)%Q.
Proof.
  rewrite SF2Q_finite, Qabs_sign. apply Qabs_pos.
  apply Qmult_le_0_compat; [|apply Qlt_le_weak, Qpow2_pos].
  rewrite <- (Zle_Qle 0). lia.
Qed.

(** The magnitude of a binary64 number against its exponent. *)
Lemma valid_finite_Q (s : bool) (m : positive) (e : Z) :
  SpecFloat.valid_binary prec emax (S754_finite s m e) = true ->
  (2 ^ e <= Qabs (SF2Q (S754_finite s m e)))%Q
  /\ (Qabs (SF2Q (S754_finite s m e)) <= (2 ^ 53 - 1) * 2 ^ e)%Q
  /\ (emin < e -> (2 ^ 52 * 2 ^ e <= Qabs (SF2Q (S754_finite s m e)))%Q).
Proof.
  intros V. destruct (valid_finite_bounds s m e V) as (He & Hm & Hn).
  rewrite Qabs_SF2Q. pose proof (Qpow2_pos e) as Hp.
  split; [|split].
  - rewrite <- (Qmult_1_l (2 ^ e)) at 1. apply Qmult_le_compat_r; [|lra].
    rewrite <- (Zle_Qle 1). lia.
  - apply Qmult_le_compat_r; [|lra].
    change (2 ^ 53 - 1)%Q with (inject_Z (2 ^ prec - 1)). rewrite <- Zle_Qle. lia.
  - intros H. apply Qmult_le_compat_r; [|lra].
    change (2 ^ 52)%Q with (inject_Z (2 ^ (prec - 1))). rewrite <- Zle_Qle. auto.
Qed.

(** Two multiples of a unit that are less than the unit apart are equal. *)
Lemma lattice_eq (a b : Z) (u : Q) :
  (0 < u)%Q -> (Qabs (inject_Z a * u - inject_Z b * u) < u)%Q -> a = b.
Proof.
  intros Hu H.
  setoid_replace (inject_Z a * u - inject_Z b * u)%Q
    with (inject_Z (a - b) * u)%Q in H
    by (unfold Zminus; rewrite inject_Z_plus, inject_Z_opp; ring).
  rewrite Qabs_Qmult, (Qabs_pos u) in H by lra.
  assert (H1 : (Qabs (inject_Z (a - b)) < 1)%Q).
  { apply (Qmult_lt_r _ _ u Hu). rewrite Qmult_1_l. exact H. }
  rewrite <- (Zabs_Qabs (a - b) 1) in H1.
  change (Z.abs (a - b) # 1)%Q with (inject_Z (Z.abs (a - b))) in H1.
  change 1%Q with (inject_Z 1) in H1.
  assert (H2 : Z.abs (a - b) < 1) by (rewrite Zlt_Qlt; exact H1).
  lia.
Qed.

(** Of two multiples of a unit, the larger is at least a unit above. *)
Lemma lattice_gap (a b : Z) (u : Q) :
  (0 < u)%Q -> (inject_Z a * u < inject_Z b * u)%Q ->
  (inject_Z a * u + u <= inject_Z b * u)%Q.
Proof.
  intros Hu H.
  assert (H' : a < b) by (rewrite Zlt_Qlt; apply (Qmult_lt_r _ _ u Hu); exact H).
  setoid_replace (inject_Z a * u + u)%Q with (inject_Z (a + 1) * u)%Q
    by (rewrite inject_Z_plus; change (inject_Z 1) with 1%Q; ring).
  apply Qmult_le_compat_r; [|lra]. rewrite <- Zle_Qle. lia.
Qed.

(** An integer is a multiple of every power of two with an exponent that is
    not above zero; half an integer, when the exponent is below zero. *)
Lemma integer_on_lattice (t e : Z) :
  e <= 0 -> (inject_Z t == inject_Z (t * 2 ^ (- e)) * 2 ^ e)%Q.
Proof.
  intros He. rewrite inject_Z_mult, <- (Qpow2_inject (- e)) by lia.
  rewrite <- Qmult_assoc, <- Qpow2_add. replace (- e + e) with 0 by lia.
  change (2 ^ 0)%Q with 1%Q. ring.
Qed.

Lemma half_integer_on_lattice (t e : Z) :
  e < 0 -> (inject_Z t / 2 == inject_Z (t * 2 ^ (- 1 - e)) * 2 ^ e)%Q.
Proof.
  intros He. rewrite inject_Z_mult, <- (Qpow2_inject (- 1 - e)) by lia.
  rewrite <- Qmult_assoc, <- Qpow2_add. replace (- 1 - e + e) with (- 1) by lia.
  change (2 ^ (-1))%Q with (1 # 2)%Q. field.
Qed.

Lemma SF2Q_on_lattice (s : bool) (m : positive) (e : Z) :
  (SF2Q (S754_finite s m e) == inject_Z (cond_Zopp s (Zpos m)) * 2 ^ e)%Q.
Proof. reflexivity. Qed.

(** *** Integers *)

Lemma iter_xO_value (p d : positive) :
  Zpos (Pos.iter xO p d) = Zpos p * 2 ^ Zpos d.
Proof.
  induction d as [|d IH] using Pos.peano_ind.
  - simpl. lia.
  - rewrite Pos.iter_succ, Pos2Z.inj_xO, IH, Pos2Z.inj_succ, Z.pow_succ_r by lia.
    ring.
Qed.

(** An exact number rounds to zero only from below the subnormal range. *)
Lemma zero_only_at_emin (N e k : Z) :
  0 < N -> k = Z.max (fexp prec emax (Zdigits2 N + e) - e) 0 ->
  2 * N <= 2 ^ k * 1 -> e + k = emin.
Proof.
  intros HN Hk H. rewrite Z.mul_1_r in H.
  destruct (Zdigits2_bounds N HN) as [Hl _].
  pose proof (Zdigits2_nonneg N) as Hd.
  destruct (Z.eq_dec (e + k) emin) as [|Hne]; [assumption|exfalso].
  assert (Hk1 : 0 < k).
  { destruct (Z.eq_dec k 0) as [E|]; [rewrite E, Z.pow_0_r in H; lia | lia]. }
  assert (Hk2 : k = Zdigits2 N - prec)
    by (unfold fexp, SpecFloat.emin, prec, emax in *; lia).
  assert (Hd1 : 0 < Zdigits2 N) by (unfold prec in *; lia).
  assert (H1 : 2 ^ k < 2 ^ Zdigits2 N).
  { apply Z.pow_lt_mono_r; unfold prec in *; lia. }
  assert (H2 : 2 ^ Zdigits2 N = 2 * 2 ^ (Zdigits2 N - 1)).
  { rewrite <- Z.pow_succ_r by lia. f_equal. lia. }
  lia.
Qed.

Lemma shl_align_value (p : positive) (e e' : Z) :
  (inject_Z (Zpos (fst (shl_align p e e'))) * 2 ^ snd (shl_align p e e')
   == inject_Z (Zpos p) * 2 ^ e)%Q.
Proof.
  unfold shl_align. destruct (e' - e) as [|d|d] eqn:Ed; cbn [fst snd];
    try reflexivity.
  rewrite iter_xO_value, inject_Z_mult, <- (Qpow2_inject (Zpos d)) by lia.
  replace (2 ^ e)%Q with (2 ^ (Zpos d + e'))%Q by (f_equal; lia).
  rewrite Qpow2_add. ring.
Qed.

(** The number [p * 2^e] is rounded correctly. *)
Lemma binary_round_error (s : bool) (p : positive) (e : Z) :
  let x := (inject_Z (Zpos p) * 2 ^ e)%Q in
  match binary_round prec emax s p e with
  | S754_zero _ => (x * 2 <= 2 ^ emin)%Q
  | S754_finite s' m er =>
      s' = s /\ (Qabs (inject_Z (Zpos m) * 2 ^ er - x) * 2 <= 2 ^ er)%Q
  | S754_infinity _ => (2 ^ (emax - prec) <= x)%Q
  | S754_nan => False
  end.
Proof.
  intros x. unfold binary_round.
  pose proof (shl_align_value p e (fexp prec emax (Zpos (digits2_pos p) + e))) as Hv.
  destruct (shl_align p e (fexp prec emax (Zpos (digits2_pos p) + e)))
    as [mz ez] eqn:Es.
  cbn [fst snd] in Hv. fold x in Hv.
  assert (Hv' : (x == inject_Z (Zpos mz) / inject_Z 1 * 2 ^ ez)%Q).
  { rewrite <- Hv. unfold Qdiv. change (/ inject_Z 1)%Q with 1%Q. ring. }
  clear Hv. rename Hv' into Hv.
  pose proof (binary_round_aux_Q s (Zpos mz) 1 (Zpos mz) ez loc_Exact
                ltac:(lia) ltac:(lia) ltac:(rewrite truncated_one; reflexivity)
                (fun k => zero_only_at_emin (Zpos mz) ez k ltac:(lia))) as H.
  cbv zeta in H.
  destruct (binary_round_aux prec emax s (Zpos mz) ez loc_Exact) as [s'|s'| |s' m er].
  - rewrite Hv. exact H.
  - rewrite Hv. exact H.
  - exact H.
  - destruct H as [-> H]. split; [reflexivity|]. rewrite Hv. exact H.
Qed.

Lemma Qpow2_emin_small : (2 ^ emin < 1)%Q.
Proof. change 1%Q with (2 ^ 0)%Q. apply Qpow2_lt. reflexivity. Qed.

(** A binary64 number of magnitude below [2^(c+53)] has an exponent of at
    most [c]. *)
Lemma exponent_below (s : bool) (m : positive) (e c : Z) :
  SpecFloat.valid_binary prec emax (S754_finite s m e) = true ->
  emin <= c ->
  (Qabs (SF2Q (S754_finite s m e)) < 2 ^ 52 * 2 ^ (c + 1))%Q -> e <= c.
Proof.
  intros V Hc H. destruct (valid_finite_Q s m e V) as (_ & _ & Hn).
  destruct (Z_le_gt_dec e c) as [|Hgt]; [assumption|exfalso].
  specialize (Hn ltac:(lia)).
  assert (H1 : (2 ^ (c + 1) <= 2 ^ e)%Q) by (apply Qpow2_le; lia).
  set (A := (2 ^ e)%Q) in *. set (B := (2 ^ (c + 1))%Q) in *.
  set (V' := Qabs (SF2Q (S754_finite s m e))) in *. clearbody A B V'.
  change (2 ^ 52)%Q with 4503599627370496%Q in *. lra.
Qed.

(** A binary64 number within half a unit of its last place of an integer of
    magnitude at most [2^52] is that integer. *)
Lemma rounded_integer_exact (s : bool) (m : positive) (e t : Z) :
  SpecFloat.valid_binary prec emax (S754_finite s m e) = true ->
  Z.abs t <= 2 ^ 52 ->
  (Qabs (SF2Q (S754_finite s m e) - inject_Z t) * 2 <= 2 ^ e)%Q ->
  (SF2Q (S754_finite s m e) == inject_Z t)%Q.
Proof.
  intros V Ht H. pose proof (Qpow2_pos e) as Hp.
  destruct (valid_finite_bounds s m e V) as (Hemin & _ & _).
  assert (He : e <= 0).
  { apply (exponent_below s m e 0 V); [unfold SpecFloat.emin, prec, emax; lia|].
    destruct (valid_finite_Q s m e V) as (_ & _ & Hn).
    destruct (Z_le_gt_dec e 0) as [Hle|Hgt].
    - assert (H1 : (Qabs (SF2Q (S754_finite s m e)) <= (2 ^ 53 - 1) * 2 ^ e)%Q)
        by (apply valid_finite_Q; exact V).
      assert (H2 : (2 ^ e <= 2 ^ 0)%Q) by (apply Qpow2_le; lia).
      change (2 ^ 0)%Q with 1%Q in H2.
      change (2 ^ (0 + 1))%Q with 2%Q. change (2 ^ 52)%Q with 4503599627370496%Q.
      change (2 ^ 53 - 1)%Q with 9007199254740991%Q in H1.
      set (A := (2 ^ e)%Q) in *. set (V' := Qabs (SF2Q (S754_finite s m e))) in *.
      clearbody A V'. lra.
    - exfalso. specialize (Hn ltac:(unfold SpecFloat.emin, prec, emax; lia)).
      assert (H2 : (2 ^ 1 <= 2 ^ e)%Q) by (apply Qpow2_le; lia).
      change (2 ^ 1)%Q with 2%Q in H2.
      assert (H3 : (Qabs (inject_Z t) <= 2 ^ 52)%Q).
      { rewrite <- (Zabs_Qabs t 1).
        change (Z.abs t # 1)%Q with (inject_Z (Z.abs t)).
        change (2 ^ 52)%Q with (inject_Z (2 ^ 52)). rewrite <- Zle_Qle. exact Ht. }
      pose proof (Qabs_triangle_reverse (SF2Q (S754_finite s m e)) (inject_Z t)) as H4.
      change (2 ^ 52)%Q with 4503599627370496%Q in *.
      set (A := (2 ^ e)%Q) in *. set (V' := Qabs (SF2Q (S754_finite s m e))) in *.
      set (T := Qabs (inject_Z t)) in *.
      set (W := Qabs (SF2Q (S754_finite s m e) - inject_Z t)) in *.
      clearbody A V' T W. lra. }
  rewrite SF2Q_on_lattice, (integer_on_lattice t e He) in H |- *.
  rewrite (lattice_eq (cond_Zopp s (Zpos m)) (t * 2 ^ (- e)) (2 ^ e)%Q Hp);
    [reflexivity|].
  set (W := Qabs _) in *. clearbody W. lra.
Qed.

(** *** Comparison *)

Lemma Qcompare_lt (a b : Q) : (a < b)%Q -> (a ?= b)%Q = Lt.
Proof. intros H. apply Qlt_alt. exact H. Qed.

Lemma Qcompare_gt (a b : Q) : (b < a)%Q -> (a ?= b)%Q = Gt.
Proof. intros H. apply Qgt_alt. exact H. Qed.

Lemma Qcompare_eq (a b : Q) : (a == b)%Q -> (a ?= b)%Q = Eq.
Proof. intros H. apply Qeq_alt. exact H. Qed.

(** Positive binary64 numbers are ordered by exponent, then by mantissa. *)
Lemma magnitude_compare (m1 m2 : positive) (e1 e2 : Z) :
  SpecFloat.valid_binary prec emax (S754_finite false m1 e1) = true ->
  SpecFloat.valid_binary prec emax (S754_finite false m2 e2) = true ->
  match (e1 ?= e2) with
  | Eq => Pos.compare_cont Eq m1 m2
  | Lt => Lt
  | Gt => Gt
  end = (inject_Z (Zpos m1) * 2 ^ e1 ?= inject_Z (Zpos m2) * 2 ^ e2)%Q.
Proof.
  intros V1 V2.
  destruct (valid_finite_bounds false m1 e1 V1) as (Hmin1 & _).
  destruct (valid_finite_bounds false m2 e2 V2) as (Hmin2 & _).
  destruct (valid_finite_Q false m1 e1 V1) as (_ & Hu1 & Hn1).
  destruct (valid_finite_Q false m2 e2 V2) as (_ & Hu2 & Hn2).
  rewrite Qabs_SF2Q in Hu1, Hn1, Hu2, Hn2.
  pose proof (Qpow2_pos e1) as Hp1. pose proof (Qpow2_pos e2) as Hp2.
  change (2 ^ 52)%Q with 4503599627370496%Q in *.
  change (2 ^ 53 - 1)%Q with 9007199254740991%Q in *.
  destruct (Z.compare_spec e1 e2) as [E|L|G].
  - subst e2. symmetry. change (Pos.compare_cont Eq m1 m2) with (Zpos m1 ?= Zpos m2).
    destruct (Z.compare_spec (Zpos m1) (Zpos m2)) as [E|L|G].
    + apply Qcompare_eq. rewrite E. reflexivity.
    + apply Qcompare_lt. apply Qmult_lt_compat_r; [exact Hp1|].
      rewrite <- Zlt_Qlt. exact L.
    + apply Qcompare_gt. apply Qmult_lt_compat_r; [exact Hp1|].
      rewrite <- Zlt_Qlt. exact G.
  - symmetry. apply Qcompare_lt. specialize (Hn2 ltac:(lia)).
    assert (H : (2 ^ (e1 + 1) <= 2 ^ e2)%Q) by (apply Qpow2_le; lia).
    rewrite Qpow2_succ in H.
    set (A := (2 ^ e1)%Q) in *. set (B := (2 ^ e2)%Q) in *.
    set (X := (inject_Z (Zpos m1) * A)%Q) in *.
    set (Y := (inject_Z (Zpos m2) * B)%Q) in *. clearbody A B X Y. lra.
  - symmetry. apply Qcompare_gt. specialize (Hn1 ltac:(lia)).
    assert (H : (2 ^ (e2 + 1) <= 2 ^ e1)%Q) by (apply Qpow2_le; lia).
    rewrite Qpow2_succ in H.
    set (A := (2 ^ e1)%Q) in *. set (B := (2 ^ e2)%Q) in *.
    set (X := (inject_Z (Zpos m1) * A)%Q) in *.
    set (Y := (inject_Z (Zpos m2) * B)%Q) in *. clearbody A B X Y. lra.
Qed.

Lemma valid_sign (s s' : bool) (m : positive) (e : Z) :
  SpecFloat.valid_binary prec emax (S754_finite s m e)
  = SpecFloat.valid_binary prec emax (S754_finite s' m e).
Proof. reflexivity. Qed.

Lemma Qcompare_opp (a b : Q) : (- a ?= - b)%Q = CompOpp (a ?= b)%Q.
Proof.
  destruct (Qcompare_spec a b) as [E|L|G]; simpl.
  - apply Qcompare_eq. rewrite E. reflexivity.
  - apply Qcompare_gt. lra.
  - apply Qcompare_lt. lra.
Qed.

(** The comparison of two binary64 numbers is the comparison of the numbers
    they stand for. *)
Lemma SFcompare_Q (a b : spec_float) :
  SpecFloat.valid_binary prec emax a = true ->
  SpecFloat.valid_binary prec emax b = true ->
  sf_is_finite a = true -> sf_is_finite b = true ->
  SFcompare a b = Some (SF2Q a ?= SF2Q b)%Q.
Proof.
  intros Va Vb Fa Fb.
  destruct a as [sa|sa| |sa ma ea], b as [sb|sb| |sb mb eb]; try discriminate.
  - reflexivity.
  - cbn [SFcompare]. f_equal. symmetry.
    pose proof (valid_finite_Q sb mb eb Vb) as (H & _).
    rewrite Qabs_SF2Q in H. pose proof (Qpow2_pos eb).
    rewrite SF2Q_finite. change (SF2Q (S754_zero sa)) with 0%Q.
    set (Y := (inject_Z (Zpos mb) * 2 ^ eb)%Q) in *. clearbody Y.
    destruct sb; [apply Qcompare_gt | apply Qcompare_lt]; lra.
  - cbn [SFcompare]. f_equal. symmetry.
    pose proof (valid_finite_Q sa ma ea Va) as (H & _).
    rewrite Qabs_SF2Q in H. pose proof (Qpow2_pos ea).
    rewrite SF2Q_finite. change (SF2Q (S754_zero sb)) with 0%Q.
    set (Y := (inject_Z (Zpos ma) * 2 ^ ea)%Q) in *. clearbody Y.
    destruct sa; [apply Qcompare_lt | apply Qcompare_gt]; lra.
  - cbn [SFcompare]. f_equal.
    pose proof (magnitude_compare ma mb ea eb Va Vb) as H.
    pose proof (valid_finite_Q sa ma ea Va) as (Ha & _).
    pose proof (valid_finite_Q sb mb eb Vb) as (Hb & _).
    rewrite Qabs_SF2Q in Ha, Hb.
    pose proof (Qpow2_pos ea). pose proof (Qpow2_pos eb).
    rewrite !SF2Q_finite.
    set (X := (inject_Z (Zpos ma) * 2 ^ ea)%Q) in *.
    set (Y := (inject_Z (Zpos mb) * 2 ^ eb)%Q) in *.
    destruct sa, sb.
    + setoid_replace (-1 * X)%Q with (- X)%Q by ring.
      setoid_replace (-1 * Y)%Q with (- Y)%Q by ring.
      rewrite Qcompare_opp, <- H. destruct (ea ?= eb); reflexivity.
    + symmetry. apply Qcompare_lt. clearbody X Y. lra.
    + symmetry. apply Qcompare_gt. clearbody X Y. lra.
    + rewrite !Qmult_1_l. rewrite <- H. destruct (ea ?= eb); reflexivity.
Qed.

(** *** [Math.round] *)

Lemma Qfloor_unique (y : Q) (n : Z) :
  (inject_Z n <= y)%Q -> (y < inject_Z n + 1)%Q -> Qfloor y = n.
Proof.
  intros H1 H2.
  pose proof (Qfloor_le y) as Hle. pose proof (Qlt_floor y) as Hlt.
  rewrite inject_Z_plus in Hlt. change (inject_Z 1) with 1%Q in Hlt.
  assert (A : (inject_Z (Qfloor y) < inject_Z (n + 1))%Q).
  { rewrite inject_Z_plus. change (inject_Z 1) with 1%Q. lra. }
  assert (B : (inject_Z n < inject_Z (Qfloor y + 1))%Q).
  { rewrite inject_Z_plus. change (inject_Z 1) with 1%Q. lra. }
  rewrite <- Zlt_Qlt in A, B. lia.
Qed.

Lemma SF2Q_opp (a : spec_float) : (SF2Q (SFopp a) == - SF2Q a)%Q.
Proof.
  destruct a as [s|s| |s m e]; try reflexivity.
  cbn [SFopp]. rewrite !SF2Q_finite. destruct s; cbn [negb]; ring.
Qed.

(** The binary64 value of an integer of magnitude up to [2^52] is that
    integer. *)
Lemma of_Z_value (n : Z) :
  Z.abs n <= 2 ^ 52 ->
  sf_is_finite (Prim2SF (JS.of_Z n)) = true /\ (valueQ (JS.of_Z n) == inject_Z n)%Q.
Proof.
  intros Hn.
  assert (Hpos : forall p : positive,
             Zpos p <= 2 ^ 52 ->
             sf_is_finite (Prim2SF (of_uint63 (Uint63.of_Z (Zpos p)))) = true
             /\ (SF2Q (Prim2SF (of_uint63 (Uint63.of_Z (Zpos p))))
                 == inject_Z (Zpos p))%Q).
  { intros p Hp.
    pose proof (Prim2SF_valid (of_uint63 (Uint63.of_Z (Zpos p)))) as V.
    rewrite of_uint63_spec, Uint63.of_Z_spec in V |- *.
    rewrite Z.mod_small in V |- * by (unfold Uint63.wB; simpl; simpl in Hp; lia).
    cbn [binary_normalize] in V |- *.
    pose proof (binary_round_error false p 0) as H. cbv zeta in H.
    change (2 ^ 0)%Q with 1%Q in H.
    set (X := (inject_Z (Zpos p) * 1)%Q) in H.
    assert (HX : (X == inject_Z (Zpos p))%Q) by (unfold X; ring).
    assert (H1 : (1 <= inject_Z (Zpos p))%Q) by (rewrite <- (Zle_Qle 1); lia).
    assert (H2 : (inject_Z (Zpos p) <= 2 ^ 52)%Q).
    { change (2 ^ 52)%Q with (inject_Z (2 ^ 52)). rewrite <- Zle_Qle. exact Hp. }
    pose proof Qpow2_emin_small as H3.
    assert (H4 : (2 ^ 52 < 2 ^ (emax - prec))%Q) by (apply Qpow2_lt; reflexivity).
    clearbody X.
    destruct (binary_round prec emax false p 0) as [s|s| |s m e].
    - exfalso. set (A := (2 ^ emin)%Q) in *. clearbody A. lra.
    - exfalso. set (A := (2 ^ (emax - prec))%Q) in *.
      change (2 ^ 52)%Q with 4503599627370496%Q in *. clearbody A. lra.
    - contradiction.
    - destruct H as [-> H]. split; [reflexivity|].
      apply (rounded_integer_exact false m e (Zpos p) V).
      + simpl Z.abs. exact Hp.
      + rewrite <- HX. exact H. }
  destruct n as [|p|p].
  - split; reflexivity.
  - apply Hpos. simpl in Hn. exact Hn.
  - unfold JS.of_Z, valueQ. rewrite opp_spec.
    destruct (Hpos p ltac:(simpl in Hn; exact Hn)) as [F E].
    split.
    + destruct (Prim2SF (of_uint63 (Uint63.of_Z (Zpos p)))); try discriminate;
        reflexivity.
    + rewrite SF2Q_opp, E. change (Z.neg p) with (- Zpos p).
      rewrite inject_Z_opp. reflexivity.
Qed.

(** The integer [Math.round] computes is [floor(v + 1/2)]. *)
Lemma round_half_up_floor (s : bool) (m : positive) (e : Z) :
  e < 0 ->
  JS.round_half_up s m e = Qfloor (SF2Q (S754_finite s m e) + (1 # 2)).
Proof.
  intros He. symmetry. apply Qfloor_unique.
  - unfold JS.round_half_up.
    set (sm := if s then Z.neg m else Z.pos m).
    assert (Esm : sm = cond_Zopp s (Zpos m)) by (destruct s; reflexivity).
    rewrite SF2Q_on_lattice, <- Esm.
    assert (Hp : 0 < 2 ^ (- e)) by (apply Z.pow_pos_nonneg; lia).
    assert (E2 : 2 ^ (1 - e) = 2 * 2 ^ (- e)).
    { replace (1 - e) with (Z.succ (- e)) by lia. apply Z.pow_succ_r. lia. }
    rewrite E2.
    pose proof (Z.mul_div_le (2 * sm + 2 ^ (- e)) (2 * 2 ^ (- e)) ltac:(lia)) as H.
    rewrite Zle_Qle in H.
    rewrite !inject_Z_mult, inject_Z_plus, !inject_Z_mult in H.
    rewrite <- (Qpow2_inject (- e)) in H by lia.
    change (inject_Z 2) with 2%Q in H.
    pose proof (Qpow2_pos e) as Hpe. pose proof (Qpow2_pos (- e)) as Hpn.
    assert (Hinv : (2 ^ e * 2 ^ (- e) == 1)%Q).
    { rewrite <- Qpow2_add. replace (e + - e) with 0 by lia. reflexivity. }
    set (q := inject_Z ((2 * sm + 2 ^ (- e)) / (2 * 2 ^ (- e)))) in *.
    set (A := (2 ^ e)%Q) in *. set (B := (2 ^ (- e))%Q) in *.
    set (S := inject_Z sm) in *. clearbody q A B S.
    apply (Qmult_le_r _ _ (2 * B)%Q); [lra|].
    setoid_replace ((S * A + (1 # 2)) * (2 * B))%Q
      with (2 * S * (A * B) + B)%Q by ring.
    rewrite Hinv. lra.
  - unfold JS.round_half_up.
    set (sm := if s then Z.neg m else Z.pos m).
    assert (Esm : sm = cond_Zopp s (Zpos m)) by (destruct s; reflexivity).
    rewrite SF2Q_on_lattice, <- Esm.
    assert (Hp : 0 < 2 ^ (- e)) by (apply Z.pow_pos_nonneg; lia).
    assert (E2 : 2 ^ (1 - e) = 2 * 2 ^ (- e)).
    { replace (1 - e) with (Z.succ (- e)) by lia. apply Z.pow_succ_r. lia. }
    rewrite E2.
    pose proof (Z.mod_pos_bound (2 * sm + 2 ^ (- e)) (2 * 2 ^ (- e)) ltac:(lia)) as Hm.
    pose proof (Z.div_mod (2 * sm + 2 ^ (- e)) (2 * 2 ^ (- e)) ltac:(lia)) as Hd.
    assert (H : 2 * sm + 2 ^ (- e)
                < 2 * 2 ^ (- e) * ((2 * sm + 2 ^ (- e)) / (2 * 2 ^ (- e)) + 1))
      by lia.
    rewrite Zlt_Qlt in H.
    rewrite !inject_Z_mult, !inject_Z_plus, !inject_Z_mult in H.
    rewrite <- (Qpow2_inject (- e)) in H by lia.
    change (inject_Z 2) with 2%Q in H. change (inject_Z 1) with 1%Q in H.
    pose proof (Qpow2_pos e) as Hpe. pose proof (Qpow2_pos (- e)) as Hpn.
    assert (Hinv : (2 ^ e * 2 ^ (- e) == 1)%Q).
    { rewrite <- Qpow2_add. replace (e + - e) with 0 by lia. reflexivity. }
    set (q := inject_Z ((2 * sm + 2 ^ (- e)) / (2 * 2 ^ (- e)))) in *.
    set (A := (2 ^ e)%Q) in *. set (B := (2 ^ (- e))%Q) in *.
    set (S := inject_Z sm) in *. clearbody q A B S.
    apply (Qmult_lt_r _ _ (2 * B)%Q); [lra|].
    setoid_replace ((S * A + (1 # 2)) * (2 * B))%Q
      with (2 * S * (A * B) + B)%Q by ring.
    rewrite Hinv. lra.
Qed.

(** [Math.round] of a number of magnitude below [2^52] is the integer
    [floor(v + 1/2)]. *)
Lemma Math_round_value (v : float) :
  sf_is_finite (Prim2SF v) = true ->
  (Qabs (valueQ v) <= 2 ^ 52 - 1)%Q ->
  sf_is_finite (Prim2SF (JS.Math_round v)) = true
  /\ (valueQ (JS.Math_round v) == inject_Z (Qfloor (valueQ v + (1 # 2))))%Q.
Proof.
  intros F Hb. unfold JS.Math_round, valueQ in *.
  destruct (Prim2SF v) as [s|s| |s m e] eqn:E; try discriminate.
  - rewrite E. split; reflexivity.
  - destruct (Z.leb_spec 0 e) as [He|He].
    + rewrite E. split; [reflexivity|].
      assert (Hi : (SF2Q (S754_finite s m e)
                    == inject_Z (cond_Zopp s (Zpos m) * 2 ^ e))%Q).
      { rewrite SF2Q_on_lattice, inject_Z_mult, <- (Qpow2_inject e He).
        reflexivity. }
      rewrite Hi.
      rewrite (Qfloor_unique _ (cond_Zopp s (Zpos m) * 2 ^ e)); [reflexivity| |];
        set (z := inject_Z _); lra.
    + set (n := JS.round_half_up s m e).
      assert (Hn : n = Qfloor (SF2Q (S754_finite s m e) + (1 # 2)))
        by (apply round_half_up_floor; exact He).
      rewrite <- Hn.
      assert (Hsmall : Z.abs n <= 2 ^ 52).
      { pose proof (Qfloor_le (SF2Q (S754_finite s m e) + (1 # 2))) as Hle.
        pose proof (Qlt_floor (SF2Q (S754_finite s m e) + (1 # 2))) as Hlt.
        rewrite <- Hn in Hle, Hlt. rewrite inject_Z_plus in Hlt.
        change (inject_Z 1) with 1%Q in Hlt.
        apply Qabs_Qle_condition in Hb.
        change (2 ^ 52 - 1)%Q with 4503599627370495%Q in Hb.
        assert (A : (inject_Z n <= inject_Z (2 ^ 52))%Q).
        { change (inject_Z (2 ^ 52)) with 4503599627370496%Q.
          set (V := SF2Q (S754_finite s m e)) in *. clearbody V. lra. }
        assert (B : (inject_Z (- 2 ^ 52) <= inject_Z n)%Q).
        { change (inject_Z (- 2 ^ 52)) with (- 4503599627370496)%Q.
          set (V := SF2Q (S754_finite s m e)) in *. clearbody V. lra. }
        rewrite <- Zle_Qle in A, B. lia. }
      destruct n as [|p|p] eqn:En.
      * split; [destruct s; reflexivity|]. destruct s; reflexivity.
      * rewrite <- En in *. apply of_Z_value. exact Hsmall.
      * rewrite <- En in *. apply of_Z_value. exact Hsmall.
Qed.

(** Between a multiple of a unit and a number within half a unit of it
    there is no other multiple. *)
Lemma lattice_half (a b : Z) (u x : Q) :
  (0 < u)%Q ->
  (Qabs (inject_Z a * u - x) * 2 <= u)%Q ->
  ((x < inject_Z b * u)%Q -> (inject_Z a * u <= inject_Z b * u)%Q)
  /\ ((inject_Z b * u <= x)%Q -> (inject_Z b * u <= inject_Z a * u)%Q).
Proof.
  intros Hu H.
  pose proof (lattice_gap b a u Hu) as G1. pose proof (lattice_gap a b u Hu) as G2.
  set (A := (inject_Z a * u)%Q) in *. set (B := (inject_Z b * u)%Q) in *.
  clearbody A B.
  assert (H1 : (A - x <= (1 # 2) * u)%Q /\ (- ((1 # 2) * u) <= A - x)%Q).
  { revert H. apply Qabs_case; intros; split; lra. }
  destruct H1 as [H1 H2]. split; intros Hx.
  - destruct (Qlt_le_dec B A) as [L|L]; [|exact L]. specialize (G1 L). lra.
  - destruct (Qlt_le_dec A B) as [L|L]; [|exact L]. specialize (G2 L). lra.
Qed.

Lemma sf_finite_valueQ_zero (s : bool) : (SF2Q (S754_zero s) == 0)%Q.
Proof. reflexivity. Qed.

(** A bound on the magnitude, read off a comparison. *)
Lemma abs_leb_Q (v c : float) :
  sf_is_finite (Prim2SF c) = true ->
  (abs v <=? c)%float = true ->
  sf_is_finite (Prim2SF v) = true /\ (Qabs (valueQ v) <= valueQ c)%Q.
Proof.
  intros Fc. rewrite leb_spec, abs_spec. unfold valueQ.
  pose proof (Prim2SF_valid v) as Vv. pose proof (Prim2SF_valid c) as Vc.
  unfold SFleb.
  destruct (Prim2SF v) as [s|s| |s m e].
  - cbn [SFabs].
    rewrite (SFcompare_Q (S754_zero false) _ (eq_refl true) Vc (eq_refl true) Fc).
    change (SF2Q (S754_zero false)) with 0%Q. change (SF2Q (S754_zero s)) with 0%Q.
    destruct (Qcompare_spec 0 (SF2Q (Prim2SF c))) as [E|L|G]; try discriminate;
      intros _; (split; [reflexivity|]); change (Qabs 0) with 0%Q; lra.
  - cbn [SFabs]. destruct (Prim2SF c); try discriminate.
  - discriminate.
  - cbn [SFabs].
    rewrite (SFcompare_Q (S754_finite false m e) _ Vv Vc (eq_refl true) Fc).
    assert (E : (SF2Q (S754_finite false m e) == Qabs (SF2Q (S754_finite s m e)))%Q).
    { rewrite Qabs_SF2Q. rewrite SF2Q_finite. ring. }
    destruct (Qcompare_spec (SF2Q (S754_finite false m e)) (SF2Q (Prim2SF c)))
      as [H|H|H]; try discriminate; intros _; (split; [reflexivity|]);
      rewrite <- E; lra.
Qed.

(** Equal numbers are equal for [==]. *)
Lemma eqb_Q (a b : float) :
  sf_is_finite (Prim2SF a) = true -> sf_is_finite (Prim2SF b) = true ->
  (valueQ a == valueQ b)%Q -> (a =? b)%float = true.
Proof.
  intros Fa Fb E. rewrite eqb_spec. unfold SFeqb.
  rewrite (SFcompare_Q _ _ (Prim2SF_valid a) (Prim2SF_valid b) Fa Fb).
  unfold valueQ in E. rewrite (Qcompare_eq _ _ E). reflexivity.
Qed.

Lemma Qmult_le_compat_left (a b c : Q) :
  (0 <= a)%Q -> (b <= c)%Q -> (a * b <= a * c)%Q.
Proof.
  intros Ha H. rewrite (Qmult_comm a b), (Qmult_comm a c).
  apply Qmult_le_compat_r; assumption.
Qed.

Lemma floor_half_small (x : Q) :
  (Qabs x * 2 <= 2 ^ emin)%Q -> Qfloor (x + (1 # 2)) = 0.
Proof.
  intros H. pose proof Qpow2_emin_small as Hs.
  apply Qfloor_unique; change (inject_Z 0) with 0%Q;
    revert H; apply Qabs_case; intros; set (A := (2 ^ emin)%Q) in *;
    clearbody A; lra.
Qed.

(** *** Order *)

Lemma leb_Q (a b : float) :
  sf_is_finite (Prim2SF a) = true -> sf_is_finite (Prim2SF b) = true ->
  (a <=? b)%float = true -> (valueQ a <= valueQ b)%Q.
Proof.
  intros Fa Fb. rewrite leb_spec. unfold SFleb, valueQ.
  rewrite (SFcompare_Q _ _ (Prim2SF_valid a) (Prim2SF_valid b) Fa Fb).
  destruct (Qcompare_spec (SF2Q (Prim2SF a)) (SF2Q (Prim2SF b))) as [E|L|G];
    try discriminate; intros _; lra.
Qed.

Lemma ltb_Q (a b : float) :
  sf_is_finite (Prim2SF a) = true -> sf_is_finite (Prim2SF b) = true ->
  (a <? b)%float = true -> (valueQ a < valueQ b)%Q.
Proof.
  intros Fa Fb. rewrite ltb_spec. unfold SFltb, valueQ.
  rewrite (SFcompare_Q _ _ (Prim2SF_valid a) (Prim2SF_valid b) Fa Fb).
  destruct (Qcompare_spec (SF2Q (Prim2SF a)) (SF2Q (Prim2SF b))) as [E|L|G];
    try discriminate; intros _; lra.
Qed.

(** A value between two numbers is a number. *)
Lemma between_finite (lo hi v : float) :
  sf_is_finite (Prim2SF lo) = true -> sf_is_finite (Prim2SF hi) = true ->
  (lo <=? v)%float = true ->
  (v <=? hi)%float = true \/ (v <? hi)%float = true ->
  sf_is_finite (Prim2SF v) = true.
Proof.
  rewrite !leb_spec, ltb_spec. unfold SFleb, SFltb.
  destruct (Prim2SF v) as [s|s| |s m e]; try reflexivity.
  - destruct (Prim2SF lo) as [sl|sl| |sl ml el], (Prim2SF hi) as [sh|sh| |sh mh eh];
      try discriminate; destruct s; cbn; intros _ _ H1 [H2|H2]; discriminate.
  - destruct (Prim2SF lo) as [sl|sl| |sl ml el]; discriminate.
Qed.

(** *** [Math.round] below [2^52] *)

(** [Math.round] of a number with digits after the binary point. *)
Lemma Math_round_fraction (v : float) (s : bool) (m : positive) (e : Z) :
  Prim2SF v = S754_finite s m e -> e < 0 ->
  JS.Math_round v
  = match Qfloor (valueQ v + (1 # 2)) with
    | 0 => if s then neg_zero else zero
    | n => JS.of_Z n
    end.
Proof.
  intros E He. unfold JS.Math_round, valueQ. rewrite E.
  destruct (Z.leb_spec 0 e); [lia|].
  rewrite round_half_up_floor by exact He. reflexivity.
Qed.

(** *** Products *)

(** The product of a positive number and a constant of at least 1, when it
    stays below a bound [B]: a positive number, no more than half a unit of
    its last place away from the exact product, with a small exponent. *)
Lemma product_error (a c : float) (ma mc : positive) (ea ec cexp : Z) (B : Q) :
  Prim2SF a = S754_finite false ma ea ->
  Prim2SF c = S754_finite false mc ec ->
  (1 <= valueQ c)%Q ->
  (valueQ a * valueQ c <= B)%Q ->
  (B <= 2 ^ 60)%Q ->
  emin <= cexp ->
  (B < 2 ^ (cexp + 1) * (9007199254740991 # 2))%Q ->
  exists (mP : positive) (eP : Z),
    Prim2SF (a * c)%float = S754_finite false mP eP
    /\ eP <= cexp
    /\ (Qabs (valueQ (a * c)%float - valueQ a * valueQ c) * 2 <= 2 ^ eP)%Q.
Proof.
  intros Ea Ec Hc HB HB60 Hemin Hcexp.
  pose proof (Prim2SF_valid a) as Va. rewrite Ea in Va.
  pose proof (Prim2SF_valid (a * c)%float) as VP.
  unfold valueQ in *. rewrite mul_spec in VP |- *. rewrite Ea, Ec in *.
  unfold SF64mul in *.
  pose proof (SFmul_error false false ma mc ea ec) as H. cbv zeta in H.
  set (x := (SF2Q (S754_finite false ma ea) * SF2Q (S754_finite false mc ec))%Q) in *.
  destruct (valid_finite_Q false ma ea Va) as (Ha1 & _).
  destruct (valid_finite_bounds false ma ea Va) as (Hamin & _).
  assert (Hpa : (2 ^ emin <= 2 ^ ea)%Q) by (apply Qpow2_le; exact Hamin).
  pose proof (Qpow2_pos emin) as Hpm.
  assert (Hapos : (0 <= SF2Q (S754_finite false ma ea))%Q).
  { rewrite SF2Q_finite, Qmult_1_l. apply Qmult_le_0_compat.
    - change 0%Q with (inject_Z 0). rewrite <- Zle_Qle. lia.
    - apply Qlt_le_weak, Qpow2_pos. }
  rewrite (Qabs_pos _ Hapos) in Ha1.
  assert (Hx1 : (2 ^ emin <= x)%Q).
  { unfold x. rewrite <- (Qmult_1_r (2 ^ emin)).
    apply Qmult_le_compat_nonneg; split; lra. }
  assert (Hxabs : (Qabs x == x)%Q) by (apply Qabs_pos; lra).
  assert (H60 : (2 ^ 60 < 2 ^ (emax - prec))%Q) by (apply Qpow2_lt; reflexivity).
  destruct (SFmul prec emax (S754_finite false ma ea) (S754_finite false mc ec))
    as [sP|sP| |sP mP eP].
  - exfalso. rewrite Hxabs in H.
    set (M := (2 ^ emin)%Q) in *. clearbody M x. clear - H Hx1 Hpm. lra.
  - exfalso. rewrite Hxabs in H.
    set (M := (2 ^ (emax - prec))%Q) in *. set (K := (2 ^ 60)%Q) in *.
    clearbody M K x. clear - H HB HB60 H60. lra.
  - contradiction.
  - destruct H as [-> H]. cbn [xorb] in *. exists mP, eP.
    split; [reflexivity|]. split; [|exact H].
    destruct (Z_le_gt_dec eP cexp) as [|Hgt]; [assumption|exfalso].
    destruct (valid_finite_Q false mP eP VP) as (_ & _ & Hn).
    destruct (valid_finite_bounds false mP eP VP) as (HPmin & _).
    assert (Hpe : (2 ^ (cexp + 1) <= 2 ^ eP)%Q) by (apply Qpow2_le; lia).
    pose proof (Qpow2_pos (cexp + 1)) as Hpc.
    destruct (Z_le_gt_dec eP emin) as [Hle|Hgt'].
    + lia.
    + specialize (Hn ltac:(lia)).
      pose proof (Qabs_triangle (SF2Q (S754_finite false mP eP) - x) x) as Ht.
      setoid_replace (SF2Q (S754_finite false mP eP) - x + x)%Q
        with (SF2Q (S754_finite false mP eP)) in Ht by ring.
      change (2 ^ 52)%Q with 4503599627370496%Q in Hn.
      revert H Ht Hn. rewrite Hxabs.
      set (P := Qabs (SF2Q (S754_finite false mP eP))).
      set (D := Qabs (SF2Q (S754_finite false mP eP) - x)).
      set (E := (2 ^ eP)%Q) in *. set (K := (2 ^ (cexp + 1))%Q) in *.
      clearbody P D E K x. intros H Ht Hn.
      clear - H Ht Hn Hcexp HB Hpe Hpc. lra.
Qed.

(** *** Checking a range of integers *)

Lemma Zrange_forallb (check : Z -> bool) (n : nat) (lo z : Z) :
  forallb check (Zrange lo n) = true ->
  (lo <= z < lo + Z.of_nat n)%Z -> check z = true.
Proof.
  revert lo. induction n as [|n IH]; intros lo H Hz; [lia|].
  simpl in H. apply andb_prop in H. destruct H as [H0 H].
  destruct (Z.eq_dec z lo) as [->|Hne]; [exact H0|].
  apply (IH (lo + 1)%Z H). lia.
Qed.

Lemma Zrange_covers (check : Z -> bool) (lo hi z : Z) :
  forallb check (Zrange lo (Z.to_nat (hi - lo + 1))) = true ->
  (lo <= z <= hi)%Z -> check z = true.
Proof.
  intros H Hz. apply (Zrange_forallb check _ lo z H).
  rewrite Z2Nat.id by lia. lia.
Qed.

(** ** Measurement labels *)

(** A number that is at least 1 is finite and positive. *)
Lemma at_least_one (v : float) :
  (1 <=? v)%float = true -> sf_is_finite (Prim2SF v) = true ->
  exists m e, Prim2SF v = S754_finite false m e.
Proof.
  rewrite leb_spec. unfold SFleb.
  destruct (Prim2SF v) as [s|s| |[] m e]; try discriminate; eauto.
Qed.

(** A number that is at least 0 and finite is a zero or positive. *)
Lemma at_least_zero (v : float) :
  (0 <=? v)%float = true -> sf_is_finite (Prim2SF v) = true ->
  (exists s, Prim2SF v = S754_zero s) \/ (exists m e, Prim2SF v = S754_finite false m e).
Proof.
  rewrite leb_spec. unfold SFleb.
  destruct (Prim2SF v) as [s|s| |[] m e]; try discriminate; eauto.
Qed.

(** [Math.round(meters * 100)] for a length from 1 m to 100 m. *)
Lemma round_of_hundredths (meters : float) :
  (1 <=? meters)%float = true -> (meters <=? 100)%float = true ->
  exists n : Z,
    100 <= n <= 10000
    /\ (Qabs (inject_Z n - 100 * valueQ meters) <= (1 # 2) + (1 # 2 ^ 40))%Q
    /\ JS.Math_round (meters * 100)%float = JS.of_Z n.
Proof.
  intros H1 H100.
  assert (F : sf_is_finite (Prim2SF meters) = true).
  { apply (between_finite 1 100); auto. }
  destruct (at_least_one meters H1 F) as (m & e & E).
  apply leb_Q in H1; [|reflexivity|exact F].
  apply leb_Q in H100; [|exact F|reflexivity].
  assert (V1 : (valueQ 1 == 1)%Q) by (vm_compute; reflexivity).
  assert (V100 : (valueQ 100 == 100)%Q) by (vm_compute; reflexivity).
  rewrite V1 in H1. rewrite V100 in H100.
  assert (Ec : Prim2SF 100 = S754_finite false 7036874417766400 (-46))
    by (vm_compute; reflexivity).
  destruct (product_error meters 100 m 7036874417766400 e (-46) (-39) 10000 E Ec)
    as (mP & eP & EP & HeP & Herr).
  - rewrite V100. discriminate.
  - rewrite V100. set (x := valueQ meters) in *. clearbody x. lra.
  - vm_compute. discriminate.
  - vm_compute. discriminate.
  - vm_compute. reflexivity.
  - rewrite V100 in Herr.
    assert (Hp : (2 ^ eP <= 2 ^ (-39))%Q) by (apply Qpow2_le; exact HeP).
    change (2 ^ (-39))%Q with (1 # 549755813888)%Q in Hp.
    rewrite (Math_round_fraction _ false mP eP EP) by lia.
    set (P := valueQ (meters * 100)%float) in *.
    pose proof (Qfloor_le (P + (1 # 2))) as Hlo.
    pose proof (Qlt_floor (P + (1 # 2))) as Hhi.
    set (n := Qfloor (P + (1 # 2))) in *.
    assert (Hq : (inject_Z (n + 1) == inject_Z n + 1)%Q)
      by (rewrite inject_Z_plus; reflexivity).
    rewrite Hq in Hhi. clear Hq.
    set (x := valueQ meters) in *. set (u := (2 ^ eP)%Q) in *.
    assert (Hd : (Qabs (P - x * 100) <= (1 # 1099511627776))%Q).
    { clearbody u. set (D := Qabs (P - x * 100)) in *. clearbody D. lra. }
    clear Herr Hp. clearbody u.
    assert (Hn : (99 < inject_Z n)%Q /\ (inject_Z n < 10001)%Q).
    { revert Hd. apply Qabs_case; intros Hs Hd; clearbody P n x; split; lra. }
    destruct Hn as [Hn1 Hn2].
    change 99%Q with (inject_Z 99) in Hn1. rewrite <- Zlt_Qlt in Hn1.
    change 10001%Q with (inject_Z 10001) in Hn2. rewrite <- Zlt_Qlt in Hn2.
    exists n. split; [lia|]. split.
    + change (1 # 2 ^ 40)%Q with (1 # 1099511627776)%Q.
      revert Hd. apply Qabs_case; intros Hs Hd; apply Qabs_case; intros Ht;
        clearbody P n x; lra.
    + destruct n; try lia; reflexivity.
Qed.

(** [Math.round(meters * 100 * 10)] for a positive length under 1 m. *)
Lemma round_of_millimetres (meters : float) (m : positive) (e : Z) :
  Prim2SF meters = S754_finite false m e -> (meters <? 1)%float = true ->
  exists n : Z,
    0 <= n <= 1000
    /\ (Qabs (inject_Z n - 1000 * valueQ meters) <= (1 # 2) + (1 # 2 ^ 42))%Q
    /\ JS.Math_round (meters * 100 * 10)%float = JS.of_Z n.
Proof.
  intros E H1.
  assert (F : sf_is_finite (Prim2SF meters) = true) by (rewrite E; reflexivity).
  apply ltb_Q in H1; [|exact F|reflexivity].
  assert (V1 : (valueQ 1 == 1)%Q) by (vm_compute; reflexivity).
  assert (V10 : (valueQ 10 == 10)%Q) by (vm_compute; reflexivity).
  assert (V100 : (valueQ 100 == 100)%Q) by (vm_compute; reflexivity).
  rewrite V1 in H1.
  assert (H0 : (0 <= valueQ meters)%Q).
  { unfold valueQ. rewrite E, SF2Q_finite, Qmult_1_l. apply Qmult_le_0_compat.
    - change 0%Q with (inject_Z 0). rewrite <- Zle_Qle. lia.
    - apply Qlt_le_weak, Qpow2_pos. }
  assert (Ec : Prim2SF 100 = S754_finite false 7036874417766400 (-46))
    by (vm_compute; reflexivity).
  assert (Ed : Prim2SF 10 = S754_finite false 5629499534213120 (-49))
    by (vm_compute; reflexivity).
  destruct (product_error meters 100 m 7036874417766400 e (-46) (-46) 100 E Ec)
    as (m1 & e1 & E1 & He1 & Herr1).
  - rewrite V100. discriminate.
  - rewrite V100. set (x := valueQ meters) in *. clearbody x. lra.
  - vm_compute. discriminate.
  - vm_compute. discriminate.
  - vm_compute. reflexivity.
  - rewrite V100 in Herr1.
    assert (Hp1 : (2 ^ e1 <= 2 ^ (-46))%Q) by (apply Qpow2_le; exact He1).
    change (2 ^ (-46))%Q with (1 # 70368744177664)%Q in Hp1.
    set (P1 := (meters * 100)%float) in *.
    set (x := valueQ meters) in *.
    assert (Hd1 : (Qabs (valueQ P1 - x * 100) <= (1 # 140737488355328))%Q).
    { set (u := (2 ^ e1)%Q) in *. clearbody u.
      set (D := Qabs (valueQ P1 - x * 100)) in *. clearbody D. lra. }
    clear Herr1 Hp1.
    destruct (product_error P1 10 m1 5629499534213120 e1 (-49) (-43) 1001 E1 Ed)
      as (m2 & e2 & E2 & He2 & Herr2).
    + rewrite V10. discriminate.
    + rewrite V10. revert Hd1. apply Qabs_case; intros Hs Hd1;
        set (p := valueQ P1) in *; clearbody p x; lra.
    + vm_compute. discriminate.
    + vm_compute. discriminate.
    + vm_compute. reflexivity.
    + rewrite V10 in Herr2.
      assert (Hp2 : (2 ^ e2 <= 2 ^ (-43))%Q) by (apply Qpow2_le; exact He2).
      change (2 ^ (-43))%Q with (1 # 8796093022208)%Q in Hp2.
      rewrite (Math_round_fraction _ false m2 e2 E2) by lia.
      set (P := valueQ (P1 * 10)%float) in *.
      set (p := valueQ P1) in *.
      assert (Hd2 : (Qabs (P - p * 10) <= (1 # 17592186044416))%Q).
      { set (u := (2 ^ e2)%Q) in *. clearbody u.
        set (D := Qabs (P - p * 10)) in *. clearbody D. lra. }
      clear Herr2 Hp2.
      pose proof (Qfloor_le (P + (1 # 2))) as Hlo.
      pose proof (Qlt_floor (P + (1 # 2))) as Hhi.
      set (n := Qfloor (P + (1 # 2))) in *.
      assert (Hq : (inject_Z (n + 1) == inject_Z n + 1)%Q)
        by (rewrite inject_Z_plus; reflexivity).
      rewrite Hq in Hhi. clear Hq.
      assert (Hd : (Qabs (P - 1000 * x) <= (1 # 4398046511104))%Q).
      { revert Hd1 Hd2. apply Qabs_case; intros Hs1 Hd1; apply Qabs_case;
          intros Hs2 Hd2; apply Qabs_case; intros Hs3; clearbody P p n x; lra. }
      assert (Hn : (-1 < inject_Z n)%Q /\ (inject_Z n < 1001)%Q).
      { revert Hd. apply Qabs_case; intros Hs Hd; clearbody P p n x; split; lra. }
      destruct Hn as [Hn1 Hn2].
      change (-1)%Q with (inject_Z (-1)) in Hn1. rewrite <- Zlt_Qlt in Hn1.
      change 1001%Q with (inject_Z 1001) in Hn2. rewrite <- Zlt_Qlt in Hn2.
      exists n. split; [lia|]. split.
      * change (1 # 2 ^ 42)%Q with (1 # 4398046511104)%Q.
        revert Hd. apply Qabs_case; intros Hs Hd; apply Qabs_case; intros Ht;
          clearbody P p n x; lra.
      * destruct n; try lia; reflexivity.
Qed.

(** *** The text of a rounded length *)

(** The text of a whole number of millimetres, given in centimetres. *)
Lemma oneDecimal_text (n : Z) :
  0 <= n <= 1000 -> JS.Number_toString (JS.of_Z n / 10)%float = oneDecimal n.
Proof.
  intros Hn. apply String.eqb_eq.
  apply (Zrange_covers
           (fun n => String.eqb (JS.Number_toString (JS.of_Z n / 10)%float)
                                (oneDecimal n)) 0 1000 n);
    [vm_compute; reflexivity | exact Hn].
Qed.

(** The text of a whole number of centimetres, given in metres. *)
Lemma twoDecimals_text (n : Z) :
  100 <= n <= 10000 -> JS.Number_toString (JS.of_Z n / 100)%float = twoDecimals n.
Proof.
  intros Hn. apply String.eqb_eq.
  apply (Zrange_covers
           (fun n => String.eqb (JS.Number_toString (JS.of_Z n / 100)%float)
                                (twoDecimals n)) 100 10000 n);
    [vm_compute; reflexivity | exact Hn].
Qed.

Lemma zero_of_Prim2SF (v : float) (s : bool) :
  Prim2SF v = S754_zero s -> v = (if s then neg_zero else zero).
Proof.
  intros E. apply Prim2SF_inj. rewrite E. destruct s; reflexivity.
Qed.

(** C5, amended.  For a length from 0 up to, but not including, one meter
    [formatMeasurement] gives a whole number [n] of millimetres, written in
    centimetres with at most one decimal place and the unit "cm"; for a
    length from 1 m to 100 m it gives a whole number [n] of centimetres,
    written in meters with at most two decimal places and the unit "m".
    In both cases [n] is the nearest whole number up to the rounding of the
    products [meters * 100] and [meters * 100 * 10]: it is within
    [1/2 + 2^-42] of the number of millimetres, or [1/2 + 2^-40] of the
    number of centimetres.  0.5 gives "50 cm", 2.345 gives "2.35 m" and
    0.999 gives "99.9 cm". *)
Theorem formatMeasurement_units :
  (forall meters : float,
      (0 <=? meters)%float = true -> (meters <? 1)%float = true ->
      exists n : Z,
        0 <= n <= 1000
        /\ (Qabs (inject_Z n - 1000 * valueQ meters) <= (1 # 2) + (1 # 2 ^ 42))%Q
        /\ formatMeasurement meters = (oneDecimal n ++ " cm")%string)
  /\ (forall meters : float,
         (1 <=? meters)%float = true -> (meters <=? 100)%float = true ->
         exists n : Z,
           100 <= n <= 10000
           /\ (Qabs (inject_Z n - 100 * valueQ meters) <= (1 # 2) + (1 # 2 ^ 40))%Q
           /\ formatMeasurement meters = (twoDecimals n ++ " m")%string)
  /\ formatMeasurement 0.5%float = "50 cm"%string
  /\ formatMeasurement 2.345%float = "2.35 m"%string
  /\ formatMeasurement 0.999%float = "99.9 cm"%string.
Proof.
  split; [|split; [|repeat split; vm_compute; reflexivity]].
  - intros meters H0 H1.
    assert (F : sf_is_finite (Prim2SF meters) = true).
    { apply (between_finite 0 1); auto. }
    destruct (at_least_zero meters H0 F) as [[s E]|(m & e & E)].
    + exists 0. split; [lia|]. split.
      * unfold valueQ. rewrite E. vm_compute. discriminate.
      * rewrite (zero_of_Prim2SF _ _ E). destruct s; vm_compute; reflexivity.
    + destruct (round_of_millimetres meters m e E H1) as (n & Hn & Hq & Hr).
      exists n. split; [exact Hn|]. split; [exact Hq|].
      unfold formatMeasurement. rewrite H1. cbv zeta.
      rewrite Hr, (oneDecimal_text n Hn). reflexivity.
  - intros meters H1 H100.
    destruct (round_of_hundredths meters H1 H100) as (n & Hn & Hq & Hr).
    exists n. split; [exact Hn|]. split; [exact Hq|].
    assert (F : sf_is_finite (Prim2SF meters) = true).
    { apply (between_finite 1 100); auto. }
    unfold formatMeasurement.
    destruct (meters <? 1)%float eqn:L.
    + exfalso. apply ltb_Q in L; [|exact F|reflexivity].
      apply leb_Q in H1; [|reflexivity|exact F].
      set (x := valueQ meters) in *. set (y := valueQ 1) in *.
      clearbody x y. lra.
    + cbv zeta. rewrite Hr, (twoDecimals_text n Hn). reflexivity.
Qed.

(** The lengths 0.0115 m and 12.5 m. *)
Lemma formatMeasurement_units_witness :
  (exists n : Z,
      0 <= n <= 1000
      /\ (Qabs (inject_Z n - 1000 * valueQ 0.0115%float) <= (1 # 2) + (1 # 2 ^ 42))%Q
      /\ formatMeasurement 0.0115%float = (oneDecimal n ++ " cm")%string)
  /\ (exists n : Z,
         100 <= n <= 10000
         /\ (Qabs (inject_Z n - 100 * valueQ 12.5%float) <= (1 # 2) + (1 # 2 ^ 40))%Q
         /\ formatMeasurement 12.5%float = (twoDecimals n ++ " m")%string)
  /\ formatMeasurement 12.5%float = "12.5 m"%string.
Proof.
  split; [|split].
  - apply (proj1 formatMeasurement_units 0.0115%float); reflexivity.
  - apply (proj1 (proj2 formatMeasurement_units) 12.5%float); reflexivity.
  - vm_compute. reflexivity.
Defined.

(** C5 as stated fails next to a tie: the binary64 number 1.115 is below
    1.115, so that 1.11 is its nearest number with two decimal places, yet
    the text is "1.12 m", since [1.115 * 100] is rounded to 111.5; in the
    same way 0.0115 m, nearest to 1.1 cm, is shown as "1.2 cm".  For a large
    number the text has no decimal places and is not the number's own
    shortest text either: [1e21] gives "999999999999999900000 m". *)
Lemma formatMeasurement_misrounds :
  formatMeasurement 1.115%float = "1.12 m"%string
  /\ (Qabs (valueQ 1.115%float - (111 # 100)) < Qabs (valueQ 1.115%float - (112 # 100)))%Q
  /\ formatMeasurement 0.0115%float = "1.2 cm"%string
  /\ (Qabs (valueQ 0.0115%float * 100 - (11 # 10)) < Qabs (valueQ 0.0115%float * 100 - (12 # 10)))%Q
  /\ formatMeasurement 1e21%float = "999999999999999900000 m"%string.
Proof.
  repeat split; vm_compute; reflexivity.
Qed.

Local Close Scope Z_scope.

(** C6, amended.  Drawing a rectangle from (100,100) to (160,140) on the
    20px grid with snapping on commits a room with x = 100, y = 100,
    width = 60 and height = 40; the size label shown while it is drawn reads
    "1.2 m × 80 cm": each side is converted by [pixelsToMeters] and formatted
    by [formatMeasurement] on its own, and 0.8 m is under one meter. *)
Theorem rectangle_scenario (now : Z) :
  exists dragging released : Editor,
    dragRectangle now 100 100 160 140 (drawingEditor "rectangle")
    = Some (dragging, released)
    /\ rooms released
       = [RectangleRoom (roomIdAt now) 100 100 60 40 "New Room" "good" None None]
    /\ option_map label_text (roomDimensionGroup dragging)
       = Some "1.2 m × 80 cm"%string
    /\ measurementText 60 40
       = (formatMeasurement (pixelsToMeters 60) ++ " × "
          ++ formatMeasurement (pixelsToMeters 40))%string.
Proof.
  eexists. eexists. split; [vm_compute; reflexivity|].
  repeat split; vm_compute; reflexivity.
Qed.

(** C6 as stated fails: the label of that rectangle is not
    "1.2 m × 0.8 m". *)
Lemma rectangle_label_not_in_meters :
  option_map (fun both => option_map label_text (roomDimensionGroup (fst both)))
    (dragRectangle 0 100 100 160 140 (drawingEditor "rectangle"))
  <> Some (Some "1.2 m × 0.8 m"%string)
  /\ measurementText 60 40 <> "1.2 m × 0.8 m"%string.
Proof. split; vm_compute; discriminate. Qed.

(** ** The rectangle tool *)

(** C2. Releasing the button of a rectangle drag that started at the snapped
    point [start] creates a room exactly when the snapped release point is
    more than 20px away from it in both directions; the room has
    x = min(x1,x2), y = min(y1,y2), width = |x2-x1| and height = |y2-y1|.
    When the width or the height is at most 20 the list of rooms stays as it
    was, the draft is dropped and nothing is reported.  Here [Math.min] of
    two numbers is one of them and neither is below it; [Math.abs] of a
    number above zero is the number, of a number below zero its opposite, of
    a zero [+0], and never below zero; and the width and the height are the
    same whether the drag goes right or left, down or up. *)
Theorem mouseup_commits_rectangle (now : Z) (ex ey : float) (ed : Editor)
    (start : Point) (rect : RectAttrs) :
  isDrawingMode ed = true ->
  drawingTool ed = "rectangle"%string ->
  roomStartPoint ed = Some start ->
  tempRect ed = Some rect ->
  let x1 := Point.x start in
  let y1 := Point.y start in
  let x2 := snapToGridCoordinate (snapToGrid ed) (gridSize ed) ex in
  let y2 := snapToGridCoordinate (snapToGrid ed) (gridSize ed) ey in
  let width := JS.Math_abs (x2 - x1) in
  let height := JS.Math_abs (y2 - y1) in
  let room :=
    RectangleRoom (roomIdAt now) (JS.Math_min [x1; x2]) (JS.Math_min [y1; y2])
      width height "New Room" "good" None None in
  let ed' := mouseup now ex ey ed in
  ((exists r, rooms ed' = rooms ed ++ [r])
   <-> ((20 <? width) = true /\ (20 <? height) = true))
  /\ ((20 <? width) = true /\ (20 <? height) = true ->
      rooms ed' = rooms ed ++ [room])
  /\ ((width <=? 20) = true \/ (height <=? 20) = true ->
      rooms ed' = rooms ed /\ effects ed' = effects ed)
  /\ tempRect ed' = None /\ roomStartPoint ed' = None
  /\ roomDimensionGroup ed' = None
  /\ (forall a b : float,
       is_nan a = false -> is_nan b = false ->
       (JS.Math_min [a; b] = a \/ JS.Math_min [a; b] = b)
       /\ (a <? JS.Math_min [a; b]) = false
       /\ (b <? JS.Math_min [a; b]) = false)
  /\ (forall v : float,
       ((0 <? v) = true -> JS.Math_abs v = v)
       /\ ((v <? 0) = true -> JS.Math_abs v = - v)
       /\ ((v =? 0) = true -> JS.Math_abs v = 0)
       /\ (JS.Math_abs v <? 0) = false)
  /\ width = JS.Math_abs (x1 - x2) /\ height = JS.Math_abs (y1 - y2).
Proof.
  intros Hmode Htool Hstart Hrect x1 y1 x2 y2 width height room ed'.
  assert (Hed' :
    ed' = set_roomStartPoint None (set_tempRect None
            (if ((20 <? width) && (20 <? height))%bool
             then perform (ShowRoomNameInputModal (roomIdAt now))
                    (perform (RenderRoom room)
                       (removeRoomMeasurement (set_rooms (rooms ed ++ [room]) ed)))
             else removeRoomMeasurement ed))).
  { unfold ed', mouseup. rewrite Hmode, Htool, Hstart, Hrect. reflexivity. }
  assert (Hno : forall l (r : Room), l <> l ++ [r]).
  { intros l r E. apply (f_equal (@List.length Room)) in E.
    rewrite length_app in E. simpl in E. lia. }
  assert (Hrooms : rooms ed' = if ((20 <? width) && (20 <? height))%bool
                               then rooms ed ++ [room] else rooms ed).
  { rewrite Hed'. destruct ((20 <? width) && (20 <? height))%bool; reflexivity. }
  assert (Heffects : ((20 <? width) && (20 <? height))%bool = false ->
                     effects ed' = effects ed).
  { intros C. rewrite Hed', C. reflexivity. }
  assert (Hdraft : tempRect ed' = None /\ roomStartPoint ed' = None
                   /\ roomDimensionGroup ed' = None
                   /\ (forall a b : float,
                        is_nan a = false -> is_nan b = false ->
                        (JS.Math_min [a; b] = a \/ JS.Math_min [a; b] = b)
                        /\ (a <? JS.Math_min [a; b]) = false
                        /\ (b <? JS.Math_min [a; b]) = false)
                   /\ (forall v : float,
                        ((0 <? v) = true -> JS.Math_abs v = v)
                        /\ ((v <? 0) = true -> JS.Math_abs v = - v)
                        /\ ((v =? 0) = true -> JS.Math_abs v = 0)
                        /\ (JS.Math_abs v <? 0) = false)
                   /\ width = JS.Math_abs (x1 - x2)
                   /\ height = JS.Math_abs (y1 - y2)).
  { rewrite Hed'. destruct ((20 <? width) && (20 <? height))%bool;
      (split; [reflexivity|]; split; [reflexivity|]; split; [reflexivity|];
       split; [exact Math_min_pair|]; split; [exact Math_abs_cases|];
       split; apply Math_abs_difference). }
  assert (Hsmall : (width <=? 20) = true \/ (height <=? 20) = true ->
                   ((20 <? width) && (20 <? height))%bool = false).
  { intros [H|H]; apply leb_ltb_false in H; rewrite H;
      [reflexivity | apply andb_false_r]. }
  split; [|split; [|split; [|exact Hdraft]]].
  - rewrite Hrooms. split.
    + intros [r E]. apply andb_true_iff.
      destruct ((20 <? width) && (20 <? height))%bool; [reflexivity|].
      exfalso. exact (Hno _ _ E).
    + intros C. apply andb_true_iff in C. rewrite C. exists room. reflexivity.
  - intros C. apply andb_true_iff in C. rewrite Hrooms, C. reflexivity.
  - intros H. apply Hsmall in H. split; [rewrite Hrooms, H; reflexivity|].
    apply Heffects. exact H.
Qed.

(** Three releases of the drag that started at (100,100): down and to the
    right at (161,139), up and to the left at (41,59), and too close at
    (119,59). *)
Lemma mouseup_commits_rectangle_witness :
  rooms (mouseup 7 161 139 rectangleInProgress)
  = [RectangleRoom "room_7" 100 100 60 40 "New Room" "good" None None]
  /\ rooms (mouseup 7 41 59 rectangleInProgress)
     = [RectangleRoom "room_7" 40 60 60 40 "New Room" "good" None None]
  /\ rooms (mouseup 7 119 59 rectangleInProgress) = []
  /\ effects (mouseup 7 119 59 rectangleInProgress) = [].
Proof.
  pose (rect := {| rect_x := 100; rect_y := 100; rect_width := 0; rect_height := 0 |}).
  split; [|split].
  - apply (proj1 (proj2 (mouseup_commits_rectangle 7 161 139 rectangleInProgress
                           (Point.mk 100 100) rect
                           eq_refl eq_refl eq_refl eq_refl))).
    split; reflexivity.
  - apply (proj1 (proj2 (mouseup_commits_rectangle 7 41 59 rectangleInProgress
                           (Point.mk 100 100) rect
                           eq_refl eq_refl eq_refl eq_refl))).
    split; reflexivity.
  - apply (proj1 (proj2 (proj2 (mouseup_commits_rectangle 7 119 59 rectangleInProgress
                                  (Point.mk 100 100) rect
                                  eq_refl eq_refl eq_refl eq_refl)))).
    left. reflexivity.
Defined.

(** ** The line tool *)

(** C3. While fewer than three vertices have been drawn, a click within the
    closing distance of the start point is rejected: the handler only shows
    the warning; no room is created and the vertices, the start point and
    the previews stay as they were. *)
Theorem close_needs_three_vertices (now : Z) (ex ey : float) (ed : Editor)
    (start : Point) :
  isDrawingMode ed = true ->
  drawingTool ed = "line"%string ->
  linePoints ed <> [] ->
  (List.length (linePoints ed) < 3)%nat ->
  lineStartPoint ed = Some start ->
  isPointClose (snapToGridCoordinate (snapToGrid ed) (gridSize ed) ex)
    (snapToGridCoordinate (snapToGrid ed) (gridSize ed) ey)
    (Point.x start) (Point.y start) None = true ->
  exists ed',
    mousedown now ex ey ed = Some ed'
    /\ rooms ed' = rooms ed
    /\ linePoints ed' = linePoints ed
    /\ lineStartPoint ed' = lineStartPoint ed
    /\ tempPolyline ed' = tempPolyline ed
    /\ tempPolygon ed' = tempPolygon ed
    /\ effects ed'
       = effects ed ++ [ShowToast "Need at least 3 points to create a room" "warning"].
Proof.
  intros Hmode Htool Hpts Hlen Hstart Hclose.
  exists (showToast "Need at least 3 points to create a room" "warning" ed).
  split; [|repeat split; reflexivity].
  unfold mousedown. rewrite Hmode, Htool, Hstart. simpl.
  destruct (linePoints ed) as [|p0 rest] eqn:E; [congruence|].
  rewrite Hclose. unfold completeLineRoom. rewrite E.
  apply Nat.ltb_lt in Hlen. rewrite Hlen. reflexivity.
Qed.

(** A click next to the start point after two vertices. *)
Lemma close_needs_three_vertices_witness :
  exists ed',
    mousedown 7 4 3 (lineInProgress true [Point.mk 0 0; Point.mk 100 0]) = Some ed'
    /\ rooms ed' = []
    /\ linePoints ed' = [Point.mk 0 0; Point.mk 100 0]
    /\ lineStartPoint ed' = Some (Point.mk 0 0)
    /\ tempPolyline ed' = Some [Point.mk 0 0; Point.mk 100 0]
    /\ tempPolygon ed' = Some [Point.mk 0 0; Point.mk 100 0]
    /\ effects ed'
       = [ShowToast "Need at least 3 points to create a room" "warning"].
Proof.
  apply (close_needs_three_vertices 7 4 3
           (lineInProgress true [Point.mk 0 0; Point.mk 100 0]) (Point.mk 0 0)).
  - reflexivity.
  - reflexivity.
  - simpl. discriminate.
  - simpl. lia.
  - reflexivity.
  - vm_compute. reflexivity.
Defined.

Lemma last_cons_default {A : Type} (a : A) (l : list A) (d d' : A) :
  last (a :: l) d = last (a :: l) d'.
Proof.
  revert a. induction l as [|b l IH]; intros a; [reflexivity|].
  change (last (b :: l) d = last (b :: l) d'). apply IH.
Qed.

(** Without a cursor position [updateTempPolyline] only redraws. *)
Lemma updateTempPolyline_redraw (ed : Editor) :
  exists ed', updateTempPolyline None ed = Some ed'
              /\ linePoints ed' = linePoints ed /\ rooms ed' = rooms ed
              /\ lineStartPoint ed' = lineStartPoint ed /\ effects ed' = effects ed.
Proof.
  unfold updateTempPolyline.
  destruct (linePoints ed) as [|p rest] eqn:E.
  - exists ed. repeat split; congruence.
  - destruct (tempPolyline ed) as [pl|] eqn:El;
      [ destruct (tempPolygon (set_tempPolyline (Some (p :: rest)) ed)) as [pg|];
        [ destruct (2 <=? List.length
                            (linePoints (set_tempPolyline (Some (p :: rest)) ed)))%nat | ]
      | destruct (tempPolygon ed) as [pg|];
        [ destruct (2 <=? List.length (linePoints ed))%nat | ] ];
      eexists; (split; [reflexivity|]); simpl; repeat split; congruence.
Qed.

(** C8, amended.  While vertices are being drawn, a click within the closing
    distance of the start point closes the polygon; any other click appends
    a vertex if and only if its distance from the preceding vertex is not
    below 15px (a click closer than that changes nothing).  The closing
    distance and the minimum separation are the same constant, 15px, each
    compared with [<]. *)
Theorem click_while_drawing (now : Z) (ex ey : float) (ed : Editor) (start : Point) :
  isDrawingMode ed = true ->
  drawingTool ed = "line"%string ->
  linePoints ed <> [] ->
  lineStartPoint ed = Some start ->
  let x := snapToGridCoordinate (snapToGrid ed) (gridSize ed) ex in
  let y := snapToGridCoordinate (snapToGrid ed) (gridSize ed) ey in
  let previous := last (linePoints ed) start in
  let separation := calculateDistance (Point.x previous) (Point.y previous) x y in
  let closing := isPointClose x y (Point.x start) (Point.y start) None in
  (closing = true -> mousedown now ex ey ed = Some (completeLineRoom now ed))
  /\ (closing = false -> (separation <? 15) = true ->
      mousedown now ex ey ed = Some ed)
  /\ (closing = false -> (separation <? 15) = false ->
      exists ed', mousedown now ex ey ed = Some ed'
                  /\ linePoints ed' = linePoints ed ++ [Point.mk x y]
                  /\ rooms ed' = rooms ed)
  /\ (forall x1 y1 x2 y2 : float,
        isPointClose x1 y1 x2 y2 None = (calculateDistance x1 y1 x2 y2 <? 15)).
Proof.
  intros Hmode Htool Hpts Hstart x y previous separation closing.
  assert (Hdown :
    mousedown now ex ey ed
    = if closing then Some (completeLineRoom now ed)
      else if separation <? 15 then Some ed
      else updateTempPolyline None
             (set_linePoints (linePoints ed ++ [Point.mk x y]) ed)).
  { unfold mousedown. rewrite Hmode, Htool, Hstart. simpl.
    unfold separation, previous, closing, x, y.
    destruct (linePoints ed) as [|p0 rest] eqn:E; [congruence|].
    rewrite (last_cons_default p0 rest p0 start). reflexivity. }
  rewrite Hdown. repeat apply conj.
  - intros ->. reflexivity.
  - intros -> ->. reflexivity.
  - intros -> ->.
    destruct (updateTempPolyline_redraw
                (set_linePoints (linePoints ed ++ [Point.mk x y]) ed))
      as (ed' & E & Hl & Hr & _).
    exists ed'. rewrite E. repeat split; assumption.
  - reflexivity.
Qed.

(** A click 8px (after snapping, 0px) from the second vertex is ignored. *)
Lemma click_while_drawing_witness :
  mousedown 7 108 3 (lineInProgress true [Point.mk 0 0; Point.mk 100 0])
  = Some (lineInProgress true [Point.mk 0 0; Point.mk 100 0]).
Proof.
  apply (proj1 (proj2 (click_while_drawing 7 108 3
                         (lineInProgress true [Point.mk 0 0; Point.mk 100 0])
                         (Point.mk 0 0) eq_refl eq_refl
                         ltac:(simpl; discriminate) eq_refl)));
    vm_compute; reflexivity.
Defined.

(** C8 as stated fails: a click exactly 15px from the preceding vertex does
    not exceed the separation, yet its vertex is appended. *)
Lemma vertex_at_15px_is_appended :
  isPointClose 115 0 0 0 None = false
  /\ (15 <? calculateDistance 100 0 115 0) = false
  /\ option_map linePoints
       (mousedown 0 115 0 (lineInProgress false [Point.mk 0 0; Point.mk 100 0]))
     = Some [Point.mk 0 0; Point.mk 100 0; Point.mk 115 0].
Proof. repeat split; vm_compute; reflexivity. Qed.

(** ** The centroid *)

Lemma fold_left_coordinate (proj : Point -> float) (points : list Point) (acc : float) :
  fold_left (fun s p => s + proj p) points acc
  = fold_left PrimFloat.add (map proj points) acc.
Proof.
  revert acc. induction points as [|p points IH]; intros acc; [reflexivity|].
  simpl. apply IH.
Qed.

(** The degenerate answer of the source is the arithmetic mean. *)
Lemma average_is_mean (points : list Point) : average points = arithmeticMean points.
Proof.
  unfold average, arithmeticMean. rewrite !fold_left_coordinate. reflexivity.
Qed.

Lemma first_some_found {A B : Type} (body : A -> option B) (l : list A) (b : B) :
  first_some body l = Some b -> exists a, In a l /\ body a = Some b.
Proof.
  induction l as [|a l IH]; simpl; [discriminate|].
  destruct (body a) as [b'|] eqn:E.
  - intros [= <-]. exists a. split; [left; reflexivity | exact E].
  - intros H. destruct (IH H) as (a' & Hin & Ha'). exists a'. split; [right|]; assumption.
Qed.

Lemma first_some_none {A B : Type} (body : A -> option B) (l : list A) :
  first_some body l = None -> Forall (fun a => body a = None) l.
Proof.
  induction l as [|a l IH]; simpl; [constructor|].
  destruct (body a) eqn:E; [discriminate|].
  intros H. constructor; [exact E | exact (IH H)].
Qed.

(** A point the search returns passes the ray-casting test. *)
Lemma interiorSearch_inside (points : list Point) (c p : Point) :
  interiorSearch points c = Some p ->
  isPointInPolygon (Point.x p) (Point.y p) points = true.
Proof.
  unfold interiorSearch.
  destruct (sampleInterior points c (bboxCenter points)) as [q|] eqn:Es.
  - intros [= <-]. unfold sampleInterior in Es.
    apply first_some_found in Es. destruct Es as (t & _ & Ht).
    set (tx := Point.x (bboxCenter points) + (Point.x c - Point.x (bboxCenter points)) * t) in *.
    set (ty := Point.y (bboxCenter points) + (Point.y c - Point.y (bboxCenter points)) * t) in *.
    destruct (isPointInPolygon tx ty points) eqn:E; [|discriminate].
    injection Ht as <-. exact E.
  - destruct (isPointInPolygon (Point.x (bboxCenter points))
                (Point.y (bboxCenter points)) points) eqn:Eb.
    + intros [= <-]. exact Eb.
    + unfold midpointInterior. intros Em.
      apply first_some_found in Em. destruct Em as ([p1 p2] & _ & Hm).
      set (mx := (Point.x p1 + Point.x p2) / 2) in *.
      set (my := (Point.y p1 + Point.y p2) / 2) in *.
      destruct (isPointInPolygon mx my points) eqn:E; [|discriminate].
      injection Hm as <-. exact E.
Qed.

(** When the search returns nothing, every candidate failed the test. *)
Lemma interiorSearch_exhausted (points : list Point) (c : Point) :
  interiorSearch points c = None ->
  let b := bboxCenter points in
  Forall (fun t =>
            isPointInPolygon (Point.x b + (Point.x c - Point.x b) * t)
              (Point.y b + (Point.y c - Point.y b) * t) points = false)
    (sampleSteps sampleFuel 0)
  /\ isPointInPolygon (Point.x b) (Point.y b) points = false
  /\ Forall (fun e =>
               isPointInPolygon ((Point.x (fst e) + Point.x (snd e)) / 2)
                 ((Point.y (fst e) + Point.y (snd e)) / 2) points = false)
       (edgesOf points).
Proof.
  intros H b. unfold interiorSearch in H. fold b in H.
  destruct (sampleInterior points c b) as [q|] eqn:Es; [discriminate|].
  destruct (isPointInPolygon (Point.x b) (Point.y b) points) eqn:Eb; [discriminate|].
  repeat split.
  - apply first_some_none in Es. revert Es. apply Forall_impl. intros t Ht.
    cbv zeta in Ht. revert Ht.
    match goal with
    | |- context [isPointInPolygon ?u ?v points] =>
        destruct (isPointInPolygon u v points); [discriminate | reflexivity]
    end.
  - apply first_some_none in H. revert H. apply Forall_impl. intros [p1 p2] Hm.
    cbv zeta in Hm. simpl fst. simpl snd. revert Hm.
    match goal with
    | |- context [isPointInPolygon ?u ?v points] =>
        destruct (isPointInPolygon u v points); [discriminate | reflexivity]
    end.
Qed.

(** With three or more points and an area that is not small, the result is
    the area-weighted centroid or what the interior search finds. *)
Lemma centroid_of_proper_polygon (points : list Point) :
  (3 <= List.length points)%nat ->
  (JS.Math_abs (signedArea points) <? 0.001) = false ->
  let result := calculatePolygonCentroid (Some points) in
  let c := areaCentroid points in
  (isPointInPolygon (Point.x c) (Point.y c) points = true /\ result = c)
  \/ (isPointInPolygon (Point.x c) (Point.y c) points = false
      /\ interiorSearch points c = Some result
      /\ isPointInPolygon (Point.x result) (Point.y result) points = true)
  \/ (isPointInPolygon (Point.x c) (Point.y c) points = false
      /\ interiorSearch points c = None /\ result = c).
Proof.
  intros H3 Ha result c. unfold result, calculatePolygonCentroid.
  apply Nat.ltb_ge in H3. rewrite H3, Ha. fold c.
  destruct (isPointInPolygon (Point.x c) (Point.y c) points) eqn:Ec; simpl.
  - left. split; reflexivity.
  - right. destruct (interiorSearch points c) as [p|] eqn:Es.
    + left. repeat split. exact (interiorSearch_inside _ _ _ Es).
    + right. repeat split.
Qed.

(** C4, amended.  With one or two points [calculatePolygonCentroid] returns
    their arithmetic mean (with none it returns the origin), and so it does
    with three or more points whose signed shoelace area is below 0.001 in
    absolute value.  Otherwise it returns the area-weighted centroid, the
    moment sums over six times the signed area, or, when that point fails the
    ray-casting test, the point the interior search finds. *)
Theorem centroid_cases (points : list Point) :
  let result := calculatePolygonCentroid (Some points) in
  let c := areaCentroid points in
  (points = [] -> result = Point.mk 0 0)
  /\ ((0 < List.length points < 3)%nat -> result = arithmeticMean points)
  /\ ((3 <= List.length points)%nat ->
      (JS.Math_abs (signedArea points) <? 0.001) = true ->
      result = arithmeticMean points)
  /\ ((3 <= List.length points)%nat ->
      (JS.Math_abs (signedArea points) <? 0.001) = false ->
      (isPointInPolygon (Point.x c) (Point.y c) points = true /\ result = c)
      \/ (isPointInPolygon (Point.x c) (Point.y c) points = false
          /\ interiorSearch points c = Some result
          /\ isPointInPolygon (Point.x result) (Point.y result) points = true)
      \/ (isPointInPolygon (Point.x c) (Point.y c) points = false
          /\ interiorSearch points c = None /\ result = c)).
Proof.
  intros result c. unfold result, calculatePolygonCentroid. repeat apply conj.
  - intros ->. reflexivity.
  - intros [H0 H3]. apply Nat.ltb_lt in H0, H3. rewrite H0, H3. apply average_is_mean.
  - intros H3 Ha. apply Nat.ltb_ge in H3. rewrite H3, Ha. apply average_is_mean.
  - intros H3 Ha. exact (centroid_of_proper_polygon points H3 Ha).
Qed.

(** Two points: the midpoint of the segment. *)
Lemma centroid_cases_witness :
  calculatePolygonCentroid (Some [Point.mk 0 0; Point.mk 100 50])
  = arithmeticMean [Point.mk 0 0; Point.mk 100 50].
Proof.
  apply (proj1 (proj2 (centroid_cases [Point.mk 0 0; Point.mk 100 50]))).
  simpl. lia.
Defined.

(** C4 as stated fails for the empty list: the mean of no points is 0/0,
    while the function returns the origin. *)
Lemma centroid_of_no_points_is_not_the_mean :
  (List.length (@nil Point) < 3)%nat
  /\ calculatePolygonCentroid (Some []) = Point.mk 0 0
  /\ calculatePolygonCentroid (Some []) <> arithmeticMean [].
Proof.
  split; [simpl; lia|]. split; [reflexivity|].
  intros H. apply (f_equal (fun p => is_nan (Point.x p))) in H.
  vm_compute in H. discriminate.
Qed.

(** C1, amended.  Clicking (0,0), (100,0), (100,100) and then next to
    (0,0) creates a room with these three vertices; for this triangle the
    returned point passes [isPointInPolygon] and lies strictly inside it.
    For a list of three or more points whose signed area is not below 0.001
    in absolute value, the returned point passes [isPointInPolygon] unless
    the area-weighted centroid, every sample between the bounding-box centre
    and the centroid, the bounding-box centre and every edge midpoint all
    fail it; then the area-weighted centroid is returned as it is, and
    fails the test.  Both exceptions occur among simple polygons. *)
Theorem centroid_inside :
  (forall now : Z,
      exists (ed : Editor) (bbox : BBox),
        clickAll now [(0, 0); (100, 0); (100, 100); (4, 3)] (drawingEditor "line")
        = Some ed
        /\ rooms ed = [PolygonRoom (roomIdAt now) triangle bbox
                         "New Room" "good" None None])
  /\ (let p := calculatePolygonCentroid (Some triangle) in
      isPointInPolygon (Point.x p) (Point.y p) triangle = true
      /\ (0 <? Point.y p) = true /\ (Point.y p <? Point.x p) = true
      /\ (Point.x p <? 100) = true)
  /\ forall points : list Point,
       (3 <= List.length points)%nat ->
       (JS.Math_abs (signedArea points) <? 0.001) = false ->
       let p := calculatePolygonCentroid (Some points) in
       let c := areaCentroid points in
       let b := bboxCenter points in
       isPointInPolygon (Point.x p) (Point.y p) points = true
       \/ (p = c
           /\ isPointInPolygon (Point.x c) (Point.y c) points = false
           /\ Forall (fun t =>
                        isPointInPolygon (Point.x b + (Point.x c - Point.x b) * t)
                          (Point.y b + (Point.y c - Point.y b) * t) points = false)
                (sampleSteps sampleFuel 0)
           /\ isPointInPolygon (Point.x b) (Point.y b) points = false
           /\ Forall (fun e =>
                        isPointInPolygon ((Point.x (fst e) + Point.x (snd e)) / 2)
                          ((Point.y (fst e) + Point.y (snd e)) / 2) points = false)
                (edgesOf points)).
Proof.
  split; [intros now; eexists; eexists; split; vm_compute; reflexivity|].
  split; [repeat split; vm_compute; reflexivity|].
  intros points H3 Ha p c b.
  pose proof (centroid_of_proper_polygon points H3 Ha) as H. cbv zeta in H.
  fold p c in H. destruct H as [[Hc ->]|[(Hc & Hs & Hp)|(Hc & Hs & ->)]].
  - left. exact Hc.
  - left. exact Hp.
  - right. split; [reflexivity|]. split; [exact Hc|].
    exact (interiorSearch_exhausted points c Hs).
Qed.

(** The L-shaped room: its area centroid lies in the empty corner, and the
    search ends at the midpoint of the bottom edge. *)
Lemma centroid_inside_witness :
  calculatePolygonCentroid (Some ellShape) = Point.mk 100 0
  /\ isPointInPolygon 100 0 ellShape = true.
Proof.
  assert (E : calculatePolygonCentroid (Some ellShape) = Point.mk 100 0)
    by (vm_compute; reflexivity).
  split; [exact E|].
  destruct (proj2 (proj2 centroid_inside) ellShape) as [H|[H _]].
  - simpl. lia.
  - vm_compute. reflexivity.
  - rewrite E in H. exact H.
  - rewrite E in H. vm_compute in H. discriminate.
Defined.

(** C1 as stated fails, on either side of the area test.  The arrowhead is
    a simple polygon of area 1/8192, so the function answers with the mean
    of its vertices, which lies in the notch below the polygon.  The chevron
    is a simple polygon of area 990: its area centroid (43.43, 45) lies in
    the notch between the arms, and so do the bounding-box centre (50, 53.8)
    and the samples between the two; the midpoints of the four sides are on
    the boundary, and each of them, computed in binary64, fails the ray
    casting test.  So the search finds nothing and the area centroid is
    returned, though it fails the test. *)
Lemma centroid_outside_simple_polygons :
  (calculatePolygonCentroid (Some arrowhead) = Point.mk 0.015625 0.009765625
   /\ isPointInPolygon 0.015625 0.009765625 arrowhead = false)
  /\ (signedArea chevron = 990
      /\ (JS.Math_abs (signedArea chevron) <? 0.001) = false
      /\ calculatePolygonCentroid (Some chevron) = Point.mk 43.43333333333333 45
      /\ isPointInPolygon 43.43333333333333 45 chevron = false
      /\ bboxCenter chevron = Point.mk 50 53.8
      /\ isPointInPolygon 50 53.8 chevron = false
      /\ map (fun e => isPointInPolygon ((Point.x (fst e) + Point.x (snd e)) / 2)
                         ((Point.y (fst e) + Point.y (snd e)) / 2) chevron)
           (edgesOf chevron)
         = [false; false; false; false]).
Proof. repeat split; vm_compute; reflexivity. Qed.

(** ** No division by zero *)

Lemma checked_div_nonzero (a b : float) :
  is_zero b = false -> Checked.div a b = Some (a / b).
Proof. unfold Checked.div. intros ->. reflexivity. Qed.

Lemma checked_div_2 (a : float) : Checked.div a 2 = Some (a / 2).
Proof. apply checked_div_nonzero. reflexivity. Qed.

(** The division of the ray-casting test is reached only between points on
    different sides of the ray, and their heights differ. *)
Lemma checked_intersect (x y : float) (pi pj : Point) :
  Checked.intersect x y pi pj = Some (intersect x y pi pj).
Proof.
  unfold Checked.intersect, intersect.
  destruct (Bool.eqb (JS.gt (Point.y pi) y) (JS.gt (Point.y pj) y)) eqn:E; simpl.
  - reflexivity.
  - rewrite checked_div_nonzero; [reflexivity|].
    destruct (is_zero (Point.y pj - Point.y pi)) eqn:Z; [|reflexivity].
    apply (sub_zero_same_side _ _ y) in Z. unfold JS.gt in E.
    rewrite Z, Bool.eqb_reflx in E. discriminate.
Qed.

Lemma checked_ray_loop (x y : float) (ps : list Point) (pj : Point) (inside : bool) :
  Checked.ray_loop x y pj ps inside = Some (ray_loop x y pj ps inside).
Proof.
  revert pj inside. induction ps as [|pi rest IH]; intros pj inside; [reflexivity|].
  simpl. rewrite checked_intersect. simpl. apply IH.
Qed.

Lemma checked_isPointInPolygon (x y : float) (points : list Point) :
  Checked.isPointInPolygon x y points = Some (isPointInPolygon x y points).
Proof.
  destruct points as [|p0 rest]; [reflexivity|].
  unfold Checked.isPointInPolygon, isPointInPolygon. apply checked_ray_loop.
Qed.

Lemma checked_average (points : list Point) :
  points <> [] -> Checked.average points = Some (average points).
Proof.
  intros H. unfold Checked.average, average.
  rewrite !checked_div_nonzero; [reflexivity| |];
    apply of_nat_nonzero; destruct points; [congruence | simpl; lia | congruence | simpl; lia].
Qed.

Lemma checked_signedArea (points : list Point) :
  Checked.signedArea points = Some (signedArea points).
Proof.
  unfold Checked.signedArea, signedArea.
  destruct (shoelace (closeRing points) (0, 0, 0)) as [[area cx] cy].
  apply checked_div_2.
Qed.

Lemma checked_areaCentroid (points : list Point) :
  (JS.Math_abs (signedArea points) <? 0.001) = false ->
  Checked.areaCentroid points = Some (areaCentroid points).
Proof.
  intros H. unfold Checked.areaCentroid, areaCentroid.
  destruct (shoelace (closeRing points) (0, 0, 0)) as [[area cx] cy].
  rewrite checked_signedArea. simpl.
  rewrite !checked_div_nonzero by (apply six_times_nonzero; exact H).
  reflexivity.
Qed.

Lemma checked_bboxCenter (points : list Point) :
  Checked.bboxCenter points = Some (bboxCenter points).
Proof. unfold Checked.bboxCenter. rewrite !checked_div_2. reflexivity. Qed.

Lemma checked_first_some {A B : Type} (body' : A -> option (option B))
    (body : A -> option B) (l : list A) :
  (forall a, body' a = Some (body a)) ->
  Checked.first_some body' l = Some (first_some body l).
Proof.
  intros H. induction l as [|a l IH]; [reflexivity|].
  simpl. rewrite H. simpl. destruct (body a); [reflexivity | exact IH].
Qed.

Lemma checked_sampleInterior (points : list Point) (c b : Point) :
  Checked.sampleInterior points c b = Some (sampleInterior points c b).
Proof.
  unfold Checked.sampleInterior, sampleInterior. apply checked_first_some.
  intros t. cbv zeta. rewrite checked_isPointInPolygon. reflexivity.
Qed.

Lemma checked_midpointInterior (points : list Point) :
  Checked.midpointInterior points = Some (midpointInterior points).
Proof.
  unfold Checked.midpointInterior, midpointInterior. apply checked_first_some.
  intros [p1 p2]. rewrite !checked_div_2. simpl.
  rewrite checked_isPointInPolygon. reflexivity.
Qed.

Lemma checked_interiorSearch (points : list Point) (c : Point) :
  Checked.interiorSearch points c = Some (interiorSearch points c).
Proof.
  unfold Checked.interiorSearch, interiorSearch.
  rewrite checked_bboxCenter. simpl. rewrite checked_sampleInterior. simpl.
  destruct (sampleInterior points c (bboxCenter points)); [reflexivity|].
  rewrite checked_isPointInPolygon. simpl.
  destruct (isPointInPolygon _ _ points); [reflexivity|].
  apply checked_midpointInterior.
Qed.

(** The loop over [t] leaves by its own test: more unrollings than
    [sampleFuel] change nothing. *)
Lemma sampleSteps_enough (fuel : nat) :
  (sampleFuel <= fuel)%nat -> sampleSteps fuel 0 = sampleSteps sampleFuel 0.
Proof.
  unfold sampleFuel. intros H.
  do 12 (destruct fuel as [|fuel]; [lia|]).
  vm_compute. reflexivity.
Qed.

(** C9. [calculatePolygonCentroid] is total: a [null] or empty list gives
    the origin, the sampling loop ends, and no division meets a zero divisor
    (the checked computation always finishes, with the same point). *)
Theorem centroid_total :
  calculatePolygonCentroid None = Point.mk 0 0
  /\ calculatePolygonCentroid (Some []) = Point.mk 0 0
  /\ (forall fuel, (sampleFuel <= fuel)%nat ->
        sampleSteps fuel 0 = sampleSteps sampleFuel 0)
  /\ forall points : option (list Point),
       Checked.calculatePolygonCentroid points = Some (calculatePolygonCentroid points).
Proof.
  repeat apply conj; try reflexivity; [exact sampleSteps_enough|].
  intros [points|]; [|reflexivity].
  unfold Checked.calculatePolygonCentroid, calculatePolygonCentroid.
  destruct (List.length points <? 3)%nat eqn:H3.
  - destruct (0 <? List.length points)%nat eqn:H0; [|reflexivity].
    apply checked_average. intros ->. discriminate.
  - rewrite checked_signedArea. simpl.
    destruct (JS.Math_abs (signedArea points) <? 0.001) eqn:Ha.
    + apply checked_average. intros ->. discriminate.
    + rewrite (checked_areaCentroid points Ha). simpl.
      rewrite checked_isPointInPolygon. simpl.
      destruct (isPointInPolygon _ _ points); simpl; [reflexivity|].
      rewrite checked_interiorSearch. reflexivity.
Qed.

(** ** Open and closed rings *)

Lemma ray_loop_xor (x y : float) (ps : list Point) (pj : Point) (inside : bool) :
  ray_loop x y pj ps inside = xorb inside (ray_loop x y pj ps false).
Proof.
  revert pj inside. induction ps as [|pi rest IH]; intros pj inside; simpl.
  - destruct inside; reflexivity.
  - rewrite IH. rewrite (IH pi (if intersect x y pi pj then true else false)).
    destruct (intersect x y pi pj), inside, (ray_loop x y pi rest false); reflexivity.
Qed.

Lemma ray_loop_app (x y : float) (ps : list Point) (q pj : Point) (inside : bool) :
  ray_loop x y pj (ps ++ [q]) inside
  = xorb (intersect x y q (last ps pj)) (ray_loop x y pj ps inside).
Proof.
  revert pj inside. induction ps as [|pi rest IH]; intros pj inside.
  - simpl. destruct (intersect x y q pj), inside; reflexivity.
  - change (ray_loop x y pj ((pi :: rest) ++ [q]) inside)
      with (ray_loop x y pi (rest ++ [q])
              (if intersect x y pi pj then negb inside else inside)).
    rewrite IH. f_equal. f_equal.
    destruct rest as [|t rest]; [reflexivity|].
    change (last (pi :: t :: rest) pj) with (last (t :: rest) pj).
    apply last_cons_default.
Qed.

Lemma intersect_self (x y : float) (p : Point) : intersect x y p p = false.
Proof. unfold intersect. rewrite Bool.eqb_reflx. reflexivity. Qed.

(** The ray-casting test does not see a closing copy of the first point. *)
Lemma isPointInPolygon_closed (x y : float) (p0 : Point) (rest : list Point) :
  isPointInPolygon x y ((p0 :: rest) ++ [p0]) = isPointInPolygon x y (p0 :: rest).
Proof.
  unfold isPointInPolygon.
  change ((p0 :: rest) ++ [p0]) with (p0 :: (rest ++ [p0])).
  cbv beta iota.
  replace (last (p0 :: rest ++ [p0]) p0) with p0
    by (symmetry; apply (last_last (p0 :: rest) p0 p0)).
  cbn [ray_loop]. rewrite intersect_self, ray_loop_app.
  rewrite (ray_loop_xor x y rest p0 (if intersect _ _ _ _ then _ else _)).
  replace (last (p0 :: rest) p0) with (last rest p0) by (destruct rest; reflexivity).
  destruct (intersect x y p0 (last rest p0)); reflexivity.
Qed.

(** A positive answer of the test shows that the abscissa is a number. *)
Lemma ray_loop_not_nan (x y : float) (ps : list Point) (pj : Point) (inside : bool) :
  ray_loop x y pj ps inside = true -> inside = true \/ is_nan x = false.
Proof.
  revert pj inside. induction ps as [|pi rest IH]; intros pj inside; simpl.
  - intros ->. left. reflexivity.
  - intros H. apply IH in H. destruct H as [H|H]; [|right; exact H].
    destruct (intersect x y pi pj) eqn:E.
    + right. unfold intersect in E. apply andb_prop in E. destruct E as [_ E].
      apply ltb_not_nan in E. tauto.
    + left. exact H.
Qed.

Lemma isPointInPolygon_not_nan (x y : float) (points : list Point) :
  isPointInPolygon x y points = true -> is_nan x = false.
Proof.
  destruct points as [|p0 rest]; [discriminate|].
  unfold isPointInPolygon. intros H.
  apply ray_loop_not_nan in H. destruct H; [discriminate | assumption].
Qed.

Lemma shoelace_step (p1 p2 : Point) (ps : list Point) (area cx cy : float) :
  shoelace (p1 :: p2 :: ps) (area, cx, cy)
  = let cross := Point.x p1 * Point.y p2 - Point.x p2 * Point.y p1 in
    shoelace (p2 :: ps) (area + cross,
                         cx + (Point.x p1 + Point.x p2) * cross,
                         cy + (Point.y p1 + Point.y p2) * cross).
Proof. reflexivity. Qed.

(** NaN in the moment sum stays there. *)
Lemma shoelace_nan (ps : list Point) (area cx cy : float) :
  is_nan cx = true ->
  is_nan (snd (fst (shoelace ps (area, cx, cy)))) = true.
Proof.
  revert area cx cy. induction ps as [|p1 ps IH]; intros area cx cy H; [exact H|].
  destruct ps as [|p2 ps]; [exact H|].
  rewrite shoelace_step. cbv zeta. apply IH.
  destruct (is_nan (cx + (Point.x p1 + Point.x p2)
                         * (Point.x p1 * Point.y p2 - Point.x p2 * Point.y p1))) eqn:E;
    [reflexivity|].
  apply add_not_nan in E. destruct E as [E _]. congruence.
Qed.

(** If the moment sum of a ring is a number, so are the coordinates of its
    first point. *)
Lemma shoelace_first_point (p0 p1 : Point) (ps : list Point) :
  is_nan (snd (fst (shoelace (p0 :: p1 :: ps) (0, 0, 0)))) = false ->
  is_nan (Point.x p0) = false /\ is_nan (Point.y p0) = false.
Proof.
  rewrite shoelace_step. cbv zeta. intros H.
  set (cross := Point.x p0 * Point.y p1 - Point.x p1 * Point.y p0) in *.
  destruct (is_nan (0 + (Point.x p0 + Point.x p1) * cross)) eqn:E.
  - rewrite (shoelace_nan _ _ _ _ E) in H. discriminate.
  - apply add_not_nan in E. destruct E as [_ E].
    apply mul_not_nan in E. destruct E as [Ex Ec].
    apply add_not_nan in Ex. destruct Ex as [Ex _].
    unfold cross in Ec. apply sub_not_nan in Ec. destruct Ec as [_ Ec].
    apply mul_not_nan in Ec. destruct Ec as [_ Ey]. split; assumption.
Qed.

(** C10, amended.  For an open ring, a list of three or more points whose
    last point is not its first, with absolute signed area at least 0.001
    and an area-weighted centroid that passes [isPointInPolygon], appending
    a copy of the first point does not change the result of
    [calculatePolygonCentroid]. *)
Theorem centroid_of_closed_ring (points : list Point) (p0 : Point) :
  hd_error points = Some p0 ->
  (3 <= List.length points)%nat ->
  isOpenRing points = true ->
  (0.001 <=? JS.Math_abs (signedArea points)) = true ->
  isPointInPolygon (Point.x (areaCentroid points)) (Point.y (areaCentroid points))
    points = true ->
  calculatePolygonCentroid (Some (points ++ [p0]))
  = calculatePolygonCentroid (Some points).
Proof.
  intros Hhd H3 Hopen Harea Hin.
  apply leb_ltb_false in Harea.
  destruct points as [|q0 rest]; [discriminate|].
  injection Hhd as ->.
  destruct rest as [|p1 rest]; [simpl in H3; lia|].
  assert (Hring : closeRing (p0 :: p1 :: rest) = (p0 :: p1 :: rest) ++ [p0]).
  { unfold closeRing. unfold isOpenRing in Hopen. rewrite Hopen. reflexivity. }
  assert (Hnum : is_nan (Point.x p0) = false /\ is_nan (Point.y p0) = false).
  { apply isPointInPolygon_not_nan in Hin.
    unfold areaCentroid in Hin. rewrite Hring in Hin.
    change ((p0 :: p1 :: rest) ++ [p0]) with (p0 :: p1 :: (rest ++ [p0])) in Hin.
    apply (shoelace_first_point p0 p1 (rest ++ [p0])).
    destruct (shoelace (p0 :: p1 :: rest ++ [p0]) (0, 0, 0)) as [[a cx] cy].
    simpl in *. apply div_not_nan in Hin. tauto. }
  assert (Hring' : closeRing ((p0 :: p1 :: rest) ++ [p0]) = (p0 :: p1 :: rest) ++ [p0]).
  { unfold closeRing.
    change ((p0 :: p1 :: rest) ++ [p0]) with (p0 :: (p1 :: rest) ++ [p0]).
    cbv beta iota zeta.
    replace (last (p0 :: (p1 :: rest) ++ [p0]) p0) with p0
      by (symmetry; apply (last_last (p0 :: p1 :: rest) p0 p0)).
    unfold JS.strict_neq. destruct Hnum as [Hx Hy].
    rewrite (eqb_refl_not_nan _ Hx), (eqb_refl_not_nan _ Hy). reflexivity. }
  assert (Harea' : signedArea ((p0 :: p1 :: rest) ++ [p0]) = signedArea (p0 :: p1 :: rest)).
  { unfold signedArea. rewrite Hring', Hring. reflexivity. }
  assert (Hcentroid : areaCentroid ((p0 :: p1 :: rest) ++ [p0])
                      = areaCentroid (p0 :: p1 :: rest)).
  { unfold areaCentroid. rewrite Harea', Hring', Hring. reflexivity. }
  unfold calculatePolygonCentroid.
  rewrite Harea', Hcentroid, isPointInPolygon_closed, Hin, Harea.
  apply Nat.ltb_ge in H3. rewrite H3.
  replace (List.length ((p0 :: p1 :: rest) ++ [p0]) <? 3)%nat with false; [reflexivity|].
  symmetry. apply Nat.ltb_ge. rewrite length_app. apply Nat.ltb_ge in H3. simpl in *. lia.
Qed.

(** The triangle, open and closed. *)
Lemma centroid_of_closed_ring_witness :
  calculatePolygonCentroid (Some (triangle ++ [Point.mk 0 0]))
  = calculatePolygonCentroid (Some triangle).
Proof.
  apply (centroid_of_closed_ring triangle (Point.mk 0 0)).
  - reflexivity.
  - simpl. lia.
  - vm_compute. reflexivity.
  - vm_compute. reflexivity.
  - vm_compute. reflexivity.
Defined.

(** C10 as stated fails for a ring that is closed already: the added copy
    makes a second closing edge from the first point to itself, whose cross
    product [x0 * y0 - x0 * y0] is not a number when [x0 * y0] is beyond the
    binary64 range. *)
Lemma closed_ring_far_away :
  (3 <= List.length farRing)%nat
  /\ (0.001 <=? JS.Math_abs (signedArea farRing)) = true
  /\ isPointInPolygon (Point.x (areaCentroid farRing)) (Point.y (areaCentroid farRing))
       farRing = true
  /\ calculatePolygonCentroid (Some (farRing ++ [Point.mk 0x1p600 0x1p600]))
     <> calculatePolygonCentroid (Some farRing).
Proof.
  split; [simpl; lia|]. split; [vm_compute; reflexivity|].
  split; [vm_compute; reflexivity|].
  intros H.
  apply (f_equal (fun p => Point.x p
                           =? Point.x (calculatePolygonCentroid (Some farRing)))) in H.
  vm_compute in H. discriminate.
Qed.

(** ** Snapping *)

Local Open Scope Z_scope.

(** The rounded quotient of a number of magnitude below [2^52] by a whole
    number: its exponent and its magnitude. *)
Lemma rounded_quotient_exponent (G : Z) (sv sq : bool) (mv mq : positive)
    (ev eq : Z) :
  1 <= G ->
  SpecFloat.valid_binary prec emax (S754_finite sq mq eq) = true ->
  let v := SF2Q (S754_finite sv mv ev) in
  let q := SF2Q (S754_finite sq mq eq) in
  (Qabs v <= 2 ^ 52 - 1)%Q ->
  (Qabs (q - v / inject_Z G) * 2 <= 2 ^ eq)%Q ->
  eq <= -1 /\ (Qabs q <= Qabs (v / inject_Z G) + (1 # 4))%Q
  /\ (Qabs (v / inject_Z G) * inject_Z G == Qabs v)%Q
  /\ (Qabs (v / inject_Z G) <= Qabs v)%Q.
Proof.
  intros HG Vq v q Hv Herr.
  pose proof (Qpow2_pos eq) as Hpe.
  destruct (valid_finite_Q sq mq eq Vq) as (Hq1 & Hq2 & Hq3).
  fold q in Hq1, Hq2, Hq3.
  change (2 ^ 52 - 1)%Q with 4503599627370495%Q in *.
  change (2 ^ 52)%Q with 4503599627370496%Q in *.
  assert (HGq : (1 <= inject_Z G)%Q) by (rewrite <- (Zle_Qle 1); exact HG).
  set (x := (v / inject_Z G)%Q) in *.
  assert (Hx : (v == x * inject_Z G)%Q) by (unfold x; field; lra).
  assert (HxG : (Qabs x * inject_Z G == Qabs v)%Q).
  { rewrite Hx, Qabs_Qmult. apply Qmult_comp; [reflexivity|].
    symmetry. apply Qabs_pos. lra. }
  assert (Hxv : (Qabs x <= Qabs v)%Q).
  { rewrite <- HxG. rewrite <- (Qmult_1_r (Qabs x)) at 1.
    apply Qmult_le_compat_left; [apply Qabs_nonneg | exact HGq]. }
  assert (Hqx : (Qabs q <= Qabs x + (1 # 2) * 2 ^ eq)%Q).
  { pose proof (Qabs_triangle (q - x) x) as Ht.
    setoid_replace (q - x + x)%Q with q in Ht by ring.
    set (A := Qabs (q - x)) in *. set (B := Qabs x) in *. set (C := Qabs q) in *.
    set (P := (2 ^ eq)%Q) in *. clearbody A B C P. clear - Ht Herr. lra. }
  assert (Heq : eq <= -1).
  { destruct (Z_le_gt_dec eq (-1)) as [|Hgt]; [assumption|exfalso].
    specialize (Hq3 ltac:(unfold SpecFloat.emin, prec, emax; lia)).
    assert (H1 : (2 ^ 0 <= 2 ^ eq)%Q) by (apply Qpow2_le; lia).
    change (2 ^ 0)%Q with 1%Q in H1.
    set (A := Qabs x) in *. set (C := Qabs q) in *. set (V := Qabs v) in *.
    set (P := (2 ^ eq)%Q) in *. clearbody A C V P.
    clear - Hq3 H1 Hqx Hxv Hv. lra. }
  split; [exact Heq|]. split; [|split; [exact HxG | exact Hxv]].
  assert (H1 : (2 ^ eq <= 2 ^ (-1))%Q) by (apply Qpow2_le; lia).
  change (2 ^ (-1))%Q with (1 # 2)%Q in H1.
  set (A := Qabs x) in *. set (C := Qabs q) in *.
  set (P := (2 ^ eq)%Q) in *. clearbody A C P. clear - H1 Hqx. lra.
Qed.

(** The quotient by a whole number, rounded to binary64, is on the same
    side of every half-integer as the exact quotient: [Math.round] of one is
    [Math.round] of the other. *)
Lemma rounded_quotient_floor (G : Z) (sv sq : bool) (mv mq : positive)
    (ev eq : Z) :
  1 <= G ->
  SpecFloat.valid_binary prec emax (S754_finite sv mv ev) = true ->
  SpecFloat.valid_binary prec emax (S754_finite sq mq eq) = true ->
  let v := SF2Q (S754_finite sv mv ev) in
  let q := SF2Q (S754_finite sq mq eq) in
  (Qabs v <= 2 ^ 52 - 1)%Q ->
  (Qabs (q - v / inject_Z G) * 2 <= 2 ^ eq)%Q ->
  (emin < eq -> Zpos mq = 2 ^ (prec - 1) ->
   (Qabs (v / inject_Z G) < Qabs q)%Q ->
   (Qabs (q - v / inject_Z G) * 4 <= 2 ^ eq)%Q) ->
  Qfloor (q + (1 # 2)) = Qfloor (v / inject_Z G + (1 # 2)).
Proof.
  intros HG Vv Vq v q Hv Herr Hcarry.
  pose proof (Qpow2_pos ev) as Hpv. pose proof (Qpow2_pos eq) as Hpe.
  destruct (rounded_quotient_exponent G sv sq mv mq ev eq HG Vq Hv Herr)
    as (Heq & _ & HxG & Hxv).
  fold v in HxG, Hxv.
  destruct (valid_finite_Q sv mv ev Vv) as (Hv1 & Hv2 & Hv3).
  destruct (valid_finite_Q sq mq eq Vq) as (Hq1 & Hq2 & Hq3).
  destruct (valid_finite_bounds sq mq eq Vq) as (Hqmin & Hmq & Hmqn).
  fold v in Hv1, Hv2, Hv3. fold q in Hq1, Hq2, Hq3.
  change (2 ^ 52 - 1)%Q with 4503599627370495%Q in *.
  change (2 ^ 52)%Q with 4503599627370496%Q in *.
  change (2 ^ 53 - 1)%Q with 9007199254740991%Q in *.
  assert (HGq : (1 <= inject_Z G)%Q) by (rewrite <- (Zle_Qle 1); exact HG).
  set (x := (v / inject_Z G)%Q) in *.
  assert (Hx : (v == x * inject_Z G)%Q) by (unfold x; field; lra).
  assert (Hev : ev <= -1).
  { apply (exponent_below sv mv ev (-1) Vv); [unfold SpecFloat.emin, prec, emax; lia|].
    fold v. change (2 ^ (-1 + 1))%Q with 1%Q.
    change (2 ^ 52)%Q with 4503599627370496%Q.
    set (V := Qabs v) in *. clearbody V. clear - Hv. lra. }
  set (zq := cond_Zopp sq (Zpos mq)). set (zv := cond_Zopp sv (Zpos mv)).
  assert (Eq : (q == inject_Z zq * 2 ^ eq)%Q) by reflexivity.
  assert (Ev : (v == inject_Z zv * 2 ^ ev)%Q) by reflexivity.
  set (n := Qfloor (q + (1 # 2))).
  pose proof (Qfloor_le (q + (1 # 2))) as Hle.
  pose proof (Qlt_floor (q + (1 # 2))) as Hlt.
  fold n in Hle, Hlt. rewrite inject_Z_plus in Hlt.
  change (inject_Z 1) with 1%Q in Hlt.
  symmetry. apply Qfloor_unique.
  - (* n - 1/2 <= x *)
    destruct (Qlt_le_dec (x + (1 # 2)) (inject_Z n)) as [Hc|Hc]; [exfalso|exact Hc].
    pose proof (half_integer_on_lattice (2 * n - 1) eq ltac:(lia)) as ET.
    set (zT := (2 * n - 1) * 2 ^ (- 1 - eq)) in *.
    assert (ET' : (inject_Z zT * 2 ^ eq == inject_Z n - (1 # 2))%Q).
    { rewrite <- ET. unfold Zminus.
      rewrite inject_Z_plus, inject_Z_mult, inject_Z_opp.
      change (inject_Z 2) with 2%Q. change (inject_Z 1) with 1%Q. field. }
    rewrite Eq in Herr.
    destruct (lattice_half zq zT (2 ^ eq)%Q x Hpe Herr) as [L1 _].
    rewrite ET' in L1. specialize (L1 ltac:(lra)).
    rewrite <- Eq in L1, Herr.
    assert (EqT : (q == inject_Z n - (1 # 2))%Q) by lra.
    (* q is the half-integer itself, so it is not small *)
    assert (Hsign : ((1 # 2) <= q /\ Qabs q == q)%Q \/ (q <= - (1 # 2) /\ Qabs q == - q)%Q).
    { destruct (Z_le_gt_dec n 0) as [Hn|Hn].
      - assert (H : (inject_Z n <= 0)%Q)
          by (change (inject_Z n <= inject_Z 0)%Q; rewrite <- Zle_Qle; exact Hn).
        right. split; [lra|]. apply Qabs_neg. lra.
      - assert (H : (1 <= inject_Z n)%Q)
          by (change (inject_Z 1 <= inject_Z n)%Q; rewrite <- Zle_Qle; lia).
        left. split; [lra|]. apply Qabs_pos. lra. }
    assert (Hhalf : ((1 # 2) <= Qabs q)%Q).
    { destruct Hsign as [[H1 ->]|[H1 ->]]; lra. }
    assert (Hnorm : emin < eq).
    { destruct (Z_lt_le_dec emin eq) as [|Hle']; [assumption|exfalso].
      assert (E' : eq = emin) by lia.
      assert (Hs : (2 ^ eq <= 2 ^ (-60))%Q) by (apply Qpow2_le; rewrite E'; discriminate).
      change (2 ^ (-60))%Q with (1 # 1152921504606846976)%Q in Hs.
      set (Cq := Qabs q) in *. set (P := (2 ^ eq)%Q) in *. clearbody Cq P.
      clear - Hs Hq2 Hhalf. lra. }
    specialize (Hq3 Hnorm). specialize (Hmqn Hnorm). specialize (Hcarry Hnorm).
    (* the half-integer, times G, on the lattice of v *)
    set (I := G * (2 * n - 1)).
    assert (EI : (inject_Z I / 2 == q * inject_Z G)%Q).
    { unfold I. rewrite EqT. unfold Zminus.
      rewrite inject_Z_mult, inject_Z_plus, inject_Z_mult, inject_Z_opp.
      change (inject_Z 2) with 2%Q. change (inject_Z 1) with 1%Q. field. }
    pose proof (half_integer_on_lattice I ev ltac:(lia)) as EIv.
    set (zI := I * 2 ^ (- 1 - ev)) in *.
    assert (S3 : (x * inject_Z G < q * inject_Z G)%Q).
    { apply Qmult_lt_compat_r; lra. }
    rewrite <- Hx in S3.
    assert (HvI : (inject_Z zv * 2 ^ ev < inject_Z zI * 2 ^ ev)%Q).
    { rewrite <- EIv, <- Ev, EI. exact S3. }
    pose proof (lattice_gap zv zI (2 ^ ev)%Q Hpv HvI) as Hgap.
    rewrite <- EIv, <- Ev, EI in Hgap.
    (* the error and the magnitude, times G *)
    assert (Herr' : (q - x <= (1 # 2) * 2 ^ eq)%Q).
    { revert Herr. apply Qabs_case; intros; lra. }
    assert (S1 : (q * inject_Z G - v <= (1 # 2) * (2 ^ eq * inject_Z G))%Q).
    { rewrite Hx.
      setoid_replace (q * inject_Z G - x * inject_Z G)%Q
        with ((q - x) * inject_Z G)%Q by ring.
      setoid_replace ((1 # 2) * (2 ^ eq * inject_Z G))%Q
        with ((1 # 2) * 2 ^ eq * inject_Z G)%Q by ring.
      apply Qmult_le_compat_r; lra. }
    assert (S2 : (4503599627370496 * (2 ^ eq * inject_Z G) <= Qabs q * inject_Z G)%Q).
    { setoid_replace (4503599627370496 * (2 ^ eq * inject_Z G))%Q
        with (4503599627370496 * 2 ^ eq * inject_Z G)%Q by ring.
      apply Qmult_le_compat_r; lra. }
    assert (HPG : (0 < 2 ^ eq * inject_Z G)%Q).
    { apply Qmult_lt_0_compat; lra. }
    destruct Hsign as [[Hq0 Eabs]|[Hq0 Eabs]].
    + (* a positive quotient *)
      rewrite Eabs in S2, Hq3.
      assert (Hxpos : (0 < x)%Q) by lra.
      assert (Hvpos : (Qabs v == v)%Q).
      { apply Qabs_pos. rewrite Hx. apply Qmult_le_0_compat; lra. }
      rewrite Hvpos in Hv2.
      destruct (Z.eq_dec (Zpos mq) (2 ^ (prec - 1))) as [Em|Em].
      * assert (Hlow : (Qabs x < Qabs q)%Q).
        { rewrite Eabs, Qabs_pos by lra. lra. }
        specialize (Hcarry Em Hlow).
        assert (Hc4 : ((q - x) * 4 <= 2 ^ eq)%Q).
        { revert Hcarry. apply Qabs_case; intros; lra. }
        assert (S4 : ((q * inject_Z G - v) * 4 <= 2 ^ eq * inject_Z G)%Q).
        { rewrite Hx.
          setoid_replace ((q * inject_Z G - x * inject_Z G) * 4)%Q
            with ((q - x) * 4 * inject_Z G)%Q by ring.
          apply Qmult_le_compat_r; lra. }
        set (QG := (q * inject_Z G)%Q) in *. set (PG := (2 ^ eq * inject_Z G)%Q) in *.
        set (W := (2 ^ ev)%Q) in *. clearbody QG PG W v.
        clear - S2 S4 Hgap Hv2 HPG Hpv. lra.
      * assert (Hm1 : (4503599627370497 * 2 ^ eq <= q)%Q).
        { rewrite <- Eabs. unfold q. rewrite Qabs_SF2Q.
          apply Qmult_le_compat_r; [|lra].
          change 4503599627370497%Q with (inject_Z (2 ^ (prec - 1) + 1)).
          rewrite <- Zle_Qle. lia. }
        assert (S5 : (4503599627370497 * (2 ^ eq * inject_Z G) <= q * inject_Z G)%Q).
        { setoid_replace (4503599627370497 * (2 ^ eq * inject_Z G))%Q
            with (4503599627370497 * 2 ^ eq * inject_Z G)%Q by ring.
          apply Qmult_le_compat_r; lra. }
        set (QG := (q * inject_Z G)%Q) in *. set (PG := (2 ^ eq * inject_Z G)%Q) in *.
        set (W := (2 ^ ev)%Q) in *. clearbody QG PG W v.
        clear - S1 S5 Hgap Hv2 HPG Hpv. lra.
    + (* a negative quotient *)
      rewrite Eabs in S2.
      assert (Hvneg : (Qabs v == - v)%Q).
      { apply Qabs_neg. rewrite Hx.
        assert (H : (0 <= (- x) * inject_Z G)%Q) by (apply Qmult_le_0_compat; lra).
        lra. }
      rewrite Hvneg in Hv2.
      setoid_replace (- q * inject_Z G)%Q with (- (q * inject_Z G))%Q in S2 by ring.
      set (QG := (q * inject_Z G)%Q) in *. set (PG := (2 ^ eq * inject_Z G)%Q) in *.
      set (W := (2 ^ ev)%Q) in *. clearbody QG PG W v.
      clear - S1 S2 Hgap Hv2 HPG Hpv. lra.
  - (* x < n + 1/2 *)
    destruct (Qlt_le_dec (x + (1 # 2)) (inject_Z n + 1)) as [Hc|Hc]; [exact Hc|exfalso].
    pose proof (half_integer_on_lattice (2 * n + 1) eq ltac:(lia)) as ET.
    set (zT := (2 * n + 1) * 2 ^ (- 1 - eq)) in *.
    assert (ET' : (inject_Z zT * 2 ^ eq == inject_Z n + (1 # 2))%Q).
    { rewrite <- ET. rewrite inject_Z_plus, inject_Z_mult.
      change (inject_Z 2) with 2%Q. change (inject_Z 1) with 1%Q. field. }
    rewrite Eq in Herr.
    destruct (lattice_half zq zT (2 ^ eq)%Q x Hpe Herr) as [_ L2].
    rewrite ET' in L2. specialize (L2 ltac:(lra)).
    rewrite <- Eq in L2. lra.
Qed.

(** A whole number from 1 to [2^52] as a binary64 number: positive, with
    that value. *)
Lemma of_Z_positive (G : Z) :
  1 <= G <= 2 ^ 52 ->
  exists (mg : positive) (eg : Z),
    Prim2SF (JS.of_Z G) = S754_finite false mg eg
    /\ (SF2Q (S754_finite false mg eg) == inject_Z G)%Q.
Proof.
  intros HG. destruct (of_Z_value G ltac:(lia)) as [F E].
  unfold valueQ in E.
  assert (HGq : (1 <= inject_Z G)%Q) by (rewrite <- (Zle_Qle 1); lia).
  destruct (Prim2SF (JS.of_Z G)) as [s|s| |s m e]; try discriminate.
  - exfalso. change (SF2Q (S754_zero s)) with 0%Q in E. lra.
  - destruct s.
    + exfalso. rewrite SF2Q_finite in E.
      assert (H : (0 < inject_Z (Zpos m) * 2 ^ e)%Q).
      { apply Qmult_lt_0_compat; [rewrite <- (Zlt_Qlt 0); lia | apply Qpow2_pos]. }
      set (A := (inject_Z (Zpos m) * 2 ^ e)%Q) in *. clearbody A. lra.
    + exists m, e. split; [reflexivity | exact E].
Qed.

(** What [snapToGridCoordinate] computes on a grid of a whole number [G]
    of pixels: the number [G * floor(v / G + 1/2)]. *)
Lemma snapToGridCoordinate_exact (G : Z) (v : float) :
  1 <= G <= 1024 ->
  sf_is_finite (Prim2SF v) = true ->
  (Qabs (valueQ v) <= 2 ^ 51 + 1024)%Q ->
  sf_is_finite (Prim2SF (snapToGridCoordinate true (JS.of_Z G) v)) = true
  /\ (valueQ (snapToGridCoordinate true (JS.of_Z G) v)
      == inject_Z (G * Qfloor (valueQ v / inject_Z G + (1 # 2))))%Q.
Proof.
  intros HG Fv Hb.
  destruct (of_Z_positive G ltac:(lia)) as (mg & eg & Eg & Vg).
  set (g := JS.of_Z G) in *.
  assert (HGpos : (1 <= inject_Z G)%Q /\ (inject_Z G <= 1024)%Q).
  { split; [change 1%Q with (inject_Z 1) | change 1024%Q with (inject_Z 1024)];
      rewrite <- Zle_Qle; lia. }
  change (2 ^ 51)%Q with 2251799813685248%Q in Hb.
  unfold snapToGridCoordinate. cbn [negb].
  set (q := (v / g)%float).
  assert (Hq : Prim2SF q = SFdiv prec emax (Prim2SF v) (S754_finite false mg eg)).
  { unfold q. rewrite div_spec, Eg. reflexivity. }
  pose proof (Prim2SF_valid q) as Vq.
  assert (Hmul : forall r : float,
             Prim2SF (r * g)%float
             = SFmul prec emax (Prim2SF r) (S754_finite false mg eg)).
  { intros r. rewrite mul_spec, Eg. reflexivity. }
  (* the case of a zero quotient *)
  assert (Hzero : forall sz, Prim2SF q = S754_zero sz ->
            sf_is_finite (Prim2SF (JS.Math_round q * g)%float) = true
            /\ (valueQ (JS.Math_round q * g)%float == 0)%Q).
  { intros sz Ez. unfold JS.Math_round. rewrite Ez.
    unfold valueQ. rewrite Hmul, Ez. split; reflexivity. }
  unfold valueQ at 2. unfold valueQ in Hb.
  destruct (Prim2SF v) as [sv|sv| |sv mv ev] eqn:Ev; try discriminate.
  - cbn [SFdiv] in Hq. destruct (Hzero _ Hq) as [F E]. split; [exact F|].
    rewrite E. change (SF2Q (S754_zero sv)) with 0%Q.
    assert (E0 : Qfloor (0 / inject_Z G + (1 # 2)) = 0).
    { apply Qfloor_unique; change (inject_Z 0) with 0%Q;
        setoid_replace (0 / inject_Z G)%Q with 0%Q by (field; lra); lra. }
    rewrite E0, Z.mul_0_r. reflexivity.
  - pose proof (SFdiv_error sv false mv mg ev eg) as Hd. cbv zeta in Hd.
    pose proof (SFdiv_carry sv false mv mg ev eg) as Hcar. cbv zeta in Hcar.
    rewrite <- Hq in Hd, Hcar.
    set (x := (SF2Q (S754_finite sv mv ev) / inject_Z G)%Q) in *.
    assert (Ex : (SF2Q (S754_finite sv mv ev) / SF2Q (S754_finite false mg eg)
                  == x)%Q) by (unfold x; rewrite Vg; reflexivity).
    assert (Hx : (SF2Q (S754_finite sv mv ev) == x * inject_Z G)%Q).
    { unfold x. field. lra. }
    pose proof (Prim2SF_valid v) as Vv. rewrite Ev in Vv.
    assert (Hv52 : (Qabs (SF2Q (S754_finite sv mv ev)) <= 2 ^ 52 - 1)%Q).
    { change (2 ^ 52 - 1)%Q with 4503599627370495%Q.
      set (B := Qabs (SF2Q (S754_finite sv mv ev))) in *. clearbody B.
      clear - Hb. lra. }
    assert (Hxb : (Qabs x <= Qabs (SF2Q (S754_finite sv mv ev)))%Q).
    { assert (HxG : (Qabs x * inject_Z G == Qabs (SF2Q (S754_finite sv mv ev)))%Q).
      { symmetry. rewrite <- (Qabs_pos (inject_Z G)) by lra.
        rewrite <- Qabs_Qmult. apply Qabs_wd. exact Hx. }
      rewrite <- HxG. rewrite <- (Qmult_1_r (Qabs x)) at 1.
      apply Qmult_le_compat_left; [apply Qabs_nonneg | lra]. }
    destruct (Prim2SF q) as [sq|sq| |sq mq eq] eqn:Eq.
    + destruct (Hzero sq eq_refl) as [F E]. split; [exact F|].
      rewrite E, (floor_half_small x); [rewrite Z.mul_0_r; reflexivity|].
      rewrite <- Ex. exact Hd.
    + exfalso. rewrite Ex in Hd.
      assert (H : (2 ^ 60 <= 2 ^ (emax - prec))%Q) by (apply Qpow2_le; discriminate).
      change (2 ^ 60)%Q with 1152921504606846976%Q in H.
      set (A := Qabs x) in *. set (B := Qabs (SF2Q (S754_finite sv mv ev))) in *.
      set (C := (2 ^ (emax - prec))%Q) in *. clearbody A B C.
      clear - H Hd Hxb Hb. lra.
    + contradiction.
    + destruct Hd as [_ Hd]. rewrite Ex in Hd.
      assert (Hcar' : emin < eq -> Zpos mq = 2 ^ (prec - 1) ->
                      (Qabs x < Qabs (SF2Q (S754_finite sq mq eq)))%Q ->
                      (Qabs (SF2Q (S754_finite sq mq eq) - x) * 4 <= 2 ^ eq)%Q).
      { intros H1 H2 H3. rewrite <- Ex in H3 |- *. apply Hcar; assumption. }
      pose proof (rounded_quotient_floor G sv sq mv mq ev eq ltac:(lia) Vv Vq Hv52
                    Hd Hcar') as Hfloor.
      destruct (rounded_quotient_exponent G sv sq mv mq ev eq ltac:(lia) Vq Hv52 Hd)
        as (Heq & Hqb & _ & _).
      fold x in Hfloor, Hqb.
      set (n := Qfloor (x + (1 # 2))) in *.
      assert (Fq : sf_is_finite (Prim2SF q) = true) by (rewrite Eq; reflexivity).
      assert (Hq52 : (Qabs (valueQ q) <= 2 ^ 52 - 1)%Q).
      { unfold valueQ. rewrite Eq. change (2 ^ 52 - 1)%Q with 4503599627370495%Q.
        set (A := Qabs (SF2Q (S754_finite sq mq eq))) in *.
        set (B := Qabs (SF2Q (S754_finite sv mv ev))) in *.
        set (C := Qabs x) in *. clearbody A B C.
        clear - Hqb Hxb Hb. lra. }
      destruct (Math_round_value q Fq Hq52) as [Fr Er].
      unfold valueQ at 2 in Er. rewrite Eq, Hfloor in Er.
      (* the size of G * n *)
      pose proof (Qfloor_le (x + (1 # 2))) as Hle.
      pose proof (Qlt_floor (x + (1 # 2))) as Hlt.
      fold n in Hle, Hlt. rewrite inject_Z_plus in Hlt.
      change (inject_Z 1) with 1%Q in Hlt.
      assert (HnG : Z.abs (G * n) <= 2 ^ 52).
      { assert (S1 : (inject_Z n * inject_Z G <= (x + (1 # 2)) * inject_Z G)%Q)
          by (apply Qmult_le_compat_r; lra).
        assert (S2 : ((x - (1 # 2)) * inject_Z G <= inject_Z n * inject_Z G)%Q)
          by (apply Qmult_le_compat_r; lra).
        setoid_replace ((x + (1 # 2)) * inject_Z G)%Q
          with (x * inject_Z G + (1 # 2) * inject_Z G)%Q in S1 by ring.
        setoid_replace ((x - (1 # 2)) * inject_Z G)%Q
          with (x * inject_Z G - (1 # 2) * inject_Z G)%Q in S2 by ring.
        rewrite <- Hx in S1, S2.
        assert (Hvabs : (- Qabs (SF2Q (S754_finite sv mv ev))
                         <= SF2Q (S754_finite sv mv ev))%Q
                        /\ (SF2Q (S754_finite sv mv ev)
                            <= Qabs (SF2Q (S754_finite sv mv ev)))%Q).
        { apply Qabs_case; intros; split; lra. }
        assert (A1 : (inject_Z (G * n) <= inject_Z (2 ^ 52))%Q).
        { rewrite inject_Z_mult, (Qmult_comm (inject_Z G)).
          change (inject_Z (2 ^ 52)) with 4503599627370496%Q.
          set (B := Qabs (SF2Q (S754_finite sv mv ev))) in *.
          set (V := SF2Q (S754_finite sv mv ev)) in *.
          set (NG := (inject_Z n * inject_Z G)%Q) in *.
          set (GG := inject_Z G) in *. clearbody B V NG GG.
          clear - S1 Hvabs Hb HGpos. lra. }
        assert (A2 : (inject_Z (- 2 ^ 52) <= inject_Z (G * n))%Q).
        { rewrite inject_Z_mult, (Qmult_comm (inject_Z G)).
          change (inject_Z (- 2 ^ 52)) with (- 4503599627370496)%Q.
          set (B := Qabs (SF2Q (S754_finite sv mv ev))) in *.
          set (V := SF2Q (S754_finite sv mv ev)) in *.
          set (NG := (inject_Z n * inject_Z G)%Q) in *.
          set (GG := inject_Z G) in *. clearbody B V NG GG.
          clear - S2 Hvabs Hb HGpos. lra. }
        rewrite <- Zle_Qle in A1, A2. lia. }
      set (r := JS.Math_round q) in *.
      unfold valueQ in Er |- *. rewrite Hmul.
      pose proof (Prim2SF_valid (r * g)%float) as Vs. rewrite Hmul in Vs.
      destruct (Prim2SF r) as [sr|sr| |sr mr er] eqn:Err; try discriminate.
      * cbn [SFmul]. split; [reflexivity|].
        change (SF2Q (S754_zero sr)) with 0%Q in Er.
        assert (En : n = 0).
        { apply inject_Z_injective. rewrite <- Er. reflexivity. }
        rewrite En, Z.mul_0_r. reflexivity.
      * pose proof (SFmul_error sr false mr mg er eg) as Hm. cbv zeta in Hm.
        assert (Ep : (SF2Q (S754_finite sr mr er) * SF2Q (S754_finite false mg eg)
                      == inject_Z (G * n))%Q).
        { rewrite Er, Vg, inject_Z_mult. ring. }
        pose proof (Prim2SF_valid r) as Vr. rewrite Err in Vr.
        destruct (valid_finite_Q sr mr er Vr) as (Hr1 & _).
        destruct (valid_finite_bounds sr mr er Vr) as (Hrmin & _).
        assert (Hrp : (2 ^ emin <= 2 ^ er)%Q) by (apply Qpow2_le; exact Hrmin).
        pose proof (Qpow2_pos emin) as Hpm.
        assert (Hprod : (Qabs (inject_Z (G * n)) == Qabs (SF2Q (S754_finite sr mr er))
                                                    * inject_Z G)%Q).
        { rewrite <- Ep, Vg, Qabs_Qmult. apply Qmult_comp; [reflexivity|].
          apply Qabs_pos. lra. }
        assert (Hbig : (Qabs (inject_Z (G * n)) <= 2 ^ 52)%Q).
        { rewrite <- (Zabs_Qabs (G * n) 1).
          change (Z.abs (G * n) # 1)%Q with (inject_Z (Z.abs (G * n))).
          change (2 ^ 52)%Q with (inject_Z (2 ^ 52)). rewrite <- Zle_Qle. exact HnG. }
        destruct (SFmul prec emax (S754_finite sr mr er) (S754_finite false mg eg))
          as [ss|ss| |ss ms es].
        -- exfalso. rewrite Ep, Hprod in Hm.
           assert (HA : (Qabs (SF2Q (S754_finite sr mr er))
                         <= Qabs (SF2Q (S754_finite sr mr er)) * inject_Z G)%Q).
           { rewrite <- (Qmult_1_r (Qabs _)) at 1.
             apply Qmult_le_compat_left; [apply Qabs_nonneg | lra]. }
           set (AG := (Qabs (SF2Q (S754_finite sr mr er)) * inject_Z G)%Q) in *.
           set (A := Qabs (SF2Q (S754_finite sr mr er))) in *.
           set (P := (2 ^ er)%Q) in *. set (M := (2 ^ emin)%Q) in *.
           clearbody AG A P M. clear - HA Hm Hr1 Hrp Hpm. lra.
        -- exfalso. rewrite Ep in Hm.
           assert (H : (2 ^ 60 <= 2 ^ (emax - prec))%Q) by (apply Qpow2_le; discriminate).
           change (2 ^ 60)%Q with 1152921504606846976%Q in H.
           change (2 ^ 52)%Q with 4503599627370496%Q in Hbig.
           set (A := Qabs (inject_Z (G * n))) in *.
           set (C := (2 ^ (emax - prec))%Q) in *. clearbody A C.
           clear - H Hm Hbig. lra.
        -- contradiction.
        -- destruct Hm as [_ Hm]. split; [reflexivity|].
           apply (rounded_integer_exact ss ms es (G * n) Vs HnG).
           rewrite <- Ep. exact Hm.
Qed.

Local Close Scope Z_scope.

(** C7, amended.  On a grid of a whole number [G] of pixels from 1 to 1024
    (the editor uses 20 and, on a small screen, 10), and for every binary64
    value [v] of magnitude up to [2^51], snapping gives the number [k * G]
    with [k] the integer [floor(v / G + 1/2)] nearest to [v / G]: an integer
    multiple of the grid size, no further than [G / 2] from [v], that
    snapping again leaves as it is.  The two rounded operations of
    [Math.round(v / g) * g] lose nothing there.  With the snap-to-grid flag
    off the function is the identity. *)
Theorem snapping_rounds_to_grid :
  (forall (G : Z) (v : float),
      (1 <= G <= 1024)%Z ->
      (JS.Math_abs v <=? 0x1p51) = true ->
      let g := JS.of_Z G in
      let s := snapToGridCoordinate true g v in
      let k := Qfloor (valueQ v / inject_Z G + (1 # 2)) in
      (valueQ g == inject_Z G)%Q
      /\ sf_is_finite (Prim2SF s) = true
      /\ (valueQ s == inject_Z k * inject_Z G)%Q
      /\ (Qabs (valueQ s - valueQ v) <= inject_Z G / 2)%Q
      /\ (snapToGridCoordinate true g s =? s) = true)
  /\ JS.of_Z 20 = 20 /\ JS.of_Z 10 = 10
  /\ (forall g v : float, snapToGridCoordinate false g v = v).
Proof.
  split; [|split; [reflexivity|split; reflexivity]].
  intros G v HG Hb g s k.
  destruct (abs_leb_Q v 0x1p51 eq_refl Hb) as [Fv Hv].
  assert (E51 : (valueQ 0x1p51 == 2251799813685248)%Q) by (vm_compute; reflexivity).
  rewrite E51 in Hv.
  assert (HGq : (1 <= inject_Z G)%Q /\ (inject_Z G <= 1024)%Q).
  { split; [change 1%Q with (inject_Z 1) | change 1024%Q with (inject_Z 1024)];
      rewrite <- Zle_Qle; lia. }
  destruct HGq as [HG1 HG2].
  assert (Hv' : (Qabs (valueQ v) <= 2 ^ 51 + 1024)%Q).
  { change (2 ^ 51)%Q with 2251799813685248%Q.
    set (A := Qabs (valueQ v)) in *. clearbody A. clear - Hv. lra. }
  destruct (snapToGridCoordinate_exact G v HG Fv Hv') as [Fs Es].
  fold g in Fs, Es. fold s in Fs, Es. fold k in Es.
  assert (Es' : (valueQ s == inject_Z k * inject_Z G)%Q).
  { rewrite Es, inject_Z_mult. ring. }
  (* k is the integer nearest to v / G *)
  pose proof (Qfloor_le (valueQ v / inject_Z G + (1 # 2))) as Hle.
  pose proof (Qlt_floor (valueQ v / inject_Z G + (1 # 2))) as Hlt.
  fold k in Hle, Hlt. rewrite inject_Z_plus in Hlt.
  change (inject_Z 1) with 1%Q in Hlt.
  set (x := (valueQ v / inject_Z G)%Q) in *.
  assert (Hx : (valueQ v == x * inject_Z G)%Q) by (unfold x; field; lra).
  assert (Hdist : (Qabs (valueQ s - valueQ v) <= (1 # 2) * inject_Z G)%Q).
  { rewrite Es', Hx.
    setoid_replace (inject_Z k * inject_Z G - x * inject_Z G)%Q
      with ((inject_Z k - x) * inject_Z G)%Q by ring.
    rewrite Qabs_Qmult, (Qabs_pos (inject_Z G)) by lra.
    apply Qmult_le_compat_r; [|lra].
    apply Qabs_case; intros; lra. }
  split.
  { destruct (of_Z_value G ltac:(lia)) as [_ E]. exact E. }
  split; [exact Fs|]. split; [exact Es'|].
  split.
  { setoid_replace (inject_Z G / 2)%Q with ((1 # 2) * inject_Z G)%Q
      by field. exact Hdist. }
  (* snapping again *)
  assert (Hs' : (Qabs (valueQ s) <= 2 ^ 51 + 1024)%Q).
  { change (2 ^ 51)%Q with 2251799813685248%Q.
    pose proof (Qabs_triangle (valueQ s - valueQ v) (valueQ v)) as Ht.
    setoid_replace (valueQ s - valueQ v + valueQ v)%Q with (valueQ s) in Ht by ring.
    set (A := Qabs (valueQ v)) in *. set (B := Qabs (valueQ s - valueQ v)) in *.
    set (C := Qabs (valueQ s)) in *. set (GG := inject_Z G) in *.
    clearbody A B C GG. clear - Ht Hdist Hv HG2. lra. }
  destruct (snapToGridCoordinate_exact G s HG Fs Hs') as [Fs2 Es2].
  fold g in Fs2, Es2.
  apply eqb_Q; [exact Fs2 | exact Fs |].
  assert (Ek2 : Qfloor (valueQ s / inject_Z G + (1 # 2)) = k).
  { apply Qfloor_unique.
    - rewrite Es'. setoid_replace (inject_Z k * inject_Z G / inject_Z G)%Q
        with (inject_Z k) by (field; lra). lra.
    - rewrite Es'. setoid_replace (inject_Z k * inject_Z G / inject_Z G)%Q
        with (inject_Z k) by (field; lra). lra. }
  rewrite Ek2 in Es2. rewrite Es2. symmetry. exact Es.
Qed.

(** The coordinate 109.7 on the 20px grid: [k] is 5 and the result 100. *)
Lemma snapping_rounds_to_grid_witness :
  (let g := JS.of_Z 20 in
   let s := snapToGridCoordinate true g 109.7 in
   let k := Qfloor (valueQ 109.7 / inject_Z 20 + (1 # 2)) in
   (valueQ g == inject_Z 20)%Q
   /\ sf_is_finite (Prim2SF s) = true
   /\ (valueQ s == inject_Z k * inject_Z 20)%Q
   /\ (Qabs (valueQ s - valueQ 109.7) <= inject_Z 20 / 2)%Q
   /\ (snapToGridCoordinate true g s =? s) = true)
  /\ Qfloor (valueQ 109.7 / inject_Z 20 + (1 # 2)) = 5%Z
  /\ snapToGridCoordinate true 20 109.7 = 100.
Proof.
  split; [|split; vm_compute; reflexivity].
  apply (proj1 snapping_rounds_to_grid 20%Z 109.7 ltac:(lia) eq_refl).
Defined.

(** C7 as stated fails on binary64 numbers.  With the grid size 20 the value
    [2^56 + 16] is snapped to [2^56 + 32], which is no multiple of 20, lies
    16 away, and is itself snapped to [2^56 + 48].  With the grid size 10 the
    value [2^54] is snapped to [2^54 + 8], no multiple of 10 and 8 away.
    With the grid size 0.1 the value 0.25 is snapped to a number further
    than half the grid size away. *)
Lemma snapping_not_exact_on_binary64 :
  snapToGridCoordinate true 20 72057594037927952 = 72057594037927968
  /\ (72057594037927968 mod 20 <> 0)%Z
  /\ (JS.Math_abs (72057594037927968 - 72057594037927952) <=? 20 / 2) = false
  /\ snapToGridCoordinate true 20 72057594037927968 = 72057594037927984
  /\ snapToGridCoordinate true 10 0x1p54 = 18014398509481992
  /\ (18014398509481992 mod 10 <> 0)%Z
  /\ (JS.Math_abs (18014398509481992 - 0x1p54) <=? 10 / 2) = false
  /\ (JS.Math_abs (snapToGridCoordinate true 0.1 0.25 - 0.25) <=? 0.1 / 2) = false.
Proof.
  repeat split; try (vm_compute; reflexivity); vm_compute; discriminate.
Qed.

(** ** Sequences of events *)

Lemma spaced_app (points : list Point) (p q : Point) :
  spaced (points ++ [p]) = true ->
  (calculateDistance (Point.x p) (Point.y p) (Point.x q) (Point.y q) <? 15) = false ->
  spaced ((points ++ [p]) ++ [q]) = true.
Proof.
  induction points as [|a rest IH]; intros Hs Hd.
  - simpl. rewrite Hd. reflexivity.
  - destruct rest as [|b rest].
    + simpl in *. rewrite Hd. rewrite andb_true_r in *. rewrite Hs. reflexivity.
    + change (spaced (a :: b :: (rest ++ [p]) ++ [q]) = true).
      change (spaced (a :: b :: rest ++ [p]) = true) in Hs.
      cbn [spaced] in Hs |- *. apply andb_prop in Hs. destruct Hs as [H1 H2].
      rewrite H1. simpl. apply IH; assumption.
Qed.

Lemma spaced_snoc (points : list Point) (p0 q : Point) :
  spaced (p0 :: points) = true ->
  (let l := last (p0 :: points) p0 in
   calculateDistance (Point.x l) (Point.y l) (Point.x q) (Point.y q) <? 15) = false ->
  spaced ((p0 :: points) ++ [q]) = true.
Proof.
  intros Hs Hd.
  destruct (exists_last (l := p0 :: points)) as (front & l & E); [discriminate|].
  rewrite E in *. rewrite last_last in Hd. apply spaced_app; assumption.
Qed.

Lemma clearOfStart_snoc (points : list Point) (p0 q : Point) :
  clearOfStart (p0 :: points) = true ->
  isPointClose (Point.x q) (Point.y q) (Point.x p0) (Point.y p0) None = false ->
  clearOfStart ((p0 :: points) ++ [q]) = true.
Proof.
  intros Hc Hq. simpl in *. rewrite forallb_app, Hc. simpl. rewrite Hq. reflexivity.
Qed.

(** [completeLineRoom] either only reports, or appends a room and clears the
    vertices. *)
Lemma completeLineRoom_cases (now : Z) (ed : Editor) :
  let ed' := completeLineRoom now ed in
  ((List.length (linePoints ed) < 3)%nat
   /\ ed' = showToast "Need at least 3 points to create a room" "warning" ed)
  \/ ((3 <= List.length (linePoints ed))%nat
      /\ rooms ed' = rooms ed
                     ++ [PolygonRoom (roomIdAt now) (linePoints ed)
                           (boundingBox (linePoints ed)) "New Room" "good" None None]
      /\ linePoints ed' = [] /\ lineStartPoint ed' = None
      /\ tempPolyline ed' = None /\ tempPolygon ed' = None
      /\ lineSegmentDimensionGroup ed' = None
      /\ isDrawingMode ed' = isDrawingMode ed /\ drawingTool ed' = drawingTool ed
      /\ roomStartPoint ed' = roomStartPoint ed /\ tempRect ed' = tempRect ed).
Proof.
  unfold completeLineRoom.
  destruct (List.length (linePoints ed) <? 3)%nat eqn:E.
  - left. apply Nat.ltb_lt in E. split; [exact E | reflexivity].
  - right. apply Nat.ltb_ge in E. split; [exact E|].
    cbv zeta. cbn -[JS.Math_min JS.Math_max roomIdAt].
    replace (map (fun p => Point.mk (Point.x p) (Point.y p)) (linePoints ed))
      with (linePoints ed).
    + repeat split.
    + clear E. induction (linePoints ed) as [|[x y] l IH]; [reflexivity|].
      simpl. f_equal. apply IH.
Qed.

(** With a cursor position [updateTempPolyline] needs the start point. *)
Lemma updateTempPolyline_preview (x y : float) (ed : Editor) :
  startIsFirst ed ->
  exists ed', updateTempPolyline (Some (x, y)) ed = Some ed'
              /\ onlyPreviewsDiffer ed ed' /\ tempRect ed' = tempRect ed
              /\ lineSegmentDimensionGroup ed' = lineSegmentDimensionGroup ed.
Proof.
  unfold startIsFirst, updateTempPolyline. intros Hs.
  destruct (linePoints ed) as [|p rest] eqn:E.
  - exists ed. unfold onlyPreviewsDiffer. repeat split; congruence.
  - simpl in Hs. rewrite Hs.
    destruct (tempPolyline ed) as [pl|] eqn:El.
    + match goal with
      | |- context [set_tempPolyline ?v ed] => set (ed1 := set_tempPolyline v ed)
      end.
      destruct (tempPolygon ed1) as [pg|];
        [destruct (2 <=? List.length (linePoints ed1))%nat|];
        eexists; (split; [reflexivity|]); unfold onlyPreviewsDiffer; simpl;
        repeat split; congruence.
    + destruct (tempPolygon ed) as [pg|];
        [destruct (2 <=? List.length (linePoints ed))%nat|];
        eexists; (split; [reflexivity|]); unfold onlyPreviewsDiffer; simpl;
        repeat split; congruence.
Qed.

Lemma updateAllLineSegmentMeasurements_preview (x y : float) (ed : Editor) :
  onlyPreviewsDiffer ed (updateAllLineSegmentMeasurements x y ed)
  /\ tempRect (updateAllLineSegmentMeasurements x y ed) = tempRect ed.
Proof.
  unfold updateAllLineSegmentMeasurements, onlyPreviewsDiffer.
  destruct (lineSegmentDimensionGroup ed), (dimensionLayer ed) eqn:Ed,
    (linePoints ed) eqn:El; simpl; repeat split; congruence.
Qed.

Lemma onlyPreviewsDiffer_trans (a b c : Editor) :
  onlyPreviewsDiffer a b -> onlyPreviewsDiffer b c -> onlyPreviewsDiffer a c.
Proof.
  unfold onlyPreviewsDiffer. intros H1 H2.
  repeat match goal with H : _ /\ _ |- _ => destruct H end.
  repeat split; congruence.
Qed.

Lemma mousemove_preview (x y : float) (ed : Editor) :
  startIsFirst ed ->
  exists ed', mousemove x y ed = Some ed' /\ onlyPreviewsDiffer ed ed'.
Proof.
  intros Hs. unfold mousemove.
  destruct (negb (isDrawingMode ed)).
  { exists ed. split; [reflexivity|]. unfold onlyPreviewsDiffer. repeat split. }
  set (sx := snapToGridCoordinate (snapToGrid ed) (gridSize ed) x).
  set (sy := snapToGridCoordinate (snapToGrid ed) (gridSize ed) y).
  assert (Hline :
    exists ed',
      (if (String.eqb (drawingTool ed) "line"
           && (0 <? List.length (linePoints ed))%nat)%bool
       then match updateTempPolyline (Some (sx, sy)) ed with
            | Some ed0 => Some (updateAllLineSegmentMeasurements sx sy ed0)
            | None => None
            end
       else Some ed) = Some ed' /\ onlyPreviewsDiffer ed ed').
  { destruct (String.eqb (drawingTool ed) "line"
              && (0 <? List.length (linePoints ed))%nat)%bool.
    - destruct (updateTempPolyline_preview sx sy ed Hs) as (ed0 & E & H0 & _).
      rewrite E. eexists. split; [reflexivity|].
      eapply onlyPreviewsDiffer_trans; [exact H0|].
      apply updateAllLineSegmentMeasurements_preview.
    - exists ed. split; [reflexivity|]. unfold onlyPreviewsDiffer. repeat split. }
  destruct (String.eqb (drawingTool ed) "rectangle"); [|exact Hline].
  destruct (roomStartPoint ed) as [start|] eqn:Er; [|exact Hline].
  destruct (tempRect ed) as [r|] eqn:Et; [|exact Hline].
  eexists. split; [reflexivity|].
  unfold updateRoomMeasurement, onlyPreviewsDiffer.
  match goal with
  | |- context [set_tempRect ?v ed] => set (ed1 := set_tempRect v ed)
  end.
  destruct (roomDimensionGroup ed1), (dimensionLayer ed1); simpl;
    repeat split; congruence.
Qed.

(** What one event does to the vertices and to the list of rooms. *)
Lemma mousedown_step (now : Z) (x y : float) (ed : Editor) :
  startIsFirst ed ->
  exists ed', mousedown now x y ed = Some ed' /\ startIsFirst ed'
    /\ (wellSpaced (linePoints ed) = true ->
        wellSpaced (linePoints ed') = true
        /\ (rooms ed' = rooms ed
            \/ exists r, rooms ed' = rooms ed ++ [r] /\ drawnRoom r)).
Proof.
  intros Hs. unfold mousedown.
  destruct (negb (isDrawingMode ed)).
  { exists ed. repeat split; auto. }
  set (sx := snapToGridCoordinate (snapToGrid ed) (gridSize ed) x).
  set (sy := snapToGridCoordinate (snapToGrid ed) (gridSize ed) y).
  destruct (String.eqb (drawingTool ed) "rectangle").
  { destruct (roomStartPoint ed);
      eexists; (split; [reflexivity|]); split; try exact Hs; auto. }
  destruct (String.eqb (drawingTool ed) "line");
    [|exists ed; repeat split; auto].
  unfold startIsFirst in Hs.
  destruct (linePoints ed) as [|p0 rest] eqn:E.
  - cbv zeta. cbn [roomsLayer set_lineStartPoint set_linePoints].
    destruct (roomsLayer ed); eexists; (split; [reflexivity|]);
      (split; [reflexivity|]); intros _; (split; [reflexivity|]); left; reflexivity.
  - simpl in Hs. rewrite Hs.
    destruct (isPointClose sx sy (Point.x p0) (Point.y p0) None) eqn:Hclose.
    + eexists. split; [reflexivity|].
      destruct (completeLineRoom_cases now ed) as [[_ ->]|(Hlen & Hr & Hl & Hst & _)].
      * split; [unfold startIsFirst; simpl; rewrite Hs, E; reflexivity|].
        intros Hw. simpl. rewrite E. split; [exact Hw | left; reflexivity].
      * split; [unfold startIsFirst; rewrite Hl, Hst; reflexivity|].
        intros Hw. rewrite Hl. split; [reflexivity|]. right.
        eexists. split; [exact Hr|].
        rewrite E in *. unfold wellSpaced in Hw. apply andb_prop in Hw.
        destruct Hw as [Hw1 Hw2]. simpl. repeat split; assumption.
    + destruct (calculateDistance (Point.x (last (p0 :: rest) p0))
                  (Point.y (last (p0 :: rest) p0)) sx sy <? 15) eqn:Hd.
      * exists ed. split; [reflexivity|].
        split; [unfold startIsFirst; rewrite Hs, E; reflexivity|].
        intros Hw. rewrite E. auto.
      * destruct (updateTempPolyline_redraw
                    (set_linePoints ((p0 :: rest) ++ [Point.mk sx sy]) ed))
          as (ed' & Eu & Hl & Hr & Hst & _).
        exists ed'. split; [exact Eu|].
        split; [unfold startIsFirst; rewrite Hl, Hst; simpl; exact Hs|].
        intros Hw. rewrite Hl. split; [|left; exact Hr].
        unfold wellSpaced in Hw. apply andb_prop in Hw. destruct Hw as [Hw1 Hw2].
        change (wellSpaced ((p0 :: rest) ++ [Point.mk sx sy]) = true).
        unfold wellSpaced.
        rewrite (spaced_snoc rest p0 (Point.mk sx sy) Hw1 Hd).
        rewrite (clearOfStart_snoc rest p0 (Point.mk sx sy) Hw2 Hclose).
        reflexivity.
Qed.

Lemma mouseup_step (now : Z) (x y : float) (ed : Editor) :
  linePoints (mouseup now x y ed) = linePoints ed
  /\ lineStartPoint (mouseup now x y ed) = lineStartPoint ed
  /\ (rooms (mouseup now x y ed) = rooms ed
      \/ exists r, rooms (mouseup now x y ed) = rooms ed ++ [r] /\ drawnRoom r).
Proof.
  unfold mouseup.
  destruct (negb (isDrawingMode ed)); [repeat split; left; reflexivity|].
  destruct (String.eqb (drawingTool ed) "rectangle");
    [|repeat split; left; reflexivity].
  destruct (roomStartPoint ed) as [start|]; [|repeat split; left; reflexivity].
  destruct (tempRect ed) as [r|]; [|repeat split; left; reflexivity].
  cbv zeta.
  set (sx := snapToGridCoordinate (snapToGrid ed) (gridSize ed) x).
  set (sy := snapToGridCoordinate (snapToGrid ed) (gridSize ed) y).
  destruct (20 <? JS.Math_abs (sx - Point.x start)) eqn:Hw;
    [destruct (20 <? JS.Math_abs (sy - Point.y start)) eqn:Hh|];
    cbn [andb]; (split; [reflexivity|]); (split; [reflexivity|]);
    try (left; reflexivity).
  right. eexists. split; [reflexivity|].
  unfold newRectangleRoom, drawnRoom. repeat split; assumption.
Qed.

Lemma keydown_step (key : string) (ed : Editor) :
  startIsFirst ed ->
  startIsFirst (keydown key ed)
  /\ rooms (keydown key ed) = rooms ed
  /\ (wellSpaced (linePoints ed) = true ->
      wellSpaced (linePoints (keydown key ed)) = true).
Proof.
  intros Hs. unfold keydown.
  destruct (String.eqb key "Escape" && isDrawingMode ed)%bool; [|auto].
  destruct (String.eqb (drawingTool ed) "line"
            && (0 <? List.length (linePoints ed))%nat)%bool; [|auto].
  repeat split.
Qed.

Lemma setDrawingTool_step (tool : string) (ed : Editor) :
  startIsFirst ed ->
  startIsFirst (setDrawingTool tool ed)
  /\ rooms (setDrawingTool tool ed) = rooms ed
  /\ (wellSpaced (linePoints ed) = true ->
      wellSpaced (linePoints (setDrawingTool tool ed)) = true).
Proof.
  intros Hs. unfold setDrawingTool.
  destruct (negb (String.eqb tool "line")); repeat split; auto.
Qed.

Lemma toggleDrawingMode_step (canvas : bool) (ed : Editor) :
  startIsFirst ed ->
  (toggleDrawingMode canvas ed = None /\ canvas = false /\ isDrawingMode ed = true)
  \/ exists ed', toggleDrawingMode canvas ed = Some ed' /\ startIsFirst ed'
       /\ rooms ed' = rooms ed
       /\ (wellSpaced (linePoints ed) = true ->
           wellSpaced (linePoints ed') = true).
Proof.
  intros Hs. unfold toggleDrawingMode. cbv zeta.
  cbn [isDrawingMode set_isDrawingMode].
  destruct (isDrawingMode ed); cbn [negb].
  - destruct canvas; [right|left; auto].
    eexists. split; [reflexivity|]. repeat split; auto.
  - right. eexists. split; [reflexivity|]. repeat split; auto.
Qed.

(** One event: the handler returns and keeps the invariants, unless it is
    [toggleDrawingMode] stopping the drawing on a page without the canvas. *)
Lemma dispatch_step (e : Event) (ed : Editor) :
  startIsFirst ed ->
  (dispatch e ed = None /\ e = ToggleDrawingMode false /\ isDrawingMode ed = true)
  \/ exists ed', dispatch e ed = Some ed' /\ startIsFirst ed'
    /\ (wellSpaced (linePoints ed) = true ->
        wellSpaced (linePoints ed') = true
        /\ (rooms ed' = rooms ed
            \/ exists r, rooms ed' = rooms ed ++ [r] /\ drawnRoom r)).
Proof.
  intros Hs. destruct e as [now x y|x y|now x y|key|tool|canvas]; simpl.
  - right. apply mousedown_step. exact Hs.
  - right. destruct (mousemove_preview x y ed Hs) as (ed' & E & H).
    exists ed'. split; [exact E|]. unfold onlyPreviewsDiffer in H.
    destruct H as (_ & _ & Hr & _ & _ & Hl & Hst & _).
    split; [unfold startIsFirst; rewrite Hl, Hst; exact Hs|].
    intros Hw. rewrite Hl. split; [exact Hw | left; exact Hr].
  - right. eexists. split; [reflexivity|].
    destruct (mouseup_step now x y ed) as (Hl & Hst & Hr).
    split; [unfold startIsFirst; rewrite Hl, Hst; exact Hs|].
    intros Hw. rewrite Hl. split; assumption.
  - right. eexists. split; [reflexivity|].
    destruct (keydown_step key ed Hs) as (H1 & H2 & H3).
    split; [exact H1|]. intros Hw. split; [auto | left; exact H2].
  - right. eexists. split; [reflexivity|].
    destruct (setDrawingTool_step tool ed Hs) as (H1 & H2 & H3).
    split; [exact H1|]. intros Hw. split; [auto | left; exact H2].
  - destruct (toggleDrawingMode_step canvas ed Hs)
      as [(E & -> & Hm)|(ed' & E & H1 & H2 & H3)].
    + left. auto.
    + right. exists ed'. split; [exact E|].
      split; [exact H1|]. intros Hw. split; [auto | left; exact H2].
Qed.

Lemma run_invariant (events : list Event) (ed ed' : Editor) :
  startIsFirst ed ->
  run events ed = Some ed' ->
  startIsFirst ed'
  /\ (wellSpaced (linePoints ed) = true ->
      wellSpaced (linePoints ed') = true
      /\ exists added, rooms ed' = rooms ed ++ added /\ Forall drawnRoom added).
Proof.
  revert ed. induction events as [|e rest IH]; intros ed Hs E.
  - injection E as <-. split; [exact Hs|].
    intros Hw. split; [exact Hw|]. exists []. rewrite app_nil_r. auto.
  - simpl in E.
    destruct (dispatch_step e ed Hs) as [(E1 & _)|(ed1 & E1 & Hs1 & H1)];
      rewrite E1 in E; [discriminate|].
    destruct (IH ed1 Hs1 E) as (Hs' & H').
    split; [exact Hs'|].
    intros Hw. destruct (H1 Hw) as (Hw1 & Hr1).
    destruct (H' Hw1) as (Hw' & added & Hr & Hd).
    split; [exact Hw'|].
    destruct Hr1 as [Hr1|(r & Hr1 & Hdr)].
    + exists added. rewrite Hr, Hr1. auto.
    + exists (r :: added). rewrite Hr, Hr1, <- app_assoc. auto.
Qed.

Lemma run_app (before rest : list Event) (ed : Editor) :
  run (before ++ rest) ed
  = match run before ed with Some ed1 => run rest ed1 | None => None end.
Proof.
  revert ed. induction before as [|e before IH]; intros ed; [reflexivity|].
  simpl. destruct (dispatch e ed) as [ed1|]; [apply IH | reflexivity].
Qed.

(** A sequence of events throws exactly when it comes to a
    [toggleDrawingMode] that stops the drawing on a page without the
    canvas. *)
Lemma run_throws (events : list Event) (ed : Editor) :
  startIsFirst ed ->
  run events ed = None
  <-> exists before rest ed1,
        events = before ++ ToggleDrawingMode false :: rest
        /\ run before ed = Some ed1 /\ isDrawingMode ed1 = true.
Proof.
  intros Hs. split.
  - revert ed Hs. induction events as [|e events IH]; intros ed Hs E;
      [discriminate|].
    simpl in E.
    destruct (dispatch_step e ed Hs) as [(E1 & -> & Hm)|(ed1 & E1 & Hs1 & _)].
    + exists [], events, ed. auto.
    + rewrite E1 in E. destruct (IH ed1 Hs1 E) as (before & rest & ed2 & -> & E2 & Hm).
      exists (e :: before), rest, ed2. simpl. rewrite E1. auto.
  - intros (before & rest & ed1 & -> & E1 & Hm).
    rewrite run_app, E1. simpl. unfold toggleDrawingMode. cbv zeta.
    cbn [isDrawingMode set_isDrawingMode]. rewrite Hm. reflexivity.
Qed.

(** X1. The handlers throw in one situation only.  In every editor where
    the start point is the first of the vertices drawn so far (as in the
    initial one), a sequence of mouse, keyboard, tool and mode events throws
    exactly when it comes to a [toggleDrawingMode] that stops the drawing on
    a page without the canvas, where [removeRoomMeasurement(svg)] reads
    [svg.querySelector] of [null].  Every other sequence returns, so every
    sequence on a page with the canvas does; and the start point still is
    the first vertex afterwards, so [lineStartPoint] is never [null] where
    the mouse handlers read its coordinates. *)
Theorem handlers_throw_only_without_canvas (events : list Event) (ed : Editor) :
  startIsFirst ed ->
  (run events ed = None
   <-> exists before rest ed1,
         events = before ++ ToggleDrawingMode false :: rest
         /\ run before ed = Some ed1 /\ isDrawingMode ed1 = true)
  /\ (forallb findsCanvas events = true ->
      exists ed', run events ed = Some ed')
  /\ (forall ed', run events ed = Some ed' -> startIsFirst ed').
Proof.
  intros Hs. split; [apply run_throws; exact Hs|]. split.
  - intros Hc. destruct (run events ed) as [ed'|] eqn:E; [exists ed'; reflexivity|].
    apply (run_throws events ed Hs) in E.
    destruct E as (before & rest & ed1 & -> & _).
    rewrite forallb_app in Hc. apply andb_prop in Hc. destruct Hc as [_ Hc].
    discriminate Hc.
  - intros ed' E. destruct (run_invariant events ed ed' Hs E) as (H & _). exact H.
Qed.

Lemma handlers_throw_only_without_canvas_witness :
  (run [ToggleDrawingMode true; MouseDown 1000 100 100; ToggleDrawingMode false;
        MouseDown 1001 200 200] initialEditor = None
   <-> exists before rest ed1,
         [ToggleDrawingMode true; MouseDown 1000 100 100; ToggleDrawingMode false;
          MouseDown 1001 200 200]
         = before ++ ToggleDrawingMode false :: rest
         /\ run before initialEditor = Some ed1 /\ isDrawingMode ed1 = true)
  /\ (exists ed', run sampleSession initialEditor = Some ed')
  /\ (forall ed', run sampleSession initialEditor = Some ed' -> startIsFirst ed').
Proof.
  assert (Hs : startIsFirst initialEditor) by reflexivity.
  split; [|split].
  - apply (handlers_throw_only_without_canvas
             [ToggleDrawingMode true; MouseDown 1000 100 100;
              ToggleDrawingMode false; MouseDown 1001 200 200]
             initialEditor Hs).
  - apply (handlers_throw_only_without_canvas sampleSession initialEditor Hs).
    reflexivity.
  - apply (handlers_throw_only_without_canvas sampleSession initialEditor Hs).
Defined.

(** X2. The line tool keeps its vertices apart: whatever events follow,
    no two consecutive vertices of the polygon in progress are less than
    15px apart, and no vertex after the first is within the closing
    distance of the first. *)
Theorem vertices_stay_apart (events : list Event) (ed ed' : Editor) :
  startIsFirst ed ->
  spaced (linePoints ed) = true ->
  clearOfStart (linePoints ed) = true ->
  run events ed = Some ed' ->
  spaced (linePoints ed') = true /\ clearOfStart (linePoints ed') = true.
Proof.
  intros Hs H1 H2 E.
  destruct (run_invariant events ed ed' Hs E) as (_ & H).
  destruct H as (Hw & _); [unfold wellSpaced; rewrite H1, H2; reflexivity|].
  unfold wellSpaced in Hw. apply andb_prop in Hw. exact Hw.
Qed.

Lemma vertices_stay_apart_witness :
  let ed' := editorAfter (firstn 9 sampleSession) initialEditor in
  linePoints ed' = [Point.mk 300 100; Point.mk 400 100; Point.mk 400 200]
  /\ spaced (linePoints ed') = true /\ clearOfStart (linePoints ed') = true.
Proof.
  split; [vm_compute; reflexivity|].
  apply (vertices_stay_apart (firstn 9 sampleSession) initialEditor);
    [reflexivity | reflexivity | reflexivity | vm_compute; reflexivity].
Defined.

(** X3. Drawing only ever adds rooms: after any sequence of events the list
    of rooms is the former list followed by the rooms drawn, and each of
    these is a rectangle more than 20px wide and high or a polygon with at
    least three vertices that keep their distances, stored with the bounding
    box of its vertices, named "New Room", in state "good" and without a
    device. *)
Theorem drawing_only_adds_rooms (events : list Event) (ed ed' : Editor) :
  startIsFirst ed ->
  wellSpaced (linePoints ed) = true ->
  run events ed = Some ed' ->
  exists added, rooms ed' = rooms ed ++ added /\ Forall drawnRoom added.
Proof.
  intros Hs Hw E.
  destruct (run_invariant events ed ed' Hs E) as (_ & H).
  destruct (H Hw) as (_ & Hr). exact Hr.
Qed.

Lemma drawing_only_adds_rooms_witness :
  List.length (rooms (editorAfter sampleSession initialEditor)) = 2%nat
  /\ exists added,
       rooms (editorAfter sampleSession initialEditor) = rooms initialEditor ++ added
       /\ Forall drawnRoom added.
Proof.
  split; [vm_compute; reflexivity|].
  apply (drawing_only_adds_rooms sampleSession initialEditor);
    [reflexivity | reflexivity | vm_compute; reflexivity].
Defined.

(** X4. Moving the pointer never commits anything: [mousemove] returns, and
    the editor it leaves differs from the one it found at most in the
    previews and the measurement labels; the rooms, the vertices, the start
    points, the tool, the mode and the messages shown are as before. *)
Theorem mousemove_only_previews (x y : float) (ed : Editor) :
  startIsFirst ed ->
  exists ed', mousemove x y ed = Some ed' /\ onlyPreviewsDiffer ed ed'.
Proof. apply mousemove_preview. Qed.

Lemma mousemove_only_previews_witness :
  exists ed',
    mousemove 350 130 (lineInProgress true [Point.mk 300 100; Point.mk 400 100])
    = Some ed'
    /\ onlyPreviewsDiffer
         (lineInProgress true [Point.mk 300 100; Point.mk 400 100]) ed'.
Proof.
  apply (mousemove_only_previews 350 130
           (lineInProgress true [Point.mk 300 100; Point.mk 400 100])).
  reflexivity.
Defined.

(** X5. Stopping and restarting the drawing mode amounts to discarding the
    polygon in progress and the rectangle label, and nothing else: on a page
    with the canvas [toggleDrawingMode] returns both times, and twice is
    [resetLineDrawing] followed by [removeRoomMeasurement].  A rectangle
    drag is not abandoned by it: the start point and the preview element
    stay in their variables, and a release after the two toggles leaves the
    same rooms as a release before them.  Without the canvas the two calls
    do not both return: the one that stops the drawing throws. *)
Theorem toggling_twice (ed : Editor) :
  (exists ed1,
     toggleDrawingMode true ed = Some ed1
     /\ toggleDrawingMode true ed1 = Some (removeRoomMeasurement (resetLineDrawing ed))
     /\ roomStartPoint ed1 = roomStartPoint ed
     /\ tempRect ed1 = tempRect ed)
  /\ (forall (now : Z) (x y : float),
        rooms (mouseup now x y (removeRoomMeasurement (resetLineDrawing ed)))
        = rooms (mouseup now x y ed))
  /\ (forall (canvas : bool) (ed1 : Editor),
        toggleDrawingMode canvas ed = Some ed1 ->
        roomStartPoint ed1 = roomStartPoint ed /\ tempRect ed1 = tempRect ed)
  /\ match toggleDrawingMode false ed with
     | Some ed1 => toggleDrawingMode false ed1
     | None => None
     end = None.
Proof.
  split; [|split; [|split]].
  - destruct ed as [mode tool rs g sn lp tpl tpg lsp rsp tr rl dl rdg lsg eff].
    destruct mode; eexists; repeat split.
  - intros now x y. unfold mouseup. simpl.
    destruct (negb (isDrawingMode ed)); [reflexivity|].
    destruct (String.eqb (drawingTool ed) "rectangle"); [|reflexivity].
    destruct (roomStartPoint ed) as [start|]; [|reflexivity].
    destruct (tempRect ed) as [r|]; [|reflexivity].
    destruct (20 <? _); [destruct (20 <? _)|]; reflexivity.
  - intros canvas ed1. unfold toggleDrawingMode. cbv zeta.
    cbn [isDrawingMode set_isDrawingMode].
    destruct (negb (negb (isDrawingMode ed))); [|intros [= <-]; split; reflexivity].
    destruct canvas; [|discriminate]. intros [= <-]. split; reflexivity.
  - destruct ed as [mode tool rs g sn lp tpl tpg lsp rsp tr rl dl rdg lsg eff].
    destruct mode; reflexivity.
Qed.

(** ** Cancelling the name dialog *)

Lemma findIndex_none {A : Type} (f : A -> bool) (l : list A) :
  findIndex f l = None <-> forallb (fun a => negb (f a)) l = true.
Proof.
  induction l as [|a l IH]; simpl; [tauto|].
  destruct (f a); simpl.
  - split; discriminate.
  - rewrite <- IH. destruct (findIndex f l); simpl; split; congruence.
Qed.

(** The index [findIndex] returns is that of the first element that passes
    the test. *)
Lemma findIndex_some {A : Type} (f : A -> bool) (l : list A) (i : nat) :
  findIndex f l = Some i ->
  exists before a rest,
    l = before ++ a :: rest /\ List.length before = i /\ f a = true
    /\ forallb (fun a => negb (f a)) before = true.
Proof.
  revert i. induction l as [|a l IH]; intros i; simpl; [discriminate|].
  destruct (f a) eqn:Ea.
  - intros [= <-]. exists [], a, l. repeat split. exact Ea.
  - destruct (findIndex f l) as [j|]; simpl; [|discriminate].
    intros [= <-]. destruct (IH j eq_refl) as (before & b & rest & -> & Hl & Hb & Hn).
    exists (a :: before), b, rest. simpl. rewrite Ea, Hn, Hl. repeat split. exact Hb.
Qed.

Lemma findIndex_lt {A : Type} (f : A -> bool) (l : list A) (i : nat) :
  findIndex f l = Some i -> (i < List.length l)%nat.
Proof.
  intros H. destruct (findIndex_some f l i H) as (before & a & rest & -> & <- & _).
  rewrite length_app. simpl. lia.
Qed.

Lemma findIndex_app_fresh {A : Type} (f : A -> bool) (l : list A) (a : A) :
  forallb (fun a => negb (f a)) l = true -> f a = true ->
  findIndex f (l ++ [a]) = Some (List.length l).
Proof.
  intros Hl Ha. induction l as [|b l IH]; simpl in *.
  - rewrite Ha. reflexivity.
  - apply andb_prop in Hl. destruct Hl as [Hb Hl].
    apply negb_true_iff in Hb. rewrite Hb, (IH Hl). reflexivity.
Qed.

Lemma splice1_middle {A : Type} (before rest : list A) (a : A) :
  splice1 (List.length before) (before ++ a :: rest) = before ++ rest.
Proof.
  unfold splice1. induction before as [|b before IH]; [reflexivity|].
  simpl. f_equal. exact IH.
Qed.

Lemma rooms_perform_all (rs : list Room) (ed : Editor) :
  rooms (fold_left (fun ed room => perform (RenderRoom room) ed) rs ed) = rooms ed.
Proof.
  revert ed. induction rs as [|r rs IH]; intros ed; [reflexivity|].
  simpl. rewrite IH. reflexivity.
Qed.

Lemma rooms_renderFloorPlan (ed : Editor) : rooms (renderFloorPlan ed) = rooms ed.
Proof.
  unfold renderFloorPlan. destruct (roomsLayer ed); [|reflexivity].
  apply rooms_perform_all.
Qed.

(** Cancelling right after a room was appended. *)
Lemma cancel_after_append (roomId : string) (ed : Editor) (rs : list Room) (r : Room) :
  rooms ed = rs ++ [r] -> room_id r = roomId ->
  let fresh := forallb (fun r => negb (String.eqb (room_id r) roomId)) rs in
  snd (closeRoomNameInputModal true (Some roomId) ed) = None
  /\ (fresh = true ->
      rooms (fst (closeRoomNameInputModal true (Some roomId) ed)) = rs)
  /\ (fresh = false ->
      exists before old rest,
        rs = before ++ old :: rest /\ room_id old = roomId
        /\ forallb (fun r => negb (String.eqb (room_id r) roomId)) before = true
        /\ rooms (fst (closeRoomNameInputModal true (Some roomId) ed))
           = before ++ rest ++ [r]).
Proof.
  intros Hr Hid fresh. unfold closeRoomNameInputModal. simpl.
  split; [reflexivity|]. rewrite Hr. split.
  - intros Hf.
    rewrite (findIndex_app_fresh _ rs r Hf) by (rewrite Hid; apply String.eqb_refl).
    rewrite rooms_renderFloorPlan. simpl.
    rewrite (splice1_middle rs [] r). apply app_nil_r.
  - intros Hf.
    destruct (findIndex (fun r0 => String.eqb (room_id r0) roomId) rs) as [i|] eqn:Ei.
    + destruct (findIndex_some _ rs i Ei) as (before & old & rest & -> & Hl & Hold & Hb).
      exists before, old, rest. split; [reflexivity|].
      split; [apply String.eqb_eq; exact Hold|]. split; [exact Hb|].
      assert (E : findIndex (fun r0 => String.eqb (room_id r0) roomId)
                    ((before ++ old :: rest) ++ [r]) = Some i).
      { rewrite <- app_assoc. simpl.
        clear - Hl Hold Hb. subst i.
        induction before as [|b before IH]; simpl in *.
        - rewrite Hold. reflexivity.
        - apply andb_prop in Hb. destruct Hb as [Hb1 Hb2].
          apply negb_true_iff in Hb1. rewrite Hb1, (IH Hb2). reflexivity. }
      rewrite E, rooms_renderFloorPlan. simpl. subst i.
      rewrite <- app_assoc. simpl. rewrite splice1_middle. reflexivity.
    + apply findIndex_none in Ei. unfold fresh in Hf. congruence.
Qed.

(** X6. Cancelling the name dialog of a room that was just drawn removes a
    room with the id of the new one, the first in the list: when no earlier
    room has that id (ids are ['room_' + Date.now()]) the rooms are again
    those from before the drawing, for the rectangle tool and for the line
    tool alike; when an earlier room has the same id, that earlier room is
    removed and the new one stays. *)
Theorem cancel_undoes_drawing (now : Z) (ex ey : float) (ed : Editor)
    (start : Point) (rect : RectAttrs) :
  isDrawingMode ed = true ->
  forallb (fun r => negb (String.eqb (room_id r) (roomIdAt now))) (rooms ed) = true ->
  let cancel := closeRoomNameInputModal true (Some (roomIdAt now)) in
  let x := snapToGridCoordinate (snapToGrid ed) (gridSize ed) ex in
  let y := snapToGridCoordinate (snapToGrid ed) (gridSize ed) ey in
  (* the pending data is cleared *)
  (forall ed1, snd (cancel ed1) = None)
  (* the rectangle tool *)
  /\ (drawingTool ed = "rectangle"%string ->
   roomStartPoint ed = Some start -> tempRect ed = Some rect ->
   (20 <? JS.Math_abs (x - Point.x start)) = true ->
   (20 <? JS.Math_abs (y - Point.y start)) = true ->
   rooms (mouseup now ex ey ed) = rooms ed ++ [newRectangleRoom now start x y]
   /\ rooms (fst (cancel (mouseup now ex ey ed))) = rooms ed)
  (* the line tool *)
  /\ ((3 <= List.length (linePoints ed))%nat ->
      rooms (fst (cancel (completeLineRoom now ed))) = rooms ed)
  (* an id that is already taken *)
  /\ (forall (old : Room) (before rest : list Room),
        room_id old = roomIdAt now ->
        (3 <= List.length (linePoints ed))%nat ->
        let ed0 := set_rooms (before ++ old :: rest) ed in
        forallb (fun r => negb (String.eqb (room_id r) (roomIdAt now))) before = true ->
        exists new,
          rooms (completeLineRoom now ed0) = before ++ old :: rest ++ [new]
          /\ rooms (fst (cancel (completeLineRoom now ed0))) = before ++ rest ++ [new]).
Proof.
  intros Hmode Hfresh cancel x y. split; [reflexivity|]. split; [|split].
  - intros Htool Hstart Hrect Hw Hh.
    assert (Hr : rooms (mouseup now ex ey ed)
                 = rooms ed ++ [newRectangleRoom now start x y]).
    { unfold mouseup. rewrite Hmode, Htool, Hstart, Hrect. simpl.
      fold x y. rewrite Hw, Hh. reflexivity. }
    split; [exact Hr|].
    destruct (cancel_after_append (roomIdAt now) (mouseup now ex ey ed)
                (rooms ed) _ Hr eq_refl) as (_ & H & _).
    apply H. exact Hfresh.
  - intros Hlen.
    destruct (completeLineRoom_cases now ed) as [[Hlt _]|(_ & Hr & _)]; [lia|].
    destruct (cancel_after_append (roomIdAt now) (completeLineRoom now ed)
                (rooms ed) _ Hr eq_refl) as (_ & H & _).
    apply H. exact Hfresh.
  - intros old before rest Hold Hlen ed0 Hbefore.
    destruct (completeLineRoom_cases now ed0) as [[Hlt _]|(_ & Hr & _)];
      [simpl in Hlt; lia|].
    eexists. split.
    + rewrite Hr. simpl. rewrite <- app_assoc. reflexivity.
    + destruct (cancel_after_append (roomIdAt now) (completeLineRoom now ed0)
                  (rooms ed0) _ Hr eq_refl) as (_ & _ & H).
      destruct H as (before' & old' & rest' & E & Hold' & Hb' & Hrooms).
      { simpl. rewrite forallb_app. simpl. rewrite Hold, String.eqb_refl.
        simpl. apply andb_false_r. }
      simpl in E.
      assert (Hsame : before' = before /\ old' = old /\ rest' = rest).
      { clear - E Hold Hold' Hbefore Hb'.
        revert before' E Hb'. induction before as [|b before IH]; intros before' E Hb'.
        - destruct before' as [|b' before']; simpl in *.
          + injection E as <- <-. auto.
          + injection E as <- _. rewrite Hold, String.eqb_refl in Hb'. discriminate.
        - destruct before' as [|b' before']; simpl in *.
          + injection E as -> _. rewrite Hold', String.eqb_refl in Hbefore.
            discriminate.
          + injection E as <- E. apply andb_prop in Hbefore, Hb'.
            destruct (IH (proj2 Hbefore) before' E (proj2 Hb')) as (-> & -> & ->).
            auto. }
      destruct Hsame as (-> & -> & ->). exact Hrooms.
Qed.

Lemma cancel_undoes_drawing_witness :
  rooms (mouseup 1000 200 180 rectangleInProgress)
  = rooms rectangleInProgress
    ++ [newRectangleRoom 1000 (Point.mk 100 100)
          (snapToGridCoordinate true 20 200) (snapToGridCoordinate true 20 180)]
  /\ rooms (fst (closeRoomNameInputModal true (Some (roomIdAt 1000))
                   (mouseup 1000 200 180 rectangleInProgress)))
     = rooms rectangleInProgress.
Proof.
  refine (proj1 (proj2 (cancel_undoes_drawing 1000 200 180 rectangleInProgress
                          (Point.mk 100 100)
                          {| rect_x := 100; rect_y := 100;
                             rect_width := 0; rect_height := 0 |}
                          eq_refl eq_refl)) eq_refl eq_refl eq_refl _ _);
    vm_compute; reflexivity.
Defined.

(** ** The size of a drawn room *)

(** A length above 20 is neither zero nor NaN. *)
Lemma above_20_truthy (v : float) : (20 <? v) = true -> truthy v = true.
Proof.
  intros H. unfold truthy.
  destruct (ltb_not_nan _ _ H) as [_ Hn]. rewrite Hn, orb_false_r.
  rewrite is_zero_spec. rewrite ltb_spec in H.
  replace (Prim2SF 20) with (S754_finite false 5629499534213120 (-48)) in H
    by (vm_compute; reflexivity).
  destruct (Prim2SF v) as [s|s| |s m e]; try reflexivity.
  destruct s; discriminate.
Qed.

(** X7. Every room the drawing tools make has a size to show in the room
    panel: for a rectangle the text made of its width and height, for a
    polygon the text made of the extent of its bounding box (taken from the
    stored box or, when an extent is zero or NaN, computed again from the
    vertices, with the same result); the panel never falls back to "N/A"
    for such a room. *)
Theorem drawn_room_has_a_size (room : Room) :
  drawnRoom room ->
  roomSize room
  = match room with
    | RectangleRoom _ _ _ width height _ _ _ _ => measurementText width height
    | PolygonRoom _ points _ _ _ _ _ =>
        measurementText (bboxWidth (boundingBox points)) (bboxHeight (boundingBox points))
    end.
Proof.
  destruct room as [id x y w h name st sd dev|id pts bbox name st sd dev];
    unfold roomSize, drawnRoom.
  - intros (Hw & Hh & _). rewrite (above_20_truthy w Hw), (above_20_truthy h Hh).
    reflexivity.
  - intros (Hlen & _ & _ & -> & _).
    apply Nat.leb_le in Hlen. rewrite Hlen.
    destruct (truthy _ && truthy _); reflexivity.
Qed.

Lemma drawn_room_has_a_size_witness :
  roomSize (newRectangleRoom 1000 (Point.mk 100 100) 200 180)
  = measurementText 100 80.
Proof.
  apply (drawn_room_has_a_size (newRectangleRoom 1000 (Point.mk 100 100) 200 180)).
  vm_compute. repeat split.
Defined.

(** ** Ray casting and the way a ring is written *)

(** X8. The ray-casting test does not depend on how the ring is written:
    closing it (repeating the first point at the end, as
    [calculatePolygonCentroid] does for its own sums) and starting it at the
    next vertex instead of the first both leave the answer as it is, for
    every point and every list of vertices. *)
Theorem ray_casting_ignores_ring_form (x y : float) (points : list Point) :
  isPointInPolygon x y (closeRing points) = isPointInPolygon x y points
  /\ isPointInPolygon x y (tl points ++ firstn 1 points)
     = isPointInPolygon x y points.
Proof.
  split.
  - unfold closeRing. destruct points as [|p0 rest]; [reflexivity|].
    destruct (JS.strict_neq _ _ || JS.strict_neq _ _); [|reflexivity].
    apply isPointInPolygon_closed.
  - destruct points as [|p0 rest]; [reflexivity|].
    destruct rest as [|p1 rest]; [reflexivity|].
    change (tl (p0 :: p1 :: rest) ++ firstn 1 (p0 :: p1 :: rest))
      with ((p1 :: rest) ++ [p0]).
    unfold isPointInPolygon.
    change ((p1 :: rest) ++ [p0]) with (p1 :: (rest ++ [p0])) at 1.
    cbv beta iota.
    replace (last ((p1 :: rest) ++ [p0]) p1) with p0 by (symmetry; apply last_last).
    rewrite ray_loop_app.
    replace (last (p0 :: p1 :: rest) p0) with (last (p1 :: rest) p0) by reflexivity.
    set (pn := last (p1 :: rest) p0).
    change (ray_loop x y pn (p0 :: p1 :: rest) false)
      with (ray_loop x y p0 (p1 :: rest)
              (if intersect x y p0 pn then negb false else false)).
    rewrite (ray_loop_xor x y (p1 :: rest) p0 (if intersect _ _ _ _ then _ else _)).
    destruct (intersect x y p0 pn); reflexivity.
Qed.

Lemma intersect_nan (x y : float) (pi pj : Point) :
  is_nan x = true \/ is_nan y = true -> intersect x y pi pj = false.
Proof.
  intros [H|H]; unfold intersect.
  - destruct (_ <? _) eqn:E; [|apply andb_false_r].
    apply ltb_not_nan in E. destruct E as [E _]. congruence.
  - unfold JS.gt.
    destruct (y <? Point.y pi) eqn:E1;
      [apply ltb_not_nan in E1; destruct E1; congruence|].
    destruct (y <? Point.y pj) eqn:E2;
      [apply ltb_not_nan in E2; destruct E2; congruence|].
    reflexivity.
Qed.

Lemma ray_loop_nan (x y : float) (ps : list Point) (pj : Point) (inside : bool) :
  is_nan x = true \/ is_nan y = true -> ray_loop x y pj ps inside = inside.
Proof.
  intros H. revert pj inside. induction ps as [|pi rest IH]; intros pj inside;
    [reflexivity|].
  simpl. rewrite (intersect_nan x y pi pj H). apply IH.
Qed.

(** X9. A point with a coordinate that is NaN is inside no polygon: every
    comparison of the ray-casting test fails for it, so no edge is counted
    as crossed. *)
Theorem nan_point_is_outside (x y : float) (points : list Point) :
  is_nan x = true \/ is_nan y = true -> isPointInPolygon x y points = false.
Proof.
  intros H. unfold isPointInPolygon. destruct points as [|p0 rest]; [reflexivity|].
  apply ray_loop_nan. exact H.
Qed.

Lemma nan_point_is_outside_witness :
  isPointInPolygon nan 50 triangle = false.
Proof.
  apply (nan_point_is_outside nan 50 triangle). left. reflexivity.
Defined.

(** ** Distances *)

Lemma SFmul_opp_square (u : spec_float) :
  SFmul prec emax (SFopp u) (SFopp u) = SFmul prec emax u u.
Proof. destruct u as [s|s| |s m e]; try destruct s; reflexivity. Qed.

(** The square of a difference does not depend on its direction. *)
Lemma square_of_difference (a b : float) : (a - b) * (a - b) = (b - a) * (b - a).
Proof.
  apply Prim2SF_inj. rewrite !mul_spec, !sub_spec. unfold SF64mul, SF64sub.
  destruct (SFsub_swap (Prim2SF b) (Prim2SF a)) as [E|[E1 E2]].
  - rewrite E. apply SFmul_opp_square.
  - rewrite E1, E2. reflexivity.
Qed.

(** A square root is not below zero. *)
Lemma sqrt_not_negative (v : float) : (sqrt v <? 0) = false.
Proof.
  rewrite ltb_spec, sqrt_spec.
  replace (Prim2SF 0) with (S754_zero false) by (vm_compute; reflexivity).
  unfold SF64sqrt, SFsqrt.
  destruct (Prim2SF v) as [s|s| |s m e]; try destruct s; try reflexivity.
  destruct (SFsqrt_core_binary prec emax (Z.pos m) e) as [[mz ez] lz].
  unfold binary_round_aux.
  destruct (shr_fexp prec emax mz ez lz) as [mrs' e'].
  destruct (shr_fexp prec emax _ e' loc_Exact) as [mrs'' e''].
  destruct (shr_m mrs''); [reflexivity | | reflexivity].
  destruct (e'' <=? emax - prec)%Z; reflexivity.
Qed.

(** X10. The distance between two points is the same in both directions,
    bit for bit, and it is never below zero; so the closeness test
    [isPointClose] is symmetric in its two points, for every threshold. *)
Theorem distance_is_symmetric (x1 y1 x2 y2 : float) (threshold : option float) :
  calculateDistance x1 y1 x2 y2 = calculateDistance x2 y2 x1 y1
  /\ (calculateDistance x1 y1 x2 y2 <? 0) = false
  /\ isPointClose x1 y1 x2 y2 threshold = isPointClose x2 y2 x1 y1 threshold.
Proof.
  assert (H : calculateDistance x1 y1 x2 y2 = calculateDistance x2 y2 x1 y1).
  { unfold calculateDistance. cbv zeta.
    rewrite (square_of_difference x2 x1), (square_of_difference y2 y1).
    reflexivity. }
  split; [exact H|]. split.
  - apply sqrt_not_negative.
  - unfold isPointClose. rewrite H. reflexivity.
Qed.

(** ** The order of binary64 numbers *)

Lemma SFcompare_some (a b : spec_float) :
  sf_is_nan a = false -> sf_is_nan b = false -> exists c, SFcompare a b = Some c.
Proof.
  destruct a as [sa|sa| |sa ma ea], b as [sb|sb| |sb mb eb]; simpl;
    try discriminate; intros _ _; eexists; reflexivity.
Qed.

Lemma SFcompare_refl (a : spec_float) :
  sf_is_nan a = false -> SFcompare a a = Some Eq.
Proof.
  destruct a as [s|s| |s m e]; simpl; try discriminate; intros _;
    try (destruct s; reflexivity).
  rewrite Z.compare_refl.
  change (Pos.compare_cont Eq m m) with (Pos.compare m m).
  rewrite Pos.compare_refl. destruct s; reflexivity.
Qed.

Lemma SFleb_trans (a b c : spec_float) :
  SFleb a b = true -> SFleb b c = true -> SFleb a c = true.
Proof.
  unfold SFleb.
  destruct a as [sa|sa| |sa ma ea], b as [sb|sb| |sb mb eb],
    c as [sc|sc| |sc mc ec];
    try destruct sa; try destruct sb; try destruct sc;
    simpl; try discriminate; try reflexivity.
  - change (Pos.compare_cont Eq ma mb) with (Pos.compare ma mb).
    change (Pos.compare_cont Eq mb mc) with (Pos.compare mb mc).
    change (Pos.compare_cont Eq ma mc) with (Pos.compare ma mc).
    destruct (Z.compare_spec ea eb), (Z.compare_spec eb ec), (Z.compare_spec ea ec);
      try discriminate; try reflexivity; try lia;
      destruct (Pos.compare_spec ma mb), (Pos.compare_spec mb mc),
        (Pos.compare_spec ma mc);
      simpl; try discriminate; try reflexivity; lia.
  - change (Pos.compare_cont Eq ma mb) with (Pos.compare ma mb).
    change (Pos.compare_cont Eq mb mc) with (Pos.compare mb mc).
    change (Pos.compare_cont Eq ma mc) with (Pos.compare ma mc).
    destruct (Z.compare_spec ea eb), (Z.compare_spec eb ec), (Z.compare_spec ea ec);
      try discriminate; try reflexivity; try lia;
      destruct (Pos.compare_spec ma mb), (Pos.compare_spec mb mc),
        (Pos.compare_spec ma mc);
      simpl; try discriminate; try reflexivity; lia.
Qed.

Lemma leb_trans (a b c : float) :
  (a <=? b) = true -> (b <=? c) = true -> (a <=? c) = true.
Proof. rewrite !leb_spec. apply SFleb_trans. Qed.

Lemma leb_refl (a : float) : is_nan a = false -> (a <=? a) = true.
Proof.
  rewrite is_nan_spec, leb_spec. intros H. unfold SFleb.
  rewrite (SFcompare_refl _ H). reflexivity.
Qed.

Lemma ltb_leb (a b : float) : (a <? b) = true -> (a <=? b) = true.
Proof.
  rewrite ltb_spec, leb_spec. unfold SFltb, SFleb.
  destruct (SFcompare (Prim2SF a) (Prim2SF b)) as [[| |]|]; congruence.
Qed.

(** Of two numbers, the one that is not below the other is at least it. *)
Lemma not_ltb_leb (a b : float) :
  is_nan a = false -> is_nan b = false -> (a <? b) = false -> (b <=? a) = true.
Proof.
  rewrite !is_nan_spec, ltb_spec, leb_spec. intros Ha Hb. unfold SFltb, SFleb.
  destruct (SFcompare_some _ _ Ha Hb) as [c E]. rewrite E.
  rewrite (SFcompare_antisym _ _ _ E). destruct c; simpl; congruence.
Qed.

Lemma leb_not_nan (a b : float) :
  (a <=? b) = true -> is_nan a = false /\ is_nan b = false.
Proof.
  rewrite leb_spec, !is_nan_spec. unfold SFleb.
  destruct (Prim2SF a), (Prim2SF b); simpl; try discriminate; intros _; split; reflexivity.
Qed.

(** ** Minimum and maximum *)

Lemma Math_min2_bounds (a b : float) :
  is_nan a = false -> is_nan b = false ->
  (JS.Math_min2 a b <=? a) = true /\ (JS.Math_min2 a b <=? b) = true.
Proof.
  intros Ha Hb. unfold JS.Math_min2. rewrite Ha, Hb. simpl.
  destruct (a <? b) eqn:Hab.
  - split; [apply leb_refl; exact Ha | apply ltb_leb; exact Hab].
  - destruct (b <? a) eqn:Hba.
    + split; [apply ltb_leb; exact Hba | apply leb_refl; exact Hb].
    + pose proof (not_ltb_leb a b Ha Hb Hab) as H1.
      pose proof (not_ltb_leb b a Hb Ha Hba) as H2.
      destruct (get_sign a); split; auto using leb_refl.
Qed.

Lemma Math_max2_bounds (a b : float) :
  is_nan a = false -> is_nan b = false ->
  (a <=? JS.Math_max2 a b) = true /\ (b <=? JS.Math_max2 a b) = true.
Proof.
  intros Ha Hb. unfold JS.Math_max2. rewrite Ha, Hb. simpl.
  destruct (b <? a) eqn:Hba.
  - split; [apply leb_refl; exact Ha | apply ltb_leb; exact Hba].
  - destruct (a <? b) eqn:Hab.
    + split; [apply ltb_leb; exact Hab | apply leb_refl; exact Hb].
    + pose proof (not_ltb_leb a b Ha Hb Hab) as H1.
      pose proof (not_ltb_leb b a Hb Ha Hba) as H2.
      destruct (get_sign a); split; auto using leb_refl.
Qed.

Lemma fold_Math_min2 (xs : list float) (acc : float) :
  is_nan acc = false -> forallb (fun v => negb (is_nan v)) xs = true ->
  (fold_left JS.Math_min2 xs acc <=? acc) = true
  /\ forall v, In v xs -> (fold_left JS.Math_min2 xs acc <=? v) = true.
Proof.
  revert acc. induction xs as [|x xs IH]; intros acc Ha Hx.
  - split; [apply leb_refl; exact Ha | intros v []].
  - simpl in Hx. apply andb_prop in Hx. destruct Hx as [Hx Hxs].
    apply negb_true_iff in Hx.
    destruct (Math_min2_bounds acc x Ha Hx) as [H1 H2].
    destruct (IH (JS.Math_min2 acc x) (proj1 (leb_not_nan _ _ H1)) Hxs) as [H3 H4].
    simpl. split; [eapply leb_trans; eassumption|].
    intros v [<-|Hv]; [eapply leb_trans; eassumption | apply H4; exact Hv].
Qed.

Lemma fold_Math_max2 (xs : list float) (acc : float) :
  is_nan acc = false -> forallb (fun v => negb (is_nan v)) xs = true ->
  (acc <=? fold_left JS.Math_max2 xs acc) = true
  /\ forall v, In v xs -> (v <=? fold_left JS.Math_max2 xs acc) = true.
Proof.
  revert acc. induction xs as [|x xs IH]; intros acc Ha Hx.
  - split; [apply leb_refl; exact Ha | intros v []].
  - simpl in Hx. apply andb_prop in Hx. destruct Hx as [Hx Hxs].
    apply negb_true_iff in Hx.
    destruct (Math_max2_bounds acc x Ha Hx) as [H1 H2].
    destruct (IH (JS.Math_max2 acc x) (proj2 (leb_not_nan _ _ H1)) Hxs) as [H3 H4].
    simpl. split; [eapply leb_trans; eassumption|].
    intros v [<-|Hv]; [eapply leb_trans; eassumption | apply H4; exact Hv].
Qed.

(** The coordinates of the points are numbers. *)
Lemma coordinates_not_nan (proj : Point -> float) (points : list Point) :
  forallb (fun q => negb (is_nan (proj q))) points = true ->
  forallb (fun v => negb (is_nan v)) (map proj points) = true.
Proof.
  induction points as [|q points IH]; simpl; [reflexivity|].
  intros H. apply andb_prop in H. destruct H as [-> H]. exact (IH H).
Qed.

(** X11. The room [completeLineRoom] makes out of three or more vertices
    lies within the bounding box stored with it: when no coordinate is NaN,
    every vertex has its abscissa between [minX] and [maxX] and its ordinate
    between [minY] and [maxY]. *)
Theorem new_polygon_lies_in_its_box (now : Z) (ed : Editor) :
  (3 <= List.length (linePoints ed))%nat ->
  forallb (fun q => negb (is_nan (Point.x q))) (linePoints ed) = true ->
  forallb (fun q => negb (is_nan (Point.y q))) (linePoints ed) = true ->
  exists bbox,
    rooms (completeLineRoom now ed)
    = rooms ed ++ [PolygonRoom (roomIdAt now) (linePoints ed) bbox
                     "New Room" "good" None None]
    /\ forall p, In p (linePoints ed) ->
         (minX bbox <=? Point.x p) = true /\ (Point.x p <=? maxX bbox) = true
         /\ (minY bbox <=? Point.y p) = true /\ (Point.y p <=? maxY bbox) = true.
Proof.
  intros Hlen Hx Hy.
  destruct (completeLineRoom_cases now ed) as [[Hlt _]|(_ & Hr & _)]; [lia|].
  exists (boundingBox (linePoints ed)). split; [exact Hr|].
  intros p Hp. simpl. unfold JS.Math_min, JS.Math_max.
  destruct (fold_Math_min2 (map Point.x (linePoints ed)) infinity eq_refl
              (coordinates_not_nan Point.x _ Hx)) as [_ H1].
  destruct (fold_Math_max2 (map Point.x (linePoints ed)) neg_infinity eq_refl
              (coordinates_not_nan Point.x _ Hx)) as [_ H2].
  destruct (fold_Math_min2 (map Point.y (linePoints ed)) infinity eq_refl
              (coordinates_not_nan Point.y _ Hy)) as [_ H3].
  destruct (fold_Math_max2 (map Point.y (linePoints ed)) neg_infinity eq_refl
              (coordinates_not_nan Point.y _ Hy)) as [_ H4].
  repeat split; [apply H1 | apply H2 | apply H3 | apply H4]; apply in_map; exact Hp.
Qed.

Lemma new_polygon_lies_in_its_box_witness :
  exists bbox,
    rooms (completeLineRoom 1005 (lineInProgress true triangle))
    = rooms (lineInProgress true triangle)
      ++ [PolygonRoom (roomIdAt 1005) (linePoints (lineInProgress true triangle)) bbox
            "New Room" "good" None None]
    /\ forall p, In p (linePoints (lineInProgress true triangle)) ->
         (minX bbox <=? Point.x p) = true /\ (Point.x p <=? maxX bbox) = true
         /\ (minY bbox <=? Point.y p) = true /\ (Point.y p <=? maxY bbox) = true.
Proof.
  apply (new_polygon_lies_in_its_box 1005 (lineInProgress true triangle));
    [simpl; lia | reflexivity | reflexivity].
Defined.

(** ** The status of a room *)

(** The counting loops count the critical and the warning sensors. *)
Lemma count3_fold (values : list Sensor.t) (c w n : nat) :
  exists n',
    fold_left
      (fun '(criticalCount, warningCount, normalCount) sensor =>
         if String.eqb (Sensor.status sensor) "critical"
         then (S criticalCount, warningCount, normalCount)
         else if String.eqb (Sensor.status sensor) "warning"
         then (criticalCount, S warningCount, normalCount)
         else (criticalCount, warningCount, S normalCount))
      values (c, w, n)
    = ((c + List.length (filter (fun s => String.eqb (Sensor.status s) "critical") values))%nat,
       (w + List.length (filter (fun s => String.eqb (Sensor.status s) "warning") values))%nat,
       n').
Proof.
  revert c w n. induction values as [|s values IH]; intros c w n.
  - exists n. simpl. rewrite !Nat.add_0_r. reflexivity.
  - cbn [fold_left filter].
    destruct (String.eqb (Sensor.status s) "critical") eqn:Ec.
    + apply String.eqb_eq in Ec. rewrite Ec. simpl (String.eqb "critical" "warning").
      cbv iota. destruct (IH (S c) w n) as [n' ->]. exists n'. simpl.
      rewrite Nat.add_succ_r. reflexivity.
    + destruct (String.eqb (Sensor.status s) "warning").
      * destruct (IH c (S w) n) as [n' ->]. exists n'. simpl.
        rewrite Nat.add_succ_r. reflexivity.
      * destruct (IH c w (S n)) as [n' ->]. exists n'. reflexivity.
Qed.

Lemma count2_fold (values : list Sensor.t) (c w : nat) :
  fold_left
    (fun '(criticalCount, warningCount) sensor =>
       if String.eqb (Sensor.status sensor) "critical"
       then (S criticalCount, warningCount)
       else if String.eqb (Sensor.status sensor) "warning"
       then (criticalCount, S warningCount)
       else (criticalCount, warningCount))
    values (c, w)
  = ((c + List.length (filter (fun s => String.eqb (Sensor.status s) "critical") values))%nat,
     (w + List.length (filter (fun s => String.eqb (Sensor.status s) "warning") values))%nat).
Proof.
  revert c w. induction values as [|s values IH]; intros c w.
  - simpl. rewrite !Nat.add_0_r. reflexivity.
  - cbn [fold_left filter].
    destruct (String.eqb (Sensor.status s) "critical") eqn:Ec.
    + apply String.eqb_eq in Ec. rewrite Ec. simpl (String.eqb "critical" "warning").
      cbv iota. rewrite IH. simpl. rewrite Nat.add_succ_r. reflexivity.
    + destruct (String.eqb (Sensor.status s) "warning").
      * rewrite IH. simpl. rewrite Nat.add_succ_r. reflexivity.
      * apply IH.
Qed.

(** The three rules, by the two counts. *)
Lemma determineRoomStatus_counts (sensors : Sensors) :
  determineRoomStatus sensors
  = if (2 <=? criticalCount sensors)%nat then "danger"%string
    else if (5 <=? warningCount sensors)%nat then "danger"%string
    else if ((1 <=? criticalCount sensors) || (2 <=? warningCount sensors))%nat
         then "warning"%string
    else "good"%string.
Proof.
  unfold determineRoomStatus, criticalCount, warningCount.
  destruct (count3_fold (Object_values sensors) 0 0 0) as [n' ->]. reflexivity.
Qed.

Lemma determineDeviceStatus_counts (sensors : Sensors) :
  determineDeviceStatus sensors
  = if ((2 <=? criticalCount sensors) || (5 <=? warningCount sensors))%nat
    then "danger"%string
    else if ((1 <=? criticalCount sensors) || (2 <=? warningCount sensors))%nat
         then "warning"%string
    else "good"%string.
Proof.
  unfold determineDeviceStatus, criticalCount, warningCount.
  rewrite count2_fold. reflexivity.
Qed.

Lemma fallback_counts (sensors : Sensors) :
  determineRoomStatusFromApp None sensors
  = if (0 <? criticalCount sensors)%nat then "danger"%string
    else if (4 <=? warningCount sensors)%nat then "danger"%string
    else if (1 <=? warningCount sensors)%nat then "warning"%string
    else "good"%string.
Proof.
  unfold determineRoomStatusFromApp, criticalCount, warningCount.
  rewrite count2_fold. reflexivity.
Qed.

(** X12. The status of a device ([determineDeviceStatus] of [devices.js])
    and the status of a room ([determineRoomStatus] of [app.js]) are the
    same function of the sensors. *)
Theorem device_and_room_status_agree (sensors : Sensors) :
  determineDeviceStatus sensors = determineRoomStatus sensors.
Proof.
  rewrite determineDeviceStatus_counts, determineRoomStatus_counts.
  destruct (2 <=? criticalCount sensors)%nat; reflexivity.
Qed.

(** X13. The rule of the floor-plan editor is used only when
    [window.determineRoomStatus] is missing, and it is not the rule of
    [app.js]: it is never milder, and the two give the same status exactly
    when there are two or more critical sensors, or five or more warnings,
    or no critical sensor and a number of warnings other than 1 and 4.  (One
    critical sensor is "danger" for the editor and "warning" for [app.js].) *)
Theorem fallback_rule_is_stricter (sensors : Sensors) :
  let c := criticalCount sensors in
  let w := warningCount sensors in
  determineRoomStatusFromApp (Some determineRoomStatus) sensors
  = determineRoomStatus sensors
  /\ (severity (determineRoomStatus sensors)
      <= severity (determineRoomStatusFromApp None sensors))%nat
  /\ (determineRoomStatusFromApp None sensors = determineRoomStatus sensors
      <-> (2 <= c \/ 5 <= w \/ (c = 0 /\ w <> 1 /\ w <> 4))%nat).
Proof.
  intros c w. split; [reflexivity|].
  rewrite fallback_counts, determineRoomStatus_counts. fold c w.
  destruct c as [|[|c]]; destruct w as [|[|[|[|[|w]]]]]; unfold severity; simpl;
    (split; [lia|]); split; intros H; try discriminate; try reflexivity; lia.
Qed.

Lemma filter_length_insert {A : Type} (f : A -> bool) (l1 l2 : list A) (a : A) :
  (List.length (filter f (l1 ++ l2)) <= List.length (filter f (l1 ++ a :: l2)))%nat.
Proof.
  rewrite !filter_app, !length_app. simpl. destruct (f a); simpl; lia.
Qed.

(** X14. One more sensor never improves a status: under the rule of
    [app.js] and under the rule of the floor-plan editor, the status of a
    set of sensors is at least as bad as the status of the set without any
    one of them. *)
Theorem more_sensors_never_improve (before rest : Sensors)
    (sensor : string * Sensor.t) :
  (severity (determineRoomStatus (before ++ rest))
   <= severity (determineRoomStatus (before ++ sensor :: rest)))%nat
  /\ (severity (determineRoomStatusFromApp None (before ++ rest))
      <= severity (determineRoomStatusFromApp None (before ++ sensor :: rest)))%nat.
Proof.
  rewrite !determineRoomStatus_counts, !fallback_counts.
  unfold criticalCount, warningCount, Object_values. rewrite !map_app. simpl map.
  pose proof (filter_length_insert
                (fun s => String.eqb (Sensor.status s) "critical")
                (map snd before) (map snd rest) (snd sensor)) as Hc.
  pose proof (filter_length_insert
                (fun s => String.eqb (Sensor.status s) "warning")
                (map snd before) (map snd rest) (snd sensor)) as Hw.
  set (c := List.length (filter (fun s => String.eqb (Sensor.status s) "critical")
                           (map snd before ++ map snd rest))) in *.
  set (c' := List.length (filter (fun s => String.eqb (Sensor.status s) "critical")
                            (map snd before ++ snd sensor :: map snd rest))) in *.
  set (w := List.length (filter (fun s => String.eqb (Sensor.status s) "warning")
                           (map snd before ++ map snd rest))) in *.
  set (w' := List.length (filter (fun s => String.eqb (Sensor.status s) "warning")
                            (map snd before ++ snd sensor :: map snd rest))) in *.
  clearbody c c' w w'.
  split.
  - destruct (2 <=? c)%nat eqn:E1, (2 <=? c')%nat eqn:E2,
      (5 <=? w)%nat eqn:E3, (5 <=? w')%nat eqn:E4,
      (1 <=? c)%nat eqn:E5, (1 <=? c')%nat eqn:E6,
      (2 <=? w)%nat eqn:E7, (2 <=? w')%nat eqn:E8; unfold severity; simpl; try lia;
      repeat match goal with
             | H : (_ <=? _)%nat = true |- _ => apply Nat.leb_le in H
             | H : (_ <=? _)%nat = false |- _ => apply Nat.leb_gt in H
             end; lia.
  - destruct (0 <? c)%nat eqn:E1, (0 <? c')%nat eqn:E2,
      (4 <=? w)%nat eqn:E3, (4 <=? w')%nat eqn:E4,
      (1 <=? w)%nat eqn:E5, (1 <=? w')%nat eqn:E6; unfold severity; simpl; try lia;
      repeat match goal with
             | H : (_ <=? _)%nat = true |- _ => apply Nat.leb_le in H
             | H : (_ <=? _)%nat = false |- _ => apply Nat.leb_gt in H
             | H : (_ <? _)%nat = true |- _ => apply Nat.ltb_lt in H
             | H : (_ <? _)%nat = false |- _ => apply Nat.ltb_ge in H
             end; lia.
Qed.

(** ** Readings of a device *)

Lemma thresholdStatus_values (sensorKey : string) (value : float)
    (thresholds : Thresholds.t) :
  In (thresholdStatus sensorKey value thresholds)
    ["normal"; "warning"; "critical"]%string.
Proof.
  unfold thresholdStatus.
  destruct (String.eqb sensorKey "pressure");
    [destruct (value <? _); [|destruct (value <? _)]
    |destruct (_ <=? value); [|destruct (_ <=? value)]];
    simpl; tauto.
Qed.

(** X15. Whatever the device reports and however the thresholds are
    configured, [mapDeviceSensorDataFromFirebaseForRoom] answers a report
    with the same seven sensors in the same order (dust, co2, temperature,
    humidity, pressure, gas, smoke), each with one of the statuses "normal",
    "warning" and "critical", and the pressure always reads 1013.2; only a
    missing report is answered by [null]. *)
Theorem mapped_sensors_shape (config : option SensorConfig)
    (dataSensor : DataSensor) :
  mapDeviceSensorDataFromFirebaseForRoom config None = None
  /\ exists sensors,
       mapDeviceSensorDataFromFirebaseForRoom config (Some dataSensor) = Some sensors
       /\ map fst sensors
          = ["dust"; "co2"; "temperature"; "humidity"; "pressure"; "gas"; "smoke"]%string
       /\ Forall (fun s => In (Sensor.status s) ["normal"; "warning"; "critical"]%string)
            (Object_values sensors)
       /\ option_map Sensor.value (lookup "pressure" sensors) = Some 1013.2.
Proof.
  split; [reflexivity|].
  unfold mapDeviceSensorDataFromFirebaseForRoom.
  match goal with
  | |- context [match config with Some _ => _ | None => Some ?l end] =>
      set (sensors0 := l)
  end.
  assert (H0 : Forall (fun s => In (Sensor.status s)
                                  ["normal"; "warning"; "critical"]%string)
                 (Object_values sensors0)).
  { unfold Object_values, sensors0. cbn [map snd].
    repeat (apply Forall_cons; [left; reflexivity|]). apply Forall_nil. }
  destruct config as [config|].
  - match goal with
    | |- context [map ?f sensors0] => set (entry := f)
    end.
    exists (map entry sensors0). split; [reflexivity|].
    assert (Hfst : forall e, fst (entry e) = fst e).
    { intros [k s0]. unfold entry. destruct (lookup k config); reflexivity. }
    assert (Hst : forall e,
               In (Sensor.status (snd e)) ["normal"; "warning"; "critical"]%string ->
               In (Sensor.status (snd (entry e)))
                 ["normal"; "warning"; "critical"]%string).
    { intros [k s0] H. unfold entry. destruct (lookup k config); [|exact H].
      cbn [snd Sensor.status]. apply thresholdStatus_values. }
    assert (Hval : forall e, Sensor.value (snd (entry e)) = Sensor.value (snd e)).
    { intros [k s0]. unfold entry. destruct (lookup k config); reflexivity. }
    split; [|split].
    + rewrite map_map. rewrite (map_ext _ fst Hfst). reflexivity.
    + unfold Object_values in *. rewrite map_map.
      rewrite Forall_map in H0 |- *.
      eapply Forall_impl; [|exact H0]. intros e. apply Hst.
    + assert (Hl : forall l : Sensors,
                 option_map Sensor.value (lookup "pressure" (map entry l))
                 = option_map Sensor.value (lookup "pressure" l)).
      { induction l as [|[k s0] l IH]; [reflexivity|].
        cbn [map]. rewrite (surjective_pairing (entry (k, s0))), Hfst.
        cbn [lookup fst]. destruct (String.eqb k "pressure"); [|exact IH].
        cbn [option_map]. rewrite Hval. reflexivity. }
      rewrite Hl. reflexivity.
  - exists sensors0. split; [reflexivity|]. split; [reflexivity|].
    split; [exact H0 | reflexivity].
Qed.

Lemma or_default_falsy (reading : option float) (default : float) :
  falsy reading = true -> or_default reading default = default.
Proof.
  unfold falsy, or_default. destruct reading as [v|]; [|reflexivity].
  intros H. apply negb_true_iff in H. rewrite H. reflexivity.
Qed.

(** X16. A reading that is missing, zero or NaN is never passed on: with
    the thresholds of [app.js] the sensor then shows its default value (25,
    600, 23.5, 55, 150, 30) with the status "normal", and the pressure is
    "normal" in any case.  A device all of whose readings are missing or
    zero therefore gives a room the status "good", under the rule of
    [app.js] and under the rule of the floor-plan editor. *)
Theorem unread_channels_show_defaults (dataSensor : DataSensor) :
  exists sensors,
    mapDeviceSensorDataFromFirebaseForRoom (Some sensorConfig) (Some dataSensor)
    = Some sensors
    /\ (falsy (pm25 dataSensor) = true ->
        lookup "dust" sensors = Some (Sensor.mk 25 "μg/m³" "normal"))
    /\ (falsy (co2 dataSensor) = true ->
        lookup "co2" sensors = Some (Sensor.mk 600 "ppm" "normal"))
    /\ (falsy (temperature dataSensor) = true ->
        lookup "temperature" sensors = Some (Sensor.mk 23.5 "°C" "normal"))
    /\ (falsy (humidity dataSensor) = true ->
        lookup "humidity" sensors = Some (Sensor.mk 55 "%" "normal"))
    /\ lookup "pressure" sensors = Some (Sensor.mk 1013.2 "hPa" "normal")
    /\ (falsy (mq2 dataSensor) = true ->
        lookup "gas" sensors = Some (Sensor.mk 150 "ppm" "normal"))
    /\ (falsy (mq2_raw dataSensor) = true ->
        lookup "smoke" sensors = Some (Sensor.mk 30 "ppm" "normal"))
    /\ (falsy (pm25 dataSensor) = true -> falsy (co2 dataSensor) = true ->
        falsy (temperature dataSensor) = true -> falsy (humidity dataSensor) = true ->
        falsy (mq2 dataSensor) = true -> falsy (mq2_raw dataSensor) = true ->
        determineRoomStatus sensors = "good"%string
        /\ determineRoomStatusFromApp None sensors = "good"%string).
Proof.
  eexists. split; [reflexivity|].
  cbn [map sensorConfig lookup String.eqb Ascii.eqb Bool.eqb andb].
  cbn [Sensor.value Sensor.unit].
  split; [intros H; rewrite (or_default_falsy _ _ H); vm_compute; reflexivity|].
  split; [intros H; rewrite (or_default_falsy _ _ H); vm_compute; reflexivity|].
  split; [intros H; rewrite (or_default_falsy _ _ H); vm_compute; reflexivity|].
  split; [intros H; rewrite (or_default_falsy _ _ H); vm_compute; reflexivity|].
  split; [vm_compute; reflexivity|].
  split; [intros H; rewrite (or_default_falsy _ _ H); vm_compute; reflexivity|].
  split; [intros H; rewrite (or_default_falsy _ _ H); vm_compute; reflexivity|].
  intros H1 H2 H3 H4 H5 H6.
  rewrite (or_default_falsy _ _ H1), (or_default_falsy _ _ H2),
    (or_default_falsy _ _ H3), (or_default_falsy _ _ H4),
    (or_default_falsy _ _ H5), (or_default_falsy _ _ H6).
  split; vm_compute; reflexivity.
Qed.

(** ** Looking a room up in the dashboard data *)

(** On data that is not empty the search always ends on an entry. *)
Lemma findRoomIndex_found (toLowerCase : string -> string)
    (r : RoomData.t) (data : list RoomData.t) (rooms : list Room)
    (roomName roomId : string) :
  exists i, findRoomIndex toLowerCase (Some (r :: data)) rooms roomName roomId = Some i
            /\ (i < List.length (r :: data))%nat.
Proof.
  unfold findRoomIndex.
  set (all := r :: data).
  assert (Hpos : (0 < List.length all)%nat) by (simpl; lia).
  set (byName := findIndex (fun r0 => String.eqb (RoomData.name r0) roomName) all).
  set (byLower := findIndex
                  (fun r0 => negb (String.eqb (RoomData.name r0) "")
                             && String.eqb (toLowerCase (RoomData.name r0))
                                  (toLowerCase roomName)) all).
  set (byPlan := findIndex (fun r0 => String.eqb (room_id r0) roomId) rooms).
  assert (He : forall i, byName = Some i -> (i < List.length all)%nat)
    by (intros i; apply findIndex_lt).
  assert (Hl : forall i, byLower = Some i -> (i < List.length all)%nat)
    by (intros i; apply findIndex_lt).
  clearbody byName byLower byPlan.
  destruct (negb (String.eqb roomName "")), (negb (String.eqb roomId ""));
    destruct byName as [i1|]; try (exists i1; split; [reflexivity | auto]);
    destruct byLower as [i2|]; try (exists i2; split; [reflexivity | auto]);
    destruct byPlan as [j|];
    try (exists 0%nat; split; [reflexivity | exact Hpos]);
    (destruct (j <? List.length all)%nat eqn:Ej;
     [ exists j; split; [reflexivity | apply Nat.ltb_lt; exact Ej]
     | exists (j mod List.length all)%nat; split;
       [reflexivity | apply Nat.mod_upper_bound; lia] ]).
Qed.

(** X17. [findRoomInRoomsData] answers [null] only when there is no
    dashboard data: on a list that is not empty it always returns one of the
    entries.  An entry whose name is exactly the room's name is preferred,
    the first such entry; and a room that matches nothing by name, and is not
    in the floor plan either, is answered with the first entry, whatever
    room that entry belongs to. *)
Theorem room_lookup_always_answers (toLowerCase : string -> string)
    (roomsData : option (list RoomData.t)) (rooms : list Room)
    (roomName roomId : string) :
  let answer := findRoomInRoomsData toLowerCase roomsData rooms roomName roomId in
  let data := match roomsData with Some data => data | None => [] end in
  (answer = None <-> data = [])
  /\ (forall roomData, answer = Some roomData -> In roomData data)
  /\ (forall i, roomName <> ""%string ->
        findIndex (fun r => String.eqb (RoomData.name r) roomName) data = Some i ->
        answer = nth_error data i)
  /\ (findIndex (fun r => String.eqb (RoomData.name r) roomName) data = None ->
      findIndex (fun r => negb (String.eqb (RoomData.name r) "")
                          && String.eqb (toLowerCase (RoomData.name r))
                               (toLowerCase roomName)) data = None ->
      findIndex (fun r => String.eqb (room_id r) roomId) rooms = None ->
      answer = hd_error data).
Proof.
  intros answer data. unfold answer, findRoomInRoomsData.
  destruct roomsData as [[|r rest]|]; simpl in data; unfold data.
  - split; [split; reflexivity|].
    split; [intros roomData H; discriminate|].
    split; [intros i _ H; discriminate | reflexivity].
  - destruct (findRoomIndex_found toLowerCase r rest rooms roomName roomId)
      as (i & E & Hi).
    split; [|split; [|split]].
    + rewrite E. split; [|discriminate].
      intros H. apply nth_error_None in H. lia.
    + intros roomData. rewrite E. apply nth_error_In.
    + intros j Hname Hj. unfold findRoomIndex.
      apply String.eqb_neq in Hname. rewrite Hname. cbn [negb].
      rewrite Hj. reflexivity.
    + intros H1 H2 H3. unfold findRoomIndex. rewrite H1, H2, H3.
      destruct (negb (String.eqb roomName "")), (negb (String.eqb roomId ""));
        reflexivity.
  - split; [split; reflexivity|].
    split; [intros roomData H; discriminate|].
    split; [intros i _ H; discriminate | reflexivity].
Qed.

(** ** The status of a room with a device *)

Lemma set_sensors_at_length (i : nat) (s : Sensors) (data : list RoomData.t) :
  List.length (set_sensors_at i s data) = List.length data.
Proof.
  revert i. induction data as [|r data IH]; intros i; [reflexivity|].
  destruct i; simpl; [reflexivity | rewrite IH; reflexivity].
Qed.

(** A test that reads only the name of an entry does not see its sensors. *)
Lemma findIndex_set_sensors (f : RoomData.t -> bool) (i : nat) (s : Sensors)
    (data : list RoomData.t) :
  (forall r s', f (RoomData.mk (RoomData.id r) (RoomData.name r) s') = f r) ->
  findIndex f (set_sensors_at i s data) = findIndex f data.
Proof.
  intros Hf. revert i. induction data as [|r data IH]; intros i; [reflexivity|].
  destruct i; simpl.
  - rewrite Hf. reflexivity.
  - rewrite IH. reflexivity.
Qed.

Lemma findRoomIndex_set_sensors (toLowerCase : string -> string) (i : nat)
    (s : Sensors) (data : list RoomData.t) (rooms : list Room)
    (roomName roomId : string) :
  findRoomIndex toLowerCase (Some (set_sensors_at i s data)) rooms roomName roomId
  = findRoomIndex toLowerCase (Some data) rooms roomName roomId.
Proof.
  unfold findRoomIndex.
  assert (E : match set_sensors_at i s data with [] => true | _ => false end
              = match data with [] => true | _ => false end).
  { destruct data as [|r data]; [reflexivity|]. destruct i; reflexivity. }
  destruct (set_sensors_at i s data) as [|r' data'] eqn:Es;
    destruct data as [|r data]; try discriminate; [reflexivity|].
  rewrite <- Es.
  rewrite !(findIndex_set_sensors _ i s (r :: data)) by reflexivity.
  rewrite !set_sensors_at_length. reflexivity.
Qed.

Lemma nth_error_set_sensors (i : nat) (s : Sensors) (data : list RoomData.t) :
  (i < List.length data)%nat ->
  option_map RoomData.sensors (nth_error (set_sensors_at i s data) i) = Some (Some s).
Proof.
  revert i. induction data as [|r data IH]; intros i Hi; simpl in Hi; [lia|].
  destruct i; simpl; [reflexivity|]. apply IH. lia.
Qed.

(** The copy of the sensors of a device is equal to them. *)
Lemma sensors_copy (sensors : Sensors) :
  map (fun '(sensorKey, deviceSensor) =>
         (sensorKey,
          Sensor.mk (Sensor.value deviceSensor) (Sensor.unit deviceSensor)
            (Sensor.status deviceSensor)))
    sensors = sensors.
Proof.
  induction sensors as [|[k [v u st]] sensors IH]; [reflexivity|].
  simpl. rewrite IH. reflexivity.
Qed.

(** After the synchronisation with a device that has sensors, the entry the
    search finds for the room carries the sensors of the device. *)
Lemma sync_then_find (toLowerCase : string -> string) (rooms : list Room)
    (room : Room) (w : Dashboard) (deviceId : string) (device : Device.t)
    (sensors : Sensors) :
  hasDevice room = Some deviceId ->
  window_getDeviceById w deviceId = Some device ->
  Device.sensors device = Some sensors ->
  let w' := syncDeviceSensorDataToRoom toLowerCase rooms room w in
  exists r data,
    roomsData w' = Some (r :: data)
    /\ option_map RoomData.sensors
         (findRoomInRoomsData toLowerCase (roomsData w') rooms
            (room_name room) (room_id room))
       = Some (Some sensors)
    /\ devicesData w' = devicesData w
    /\ window_determineRoomStatus w' = window_determineRoomStatus w
    /\ requested w' = requested w.
Proof.
  intros Hd Hdev Hs w'. unfold w', syncDeviceSensorDataToRoom.
  rewrite Hd, Hdev, Hs, sensors_copy.
  destruct (roomsData w) as [[|r data]|] eqn:Ew.
  - (* an empty list: an entry is pushed *)
    cbn [findRoomIndex app List.length set_sensors_at set_roomsData roomsData].
    eexists _, []. split; [reflexivity|]. split; [|repeat split].
    unfold findRoomInRoomsData.
    match goal with
    | |- context [findRoomIndex _ (Some (?e :: [])) _ _ _] =>
        destruct (findRoomIndex_found toLowerCase e [] rooms
                    (room_name room) (room_id room)) as (i & E & Hi)
    end.
    rewrite E. simpl in Hi. replace i with 0%nat by lia. reflexivity.
  - destruct (findRoomIndex_found toLowerCase r data rooms
                (room_name room) (room_id room)) as (i & E & Hi).
    rewrite E. cbn [set_roomsData roomsData].
    assert (Hne : exists r' data', set_sensors_at i sensors (r :: data) = r' :: data').
    { destruct i; simpl; eexists _, _; reflexivity. }
    destruct Hne as (r' & data' & Hne).
    exists r', data'. split; [rewrite Hne; reflexivity|].
    split; [|repeat split].
    unfold findRoomInRoomsData.
    rewrite findRoomIndex_set_sensors, E.
    apply nth_error_set_sensors. exact Hi.
  - cbn [findRoomIndex app List.length set_sensors_at set_roomsData roomsData].
    eexists _, []. split; [reflexivity|]. split; [|repeat split].
    unfold findRoomInRoomsData.
    match goal with
    | |- context [findRoomIndex _ (Some (?e :: [])) _ _ _] =>
        destruct (findRoomIndex_found toLowerCase e [] rooms
                    (room_name room) (room_id room)) as (i & E & Hi)
    end.
    rewrite E. simpl in Hi. replace i with 0%nat by lia. reflexivity.
Qed.

(** X18. The status [updateRoomStatus] gives a room: "unassigned" when the
    room has no device; and when its device is known and has sensors, the
    status of those sensors ([determineRoomStatusFromApp]), whichever entry
    of the dashboard data the room was matched with, because the sensors
    of the device are first copied into that entry (an entry is added when
    there is none).  A room whose device is unknown is "unassigned" when
    there is no dashboard data. *)
Theorem room_status_follows_device (toLowerCase : string -> string)
    (rooms : list Room) (room : Room) (w : Dashboard) :
  (hasDevice room = None ->
   updateRoomStatus toLowerCase rooms room w = (set_room_status "unassigned" room, w))
  /\ (forall deviceId device sensors,
        hasDevice room = Some deviceId ->
        window_getDeviceById w deviceId = Some device ->
        Device.sensors device = Some sensors ->
        fst (updateRoomStatus toLowerCase rooms room w)
        = set_room_status
            (determineRoomStatusFromApp (window_determineRoomStatus w) sensors) room
        /\ snd (updateRoomStatus toLowerCase rooms room w)
           = syncDeviceSensorDataToRoom toLowerCase rooms room w)
  /\ (forall deviceId,
        hasDevice room = Some deviceId ->
        window_getDeviceById w deviceId = None ->
        match roomsData w with Some (_ :: _) => False | _ => True end ->
        fst (updateRoomStatus toLowerCase rooms room w)
        = set_room_status "unassigned" room).
Proof.
  split; [|split].
  - intros H. unfold updateRoomStatus. rewrite H. reflexivity.
  - intros deviceId device sensors Hd Hdev Hs.
    destruct (sync_then_find toLowerCase rooms room w deviceId device sensors
                Hd Hdev Hs) as (r & data & Ew & Hfind & _ & Hhook & _).
    unfold updateRoomStatus. rewrite Hd. cbv zeta. rewrite Ew.
    rewrite Ew in Hfind.
    destruct (findRoomInRoomsData toLowerCase (Some (r :: data)) rooms
                (room_name room) (room_id room)) as [roomData|]; [|discriminate].
    simpl in Hfind. injection Hfind as ->. rewrite Hhook. split; reflexivity.
  - intros deviceId Hd Hdev Hw.
    unfold updateRoomStatus, syncDeviceSensorDataToRoom. rewrite Hd, Hdev.
    destruct (roomsData w) as [[|r data]|] eqn:Ew; try contradiction;
      destruct (firebase w); cbn [roomsData set_requested]; rewrite ?Ew; reflexivity.
Qed.

Lemma room_status_follows_device_witness :
  fst (updateRoomStatus lowerCase [labRoom] labRoom labDashboard)
  = set_room_status "danger" labRoom
  /\ snd (updateRoomStatus lowerCase [labRoom] labRoom labDashboard)
     = syncDeviceSensorDataToRoom lowerCase [labRoom] labRoom labDashboard.
Proof.
  exact (proj1 (proj2 (room_status_follows_device lowerCase [labRoom] labRoom
                         labDashboard))
           "aeronexa-001"%string
           (Device.mk "aeronexa-001"
              (Some [("co2", Sensor.mk 1500 "ppm" "critical")]%string) None None)
           [("co2", Sensor.mk 1500 "ppm" "critical")]%string
           eq_refl eq_refl eq_refl).
Defined.

(** ** Local addresses *)

(** X19. [isLocalIP] looks at the beginning of the host only: every string
    that starts with "10.", "192.168.", "127." or "169.254." counts as
    local, whatever follows, be it an address or not. *)
Theorem local_by_prefix (rest : string) :
  isLocalIP (Some ("10." ++ rest)%string) = true
  /\ isLocalIP (Some ("192.168." ++ rest)%string) = true
  /\ isLocalIP (Some ("127." ++ rest)%string) = true
  /\ isLocalIP (Some ("169.254." ++ rest)%string) = true.
Proof.
  repeat split; unfold isLocalIP; cbn -[existsb beforeChar startsWith test172];
    cbn [beforeChar Ascii.eqb Bool.eqb]; cbn [existsb startsWith test172 dropChars
      Ascii.eqb Bool.eqb andb orb]; reflexivity.
Qed.

Lemma beforeChar_plain (c : ascii) (host tail : string) :
  (forall a, c = a -> plainHost (String a EmptyString) = false) ->
  plainHost host = true ->
  beforeChar c (host ++ String c tail) = host /\ beforeChar c host = host.
Proof.
  intros Hc. induction host as [|a host IH]; intros H.
  - simpl. rewrite Ascii.eqb_refl. auto.
  - simpl in H. apply andb_prop in H. destruct H as [Ha Hh].
    destruct (IH Hh) as [IH1 IH2]. simpl.
    destruct (Ascii.eqb a c) eqn:E.
    + apply Ascii.eqb_eq in E. subst a. specialize (Hc c eq_refl). simpl in Hc.
      rewrite andb_true_r in Hc. congruence.
    + rewrite IH1, IH2. auto.
Qed.

Lemma startsWith_app (p s : string) :
  startsWith p s = true -> exists t, s = (p ++ t)%string.
Proof.
  revert s. induction p as [|a p IH]; intros s H.
  - exists s. reflexivity.
  - destruct s as [|b s]; [discriminate|]. simpl in H.
    apply andb_prop in H. destruct H as [Hab Hs].
    apply Ascii.eqb_eq in Hab. subst b.
    destruct (IH s Hs) as [t ->]. exists t. reflexivity.
Qed.

Lemma stripProtocol_plain (host : string) :
  plainHost host = true -> stripProtocol host = host.
Proof.
  intros H. unfold stripProtocol.
  destruct (startsWith "http://" host) eqn:E1.
  { destruct (startsWith_app _ _ E1) as [t ->]. discriminate H. }
  destruct (startsWith "https://" host) eqn:E2; [|reflexivity].
  destruct (startsWith_app _ _ E2) as [t ->]. discriminate H.
Qed.

(** X20. Protocol, port and path do not matter: for a host written without
    [:] and [/], each of the six addresses made of "http://" or "https://",
    the host, and then nothing, [:] with a port (and whatever follows it) or
    [/] with a path is local exactly when the host alone is. *)
Theorem local_ignores_protocol_port_path (host tail : string) :
  plainHost host = true ->
  isLocalIP (Some ("http://" ++ host)%string) = isLocalIP (Some host)
  /\ isLocalIP (Some ("http://" ++ host ++ ":" ++ tail)%string) = isLocalIP (Some host)
  /\ isLocalIP (Some ("http://" ++ host ++ "/" ++ tail)%string) = isLocalIP (Some host)
  /\ isLocalIP (Some ("https://" ++ host)%string) = isLocalIP (Some host)
  /\ isLocalIP (Some ("https://" ++ host ++ ":" ++ tail)%string) = isLocalIP (Some host)
  /\ isLocalIP (Some ("https://" ++ host ++ "/" ++ tail)%string) = isLocalIP (Some host).
Proof.
  intros Hp.
  assert (Hplain : beforeChar "/" (beforeChar ":" host) = host).
  { destruct (beforeChar_plain ":" host EmptyString) as [_ ->]; [|exact Hp|].
    - intros a <-. reflexivity.
    - destruct (beforeChar_plain "/" host EmptyString) as [_ ->];
        [|exact Hp|reflexivity].
      intros a <-. reflexivity. }
  assert (Hcolon : beforeChar "/" (beforeChar ":" (host ++ String ":" tail)) = host).
  { destruct (beforeChar_plain ":" host tail) as [-> _]; [|exact Hp|].
    - intros a <-. reflexivity.
    - destruct (beforeChar_plain "/" host tail) as [_ ->]; [|exact Hp|reflexivity].
      intros a <-. reflexivity. }
  assert (Hslash : beforeChar "/" (beforeChar ":" (host ++ String "/" tail)) = host).
  { assert (E : beforeChar ":" (host ++ String "/" tail)
                = (host ++ String "/" (beforeChar ":" tail))%string).
    { clear - Hp. induction host as [|a h IH]; [reflexivity|].
      simpl in Hp. apply andb_prop in Hp. destruct Hp as [Ha Hh].
      apply andb_prop in Ha. destruct Ha as [Ha _]. apply negb_true_iff in Ha.
      simpl. rewrite Ha, (IH Hh). reflexivity. }
    rewrite E. destruct (beforeChar_plain "/" host (beforeChar ":" tail)) as [-> _];
      [|exact Hp|reflexivity].
    intros a <-. reflexivity. }
  destruct host as [|a host]; [repeat split; reflexivity|].
  set (h := String a host) in *.
  assert (Hself : isLocalIP (Some h)
                  = existsb (fun test => test h)
                      [ startsWith "10."; test172; startsWith "192.168.";
                        startsWith "127."; startsWith "169.254.";
                        String.eqb "localhost" ]).
  { unfold isLocalIP. rewrite (stripProtocol_plain h Hp), Hplain. reflexivity. }
  rewrite Hself. unfold isLocalIP. repeat split.
  - change (stripProtocol ("http://" ++ h)) with h. rewrite Hplain. reflexivity.
  - change (stripProtocol ("http://" ++ h ++ ":" ++ tail))
      with (h ++ String ":" tail)%string.
    rewrite Hcolon. reflexivity.
  - change (stripProtocol ("http://" ++ h ++ "/" ++ tail))
      with (h ++ String "/" tail)%string.
    rewrite Hslash. reflexivity.
  - change (stripProtocol ("https://" ++ h)) with h. rewrite Hplain. reflexivity.
  - change (stripProtocol ("https://" ++ h ++ ":" ++ tail))
      with (h ++ String ":" tail)%string.
    rewrite Hcolon. reflexivity.
  - change (stripProtocol ("https://" ++ h ++ "/" ++ tail))
      with (h ++ String "/" tail)%string.
    rewrite Hslash. reflexivity.
Qed.

Lemma local_ignores_protocol_port_path_witness :
  (isLocalIP (Some "http://192.168.1.20") = isLocalIP (Some "192.168.1.20")
   /\ isLocalIP (Some "http://192.168.1.20:81/stream")
      = isLocalIP (Some "192.168.1.20")
   /\ isLocalIP (Some "http://192.168.1.20/81/stream")
      = isLocalIP (Some "192.168.1.20")
   /\ isLocalIP (Some "https://192.168.1.20") = isLocalIP (Some "192.168.1.20")
   /\ isLocalIP (Some "https://192.168.1.20:81/stream")
      = isLocalIP (Some "192.168.1.20")
   /\ isLocalIP (Some "https://192.168.1.20/81/stream")
      = isLocalIP (Some "192.168.1.20"))%string.
Proof.
  apply (local_ignores_protocol_port_path "192.168.1.20" "81/stream"). reflexivity.
Defined.

(** X21. Of the addresses 172.n.0.1 with n from 0 to 999, the local ones
    are those with n from 16 to 31, the private range 172.16.0.0/12. *)
Theorem local_172_range (n : nat) :
  (n < 1000)%nat ->
  isLocalIP (Some (address172 n)) = ((16 <=? n) && (n <=? 31))%nat.
Proof.
  intros Hn.
  assert (H : forallb (fun n => Bool.eqb (isLocalIP (Some (address172 n)))
                                  ((16 <=? n) && (n <=? 31))%nat) (below 1000) = true)
    by (vm_compute; reflexivity).
  rewrite forallb_forall in H. apply Bool.eqb_prop. apply H.
  unfold below. apply in_seq. lia.
Qed.

Lemma local_172_range_witness :
  isLocalIP (Some (address172 16)) = true /\ isLocalIP (Some (address172 32)) = false.
Proof.
  split.
  - apply (local_172_range 16). lia.
  - apply (local_172_range 32). lia.
Defined.

(** ** The labels of the sides *)

(** A length that is not below 15 is not below 10. *)
Lemma not_below_15_not_below_10 (d : float) : (d <? 15) = false -> (d <? 10) = false.
Proof.
  intros H15. destruct (d <? 10) eqn:H10; [|reflexivity].
  destruct (ltb_not_nan _ _ H10) as [Hd _].
  apply ltb_leb in H10.
  assert (H : (15 <=? d) = true) by (apply not_ltb_leb; auto).
  pose proof (leb_trans _ _ _ H H10) as Habs.
  vm_compute in Habs. discriminate.
Qed.

Lemma labels_of_spaced (points : list Point) :
  spaced points = true ->
  flat_map
    (fun '(p1, p2) =>
       optional_to_list
         (drawSegmentMeasurement (Point.x p1) (Point.y p1)
            (Point.x p2) (Point.y p2) "#3EDEDE"))
    (combine points (tl points))
  = map (fun '(p1, p2) =>
           (formatMeasurement
              (pixelsToMeters
                 (calculateDistance (Point.x p1) (Point.y p1) (Point.x p2) (Point.y p2))),
            "#3EDEDE"%string))
      (combine points (tl points)).
Proof.
  induction points as [|p points IH]; [reflexivity|].
  destruct points as [|q points]; [reflexivity|].
  intros H. cbn [spaced] in H. apply andb_prop in H. destruct H as [Hd Hs].
  apply negb_true_iff in Hd.
  change (combine (p :: q :: points) (tl (p :: q :: points)))
    with ((p, q) :: combine (q :: points) (tl (q :: points))).
  cbn [flat_map map]. rewrite (IH Hs).
  unfold drawSegmentMeasurement at 1. cbv zeta.
  rewrite (not_below_15_not_below_10 _ Hd). reflexivity.
Qed.

(** X22. While a polygon is being drawn, every side drawn so far carries
    its length: the vertices are at least 15px apart, and
    [drawSegmentMeasurement] leaves out only sides shorter than 10px, so the
    labels [updateAllLineSegmentMeasurements] puts up are one per side, in
    the colour of the finished sides, followed by the label of the side
    under the cursor when that one is not shorter than 10px. *)
Theorem every_side_is_labelled (x y : float) (ed : Editor) (p0 : Point)
    (rest : list Point) :
  linePoints ed = p0 :: rest ->
  spaced (linePoints ed) = true ->
  dimensionLayer ed = true ->
  let previous := last (linePoints ed) p0 in
  let reach := calculateDistance (Point.x previous) (Point.y previous) x y in
  lineSegmentDimensionGroup (updateAllLineSegmentMeasurements x y ed)
  = Some
      (map (fun '(p1, p2) =>
              (formatMeasurement
                 (pixelsToMeters
                    (calculateDistance (Point.x p1) (Point.y p1)
                       (Point.x p2) (Point.y p2))),
               "#3EDEDE"%string))
         (combine (linePoints ed) rest)
       ++ (if reach <? 10 then []
           else [(formatMeasurement (pixelsToMeters reach), "#00B8D4"%string)])).
Proof.
  intros Hl Hs Hd previous reach.
  unfold updateAllLineSegmentMeasurements. rewrite Hd.
  assert (E : match lineSegmentDimensionGroup ed, true with
              | None, false => ed
              | _, _ =>
                  match linePoints ed with
                  | [] => set_lineSegmentDimensionGroup (Some []) ed
                  | p0 :: _ =>
                      set_lineSegmentDimensionGroup
                        (Some
                           (flat_map
                              (fun '(p1, p2) =>
                                 optional_to_list
                                   (drawSegmentMeasurement (Point.x p1) (Point.y p1)
                                      (Point.x p2) (Point.y p2) "#3EDEDE"))
                              (combine (linePoints ed) (tl (linePoints ed)))
                            ++ optional_to_list
                                 (drawSegmentMeasurement
                                    (Point.x (last (linePoints ed) p0))
                                    (Point.y (last (linePoints ed) p0))
                                    x y "#00B8D4"))) ed
                  end
              end
              = set_lineSegmentDimensionGroup
                  (Some
                     (flat_map
                        (fun '(p1, p2) =>
                           optional_to_list
                             (drawSegmentMeasurement (Point.x p1) (Point.y p1)
                                (Point.x p2) (Point.y p2) "#3EDEDE"))
                        (combine (linePoints ed) (tl (linePoints ed)))
                      ++ optional_to_list
                           (drawSegmentMeasurement
                              (Point.x previous) (Point.y previous)
                              x y "#00B8D4"))) ed).
  { unfold previous. rewrite Hl. destruct (lineSegmentDimensionGroup ed); reflexivity. }
  cbv zeta. cbv zeta in E. rewrite E. cbn [lineSegmentDimensionGroup set_lineSegmentDimensionGroup].
  rewrite (labels_of_spaced _ Hs). rewrite Hl at 2. cbn [tl].
  unfold drawSegmentMeasurement. cbv zeta. fold reach.
  destruct (reach <? 10); reflexivity.
Qed.

Lemma every_side_is_labelled_witness :
  lineSegmentDimensionGroup
    (updateAllLineSegmentMeasurements 400 140
       (lineInProgress true [Point.mk 300 100; Point.mk 400 100]))
  = Some [("2 m", "#3EDEDE"); ("80 cm", "#00B8D4")]%string.
Proof.
  apply (every_side_is_labelled 400 140
           (lineInProgress true [Point.mk 300 100; Point.mk 400 100])
           (Point.mk 300 100) [Point.mk 400 100]);
    reflexivity.
Defined.

(** ** Devices and rooms *)

(** After a change that keeps the id, the device found is the changed one. *)
Lemma getDeviceById_updateDevice (devices : list Device.t) (deviceId : string)
    (change : Device.t -> Device.t) (d : Device.t) :
  (forall d, Device.id (change d) = Device.id d) ->
  getDeviceById devices deviceId = Some d ->
  getDeviceById (updateDevice deviceId change devices) deviceId = Some (change d).
Proof.
  intros Hid. unfold getDeviceById.
  induction devices as [|e devices IH]; simpl; [discriminate|].
  destruct (String.eqb (Device.id e) deviceId) eqn:E.
  - intros [= <-]. simpl. rewrite Hid, E. reflexivity.
  - intros H. simpl. rewrite E. apply IH. exact H.
Qed.

Lemma updateDevice_twice (devices : list Device.t) (deviceId : string)
    (f g : Device.t -> Device.t) :
  (forall d, Device.id (f d) = Device.id d) ->
  updateDevice deviceId g (updateDevice deviceId f devices)
  = updateDevice deviceId (fun d => g (f d)) devices.
Proof.
  intros Hid. induction devices as [|e devices IH]; [reflexivity|].
  simpl. destruct (String.eqb (Device.id e) deviceId) eqn:E; simpl.
  - rewrite Hid, E. reflexivity.
  - rewrite E, IH. reflexivity.
Qed.

Lemma updateDevice_same (devices : list Device.t) (deviceId : string)
    (f : Device.t -> Device.t) (d : Device.t) :
  getDeviceById devices deviceId = Some d -> f d = d ->
  updateDevice deviceId f devices = devices.
Proof.
  unfold getDeviceById. intros H Hf.
  induction devices as [|e devices IH]; [reflexivity|].
  simpl in *. destruct (String.eqb (Device.id e) deviceId).
  - injection H as ->. rewrite Hf. reflexivity.
  - rewrite (IH H). reflexivity.
Qed.

(** X23. Assigning and unassigning a device ([devices.js]).  A free device
    is assigned to the room asked for: it is then reported as assigned, the
    room has a device, and the devices still available were available
    before.  As long as it is assigned to a room with a non-empty id,
    assigning it to any other room is refused and changes nothing; and
    unassigning it again gives back the list of devices as it was before
    the assignment. *)
Theorem assign_then_unassign (devicesData : list Device.t)
    (deviceId roomId roomName : string) (device : Device.t) :
  getDeviceById devicesData deviceId = Some device ->
  Device.assignedToRoom device = None ->
  Device.assignedToRoomName device = None ->
  let '(answer, assigned) := assignDeviceToRoom deviceId roomId roomName devicesData in
  success answer = true
  /\ isDeviceAssigned assigned deviceId = true
  /\ option_map Device.assignedToRoom (getDeviceById assigned deviceId)
     = Some (Some roomId)
  /\ getDeviceByRoomId assigned roomId <> None
  /\ (forall d, In d (getAvailableDevices assigned) -> In d devicesData)
  /\ (forall otherId otherName,
        roomId <> ""%string -> otherId <> roomId ->
        assignDeviceToRoom deviceId otherId otherName assigned
        = ({| success := false;
              message := ("Device is already assigned to " ++ roomName)%string |},
           assigned))
  /\ unassignDeviceFromRoom deviceId assigned
     = ({| success := true; message := "Device unassigned successfully" |},
        devicesData).
Proof.
  intros Hfind Hfree Hname.
  unfold assignDeviceToRoom. rewrite Hfind, Hfree.
  set (assigned := updateDevice deviceId
                     (set_assignment (Some roomId) (Some roomName)) devicesData).
  assert (Hfound : getDeviceById assigned deviceId
                   = Some (set_assignment (Some roomId) (Some roomName) device)).
  { apply getDeviceById_updateDevice; [reflexivity | exact Hfind]. }
  split; [reflexivity|]. split; [|split; [|split; [|split; [|split]]]].
  - unfold isDeviceAssigned. rewrite Hfound. reflexivity.
  - rewrite Hfound. reflexivity.
  - unfold getDeviceByRoomId. intros Hnone.
    apply find_some in Hfound. destruct Hfound as [Hin _].
    pose proof (find_none _ _ Hnone _ Hin) as H. simpl in H.
    rewrite String.eqb_refl in H. discriminate.
  - intros d Hd. unfold getAvailableDevices in Hd. apply filter_In in Hd.
    destruct Hd as [Hin Hd]. unfold assigned in Hin. clear - Hin Hd.
    induction devicesData as [|e devices IH]; [contradiction|].
    simpl in Hin. destruct (String.eqb (Device.id e) deviceId).
    + destruct Hin as [<-|Hin]; [discriminate | right; exact Hin].
    + destruct Hin as [<-|Hin]; [left; reflexivity | right; apply IH; exact Hin].
  - intros otherId otherName Hroom Hother. rewrite Hfound. simpl.
    apply String.eqb_neq in Hroom. rewrite Hroom.
    assert (E : String.eqb roomId otherId = false)
      by (apply String.eqb_neq; congruence).
    rewrite E. reflexivity.
  - unfold unassignDeviceFromRoom. rewrite Hfound. f_equal.
    unfold assigned. rewrite updateDevice_twice by reflexivity.
    apply (updateDevice_same _ _ _ device Hfind).
    destruct device as [i s r n]. simpl in *. subst. reflexivity.
Qed.

Lemma assign_then_unassign_witness :
  let '(answer, assigned) :=
    assignDeviceToRoom "aeronexa-001" "room_1700000000000" "Lab" labDevices in
  success answer = true
  /\ isDeviceAssigned assigned "aeronexa-001" = true
  /\ option_map Device.assignedToRoom (getDeviceById assigned "aeronexa-001")
     = Some (Some "room_1700000000000"%string)
  /\ getDeviceByRoomId assigned "room_1700000000000" <> None
  /\ (forall d, In d (getAvailableDevices assigned) -> In d labDevices)
  /\ (forall otherId otherName,
        "room_1700000000000"%string <> ""%string ->
        otherId <> "room_1700000000000"%string ->
        assignDeviceToRoom "aeronexa-001" otherId otherName assigned
        = ({| success := false;
              message := ("Device is already assigned to " ++ "Lab")%string |},
           assigned))
  /\ unassignDeviceFromRoom "aeronexa-001" assigned
     = ({| success := true; message := "Device unassigned successfully" |},
        labDevices).
Proof.
  exact (assign_then_unassign labDevices "aeronexa-001" "room_1700000000000" "Lab"
           (Device.mk "aeronexa-001"
              (Some [("co2", Sensor.mk 1500 "ppm" "critical")]%string) None None)
           eq_refl eq_refl eq_refl).
Defined.

Lemma keepsAssignment_refl (devices : list Device.t) :
  Forall2 keepsAssignment devices devices.
Proof.
  induction devices as [|d devices IH]; constructor; [|exact IH].
  unfold keepsAssignment. auto.
Qed.

Lemma keepsAssignment_trans (a b c : list Device.t) :
  Forall2 keepsAssignment a b -> Forall2 keepsAssignment b c ->
  Forall2 keepsAssignment a c.
Proof.
  intros Hab. revert c. induction Hab as [|x y a b Hxy Hab IH]; intros c Hbc.
  - inversion Hbc. constructor.
  - inversion Hbc as [|y' z b' c' Hyz Hbc']; subst. constructor; [|apply IH; exact Hbc'].
    destruct Hxy as (H1 & H2 & H3), Hyz as (H4 & H5 & H6).
    unfold keepsAssignment. repeat split; try congruence.
    intros room Hr Hne. apply H6; [apply H3; assumption | exact Hne].
Qed.

(** An assignment, granted or refused, takes no device from its room. *)
Lemma assignDeviceToRoom_keeps (deviceId roomId roomName : string)
    (devices : list Device.t) :
  Forall2 keepsAssignment devices
    (snd (assignDeviceToRoom deviceId roomId roomName devices)).
Proof.
  unfold assignDeviceToRoom.
  destruct (getDeviceById devices deviceId) as [device|] eqn:Hfind;
    [|apply keepsAssignment_refl].
  destruct (match Device.assignedToRoom device with
            | Some assigned =>
                negb (String.eqb assigned "") && negb (String.eqb assigned roomId)
            | None => false
            end) eqn:Helse; [apply keepsAssignment_refl|].
  cbn [snd]. unfold getDeviceById in Hfind.
  induction devices as [|d devices IH]; [constructor|].
  simpl in Hfind |- *. destruct (String.eqb (Device.id d) deviceId).
  - injection Hfind as ->. constructor; [|apply keepsAssignment_refl].
    unfold keepsAssignment. simpl. repeat split.
    intros room Hr Hne. rewrite Hr in Helse.
    apply String.eqb_neq in Hne. rewrite Hne in Helse. simpl in Helse.
    apply negb_false_iff, String.eqb_eq in Helse. congruence.
  - constructor; [unfold keepsAssignment; auto | apply IH; exact Hfind].
Qed.

(** X24. Restoring the assignments of a floor plan takes no device away
    from its room: the devices are the same, in the same order, with the
    same sensors, and every device that was assigned to a room (with a
    non-empty id) is still assigned to that room; the data of the rooms and
    the requests sent are untouched.  So of two rooms that name the same
    device, the device stays with the one it was given to first. *)
Theorem restore_keeps_assignments (rooms : list Room) (w : Dashboard) :
  roomsData (restoreDeviceAssignments rooms w) = roomsData w
  /\ requested (restoreDeviceAssignments rooms w) = requested w
  /\ match devicesData w, devicesData (restoreDeviceAssignments rooms w) with
     | Some before, Some after' => Forall2 keepsAssignment before after'
     | None, None => restoreDeviceAssignments rooms w = w
     | _, _ => False
     end.
Proof.
  unfold restoreDeviceAssignments.
  destruct (devicesData w) as [devices|] eqn:Ew; [|rewrite Ew; auto].
  revert w devices Ew. induction rooms as [|room rooms IH]; intros w devices Ew.
  - simpl. rewrite Ew. repeat split. apply keepsAssignment_refl.
  - cbn [fold_left].
    set (w1 := match hasDevice room with
               | Some deviceId =>
                   match window_getDeviceById w deviceId, devicesData w with
                   | Some _, Some devices0 =>
                       set_devicesData
                         (Some (snd (assignDeviceToRoom deviceId (room_id room)
                                       (room_name room) devices0))) w
                   | _, _ => w
                   end
               | None => w
               end).
    assert (H1 : roomsData w1 = roomsData w /\ requested w1 = requested w
                 /\ exists devices1, devicesData w1 = Some devices1
                                     /\ Forall2 keepsAssignment devices devices1).
    { unfold w1. destruct (hasDevice room) as [deviceId|];
        [destruct (window_getDeviceById w deviceId)|]; rewrite ?Ew;
        cbn [roomsData requested devicesData set_devicesData];
        repeat split; eexists; (split; [try exact Ew; reflexivity|]);
        try apply keepsAssignment_refl.
      apply assignDeviceToRoom_keeps. }
    destruct H1 as (Hr & Hq & devices1 & Ew1 & Hk1).
    destruct (IH w1 devices1 Ew1) as (Hr' & Hq' & Hk').
    rewrite Hr', Hq', Hr, Hq. repeat split.
    destruct (devicesData (fold_left _ rooms w1)) as [after'|]; [|contradiction].
    eapply keepsAssignment_trans; eassumption.
Qed.

(** ** A polygon from its first click to its last *)

Lemma sameButLine_refl (ed : Editor) : sameButLine ed ed.
Proof. unfold sameButLine. repeat split. Qed.

Lemma sameButLine_trans (a b c : Editor) :
  sameButLine a b -> sameButLine b c -> sameButLine a c.
Proof.
  unfold sameButLine. intros H1 H2.
  repeat match goal with H : _ /\ _ |- _ => destruct H end.
  repeat split; congruence.
Qed.

Lemma updateTempPolyline_sameButLine (current : option (float * float))
    (ed ed' : Editor) :
  updateTempPolyline current ed = Some ed' ->
  sameButLine ed ed' /\ rooms ed' = rooms ed /\ linePoints ed' = linePoints ed
  /\ lineStartPoint ed' = lineStartPoint ed /\ effects ed' = effects ed.
Proof.
  unfold updateTempPolyline, sameButLine.
  destruct (linePoints ed) as [|p rest] eqn:E.
  { intros [= <-]. repeat split; congruence. }
  destruct (match current with
            | Some (currentX, currentY) =>
                match lineStartPoint ed with
                | Some start =>
                    Some ((p :: rest) ++ [Point.mk currentX currentY]
                          ++ (if isPointClose currentX currentY
                                   (Point.x start) (Point.y start) None
                              then [start] else []))
                | None => None
                end
            | None => Some (p :: rest)
            end) as [pts|]; [|discriminate].
  destruct (tempPolyline ed) as [pl|].
  - set (ed1 := set_tempPolyline (Some pts) ed).
    destruct (tempPolygon ed1) as [pg|];
      [destruct (2 <=? List.length (linePoints ed1))%nat|];
      intros [= <-]; simpl; repeat split; congruence.
  - destruct (tempPolygon ed) as [pg|];
      [destruct (2 <=? List.length (linePoints ed))%nat|];
      intros [= <-]; simpl; repeat split; congruence.
Qed.

Lemma completeLineRoom_sameButLine (now : Z) (ed : Editor) :
  sameButLine ed (completeLineRoom now ed).
Proof.
  unfold completeLineRoom, sameButLine.
  destruct (List.length (linePoints ed) <? 3)%nat; repeat split.
Qed.

(** What a mouse event changes while the line tool is chosen. *)
Lemma mouse_event_sameButLine (e : Event) (ed ed' : Editor) :
  drawingTool ed = "line"%string -> isMouseEvent e = true ->
  dispatch e ed = Some ed' -> sameButLine ed ed'.
Proof.
  intros Htool He. destruct e as [now x y|x y|now x y|key|tool|canvas];
    try discriminate; simpl.
  - unfold mousedown. rewrite Htool.
    destruct (negb (isDrawingMode ed)); [intros [= <-]; apply sameButLine_refl|].
    cbn [String.eqb Ascii.eqb Bool.eqb].
    destruct (linePoints ed) as [|p0 rest] eqn:E.
    + cbv zeta. cbn [roomsLayer set_lineStartPoint set_linePoints].
      destruct (roomsLayer ed); intros [= <-]; unfold sameButLine; repeat split.
    + destruct (lineStartPoint ed) as [start|]; [|discriminate].
      destruct (isPointClose _ _ _ _ None).
      { intros [= <-]. apply completeLineRoom_sameButLine. }
      destruct (calculateDistance _ _ _ _ <? 15);
        [intros [= <-]; apply sameButLine_refl|].
      intros H. apply updateTempPolyline_sameButLine in H.
      destruct H as (H & _). eapply sameButLine_trans; [|exact H].
      unfold sameButLine. repeat split.
  - unfold mousemove. rewrite Htool.
    destruct (negb (isDrawingMode ed)); [intros [= <-]; apply sameButLine_refl|].
    cbn [String.eqb Ascii.eqb Bool.eqb andb].
    destruct ((0 <? List.length (linePoints ed))%nat);
      [|intros [= <-]; apply sameButLine_refl].
    destruct (updateTempPolyline _ ed) as [ed1|] eqn:E1; [|discriminate].
    intros [= <-]. apply updateTempPolyline_sameButLine in E1.
    destruct E1 as (H1 & _). eapply sameButLine_trans; [exact H1|].
    unfold updateAllLineSegmentMeasurements, sameButLine.
    destruct (lineSegmentDimensionGroup ed1), (dimensionLayer ed1) eqn:Ed,
      (linePoints ed1); simpl; repeat split; congruence.
  - unfold mouseup. rewrite Htool.
    destruct (negb (isDrawingMode ed)); intros [= <-]; apply sameButLine_refl.
Qed.

Lemma mouse_events_sameButLine (events : list Event) (ed ed' : Editor) :
  drawingTool ed = "line"%string -> forallb isMouseEvent events = true ->
  run events ed = Some ed' -> sameButLine ed ed'.
Proof.
  revert ed. induction events as [|e events IH]; intros ed Htool He.
  - intros [= <-]. apply sameButLine_refl.
  - simpl in He. apply andb_prop in He. destruct He as [He Hes]. simpl.
    destruct (dispatch e ed) as [ed1|] eqn:E1; [|discriminate].
    intros H. pose proof (mouse_event_sameButLine e ed ed1 Htool He E1) as H1.
    eapply sameButLine_trans; [exact H1|].
    apply IH; [|exact Hes|exact H].
    destruct H1 as (_ & -> & _). exact Htool.
Qed.

(** X25. Escape undoes the polygon in progress, and nothing but it.  When
    a polygon is begun with the line tool from a state with none in
    progress, then whatever the mouse does, pressing Escape while there are
    vertices leaves the editor exactly as it was at the beginning, apart
    from the rooms completed meanwhile and the messages shown, to which the
    toast "Line drawing cancelled" is added: the vertices, the start point,
    both previews and the side labels are gone again. *)
Theorem escape_discards_polygon (events : list Event) (ed ed' : Editor) :
  isDrawingMode ed = true ->
  drawingTool ed = "line"%string ->
  lineIdle ed ->
  forallb isMouseEvent events = true ->
  run events ed = Some ed' ->
  linePoints ed' <> [] ->
  keydown "Escape" ed'
  = set_effects (effects ed' ++ [ShowToast "Line drawing cancelled" "info"])
      (set_rooms (rooms ed') ed).
Proof.
  intros Hmode Htool Hidle Hev Hrun Hpts.
  pose proof (mouse_events_sameButLine events ed ed' Htool Hev Hrun) as H.
  unfold sameButLine in H. unfold lineIdle in Hidle.
  unfold keydown. destruct H as (Hm & Ht & H).
  rewrite Hm, Ht, Hmode, Htool.
  cbn [String.eqb Ascii.eqb Bool.eqb andb].
  destruct (linePoints ed') as [|p rest] eqn:E; [congruence|].
  cbn [List.length Nat.ltb Nat.leb].
  destruct ed as [mode tool rs g sn lp tpl tpg lsp rsp tr rl dl rdg lsg eff].
  destruct ed' as [mode' tool' rs' g' sn' lp' tpl' tpg' lsp' rsp' tr' rl' dl' rdg' lsg' eff'].
  simpl in *.
  repeat match goal with H : _ /\ _ |- _ => destruct H end.
  subst. reflexivity.
Qed.

Lemma escape_discards_polygon_witness :
  let ed' := editorAfter [MouseDown 1 300 100; MouseMove 350 120;
                          MouseDown 2 400 100; MouseUp 2 400 100;
                          MouseMove 400 180]
               (drawingEditor "line") in
  linePoints ed' = [Point.mk 300 100; Point.mk 400 100]
  /\ keydown "Escape" ed'
     = set_effects (effects ed' ++ [ShowToast "Line drawing cancelled" "info"])
         (set_rooms (rooms ed') (drawingEditor "line")).
Proof.
  split; [vm_compute; reflexivity|].
  apply (escape_discards_polygon
           [MouseDown 1 300 100; MouseMove 350 120; MouseDown 2 400 100;
            MouseUp 2 400 100; MouseMove 400 180]
           (drawingEditor "line")).
  - reflexivity.
  - reflexivity.
  - unfold lineIdle. repeat split.
  - reflexivity.
  - vm_compute. reflexivity.
  - vm_compute. discriminate.
Defined.

(** ** Drawing a polygon *)

Lemma spaced_middle (front rest : list Point) (p q : Point) :
  spaced (front ++ p :: q :: rest) = true ->
  spaced (front ++ [p]) = true
  /\ (calculateDistance (Point.x p) (Point.y p) (Point.x q) (Point.y q) <? 15) = false.
Proof.
  induction front as [|a front IH]; intros H.
  - simpl in H. apply andb_prop in H. destruct H as [H _].
    apply negb_true_iff in H. auto.
  - destruct front as [|b front].
    + simpl in H. apply andb_prop in H. destruct H as [H1 H].
      apply andb_prop in H. destruct H as [H2 _].
      apply negb_true_iff in H2. simpl. rewrite H1. auto.
    + change (spaced (a :: b :: front ++ p :: q :: rest) = true) in H.
      cbn [spaced] in H. apply andb_prop in H. destruct H as [H1 H2].
      destruct (IH H2) as [H3 H4]. split; [|exact H4].
      change (spaced (a :: b :: front ++ [p]) = true). cbn [spaced].
      rewrite H1. exact H3.
Qed.

(** Clicking on, once the first vertex is there. *)
Lemma clickAll_appends (now : Z) (clicks : list (float * float)) (ed : Editor)
    (p0 : Point) (drawn : list Point) :
  isDrawingMode ed = true -> drawingTool ed = "line"%string ->
  linePoints ed = p0 :: drawn -> lineStartPoint ed = Some p0 ->
  spaced ((p0 :: drawn) ++ snappedClicks ed clicks) = true ->
  clearOfStart ((p0 :: drawn) ++ snappedClicks ed clicks) = true ->
  exists ed',
    clickAll now clicks ed = Some ed'
    /\ linePoints ed' = (p0 :: drawn) ++ snappedClicks ed clicks
    /\ lineStartPoint ed' = Some p0
    /\ rooms ed' = rooms ed /\ effects ed' = effects ed
    /\ sameButLine ed ed'.
Proof.
  revert ed drawn. induction clicks as [|[x y] clicks IH];
    intros ed drawn Hmode Htool Hl Hst Hs Hc.
  - exists ed. simpl. rewrite app_nil_r.
    split; [reflexivity|]. split; [exact Hl|]. split; [exact Hst|].
    split; [reflexivity|]. split; [reflexivity | apply sameButLine_refl].
  - cbn [clickAll]. unfold mousedown. rewrite Hmode, Htool, Hl, Hst.
    cbn [negb String.eqb Ascii.eqb Bool.eqb].
    set (sx := snapToGridCoordinate (snapToGrid ed) (gridSize ed) x) in *.
    set (sy := snapToGridCoordinate (snapToGrid ed) (gridSize ed) y) in *.
    cbn [snappedClicks map] in Hs, Hc. fold sx sy in Hs, Hc.
    fold (snappedClicks ed clicks) in Hs, Hc.
    assert (Hclose : isPointClose sx sy (Point.x p0) (Point.y p0) None = false).
    { cbn [app clearOfStart] in Hc. rewrite forallb_app in Hc.
      apply andb_prop in Hc. destruct Hc as [_ Hc]. simpl in Hc.
      apply andb_prop in Hc. destruct Hc as [Hc _].
      apply negb_true_iff in Hc. exact Hc. }
    rewrite Hclose.
    destruct (exists_last (l := p0 :: drawn)) as (front & pl & Efront);
      [discriminate|].
    assert (Hlast : last (p0 :: drawn) p0 = pl)
      by (rewrite Efront; apply last_last).
    rewrite Hlast.
    assert (Hd : (calculateDistance (Point.x pl) (Point.y pl) sx sy <? 15) = false
                 /\ spaced ((p0 :: drawn) ++ [Point.mk sx sy]) = true).
    { rewrite Efront in Hs |- *. rewrite <- !app_assoc in Hs. simpl in Hs.
      destruct (spaced_middle front (snappedClicks ed clicks) pl (Point.mk sx sy) Hs)
        as [H1 H2].
      split; [exact H2|]. apply spaced_app; assumption. }
    destruct Hd as [Hd _]. rewrite Hd.
    destruct (updateTempPolyline None
                (set_linePoints ((p0 :: drawn) ++ [Point.mk sx sy]) ed))
      as [ed1|] eqn:E1.
    2:{ destruct (updateTempPolyline_redraw
                    (set_linePoints ((p0 :: drawn) ++ [Point.mk sx sy]) ed))
          as (ed1 & E & _). congruence. }
    destruct (updateTempPolyline_sameButLine _ _ _ E1) as (Hsame & Hr & Hl1 & Hst1 & He1).
    cbn [rooms linePoints lineStartPoint effects set_linePoints] in Hr, Hl1, Hst1, He1.
    assert (Hsame' : sameButLine ed ed1).
    { eapply sameButLine_trans; [|exact Hsame]. unfold sameButLine. repeat split. }
    assert (Hsnap : snappedClicks ed1 clicks = snappedClicks ed clicks).
    { unfold snappedClicks. destruct Hsame' as (_ & _ & -> & -> & _). reflexivity. }
    destruct (IH ed1 (drawn ++ [Point.mk sx sy])) as (ed' & E & Hl' & Hst' & Hr' & He' & Hs').
    + destruct Hsame' as (-> & _). exact Hmode.
    + destruct Hsame' as (_ & -> & _). exact Htool.
    + rewrite Hl1. reflexivity.
    + rewrite Hst1. exact Hst.
    + rewrite Hsnap. change (p0 :: drawn ++ [Point.mk sx sy])
        with ((p0 :: drawn) ++ [Point.mk sx sy]). rewrite <- app_assoc. exact Hs.
    + rewrite Hsnap. change (p0 :: drawn ++ [Point.mk sx sy])
        with ((p0 :: drawn) ++ [Point.mk sx sy]). rewrite <- app_assoc. exact Hc.
    + exists ed'. split; [exact E|]. rewrite Hsnap in Hl'.
      split; [rewrite Hl'; change (p0 :: drawn ++ [Point.mk sx sy])
                with ((p0 :: drawn) ++ [Point.mk sx sy]);
              rewrite <- app_assoc; reflexivity|].
      split; [exact Hst'|]. split; [congruence|]. split; [congruence|].
      eapply sameButLine_trans; eassumption.
Qed.

(** X26. The line tool draws the polygon that was clicked.  In drawing
    mode with the line tool and no polygon in progress, clicking three or
    more points whose snapped positions keep their distances (15px between
    consecutive ones and from the first), and then clicking within 15px of
    the first, appends exactly one room: the polygon whose vertices are the
    snapped clicks, in the order clicked, with their bounding box, named
    "New Room"; the room is rendered and its name dialog opened, and no
    polygon is in progress afterwards. *)
Theorem polygon_drawn_as_clicked (now : Z) (clicks : list (float * float))
    (cx cy : float) (ed : Editor) (first : Point) (others : list Point) :
  isDrawingMode ed = true ->
  drawingTool ed = "line"%string ->
  lineIdle ed ->
  snappedClicks ed clicks = first :: others ->
  (2 <= List.length others)%nat ->
  spaced (first :: others) = true ->
  clearOfStart (first :: others) = true ->
  isPointClose (snapToGridCoordinate (snapToGrid ed) (gridSize ed) cx)
    (snapToGridCoordinate (snapToGrid ed) (gridSize ed) cy)
    (Point.x first) (Point.y first) None = true ->
  exists ed',
    clickAll now (clicks ++ [(cx, cy)]) ed = Some ed'
    /\ rooms ed'
       = rooms ed ++ [PolygonRoom (roomIdAt now) (first :: others)
                        (boundingBox (first :: others)) "New Room" "good" None None]
    /\ effects ed'
       = effects ed
         ++ [RenderRoom (PolygonRoom (roomIdAt now) (first :: others)
                           (boundingBox (first :: others)) "New Room" "good" None None);
             ShowRoomNameInputModal (roomIdAt now)]
    /\ lineIdle ed'
    /\ sameButLine ed ed'.
Proof.
  intros Hmode Htool (Hl & Hst & Hpl & Hpg & Hsg) Hclicks Hlen Hs Hc Hclose.
  destruct clicks as [|[x y] clicks]; [discriminate|].
  cbn [snappedClicks map] in Hclicks. injection Hclicks as Hfirst Hothers.
  fold (snappedClicks ed clicks) in Hothers.
  (* the first click *)
  cbn [app clickAll]. unfold mousedown at 1. rewrite Hmode, Htool, Hl.
  cbn [negb String.eqb Ascii.eqb Bool.eqb]. rewrite Hfirst. cbv zeta.
  cbn [roomsLayer set_lineStartPoint set_linePoints].
  set (ed1 := if roomsLayer ed
              then set_tempPolygon (Some [first])
                     (set_tempPolyline (Some [first])
                        (set_lineStartPoint (Some first) (set_linePoints [first] ed)))
              else set_lineStartPoint (Some first) (set_linePoints [first] ed)).
  assert (E1 : (if roomsLayer ed
                then Some (set_tempPolygon (Some [first])
                             (set_tempPolyline (Some [first])
                                (set_lineStartPoint (Some first)
                                   (set_linePoints [first] ed))))
                else Some (set_lineStartPoint (Some first) (set_linePoints [first] ed)))
               = Some ed1) by (unfold ed1; destruct (roomsLayer ed); reflexivity).
  rewrite E1.
  assert (H1 : isDrawingMode ed1 = true /\ drawingTool ed1 = "line"%string
               /\ linePoints ed1 = [first] /\ lineStartPoint ed1 = Some first
               /\ rooms ed1 = rooms ed /\ effects ed1 = effects ed
               /\ sameButLine ed ed1).
  { unfold ed1, sameButLine. destruct (roomsLayer ed) eqn:Erl; simpl;
      repeat split; auto. }
  destruct H1 as (Hm1 & Ht1 & Hl1 & Hst1 & Hr1 & He1 & Hsame1).
  assert (Hsnap1 : forall cs, snappedClicks ed1 cs = snappedClicks ed cs).
  { intros cs. unfold snappedClicks. destruct Hsame1 as (_ & _ & -> & -> & _).
    reflexivity. }
  (* the other vertices *)
  assert (Hall : forall rest ed0, clickAll now (clicks ++ rest) ed0
                 = match clickAll now clicks ed0 with
                   | Some ed2 => clickAll now rest ed2
                   | None => None
                   end).
  { clear. induction clicks as [|[x y] clicks IH]; intros rest ed0; [reflexivity|].
    simpl. destruct (mousedown now x y ed0); [apply IH | reflexivity]. }
  rewrite Hall.
  destruct (clickAll_appends now clicks ed1 first [] Hm1 Ht1 Hl1 Hst1)
    as (ed2 & E2 & Hl2 & Hst2 & Hr2 & He2 & Hsame2).
  { rewrite Hsnap1, Hothers. exact Hs. }
  { rewrite Hsnap1, Hothers. exact Hc. }
  rewrite E2. rewrite Hsnap1, Hothers in Hl2. cbn [app] in Hl2.
  pose proof (sameButLine_trans _ _ _ Hsame1 Hsame2) as Hsame.
  (* the closing click *)
  cbn [clickAll]. unfold mousedown.
  destruct Hsame as (Hm & Ht & Hg & Hsn & Hrest).
  rewrite Hm, Ht, Hmode, Htool, Hl2, Hst2, Hg, Hsn.
  cbn [negb String.eqb Ascii.eqb Bool.eqb]. rewrite Hclose.
  destruct (completeLineRoom_cases now ed2)
    as [[Hlt _]|(_ & Hr & Hl3 & Hst3 & Hpl3 & Hpg3 & Hsg3 & _)].
  { rewrite Hl2 in Hlt. simpl in Hlt. lia. }
  eexists. split; [reflexivity|].
  split; [rewrite Hr, Hl2, Hr2, Hr1; reflexivity|].
  split.
  { unfold completeLineRoom.
    assert (Hge : (List.length (linePoints ed2) <? 3)%nat = false)
      by (rewrite Hl2; apply Nat.ltb_ge; simpl; lia).
    rewrite Hge. cbv zeta. cbn -[JS.Math_min JS.Math_max roomIdAt].
    rewrite He2, He1, <- app_assoc. cbn [app]. rewrite Hl2.
    replace (map (fun p => Point.mk (Point.x p) (Point.y p)) (first :: others))
      with (first :: others); [reflexivity|].
    clear. induction (first :: others) as [|[x y] l IH]; [reflexivity|].
    simpl. f_equal. exact IH. }
  split; [unfold lineIdle; auto|].
  eapply sameButLine_trans; [|apply completeLineRoom_sameButLine].
  unfold sameButLine. auto 10.
Qed.

Lemma polygon_drawn_as_clicked_witness :
  exists ed',
    clickAll 1005 ([(300, 100); (400, 100); (400, 200)] ++ [(305, 105)])
      (drawingEditor "line") = Some ed'
    /\ rooms ed'
       = rooms (drawingEditor "line")
         ++ [PolygonRoom (roomIdAt 1005)
               [Point.mk 300 100; Point.mk 400 100; Point.mk 400 200]
               (boundingBox [Point.mk 300 100; Point.mk 400 100; Point.mk 400 200])
               "New Room" "good" None None]
    /\ effects ed'
       = effects (drawingEditor "line")
         ++ [RenderRoom
               (PolygonRoom (roomIdAt 1005)
                  [Point.mk 300 100; Point.mk 400 100; Point.mk 400 200]
                  (boundingBox [Point.mk 300 100; Point.mk 400 100; Point.mk 400 200])
                  "New Room" "good" None None);
             ShowRoomNameInputModal (roomIdAt 1005)]
    /\ lineIdle ed'
    /\ sameButLine (drawingEditor "line") ed'.
Proof.
  apply (polygon_drawn_as_clicked 1005 [(300, 100); (400, 100); (400, 200)]
           305 105 (drawingEditor "line")
           (Point.mk 300 100) [Point.mk 400 100; Point.mk 400 200]).
  - reflexivity.
  - reflexivity.
  - unfold lineIdle. repeat split.
  - vm_compute. reflexivity.
  - simpl. lia.
  - vm_compute. reflexivity.
  - vm_compute. reflexivity.
  - vm_compute. reflexivity.
Defined.
